(* ===== verification/_CoqProject ===== *)
-Q . S2P
Prelude.v
GoLang.v
Errs.v
GoStrings.v
GoFloat.v
GoJson.v
GoCodec.v
Externals.v
RingBuffer.v
BitRing.v
Batch.v
Snowflake.v
Sharding.v
Context.v
Retry.v
Domain.v
ConfJson.v
Job.v
Cluster.v
Balancer.v
SmoothWeight.v
Picks.v
RwBalancer.v
ConsistentHash.v
Quota.v
Json.v
Dao.v
DaoBatch.v
NotifRepo.v
Reserve.v
Channels.v
Templates.v
SmsProvider.v
BizConf.v
GrpcClients.v
CallbackLogs.v
Callback.v
Sender.v
Strategies.v
SendService.v
Flow.v
Immediate.v
BatchFlow.v
Scheduler.v
SharedLoops.v
Idempotent.v
EtcdRegistry.v
Discovery.v
Watch.v
Jwt.v
Wiring.v
Container.v
Ioc.v
Main.v
Tests.v
