(* ===== verification/Prelude.v ===== *)
(** * A verification library for jotify

    jotify is a notification platform in Go.  A request enters through the gRPC
    server and its JWT interceptor, is validated, gets an id and a sending
    strategy, and is stored in sharded MySQL tables against a quota kept in redis;
    a scheduler, spread over processes by distributed locks, fetches what is due
    and sends it through channels and their providers; a callback service reports
    the results to the businesses, over gRPC clients that find their instances in
    etcd and balance between them.  This library models these parts as functions,
    step relations and records in Rocq, as the code is written, and proves what
    they guarantee and where they do not.

    ** Conventions

    - A Go call that returns [(T, error)] is a pair [T * option error]; a call that
      can panic returns in the type [go] (file GoLang), [Ret] or [Panic].  State is
      passed explicitly: a method with a pointer receiver returns the new state.
    - Machine integers are [Z] with the wrap-around written out ([u64], [i32], ...);
      an addition that the code performs on a fixed width is wrapped where it is
      performed.  [float64] is the standard library's [spec_float] (file GoFloat).
    - A clock reading is an argument of the call that makes it; so are random draws.
    - Code outside the repository is a class or an argument, with its documented
      behaviour as laws; each class has an instance in the library, which shows the
      laws can hold and lets the witnesses run.  The classes: [XXHash] and
      [MapRange] (iteration order of Go maps) in Externals, [RetryKit], [ProtoTime],
      [DLock] (distributed locks), [RedisKV], [RedisStr], [RedisNX] (commands of
      redis), [Gorm], [BaseDB], [ConfDB], [LogDB] (the statements the code issues on
      MySQL and what they leave), [GoCache], [GrpcDial], [Etcd] (with its leases) and
      [EtcdSession] (their revocation), [JwtLib], [Viper] (the command line and the
      configuration file), [Fx] (which constructors a dependency graph runs), and
      [Schedule] (the order in which independent goroutines act).
    - A call of redis that writes takes a [net] (file Quota): how often redis runs the
      command, and whether its last reply arrives.  An error says neither that it ran nor
      that it did not; [reached] is the call that runs once and is answered.  Theorems
      that assume [reached] say "when redis answers".
    - An update of [Gorm] is a list of columns and values: it fails where the table has no
      such column ([has_column]).  The tables the program's entities define have no
      column [update_at], which the marks of a notification assign to
      ([marks_need_update_at]).  An update that names no row is refused, as gorm does
      ([update_refused]); the theorems on callbacks hold for either behaviour.
    - A loop that need not end takes fuel and answers [None] when it is used up; the
      theorems say how much is enough, or that none is.  A channel needs one round
      more than it has providers ([seq_channel_Send]); the binary search of the
      consistent-hash ring at most one more than the ring has entries; a batch insertion is
      retried as often as the fuel of [batchCreate] allows, and has no result when
      that does not suffice: one attempt is enough when no id is refused
      ([batch_create_returns]); [Callback.Send] has no result for any fuel
      ([callback_send_never_finishes]).  The scheduler's loop is driven by a list of
      clock ticks.

    ** Files, in the order they depend on each other

    - Prelude: notations, tactics ([bool_to_prop], [split_guard], [divlia]), hint
      databases, and lemmas on sums, residues and lists.
    - GoLang: integers of fixed width, panics, slices, [time.Time].  Errs:
      internal/errs and the error values of fmt and errors.  GoStrings: strconv and
      strings.  GoFloat: float64, and that integers below 2^53 survive it.  Externals: hashing and map iteration.
    - GoJson: the text layer of encoding/json, UTF-8 and escapes included, from bytes
      to a tree and back ([parse_print]).  GoCodec: the class [JsonCodec] with its law
      [JsonLaws], and instances for integers, strings, pointers, slices and structs,
      whose fields are looked up by name as Go does; [Marshal] and [Unmarshal].
      ConfJson: the codecs of the configurations and audits (the tags of
      internal/domain/conf.go and audit.go, and of internal/pkg/retry/retry.go).
    - RingBuffer (internal/pkg/ringbuffer, internal/pkg/buffer): the window of
      response times with its running sum; it refines the list of the last samples
      ([ring_refines_window]).
    - BitRing (internal/pkg/bitring): a bit vector of recent failures with a running
      count; it triggers exactly when the specification on the list of all events
      does ([bitring_refines_spec]).
    - Batch (internal/pkg/batch): the class [Adjuster] and its law
      [BoundedAdjuster], implemented by the fixed-step and the sliding-window
      adjusters; bounds under [sizes_ok] and the step function of the sliding window.
    - Snowflake (internal/pkg/snowflake): ids, their fields and their uniqueness
      ([snowflake_unique]: 4096 consecutive draws, whatever the clock does;
      [snowflake_roundtrip]).
    - Sharding (internal/pkg/sharding, internal/ioc/db.go): destinations by key and
      by id, and when the two agree ([shard_with_id_agrees], [id_hash_suffices_iff]).
    - Context (internal/pkg/client/types.go, degradation, isolation): the values a
      request carries and the choice of the connection pool.  Retry
      (internal/pkg/retry): the choice of a retry strategy.
    - Domain (internal/domain): notifications and their strategies, templates,
      providers, configurations, transactions; validation, sending windows, and the
      conversion of API requests.
    - Job (internal/pkg/job): the semaphore, and the goroutines of the sharded loop
      job as a step relation with all their interleavings; permits are accounted for
      and tables are worked on by one goroutine ([permits_accounted],
      [tables_exclusive]), by induction on reachability; the limit of the semaphore changes
      at any step.  Cluster: any number of such
      processes over one lock service, which start and die, with locks that expire; a
      table is worked on in one of them as long as no lock of a live process expires
      ([cluster_tables_exclusive], whose premise is the flag [prompt]), which the code does
      not ensure, and else in two ([late_refresh_shares_table]).
    - Balancer, SmoothWeight, Picks, RwBalancer, ConsistentHash
      (internal/pkg/client/balancer, internal/pkg/client/resolver): the balancers.
      Fairness of round robin; the smooth weighted pick, and the picks of any number of
      goroutines interleaved node by node, which conserve the weights under locks
      ([picks_conserve_weights]) and lose them under read locks; the cache of nodes of the
      read/write balancer as a heap, where the aliasing of nodes matters; the ring of
      virtual nodes: picks are successors, and survive removals and reordering.
    - Quota (internal/repository/cache): the quota counters and their Lua scripts,
      which refine a counter per key when redis answers ([quota_refines_counter]).
    - Json (internal/pkg/xsql, and the JSON texts of receivers and parameters); Dao
      (internal/repository/dao/notification.go): the sharded data access object over
      [Gorm]; DaoBatch: what it promises of batches and of reads by ids
      ([batch_create_stores], [get_map_by_ids_agrees]); NotifRepo
      (internal/repository/notification.go): the repository over the
      class [NotificationDAO], of which the sharded object is an instance; the class
      [NotificationRepo] is what the services are written against.  Reserve: the calls
      of concurrent creations, single ones and batches, and of the sendings that follow
      them, in any order, with lost and repeated calls: the quota is not oversold beyond
      the units that the immediate strategy makes ([never_oversold],
      [refund_makes_quota]), and requests do not wait for each other ([requests_end]).
    - Channels (internal/service/channel, internal/service/provider), Templates
      (template and provider tables and repositories), SmsProvider (the SMS provider
      and the Tencent client): from a notification to the SDK.
    - BizConf: configurations read through two caches that share the interface
      [BizConfCache] and its law [CacheLaws]; the caches are transparent.
    - GrpcClients (internal/pkg/grpc, [InterceptorOf]), CallbackLogs, Callback
      (internal/service/notification/callback): reporting results.
    - Sender (internal/service/sender), Strategies (internal/service/sendstrategy),
      SendService (internal/service/notification), Scheduler
      (internal/service/schedule): the services, each over the interfaces of those
      below it.  The scheduler composes the bit ring and any bounded adjuster, for the loop of
      one table alone ([loop_ends_at_threshold]); SharedLoops interleaves the loops of all
      tables of a process, which share them ([loops_share_threshold]).  Its first round
      panics on the one data access object there is ([sharded_scheduler_panics]).  Flow
      composes a call of the service with the strategy, the repository, the quotas and
      the sharded database ([send_stores_or_nothing]).  Immediate
      does so for an immediate notification whose creation fails, and which is sent all
      the same ([unstored_immediate_sent]); BatchFlow composes the
      parts of Flow for a batch ([batch_send_accounts]).
    - Idempotent (internal/pkg/idempotent), EtcdRegistry (internal/pkg/registry/etcd:
      several registries over one etcd, whose leases lapse), Discovery (from registrations
      through the resolver to the picks of a client: [registered_instances_served]),
      Watch (the goroutines of the resolver and of a subscription, as a step relation:
      [watch_fresh], [watch_settles], and what can go wrong),
      Jwt (internal/api/grpc/interceptor/jwt: a token made for a business names it to
      the handler until it expires, [token_identifies_business]).
    - Wiring (internal/ioc/app.go and the watch of scheduler.go): the application's life
      cycle over the registry, whose calls may fail with or without effect
      ([lifecycle_listed]).  Container (the options of internal/ioc and cmd/main.go): the
      dependency graph, a constructor for each entry, with its types and tags;
      [application_starts] says which constructors run, [business_not_wired] what cannot
      be made.  Ioc: the constructors of internal/ioc from their sections of the
      configuration, and the guarantees of the components as they are configured
      ([configured_scheduler_sound], [configured_dao_loads], [server_guarded]).  Main
      (cmd/main.go): the entry point, which reads the configuration, runs the
      constructors of Ioc that the graph needs, and calls the start hook; when it succeeds
      ([main_starts]).
    - Tests: the tables of the repository's own unit tests, run on the models.

    In each file a Module per component has its state as a Record and its operations
    under the names of the source; a name that Rocq reserves or another declaration
    of the file has taken ends in an underscore or is prefixed ([Channel_], [st_Send]).

    ** What the theorems show

    - Refinement: ring buffer, bit ring, quota counters, scheduler loop, service
      registry, each against a specification on plain lists, numbers or maps.
    - Invariants and safety: permits and tables of the job, in one process and in many,
      freshness of the resolved
      instances of a service, uniqueness of ids,
      conservation of quota on creation, by one request and by many at
      once, conservation of the weights of a balancer by concurrent picks, coherence of
      the caches, the guard of the interceptor.
    - Round trips: ids, tokens, JSON texts, entities, a created notification and a created batch read back
      from their shards.
    - Composition: registrations, resolution and picks; a call of the service down to the rows and the quota; the server, the
      scheduler and the data access object as the configuration makes them; the entry
      point down to the constructors and the registration.
    - Functional behaviour on every branch: validation, windows, adjusters, balancers,
      sending through providers, batches, idempotent requests.
    - Behaviour that defeats the purpose of the code, proved for every input: callbacks
      whose progress is lost and whose loop does not end, an immediate strategy that
      fails what it stored and sends what it did not, marks that need a missing column, a
      batch update that writes nothing, channels that end in a
      panic as they are wired, ids that do not reach the notifications they are
      answered for.  Theorems of this kind that are smaller are in their files, after
      the main ones.

    ** What is not modelled

    Generated code; logging; deadlines and cancellation
    of contexts, apart from the job's; the durations of steps, so that a lock or a lease
    may expire at any time; after the start hook, fx's waiting for a signal; data races (each method under a mutex, and each
    remote call, is atomic; the picks of the weighted balancers are interleaved at
    their locks, those of the read/write balancer are not); locations and monotonic readings of times; inside [Gorm],
    the text of SQL; the limit encoding/json sets on nesting.  An empty and a nil slice or map are told apart nowhere in the models; where
    the code does so the definition says it. *)
From Stdlib Require Import ZArith Lia List.
From stdpp Require Import prelude strings gmap pretty.

(** ** Notations, hint databases *)

Declare Scope jotify_scope.
Delimit Scope jotify_scope with jotify.
#[global] Open Scope Z_scope.

Create HintDb jotify.
Create Rewrite HintDb zmod.
Create Rewrite HintDb errs.

(** ** Tactics *)

(** Turn the equations between boolean guards of the model and [true]/[false]
    into propositions. *)
Ltac bool_to_prop :=
  repeat match goal with
  | H : Z.eqb _ _ = true |- _ => rewrite Z.eqb_eq in H
  | H : Z.eqb _ _ = false |- _ => rewrite Z.eqb_neq in H
  | H : Z.leb _ _ = true |- _ => rewrite Z.leb_le in H
  | H : Z.leb _ _ = false |- _ => rewrite Z.leb_gt in H
  | H : Z.ltb _ _ = true |- _ => rewrite Z.ltb_lt in H
  | H : Z.ltb _ _ = false |- _ => rewrite Z.ltb_ge in H
  | H : andb _ _ = true |- _ => apply andb_true_iff in H as [??]
  | H : andb _ _ = false |- _ => apply andb_false_iff in H
  | H : orb _ _ = true |- _ => apply orb_true_iff in H
  | H : orb _ _ = false |- _ => apply orb_false_iff in H as [??]
  | H : negb _ = true |- _ => rewrite negb_true_iff in H
  | H : negb _ = false |- _ => rewrite negb_false_iff in H
  | H : String.eqb _ _ = true |- _ => rewrite String.eqb_eq in H
  | H : String.eqb _ _ = false |- _ => rewrite String.eqb_neq in H
  | H : bool_decide _ = true |- _ => apply bool_decide_eq_true in H
  | H : bool_decide _ = false |- _ => apply bool_decide_eq_false in H
  end.

(** Case analysis on the first guard of the goal, or of the hypotheses. *)
Ltac split_guard :=
  match goal with
  | |- context [if ?b then _ else _] =>
      let E := fresh "Hguard" in destruct b eqn:E; try bool_to_prop; simpl
  | H : context [if ?b then _ else _] |- _ =>
      let E := fresh "Hguard" in destruct b eqn:E; try bool_to_prop; simpl in H
  end.

Ltac guards := repeat split_guard; simplify_eq/=; bool_to_prop.

(** [lia] after turning division and remainder into equations. *)
Ltac divlia := Z.to_euclidean_division_equations; lia.

(** ** Generic lemmas: integers *)

Lemma mod_add_mod_l a b n : (a mod n + b) mod n = (a + b) mod n.
Proof. apply Zplus_mod_idemp_l. Qed.

Lemma mod_add_mod_r a b n : (a + b mod n) mod n = (a + b) mod n.
Proof. apply Zplus_mod_idemp_r. Qed.

Lemma mod_sub_mod_l a b n : (a mod n - b) mod n = (a - b) mod n.
Proof. apply Zminus_mod_idemp_l. Qed.

Lemma mod_sub_mod_r a b n : (a - b mod n) mod n = (a - b) mod n.
Proof. apply Zminus_mod_idemp_r. Qed.

Lemma mod_shift a b n : a = b + n -> a mod n = b mod n.
Proof. intros ->. by rewrite <- (Z_mod_plus_full b 1 n), Z.mul_1_l. Qed.

(** Two positions less than [n] apart fall on different slots of a ring of [n]. *)
Lemma ring_slot_inj n (i j : nat) :
  0 < n -> Z.of_nat i mod n = Z.of_nat j mod n ->
  (i <= j)%nat -> Z.of_nat j - Z.of_nat i < n -> i = j.
Proof.
  intros Hn H Hij Hd.
  assert ((Z.of_nat j - Z.of_nat i) mod n = 0) as Hm.
  { rewrite <- mod_sub_mod_l, <- H, mod_sub_mod_l, Z.sub_diag. apply Z.mod_0_l; lia. }
  rewrite Z.mod_small in Hm; lia.
Qed.

(** ** Generic lemmas: lists *)

Section sums.
Context {A : Type}.

(** The sum of an integer measure over a list. *)
Fixpoint sumZ (f : A -> Z) (l : list A) : Z :=
  match l with
  | [] => 0
  | x :: l => f x + sumZ f l
  end.

Lemma sumZ_app f l k : sumZ f (l ++ k) = sumZ f l + sumZ f k.
Proof. induction l; simpl; lia. Qed.

Lemma sumZ_ext f g l : (forall x, x ∈ l -> f x = g x) -> sumZ f l = sumZ g l.
Proof.
  induction l as [|x l IH]; intros H; simpl; [done|].
  rewrite H by set_solver. rewrite IH; [done|]. intros y Hy. apply H. set_solver.
Qed.

Lemma sumZ_nonneg f l : (forall x, x ∈ l -> 0 <= f x) -> 0 <= sumZ f l.
Proof.
  induction l as [|x l IH]; intros H; simpl; [done|].
  assert (0 <= f x) by (apply H; set_solver).
  assert (0 <= sumZ f l) by (apply IH; intros; apply H; set_solver). lia.
Qed.

Lemma sumZ_add f g l : sumZ (fun x => f x + g x) l = sumZ f l + sumZ g l.
Proof. induction l; simpl; lia. Qed.

Lemma sumZ_insert f l i x y :
  l !! i = Some x -> sumZ f (<[i := y]> l) = sumZ f l - f x + f y.
Proof.
  revert i; induction l as [|z l IH]; intros [|i] H; simplify_eq/=; [lia|].
  rewrite IH by done. lia.
Qed.

Lemma sumZ_elem_le f l i x :
  (forall y, y ∈ l -> 0 <= f y) -> l !! i = Some x -> f x <= sumZ f l.
Proof.
  revert i; induction l as [|z l IH]; intros [|i] Hp H; simplify_eq/=.
  - pose proof (sumZ_nonneg f l ltac:(intros; apply Hp; set_solver)). lia.
  - pose proof (IH i ltac:(intros; apply Hp; set_solver) H).
    pose proof (Hp z ltac:(set_solver)). lia.
Qed.

(** A number below the sum falls on the share of one element. *)
Lemma sumZ_share f l r :
  0 <= r < sumZ f l ->
  exists l1 x l2, l = l1 ++ x :: l2 /\ sumZ f l1 <= r < sumZ f l1 + f x.
Proof.
  revert r; induction l as [|x l IH]; intros r Hr; simpl in Hr; [lia|].
  destruct (decide (r < f x)) as [Hx|Hx].
  - exists [], x, l. simpl. split; [done|lia].
  - destruct (IH (r - f x)) as (l1 & y & l2 & -> & Hy); [lia|].
    exists (x :: l1), y, l2. simpl. split; [done|lia].
Qed.

Lemma sumZ_Permutation f l k : l ≡ₚ k -> sumZ f l = sumZ f k.
Proof. induction 1; simpl; lia. Qed.
End sums.

Lemma sumZ_fmap {A B} (f : B -> Z) (g : A -> B) l :
  sumZ f (g <$> l) = sumZ (fun x => f (g x)) l.
Proof. induction l as [|x l IH]; csimpl; [done|]. by rewrite IH. Qed.

(** Splitting a list at the last occurrence of an element. *)
Lemma last_occurrence `{EqDecision A} (x : A) (l : list A) :
  x ∈ l -> exists l1 l2, l = l1 ++ x :: l2 /\ x ∉ l2.
Proof.
  induction l as [|y l IH]; [by intros ?%elem_of_nil|]. intros Hin.
  destruct (decide (x ∈ l)) as [Hl|Hl].
  - destruct (IH Hl) as (l1 & l2 & -> & Hni). by exists (y :: l1), l2.
  - apply elem_of_cons in Hin as [<-|Hin]; [|done]. by exists [], l.
Qed.

(** The last [n] elements of a list, oldest first. *)
Definition last_n {A} (n : nat) (l : list A) : list A :=
  drop (length l - n) l.

Section last_n.
Context {A : Type}.
Implicit Types l : list A.

Lemma last_n_all n l : (length l <= n)%nat -> last_n n l = l.
Proof. intros H. unfold last_n. by replace (length l - n)%nat with 0%nat by lia. Qed.

Lemma length_last_n n l : length (last_n n l) = Nat.min n (length l).
Proof. unfold last_n. rewrite length_drop. lia. Qed.

(** Appending to a full window drops its oldest element. *)
Lemma last_n_snoc_full n l x :
  (0 < n)%nat -> (n <= length l)%nat ->
  last_n n (l ++ [x]) = drop 1 (last_n n l) ++ [x].
Proof.
  intros Hn Hl. unfold last_n. rewrite length_app, drop_drop; simpl.
  rewrite drop_app_le by lia. do 2 f_equal. lia.
Qed.

Lemma last_n_snoc_room n l x :
  (length l < n)%nat -> last_n n (l ++ [x]) = last_n n l ++ [x].
Proof.
  intros Hl. rewrite !last_n_all; [done|lia|]. rewrite length_app; simpl; lia.
Qed.

Lemma last_n_nil n : last_n n ([] : list A) = [].
Proof. done. Qed.

Lemma lookup_last_n n l (i : nat) :
  last_n n l !! i = l !! (length l - n + i)%nat.
Proof. unfold last_n. by rewrite lookup_drop. Qed.
End last_n.

#[export] Hint Rewrite @mod_add_mod_l @mod_add_mod_r @mod_sub_mod_l @mod_sub_mod_r : zmod.
#[export] Hint Resolve sumZ_nonneg : jotify.
