(* ===== verification/GoLang.v ===== *)
(** * The Go constructs the models use

    Fixed-width integers with their wrap-around, panics, [time.Time] and
    [time.Duration] of the standard library, decimal formatting and parsing.
    Nothing here models a file of the repository: these are the language and
    the standard library, in the parts the repository uses. *)
From Stdlib Require Import ZArith Lia List.
From stdpp Require Import prelude strings gmap pretty.
From S2P Require Import Prelude.

(** ** Fixed-width integers *)

(** An unsigned integer of [w] bits is a [Z] in [0, 2^w); arithmetic is done in
    [Z] and wrapped. *)
Definition wrap_u (w x : Z) : Z := x mod 2 ^ w.

(** A signed integer of [w] bits, two's complement. *)
Definition wrap_s (w x : Z) : Z := (x + 2 ^ (w - 1)) mod 2 ^ w - 2 ^ (w - 1).

Abbreviation u32 := (wrap_u 32).
Abbreviation u64 := (wrap_u 64).
Abbreviation i32 := (wrap_s 32).
Abbreviation i64 := (wrap_s 64).

Definition in_u (w x : Z) : Prop := 0 <= x < 2 ^ w.
Definition in_s (w x : Z) : Prop := - 2 ^ (w - 1) <= x < 2 ^ (w - 1).

#[export] Instance in_u_dec w x : Decision (in_u w x) := ltac:(unfold in_u; apply _).
#[export] Instance in_s_dec w x : Decision (in_s w x) := ltac:(unfold in_s; apply _).

Section widths.
Context (w : Z) (Hw : 0 < w).

Lemma pow_width_pos : 0 < 2 ^ w.
Proof using Hw. apply Z.pow_pos_nonneg; lia. Qed.

Lemma pow_width_half : 2 ^ w = 2 * 2 ^ (w - 1).
Proof using Hw. replace w with (Z.succ (w - 1)) at 1 by lia. rewrite Z.pow_succ_r; lia. Qed.

Lemma wrap_u_range x : in_u w (wrap_u w x).
Proof using Hw. apply Z.mod_pos_bound, pow_width_pos. Qed.

Lemma wrap_u_id x : in_u w x -> wrap_u w x = x.
Proof using Hw. apply Z.mod_small. Qed.

Lemma wrap_s_range x : in_s w (wrap_s w x).
Proof using Hw.
  pose proof pow_width_pos. pose proof pow_width_half.
  pose proof (Z.mod_pos_bound (x + 2 ^ (w - 1)) (2 ^ w)). unfold in_s, wrap_s. lia.
Qed.

Lemma wrap_s_id x : in_s w x -> wrap_s w x = x.
Proof using Hw.
  unfold in_s, wrap_s. intros. pose proof pow_width_half.
  rewrite Z.mod_small; lia.
Qed.

(** Two wrapped values are equal when they agree modulo [2^w]. *)
Lemma wrap_s_eq x y : x mod 2 ^ w = y mod 2 ^ w -> wrap_s w x = wrap_s w y.
Proof using Type.
  intros H. unfold wrap_s. f_equal.
  rewrite <- (mod_add_mod_l x), <- (mod_add_mod_l y). by rewrite H.
Qed.

Lemma wrap_s_mod x : wrap_s w x mod 2 ^ w = x mod 2 ^ w.
Proof using Type. unfold wrap_s. autorewrite with zmod. f_equal. lia. Qed.

Lemma wrap_s_add_l x y : wrap_s w (wrap_s w x + y) = wrap_s w (x + y).
Proof using Type.
  apply wrap_s_eq. rewrite <- mod_add_mod_l, wrap_s_mod. by autorewrite with zmod.
Qed.

Lemma wrap_s_sub_l x y : wrap_s w (wrap_s w x - y) = wrap_s w (x - y).
Proof using Type.
  apply wrap_s_eq. rewrite <- mod_sub_mod_l, wrap_s_mod. by autorewrite with zmod.
Qed.

(** A value in range is its own low [w] bits; bitwise operations stay in range. *)
Lemma in_u_land_ones x : in_u w x <-> Z.land x (Z.ones w) = x.
Proof using Hw.
  rewrite Z.land_ones by lia. split; [apply Z.mod_small|].
  intros <-. apply Z.mod_pos_bound, pow_width_pos.
Qed.

Lemma in_u_lor x y : in_u w x -> in_u w y -> in_u w (Z.lor x y).
Proof using Hw. rewrite !in_u_land_ones, Z.land_lor_distr_l. by intros -> ->. Qed.

Lemma in_u_land x y : in_u w x -> in_u w (Z.land x y).
Proof using Hw.
  rewrite !in_u_land_ones. intros Hx. by rewrite (Z.land_comm x), <- Z.land_assoc, Hx.
Qed.

Lemma in_u_ldiff x y : in_u w x -> in_u w (Z.ldiff x y).
Proof using Hw. rewrite Z.ldiff_land. apply in_u_land. Qed.

Lemma in_u_pow2 k : 0 <= k < w -> in_u w (2 ^ k).
Proof using Hw. intros. split; [apply Z.pow_nonneg; lia|apply Z.pow_lt_mono_r; lia]. Qed.
End widths.

#[export] Hint Resolve wrap_u_range wrap_s_range in_u_lor in_u_land in_u_ldiff in_u_pow2 : jotify.
#[export] Hint Extern 1 (0 < _) => lia : jotify.

(** Remove the wrap-arounds that arithmetic shows to be the identity. *)
Ltac unwrap :=
  rewrite ?wrap_s_add_l, ?wrap_s_sub_l;
  repeat match goal with
  | |- context [wrap_s ?w ?x] => rewrite (wrap_s_id w ltac:(lia) x) by (unfold in_s; lia)
  | |- context [wrap_u ?w ?x] => rewrite (wrap_u_id w ltac:(lia) x) by (unfold in_u; lia)
  end.

(** ** Panics

    A Go call returns or panics (index out of range, nil dereference, an
    explicit [panic]). *)
Inductive go (A : Type) : Type :=
  | Ret (a : A)
  | Panic (msg : string).
Arguments Ret {A} a.
Arguments Panic {A} msg.

(** Sequencing: a panic ends the call. *)
Definition go_bind {A B} (m : go A) (f : A -> go B) : go B :=
  match m with Ret a => f a | Panic s => Panic s end.

Notation "'let!' x := m 'in' k" := (go_bind m (fun x => k))
  (at level 10, x name, m at level 200, k at level 200) : jotify_scope.
Notation "'let!' ' pat := m 'in' k" := (go_bind m (fun x => match x with pat => k end))
  (at level 10, pat pattern, m at level 200, k at level 200) : jotify_scope.
#[global] Open Scope jotify_scope.

#[export] Instance go_eq_dec `{EqDecision A} : EqDecision (go A).
Proof. solve_decision. Defined.

Definition is_panic {A} (m : go A) : bool :=
  match m with Ret _ => false | Panic _ => true end.

Lemma go_bind_ret {A B} (m : go A) (f : A -> go B) b :
  go_bind m f = Ret b <-> exists a, m = Ret a /\ f a = Ret b.
Proof.
  destruct m as [a|]; simpl; split; [by exists a|by intros (? & [= ->] & ?)|done|].
  by intros (? & ? & ?).
Qed.

(** What a call answers, without the state it leaves. *)
Definition answer {S A} (m : go (S * A)) : option A :=
  match m with Ret (_, a) => Some a | Panic _ => None end.

Lemma answer_ret {S A} (m : go (S * A)) s a b : m = Ret (s, a) -> answer m = Some b -> a = b.
Proof. intros -> [= ->]. done. Qed.

(** The state a call returns is the witness of a statement about it. *)
Ltac ret_state :=
  match goal with |- exists _, Ret (?x, _) = _ /\ _ => exists x; split; [reflexivity|] end.

(** A loop that has no result within its fuel, told apart from every panic of the
    program. *)
Definition terminating {A} (m : go (option A)) : go A :=
  let! r := m in match r with Some a => Ret a | None => Panic "no result" end.

(** Indexing a slice: out of range panics. *)
Definition slice_get {A} (l : list A) (i : Z) : go A :=
  match (if i <? 0 then None else l !! Z.to_nat i) with
  | Some a => Ret a
  | None => Panic "index out of range"
  end.

Definition slice_set {A} (l : list A) (i : Z) (a : A) : go (list A) :=
  if (0 <=? i) && (i <? Z.of_nat (length l)) then Ret (<[Z.to_nat i := a]> l)
  else Panic "index out of range".

Lemma slice_get_in {A} (l : list A) i a :
  0 <= i -> l !! Z.to_nat i = Some a -> slice_get l i = Ret a.
Proof.
  intros Hi H. unfold slice_get. destruct (Z.ltb_spec i 0); [lia|]. by rewrite H.
Qed.

Lemma slice_set_in {A} (l : list A) i a :
  0 <= i < Z.of_nat (length l) -> slice_set l i a = Ret (<[Z.to_nat i := a]> l).
Proof.
  intros H. unfold slice_set.
  by rewrite (proj2 (Z.leb_le 0 i)), (proj2 (Z.ltb_lt i _)) by lia.
Qed.

(** A loop that computes one value per element. *)
Fixpoint go_mapM {A B} (f : A -> go B) (l : list A) : go (list B) :=
  match l with
  | [] => Ret []
  | x :: l => let! y := f x in let! ys := go_mapM f l in Ret (y :: ys)
  end.

Lemma go_mapM_ret {A B} (f : A -> go B) (g : A -> B) l :
  (forall x, x ∈ l -> f x = Ret (g x)) -> go_mapM f l = Ret (map g l).
Proof.
  induction l as [|x l IH]; intros H; simpl; [done|].
  rewrite H by set_solver. simpl. rewrite IH; [done|]. intros y Hy. apply H. set_solver.
Qed.

Lemma go_mapM_Forall2 {A B} (f : A -> go B) l ys :
  go_mapM f l = Ret ys -> Forall2 (fun x y => f x = Ret y) l ys.
Proof.
  revert ys; induction l as [|x l IH]; intros ys; simpl; [by intros [= <-]|].
  rewrite go_bind_ret. intros (y & Hy & H). apply go_bind_ret in H as (zs & Hzs & [= <-]).
  constructor; [done|]. by apply IH.
Qed.

(** Integer division and remainder truncate toward zero and panic on zero. *)
Definition go_div (a b : Z) : go Z :=
  if b =? 0 then Panic "integer divide by zero" else Ret (Z.quot a b).

Definition go_rem (a b : Z) : go Z :=
  if b =? 0 then Panic "integer divide by zero" else Ret (Z.rem a b).

Lemma go_div_nz a b : b <> 0 -> go_div a b = Ret (Z.quot a b).
Proof. intros H. unfold go_div. by destruct (Z.eqb_spec b 0). Qed.

Lemma go_rem_pos a b : 0 <= a -> 0 < b -> go_rem a b = Ret (a mod b).
Proof.
  intros Ha Hb. unfold go_rem. destruct (Z.eqb_spec b 0); [lia|].
  by rewrite Z.rem_mod_nonneg by lia.
Qed.

(** ** [time.Duration] and [time.Time] *)

(** A duration is an [int64] number of nanoseconds. *)
Abbreviation Duration := Z (only parsing).

Definition Nanosecond : Duration := 1.
Definition Millisecond : Duration := 1000000.
Definition Second : Duration := 1000000000.
Definition Minute : Duration := 60 * Second.
Definition Hour : Duration := 60 * Minute.

Definition minDuration : Duration := - 2 ^ 63.
Definition maxDuration : Duration := 2 ^ 63 - 1.

(** A time is an [int64] of seconds since January 1 of year 1 (UTC) and
    nanoseconds within the second, as [time.Time] has it.  Locations and
    monotonic readings are not modelled: no comparison of the repository mixes
    readings of two clocks. *)
Record Time := mkTime { t_sec : Z; t_nsec : Z }.

#[export] Instance Time_eq_dec : EqDecision Time.
Proof. solve_decision. Defined.

Definition unixToInternal : Z := 62135596800.

(** The zero [time.Time]. *)
Definition zeroTime : Time := mkTime 0 0.

Definition IsZero (t : Time) : bool := (t_sec t =? 0) && (t_nsec t =? 0).

Definition time_Unix (sec nsec : Z) : Time :=
  mkTime (i64 (sec + nsec / Second + unixToInternal)) (nsec mod Second).

Definition time_UnixMilli (ms : Z) : Time :=
  time_Unix (Z.quot ms 1000) (Z.rem ms 1000 * Millisecond).

Definition Unix (t : Time) : Z := i64 (t_sec t - unixToInternal).

Definition UnixMilli (t : Time) : Z :=
  i64 (Unix t * 1000 + t_nsec t / Millisecond).

Definition Add (t : Time) (d : Duration) : Time :=
  let n := t_nsec t + d in
  mkTime (i64 (t_sec t + n / Second)) (n mod Second).

Definition Before (t u : Time) : bool :=
  (t_sec t <? t_sec u) || ((t_sec t =? t_sec u) && (t_nsec t <? t_nsec u)).

Definition After (t u : Time) : bool := Before u t.

(** [t.Sub(u)] saturates at the extreme durations. *)
Definition Sub (t u : Time) : Duration :=
  let d := (t_sec t - t_sec u) * Second + (t_nsec t - t_nsec u) in
  Z.max minDuration (Z.min maxDuration d).

Definition time_ok (t : Time) : Prop := in_s 64 (t_sec t) /\ 0 <= t_nsec t < Second.

(** Milliseconds survive the trip through a [Time]. *)
Lemma UnixMilli_time_UnixMilli ms :
  in_s 64 ms -> UnixMilli (time_UnixMilli ms) = ms.
Proof.
  unfold in_s. intros H.
  unfold UnixMilli, Unix, time_UnixMilli, time_Unix; simpl.
  unfold Second, Millisecond, unixToInternal in *.
  rewrite wrap_s_sub_l.
  match goal with |- context [wrap_s 64 ?x * 1000] => replace (wrap_s 64 x) with (ms / 1000) end.
  2: { rewrite wrap_s_id; unfold in_s; divlia. }
  rewrite wrap_s_id; unfold in_s; divlia.
Qed.

(** Negative durations move a time back: [Add] and [Sub] agree in range. *)
Lemma Before_Add_pos t d :
  time_ok t -> 0 < d -> in_s 64 (t_sec t + (t_nsec t + d) / Second) ->
  Before t (Add t d) = true.
Proof.
  intros [Hs Hn] Hd Hr. unfold Before, Add; simpl.
  rewrite (wrap_s_id 64) by done.
  unfold Second in *. rewrite orb_true_iff, andb_true_iff, !Z.ltb_lt, Z.eqb_eq. divlia.
Qed.
