(* ===== verification/Errs.v ===== *)
(** * Error values

    The sentinel errors of internal/errs/error.go and the Go error values the
    program builds from them with [fmt.Errorf] and inspects with [errors.Is].
    A Go call that returns [(T, error)] is modelled as a pair
    [T * option error], [None] being the nil error. *)
From Stdlib Require Import ZArith Lia List.
From stdpp Require Import prelude strings gmap pretty.
From S2P Require Import Prelude GoLang.

(** The package-level error variables of internal/errs/error.go. *)
Inductive code :=
  | ErrInvalidParam
  | ErrInvalidChannel
  | ErrInvalidSendStrategy
  | ErrBizIdNotFound
  | ErrBizConfNotFound
  | ErrChannelTplNotFound
  | ErrChannelTplVersionNotFound
  | ErrNotificationNotFound
  | ErrFailedSendNotification
  | ErrNotApprovedTplVersion
  | ErrNotAvailableProvider
  | ErrInsufficientQuota
  | ErrFailedToCreateCallbackLog
  | ErrFailedToSendNotification
  | ErrDuplicateNotificationId
  | ErrAcquireExceedLimit
  | ErrEventThresholdExceeded.

#[export] Instance code_eq_dec : EqDecision code.
Proof. solve_decision. Defined.

Definition code_text (c : code) : string :=
  match c with
  | ErrInvalidParam => "[jotify] invalid param"
  | ErrInvalidChannel => "[jotify] invalid channel"
  | ErrInvalidSendStrategy => "[jotify] invalid send strategy"
  | ErrBizIdNotFound => "[jotify] biz id not found"
  | ErrBizConfNotFound => "[jotify] biz config not found"
  | ErrChannelTplNotFound => "[jotify] channel template not found"
  | ErrChannelTplVersionNotFound => "[jotify] channel template version not found"
  | ErrNotificationNotFound => "[jotify] notification not found"
  | ErrFailedSendNotification => "[jotify] failed to send notification"
  | ErrNotApprovedTplVersion => "[jotify] channel template version is not approved"
  | ErrNotAvailableProvider => "[jotify] not available provider"
  | ErrInsufficientQuota => "[jotify] insufficient quota"
  | ErrFailedToCreateCallbackLog => "[jotify] failed to create callback log"
  | ErrFailedToSendNotification => "[jotify] failed to send notification"
  | ErrDuplicateNotificationId => "[jotify] duplicate notification id"
  | ErrAcquireExceedLimit => "[jotify] acquire resource exceed the limit"
  | ErrEventThresholdExceeded => "[jotify] error event threshold exceeded"
  end.

(** Error variables of other packages that the program compares with. *)
Inductive extern :=
  | gorm_ErrRecordNotFound
  | gorm_ErrDuplicatedKey
  | redis_Nil
  | context_Canceled
  | context_DeadlineExceeded
  | io_EOF
  | jwt_ErrTokenExpired
  | jwt_ErrTokenSignatureInvalid
  | balancer_ErrNoSubConnAvailable.

#[export] Instance extern_eq_dec : EqDecision extern.
Proof. solve_decision. Defined.

Inductive sentinel := SCode (c : code) | SExtern (x : extern) | SVar (name : string).

#[export] Instance sentinel_eq_dec : EqDecision sentinel.
Proof. solve_decision. Defined.

(** An error value: a package-level variable, an error made on the spot
    ([errors.New], or [fmt.Errorf] without [%w]; [text] may also stand for an
    error of another package), a gRPC status, or a wrapper around the operands
    of the [%w] verbs.  Every value carries the text of its [Error()]. *)
Inductive error :=
  | ESentinel (s : sentinel) (text : string)
  | ENew (text : string)
  | EStatus (grpc_code : Z) (text : string)
  | EWrap (causes : list error) (text : string).

Definition ECode (c : code) : error := ESentinel (SCode c) (code_text c).

(** [err.Error()]. *)
Definition Error (e : error) : string :=
  match e with
  | ESentinel _ t | ENew t | EStatus _ t | EWrap _ t => t
  end.

(** [fmt.Errorf("%w" + suffix, e)]. *)
Definition Errorf_w (e : error) (suffix : string) : error :=
  EWrap [e] (Error e +:+ suffix).

(** [fmt.Errorf(prefix + "%w", e)]. *)
Definition Errorf_pw (prefix : string) (e : error) : error :=
  EWrap [e] (prefix +:+ Error e).

(** [fmt.Errorf("%w" + sep + "%w", e1, e2)]. *)
Definition Errorf_ww (e1 : error) (sep : string) (e2 : error) : error :=
  EWrap [e1; e2] (Error e1 +:+ sep +:+ Error e2).

(** [fmt.Errorf("%w" + suffix, e)] where [e] may be nil: fmt prints
    [%!w(<nil>)] and the result wraps nothing. *)
Definition Errorf_w_opt (e : option error) (suffix : string) : error :=
  match e with
  | Some e => Errorf_w e suffix
  | None => EWrap [] ("%!w(<nil>)" +:+ suffix)
  end.

(** [errors.Is(e, s)] for a package-level variable [s]: some error of the tree
    under [e] is that variable. *)
Fixpoint errors_Is (e : error) (s : sentinel) : bool :=
  match e with
  | ESentinel s' _ => bool_decide (s' = s)
  | ENew _ | EStatus _ _ => false
  | EWrap es _ =>
      (fix any (es : list error) : bool :=
         match es with [] => false | e :: es => errors_Is e s || any es end) es
  end.

(** [errors.Is(err, s)] where [err] may be nil. *)
Definition errors_Is_opt (e : option error) (s : sentinel) : bool :=
  match e with Some e => errors_Is e s | None => false end.

Lemma errors_Is_code c : errors_Is (ECode c) (SCode c) = true.
Proof. simpl. by rewrite bool_decide_true. Qed.

Lemma errors_Is_wrap e suffix s : errors_Is (Errorf_w e suffix) s = errors_Is e s.
Proof. simpl. by rewrite orb_false_r. Qed.

Lemma errors_Is_pwrap prefix e s : errors_Is (Errorf_pw prefix e) s = errors_Is e s.
Proof. simpl. by rewrite orb_false_r. Qed.

Lemma errors_Is_wrap2 e1 sep e2 s :
  errors_Is (Errorf_ww e1 sep e2) s = errors_Is e1 s || errors_Is e2 s.
Proof. simpl. by rewrite orb_false_r. Qed.

#[export] Hint Rewrite errors_Is_code errors_Is_wrap errors_Is_pwrap errors_Is_wrap2 : errs.

(** [fmt.Errorf("%w: ...", errs.ErrX)], the shape of most of the program's
    errors. *)
Definition code_err (c : code) (suffix : string) : error := Errorf_w (ECode c) suffix.

Lemma errors_Is_code_err c suffix : errors_Is (code_err c suffix) (SCode c) = true.
Proof. unfold code_err. by rewrite errors_Is_wrap, errors_Is_code. Qed.

#[export] Hint Rewrite errors_Is_code_err : errs.
