(* ===== verification/GoStrings.v ===== *)
(** * Strings and numbers as the program formats and parses them

    The parts of [strings], [strconv] and [fmt] the repository uses, on Rocq's
    [string], with the round trips the models rely on. *)
From Stdlib Require Import ZArith Lia List Ascii.
From stdpp Require Import prelude strings gmap pretty.
From S2P Require Import Prelude GoLang Errs.


(** ** Characters *)

Fixpoint str_all (p : Ascii.ascii -> bool) (s : string) : bool :=
  match s with
  | EmptyString => true
  | String c s => p c && str_all p s
  end.

Definition is_digit (c : Ascii.ascii) : bool :=
  (48 <=? Z.of_N (N_of_ascii c)) && (Z.of_N (N_of_ascii c) <=? 57).

Definition digit_val (c : Ascii.ascii) : Z := Z.of_N (N_of_ascii c) - 48.

Lemma str_all_app p s t : str_all p (s +:+ t) = str_all p s && str_all p t.
Proof. induction s as [|c s IH]; simpl; [done|]. rewrite IH. apply andb_assoc. Qed.

(** ** Decimal numbers *)

(** [strconv.FormatUint(n, 10)], and [fmt]'s [%d]. *)
Definition FormatUint (n : Z) : string := pretty n.

(** The digits of a decimal number, with the overflow check of
    [strconv.ParseUint] for 64 bits. *)
Fixpoint parse_digits (s : string) (acc : Z) : option Z :=
  match s with
  | EmptyString => Some acc
  | String c s =>
      if is_digit c then
        let acc' := acc * 10 + digit_val c in
        if 2 ^ 64 <=? acc' then None else parse_digits s acc'
      else None
  end.

(** [strconv.ParseUint(s, 10, 64)]. *)
Definition ParseUint (s : string) : Z * option error :=
  match s with
  | EmptyString => (0, Some (ENew "strconv.ParseUint: parsing: invalid syntax"))
  | _ => match parse_digits s 0 with
         | Some n => (n, None)
         | None => (0, Some (ENew "strconv.ParseUint: parsing: invalid syntax or value out of range"))
         end
  end.

Lemma pretty_char_digit d : (d < 10)%N -> is_digit (pretty_N_char d) = true /\
  digit_val (pretty_N_char d) = Z.of_N d.
Proof.
  intros H. assert (Hd : d ∈ (N.of_nat <$> seq 0 10)).
  { apply list_elem_of_fmap. exists (N.to_nat d). split; [lia|]. apply elem_of_seq. lia. }
  simpl in Hd. repeat (apply elem_of_cons in Hd as [->|Hd]; [by vm_compute|]). set_solver.
Qed.

Lemma pretty_go_ind (P : N -> string -> Prop) :
  (forall s, P 0%N s) ->
  (forall x s, (0 < x)%N -> P (x / 10)%N (String (pretty_N_char (x mod 10)) s) -> P x s) ->
  forall x s, P x s.
Proof.
  intros H0 HS x. induction (N.lt_wf_0 x) as [x _ IH]. intros s.
  destruct (decide (x = 0)%N) as [->|]; [done|].
  apply HS; [lia|]. apply IH. apply N.div_lt; lia.
Qed.

Lemma parse_pretty_go x s :
  (x < 2 ^ 64)%N -> parse_digits (pretty_N_go x s) 0 = parse_digits s (Z.of_N x).
Proof.
  revert x s. apply (pretty_go_ind (fun x s => (x < 2 ^ 64)%N -> parse_digits (pretty_N_go x s) 0 = _)).
  - intros s _. by rewrite pretty_N_go_0.
  - intros x s Hx IH Hb. rewrite pretty_N_go_step by done.
    rewrite IH by (pose proof (N.div_lt x 10); lia). cbn [parse_digits].
    destruct (pretty_char_digit (x mod 10)) as [-> ->]; [apply N.mod_lt; lia|].
    replace (Z.of_N (x / 10) * 10 + Z.of_N (x mod 10)) with (Z.of_N x)
      by (rewrite N2Z.inj_div, N2Z.inj_mod; divlia).
    by destruct (Z.leb_spec (2 ^ 64) (Z.of_N x)); [lia|].
Qed.

Lemma digits_pretty_go x s :
  str_all is_digit s = true -> str_all is_digit (pretty_N_go x s) = true.
Proof.
  revert x s. apply (pretty_go_ind (fun x s => _ -> str_all is_digit (pretty_N_go x s) = true)).
  - intros s. by rewrite pretty_N_go_0.
  - intros x s Hx IH Hs. rewrite pretty_N_go_step by done. apply IH. cbn [str_all].
    destruct (pretty_char_digit (x mod 10)) as [-> _]; [apply N.mod_lt; lia|done].
Qed.

Lemma FormatUint_N n : 0 <= n -> FormatUint n = pretty (Z.to_N n).
Proof. by destruct n. Qed.

Lemma pretty_N_unfold n : pretty n = if decide (n = 0)%N then "0" else pretty_N_go n "".
Proof. unfold pretty, pretty_N. by destruct (decide _). Qed.

(** Formatting a uint64 and parsing it back. *)
Lemma parse_digits_FormatUint n : in_u 64 n -> parse_digits (FormatUint n) 0 = Some n.
Proof.
  intros [H0 H1]. rewrite FormatUint_N, pretty_N_unfold by done.
  destruct (decide (Z.to_N n = 0)%N); [by assert (n = 0) as -> by lia|].
  rewrite parse_pretty_go by lia. simpl. f_equal. lia.
Qed.


Lemma digits_FormatUint n : 0 <= n -> str_all is_digit (FormatUint n) = true.
Proof.
  intros Hn. rewrite FormatUint_N, pretty_N_unfold by done.
  destruct (decide _); [done|]. by apply digits_pretty_go.
Qed.

Lemma ParseUint_FormatUint n : in_u 64 n -> ParseUint (FormatUint n) = (n, None).
Proof.
  intros Hn. pose proof (parse_digits_FormatUint n Hn) as Hp. unfold ParseUint.
  destruct (FormatUint n) as [|c s] eqn:E; [|by rewrite Hp].
  injection Hp as <-. by vm_compute in E.
Qed.

Lemma FormatUint_inj n m : FormatUint n = FormatUint m -> n = m.
Proof. apply (inj pretty). Qed.

(** ** [strings] *)

Definition HasPrefix (s p : string) : bool := String.prefix p s.

Definition TrimPrefix (s p : string) : string :=
  if HasPrefix s p then String.substring (String.length p) (String.length s - String.length p) s
  else s.

Lemma substring_skip (p s : string) :
  String.substring (String.length p) (String.length s) (p +:+ s) = s.
Proof.
  induction p as [|c p IH]; simpl; [|done].
  change ("" +:+ s) with s. induction s as [|c s IH]; simpl; [done|by rewrite IH].
Qed.

Lemma length_append_string (p s : string) : String.length (p +:+ s) = (String.length p + String.length s)%nat.
Proof. induction p as [|c p IH]; [done|]. change (S (String.length (p +:+ s)) = S (String.length p + String.length s)). by rewrite IH. Qed.

Lemma prefix_append_string (p s : string) : String.prefix p (p +:+ s) = true.
Proof.
  induction p as [|c p IH]; [by destruct s|].
  change (String c p +:+ s) with (String c (p +:+ s)). simpl. by destruct (ascii_dec c c).
Qed.

(** The prefix that was put in front is cut off. *)
Lemma TrimPrefix_append (p s : string) : TrimPrefix (p +:+ s) p = s.
Proof.
  unfold TrimPrefix, HasPrefix. rewrite prefix_append_string, length_append_string.
  replace (String.length p + String.length s - String.length p)%nat with (String.length s) by lia.
  apply substring_skip.
Qed.

(** [strings.Split(s, sep)] for a separator of one character; never empty. *)
Fixpoint Split (sep : Ascii.ascii) (s : string) : list string :=
  match s with
  | EmptyString => [""]
  | String c s =>
      if Ascii.eqb c sep then "" :: Split sep s
      else match Split sep s with
           | w :: ws => String c w :: ws
           | [] => [String c ""]
           end
  end.

(** [strings.Contains(s, sub)]. *)
Fixpoint Contains (s sub : string) : bool :=
  String.prefix sub s ||
  match s with EmptyString => false | String _ s => Contains s sub end.

Fixpoint Join (ws : list string) (sep : string) : string :=
  match ws with
  | [] => ""
  | [w] => w
  | w :: ws => w +:+ sep +:+ Join ws sep
  end.

Lemma Split_none sep s : str_all (fun c => negb (Ascii.eqb c sep)) s = true -> Split sep s = [s].
Proof.
  induction s as [|c s IH]; simpl; [done|]. rewrite andb_true_iff, negb_true_iff. intros [-> Hs].
  by rewrite IH.
Qed.

Lemma Split_nonempty sep s : Split sep s <> [].
Proof. induction s as [|c s IH]; simpl; [done|]. destruct (Ascii.eqb c sep); [done|]. by destruct (Split sep s). Qed.

(** Splitting at a separator splits what is before and what is after it. *)
Lemma Split_app sep p s :
  Split sep (p +:+ String sep s) = app (Split sep p) (Split sep s).
Proof.
  induction p as [|c p IH]; simpl; [by rewrite Ascii.eqb_refl|]. rewrite IH.
  destruct (Ascii.eqb c sep); [done|].
  pose proof (Split_nonempty sep p). by destruct (Split sep p).
Qed.

Lemma digits_no_sep sep s :
  is_digit sep = false -> str_all is_digit s = true ->
  str_all (fun c => negb (Ascii.eqb c sep)) s = true.
Proof.
  intros Hsep. induction s as [|c s IH]; simpl; [done|]. rewrite !andb_true_iff.
  intros [Hc Hs]. split; [|auto]. destruct (Ascii.eqb_spec c sep) as [->|]; [congruence|done].
Qed.

(** Two strings split at the first non-digit are equal part by part. *)
Lemma digits_sep_inj sep a b s t :
  is_digit sep = false -> str_all is_digit a = true -> str_all is_digit b = true ->
  a +:+ String sep s = b +:+ String sep t -> a = b /\ s = t.
Proof.
  intros Hsep. revert b; induction a as [|c a IH]; intros [|d b]; simpl; intros Ha Hb H.
  - by simplify_eq.
  - injection H as <- ?. by rewrite Hsep in Hb.
  - injection H as -> ?. by rewrite Hsep in Ha.
  - apply andb_true_iff in Ha as [_ Ha], Hb as [_ Hb]. injection H as -> H.
    by destruct (IH b Ha Hb H) as [-> ->].
Qed.

(** ** strings.EqualFold

    For a second argument of ASCII characters: apart from the two cases of the
    letters, the only characters that fold to ASCII are the Kelvin sign and the
    long s. *)
Definition lower (c : ascii) : ascii :=
  let n := N_of_ascii c in
  if (65 <=? n)%N && (n <=? 90)%N then ascii_of_N (n + 32) else c.

Fixpoint fold_ascii (s : string) : string :=
  match s with
  | EmptyString => EmptyString
  | String a s1 =>
      match s1 with
      | String b (String c s3 as s2) =>
          if bool_decide (N_of_ascii a = 226%N /\ N_of_ascii b = 132%N /\ N_of_ascii c = 170%N)
          then String "k"%char (fold_ascii s3)
          else if bool_decide (N_of_ascii a = 197%N /\ N_of_ascii b = 191%N)
          then String "s"%char (fold_ascii s2)
          else String (lower a) (fold_ascii s1)
      | String b s2 =>
          if bool_decide (N_of_ascii a = 197%N /\ N_of_ascii b = 191%N)
          then String "s"%char (fold_ascii s2)
          else String (lower a) (fold_ascii s1)
      | EmptyString => String (lower a) (fold_ascii s1)
      end
  end.

Definition EqualFold (s t : string) : bool := String.eqb (fold_ascii s) (fold_ascii t).

Example EqualFold_ok : map (fun s => EqualFold s "OK") ["OK"; "ok"; "Ok"; "OKAY"; ""; "KO"]%string =
  [true; true; true; false; false; false].
Proof. reflexivity. Qed.
