(* ===== verification/GoFloat.v ===== *)
(** * float64

    IEEE 754 binary64, by the standard library's [SpecFloat] with 53 bits of
    precision: the conversions and comparisons the program makes. *)
From Stdlib Require Import ZArith Lia List SpecFloat.
From stdpp Require Import prelude countable.
From S2P Require Import Prelude.

Definition prec : Z := 53.
Definition emax : Z := 1024.

(** [float64(n)] of an integer: round to nearest, ties to even. *)
Definition float64 (n : Z) : spec_float := binary_normalize prec emax n 0 false.

Definition fdiv : spec_float -> spec_float -> spec_float := SFdiv prec emax.
(** [x > y]; false when either is NaN. *)
Definition fgt (x y : spec_float) : bool := SFltb y x.

(** [uint64(f)]: truncation; nothing where the value is not one of a uint64, which
    the language leaves to the implementation. *)
Definition trunc_float (f : spec_float) : option Z :=
  match f with
  | S754_zero _ => Some 0
  | S754_finite s m e =>
      let v := if 0 <=? e then Zpos m * 2 ^ e else Z.shiftr (Zpos m) (- e) in
      let v := if s then - v else v in
      if (0 <=? v) && (v <? 2 ^ 64) then Some v else None
  | _ => None
  end.

#[global] Instance spec_float_eq_dec : EqDecision spec_float.
Proof. solve_decision. Defined.

#[global] Program Instance spec_float_countable : Countable spec_float :=
  inj_countable
    (fun f => match f with
              | S754_zero s => inl (inl s)
              | S754_infinity s => inl (inr s)
              | S754_nan => inr None
              | S754_finite s m e => inr (Some (s, m, e))
              end : (bool + bool) + option (bool * positive * Z))
    (fun x => Some match x with
              | inl (inl s) => S754_zero s
              | inl (inr s) => S754_infinity s
              | inr None => S754_nan
              | inr (Some (s, m, e)) => S754_finite s m e
              end) _.
Next Obligation. by intros []. Qed.

(** ** Integers of 53 bits are exact *)

Lemma digits2_pos_log2 m : Zpos (digits2_pos m) = Z.log2 (Zpos m) + 1.
Proof.
  induction m as [m IH|m IH|]; cbn [digits2_pos]; [| |done]; rewrite Pos2Z.inj_succ, IH.
  - rewrite Pos2Z.inj_xI, Z.log2_succ_double by lia. lia.
  - rewrite Pos2Z.inj_xO, Z.log2_double by lia. lia.
Qed.

Lemma iter_xO_mul k m : Zpos (Pos.iter xO m k) = Zpos m * 2 ^ Zpos k.
Proof.
  induction k as [|k IH] using Pos.peano_ind; [simpl; lia|].
  rewrite Pos.iter_succ, Pos2Z.inj_xO, IH, Pos2Z.inj_succ, Z.pow_succ_r by lia. lia.
Qed.

(** A mantissa of 53 bits is not rounded. *)
Lemma binary_round_aux_exact s m e :
  Zpos (digits2_pos m) = 53 -> -1074 <= e <= 971 -> binary_round_aux prec emax s (Zpos m) e loc_Exact = S754_finite s m e.
Proof.
  intros Hd He. unfold binary_round_aux.
  assert (Hf : shr_fexp prec emax (Zpos m) e loc_Exact = (Build_shr_record (Zpos m) false false, e)).
  { unfold shr_fexp, fexp, Zdigits2. rewrite Hd.
    replace (Z.max (53 + e - prec) (emin prec emax) - e) with 0; [done|]. unfold emin, prec, emax. lia. }
  rewrite Hf. simpl. rewrite Hf. simpl. rewrite (proj2 (Z.leb_le e _)); [done|]. unfold emax, prec. lia.
Qed.

Lemma float64_small m :
  Zpos m < 2 ^ 53 ->
  exists m' k, 0 <= k <= 52 /\ float64 (Zpos m) = S754_finite false m' (- k) /\ Zpos m' = Zpos m * 2 ^ k.
Proof.
  intros Hm. set (d := Zpos (digits2_pos m)). assert (Hd : d = Z.log2 (Zpos m) + 1) by apply digits2_pos_log2.
  assert (Hd53 : 1 <= d <= 53).
  { pose proof (Z.log2_nonneg (Zpos m)). assert (Z.log2 (Zpos m) < 53) by (apply Z.log2_lt_pow2; lia). lia. }
  unfold float64. simpl. unfold binary_round. fold d.
  replace (fexp prec emax (d + 0)) with (d - 53) by (unfold fexp, emin, prec, emax; lia).
  unfold shl_align. rewrite Z.sub_0_r.
  destruct (d - 53) as [|p|p] eqn:Ep; [|lia|].
  - exists m, 0. split; [lia|]. split; [|lia]. apply binary_round_aux_exact; lia.
  - exists (Pos.iter xO m p), (Zpos p). split; [lia|]. split; [|apply iter_xO_mul].
    apply binary_round_aux_exact; [|lia].
    rewrite digits2_pos_log2, iter_xO_mul, Z.log2_mul_pow2 by lia. lia.
Qed.

(** The trip of an integer through a float64: [uint64(float64(n))]. *)
Lemma trunc_float64 n : 0 <= n < 2 ^ 53 -> trunc_float (float64 n) = Some n.
Proof.
  intros Hn. destruct n as [|m|m]; [done| |lia].
  destruct (float64_small m) as (m' & k & Hk & -> & Hm'); [lia|]. simpl.
  assert (Hv : (if 0 <=? - k then Zpos m' * 2 ^ (- k) else Z.shiftr (Zpos m') (- - k)) = Zpos m).
  { rewrite Hm', Z.opp_involutive. destruct (Z.leb_spec 0 (- k)).
    - assert (k = 0) as -> by lia. simpl. lia.
    - rewrite Z.shiftr_div_pow2 by lia. apply Z.div_mul. lia. }
  rewrite Hv. rewrite (proj2 (Z.leb_le 0 _)), (proj2 (Z.ltb_lt _ (2 ^ 64))) by lia. done.
Qed.

(** The first integer that does not survive it. *)
Example trunc_float64_rounds : trunc_float (float64 (2 ^ 53 + 1)) = Some (2 ^ 53).
Proof. vm_compute. reflexivity. Qed.
