(* ===== verification/GoJson.v ===== *)
(** * encoding/json

    The part of the standard library's encoding/json the program uses: the text of a
    value, with Go's escapes, and reading a text.  A text is read in two steps, as
    Go checks the whole text before it decodes: [parse] to a tree of the syntax, and
    a codec from the tree to a value.  A string that is valid UTF-8 survives the
    trip; other bytes are replaced.

    Not modelled: the limit of 10000 on nesting, and numbers with a fraction or an
    exponent as anything but their text. *)
From Stdlib Require Import ZArith Lia List Ascii.
From stdpp Require Import prelude strings gmap sorting pretty.
From S2P Require Import Prelude GoLang Errs GoStrings.

(** ** UTF-8 *)

Definition code (c : ascii) : Z := Z.of_N (N_of_ascii c).
Definition chr (z : Z) : ascii := ascii_of_N (Z.to_N z).
Definition bytes (l : list Z) : string := foldr (fun z s => String (chr z) s) ""%string l.

Definition between (a x b : Z) : bool := (a <=? x) && (x <=? b).
Definition cont (x : Z) : bool := between 128 x 191.

(** The first two bytes of an encoding of three bytes, and of four. *)
Definition lead3 (x y : Z) : bool :=
  (x =? 224) && between 160 y 191 || between 225 x 236 && cont y ||
  (x =? 237) && between 128 y 159 || between 238 x 239 && cont y.
Definition lead4 (x y : Z) : bool :=
  (x =? 240) && between 144 y 191 || between 241 x 243 && cont y || (x =? 244) && between 128 y 143.

(** [utf8.DecodeRuneInString]: the bytes of the first rune and the rest, or nothing
    for an invalid encoding. *)
Definition next_rune (s : string) : option (string * string) :=
  match s with
  | String a s1 =>
      if code a <? 128 then Some (String a "", s1)
      else match s1 with
      | String b s2 =>
          if between 194 (code a) 223 && cont (code b) then Some (String a (String b ""), s2)
          else match s2 with
          | String c s3 =>
              if lead3 (code a) (code b) && cont (code c) then Some (String a (String b (String c "")), s3)
              else match s3 with
              | String d s4 =>
                  if lead4 (code a) (code b) && cont (code c) && cont (code d)
                  then Some (String a (String b (String c (String d ""))), s4) else None
              | EmptyString => None
              end
          | EmptyString => None
          end
      | EmptyString => None
      end
  | EmptyString => None
  end.

(** [utf8.EncodeRune]. *)
Definition rune_bytes (r : Z) : string :=
  if r <? 128 then bytes [r]
  else if r <? 2048 then bytes [192 + r / 64; 128 + r mod 64]
  else if r <? 65536 then bytes [224 + r / 4096; 128 + r / 64 mod 64; 128 + r mod 64]
  else bytes [240 + r / 262144; 128 + r / 4096 mod 64; 128 + r / 64 mod 64; 128 + r mod 64].

Definition RuneError : Z := 65533.

Inductive utf8 : string -> Prop :=
  | utf8_nil : utf8 ""
  | utf8_rune s r rest : next_rune s = Some (r, rest) -> utf8 rest -> utf8 s.

Lemma next_rune_split s r rest :
  next_rune s = Some (r, rest) -> s = r +:+ rest /\ forall t, next_rune (r +:+ t) = Some (r, t).
Proof.
  destruct s as [|a s1]; simpl; [done|]. destruct (code a <? 128) eqn:Ea.
  { intros [= <- <-]. split; [done|]. intros t. simpl. by rewrite Ea. }
  destruct s1 as [|b s2]; [done|]. destruct (between _ _ _ && _) eqn:Eb.
  { intros [= <- <-]. split; [done|]. intros t. simpl. by rewrite Ea, Eb. }
  destruct s2 as [|c s3]; [done|]. destruct (lead3 _ _ && _) eqn:Ec.
  { intros [= <- <-]. split; [done|]. intros t. simpl. by rewrite Ea, Eb, Ec. }
  destruct s3 as [|d s4]; [done|]. destruct (lead4 _ _ && _ && _) eqn:Ed; [|done].
  intros [= <- <-]. split; [done|]. intros t. simpl. by rewrite Ea, Eb, Ec, Ed.
Qed.

(** A rune of one byte is ASCII, one of several begins with a byte that is not. *)
Lemma next_rune_shape s r rest :
  next_rune s = Some (r, rest) ->
  (exists c, r = String c "" /\ code c < 128) \/ exists a b t, r = String a (String b t) /\ 128 <= code a.
Proof.
  destruct s as [|a s1]; simpl; [done|]. destruct (Z.ltb_spec (code a) 128).
  { intros [= <- <-]. left. by exists a. }
  destruct s1 as [|b s2]; [done|]. intros E. right. exists a, b.
  destruct (_ && _); [injection E as <- _; by eexists|].
  destruct s2 as [|c s3]; [done|]. destruct (_ && _); [injection E as <- _; by eexists|].
  destruct s3 as [|d s4]; [done|]. destruct (_ && _ && _); [injection E as <- _; by eexists|done].
Qed.

Lemma append_cons c s t : String c s +:+ t = String c (s +:+ t).
Proof. done. Qed.

Lemma append_nil s : "" +:+ s = s.
Proof. done. Qed.

Lemma append_assoc r s t : (r +:+ s) +:+ t = r +:+ (s +:+ t).
Proof. induction r as [|c r IH]; [done|]. by rewrite !append_cons, IH. Qed.

Lemma utf8_app s t : utf8 s -> utf8 t -> utf8 (s +:+ t).
Proof.
  induction 1 as [|s r rest E _ IH]; intros Ht; [done|]. apply next_rune_split in E as [-> E].
  eapply (utf8_rune _ r (rest +:+ t)); [|by apply IH].
  rewrite append_assoc. apply E.
Qed.

Definition is_ascii (s : string) : bool := str_all (fun c => code c <? 128) s.

Lemma ascii_utf8 s : is_ascii s = true -> utf8 s.
Proof.
  unfold is_ascii. induction s as [|c s IH]; simpl; [constructor|]. intros [Hc Hs]%andb_true_iff.
  econstructor; [|by apply IH]. simpl. by rewrite Hc.
Qed.

(** ** Strings *)

Definition dquote : ascii := chr 34.
Definition backslash : ascii := chr 92.

Definition hex_digit (x : Z) : ascii := chr (if x <? 10 then 48 + x else 87 + x).

Definition unicode_escape (hi lo : string) : string := String backslash (String "u"%char (hi +:+ lo)).

(** What [json.Marshal] writes for a rune: HTML is escaped. *)
Definition escape_rune (r : string) : string :=
  match r with
  | String c EmptyString =>
      let b := code c in
      if (b =? 34) || (b =? 92) then String backslash r
      else if b =? 8 then String backslash "b" else if b =? 12 then String backslash "f"
      else if b =? 10 then String backslash "n" else if b =? 13 then String backslash "r"
      else if b =? 9 then String backslash "t"
      else if (b <? 32) || (b =? 60) || (b =? 62) || (b =? 38)
      then unicode_escape "00" (String (hex_digit (b / 16)) (String (hex_digit (b mod 16)) ""))
      else r
  | _ =>
      if String.eqb r (rune_bytes 8232) then unicode_escape "2028" ""
      else if String.eqb r (rune_bytes 8233) then unicode_escape "2029" "" else r
  end.

(** [fuel] is the length of the string. *)
Fixpoint escape (fuel : nat) (s : string) : string :=
  match fuel, s with
  | S fuel, String c s' =>
      match next_rune s with
      | Some (r, rest) => escape_rune r +:+ escape fuel rest
      | None => unicode_escape "fffd" "" +:+ escape fuel s'
      end
  | _, _ => ""
  end.

Definition print_string (s : string) : string :=
  String dquote (escape (String.length s) s +:+ String dquote "").

Definition hex_value (c : ascii) : option Z :=
  let x := code c in
  if between 48 x 57 then Some (x - 48)
  else if between 97 x 102 then Some (x - 87)
  else if between 65 x 70 then Some (x - 55) else None.

Definition hex4 (s : string) : option (Z * string) :=
  match s with
  | String a (String b (String c (String d s))) =>
      match hex_value a, hex_value b, hex_value c, hex_value d with
      | Some a, Some b, Some c, Some d => Some (((a * 16 + b) * 16 + c) * 16 + d, s)
      | _, _, _, _ => None
      end
  | _ => None
  end.

(** What comes next in a string: its end, a rune, or an error. *)
Inductive token := TEnd (rest : string) | TRune (r rest : string) | TBad.

(** After [\u]: two escapes make one rune when they are the halves of a surrogate
    pair; a lone half is replaced. *)
Definition unicode_token (s : string) : token :=
  match hex4 s with
  | None => TBad
  | Some (r, s1) =>
      if between 55296 r 57343 then
        match s1 with
        | String b (String u s2) =>
            match (if (code b =? 92) && (code u =? 117) then hex4 s2 else None) with
            | Some (r1, s3) =>
                if between 55296 r 56319 && between 56320 r1 57343
                then TRune (rune_bytes ((r - 55296) * 1024 + (r1 - 56320) + 65536)) s3
                else TRune (rune_bytes RuneError) s1
            | None => TRune (rune_bytes RuneError) s1
            end
        | _ => TRune (rune_bytes RuneError) s1
        end
      else TRune (rune_bytes r) s1
  end.

Definition escape_token (s : string) : token :=
  match s with
  | EmptyString => TBad
  | String e s =>
      let x := code e in
      if (x =? 34) || (x =? 92) || (x =? 47) then TRune (String e "") s
      else if x =? 98 then TRune (bytes [8]) s else if x =? 102 then TRune (bytes [12]) s
      else if x =? 110 then TRune (bytes [10]) s else if x =? 114 then TRune (bytes [13]) s
      else if x =? 116 then TRune (bytes [9]) s
      else if x =? 117 then unicode_token s else TBad
  end.

Definition next_token (s : string) : token :=
  match s with
  | EmptyString => TBad
  | String c s1 =>
      if code c =? 34 then TEnd s1
      else if code c =? 92 then escape_token s1
      else if code c <? 32 then TBad
      else match next_rune s with
           | Some (r, rest) => TRune r rest
           | None => TRune (rune_bytes RuneError) s1
           end
  end.

(** The string up to its closing quote, and the rest. *)
Fixpoint read_string (fuel : nat) (s : string) : option (string * string) :=
  match fuel with
  | O => None
  | S fuel =>
      match next_token s with
      | TEnd rest => Some (""%string, rest)
      | TRune r rest =>
          match read_string fuel rest with Some (t, rest) => Some (r +:+ t, rest) | None => None end
      | TBad => None
      end
  end.

(** An escaped rune is read as itself. *)
Lemma next_token_ascii c t : code c < 128 -> next_token (escape_rune (String c "") +:+ t) = TRune (String c "") t.
Proof.
  destruct c as [[] [] [] [] [] [] [] []]; intros H; first [reflexivity|exfalso; by vm_compute in H].
Qed.

Lemma next_token_escape s r rest t :
  next_rune s = Some (r, rest) -> next_token (escape_rune r +:+ t) = TRune r t.
Proof.
  intros E. destruct (next_rune_shape _ _ _ E) as [(c & -> & Hc)|(a & b & r' & -> & Ha)]; [by apply next_token_ascii|].
  apply next_rune_split in E as [_ E]. specialize (E t). unfold escape_rune.
  destruct (String.eqb_spec (String a (String b r')) (rune_bytes 8232)) as [->|_]; [reflexivity|].
  destruct (String.eqb_spec (String a (String b r')) (rune_bytes 8233)) as [->|_]; [reflexivity|].
  rewrite !append_cons in *. cbn [next_token].
  rewrite (proj2 (Z.eqb_neq (code a) 34)), (proj2 (Z.eqb_neq (code a) 92)), (proj2 (Z.ltb_ge (code a) 32)) by lia.
  by rewrite E.
Qed.

Lemma length_append s t : String.length (s +:+ t) = (String.length s + String.length t)%nat.
Proof. induction s as [|c s IH]; [done|]. rewrite append_cons. simpl. by rewrite IH. Qed.

Lemma escape_rune_length s r rest : next_rune s = Some (r, rest) -> (0 < String.length (escape_rune r))%nat.
Proof.
  intros E. pose proof (next_token_escape s r rest "" E) as H. destruct (escape_rune r); [discriminate H|simpl; lia].
Qed.

Lemma read_escape s : utf8 s -> forall n m t,
  (String.length s <= n)%nat -> (String.length (escape n s) < m)%nat ->
  read_string m (escape n s +:+ String dquote t) = Some (s, t).
Proof.
  induction 1 as [|s r rest E _ IH]; intros n m t Hn Hm.
  - destruct m as [|m]; [lia|]. by destruct n.
  - pose proof (next_rune_split _ _ _ E) as [Hs _].
    assert (Hr : (0 < String.length r)%nat).
    { destruct (next_rune_shape _ _ _ E) as [(c & -> & _)|(a & b & u & -> & _)]; simpl; lia. }
    assert (Hlen : String.length s = (String.length r + String.length rest)%nat) by by rewrite Hs, length_append.
    destruct n as [|n]; [lia|]. destruct s as [|c s]; [simpl in *; lia|].
    assert (Hesc : escape (S n) (String c s) = escape_rune r +:+ escape n rest) by (cbn [escape]; by rewrite E).
    rewrite Hesc in *. rewrite length_append in Hm. pose proof (escape_rune_length _ _ _ E) as Hpos.
    destruct m as [|m]; [lia|]. cbn [read_string]. rewrite append_assoc, (next_token_escape _ _ _ _ E).
    rewrite IH by lia. by rewrite Hs.
Qed.

(** ** Values *)

Inductive json :=
  | JNull | JBool (b : bool) | JNum (text : string) | JStr (s : string)
  | JArr (l : list json) | JObj (kvs : list (string * json)).

(** The text of [json.Marshal]: no blanks. *)
Fixpoint print (j : json) : string :=
  match j with
  | JNull => "null"
  | JBool true => "true"
  | JBool false => "false"
  | JNum text => text
  | JStr s => print_string s
  | JArr l => "[" +:+ Join (map print l) "," +:+ "]"
  | JObj kvs => "{" +:+ Join (map (fun e => print_string e.1 +:+ ":" +:+ print e.2) kvs) "," +:+ "}"
  end.

Fixpoint skip (s : string) : string :=
  match s with
  | String c s' => if (code c =? 32) || (code c =? 9) || (code c =? 13) || (code c =? 10) then skip s' else s
  | EmptyString => ""
  end.

Fixpoint digits (s : string) : string * string :=
  match s with
  | String c s' => if is_digit c then let '(d, rest) := digits s' in (String c d, rest) else (""%string, s)
  | EmptyString => (""%string, ""%string)
  end.

(** One or more digits. *)
Definition digits1 (s : string) : option (string * string) :=
  match digits s with (EmptyString, _) => None | p => Some p end.

Definition read_frac (s : string) : option (string * string) :=
  match s with
  | String c s' =>
      if code c =? 46 then match digits1 s' with Some (d, rest) => Some (String c d, rest) | None => None end
      else Some (""%string, s)
  | EmptyString => Some (""%string, s)
  end.

Definition read_sign (s : string) : string * string :=
  match s with
  | String c s' => if (code c =? 43) || (code c =? 45) then (String c "", s') else (""%string, s)
  | EmptyString => (""%string, s)
  end.

Definition read_exp (s : string) : option (string * string) :=
  match s with
  | String c s' =>
      if (code c =? 101) || (code c =? 69) then
        let '(sign, s') := read_sign s' in
        match digits1 s' with Some (d, rest) => Some (String c (sign +:+ d), rest) | None => None end
      else Some (""%string, s)
  | EmptyString => Some (""%string, s)
  end.

(** A zero is not followed by digits. *)
Definition read_int (s : string) : option (string * string) :=
  match s with
  | String c s' =>
      if code c =? 48 then Some (String c "", s') else digits1 s
  | EmptyString => None
  end.

Definition read_number (s : string) : option (string * string) :=
  let '(minus, s) := match s with
                     | String c s' => if code c =? 45 then (String c "", s') else (""%string, s)
                     | EmptyString => (""%string, s)
                     end in
  match read_int s with
  | None => None
  | Some (int, s) =>
      match read_frac s with
      | None => None
      | Some (frac, s) =>
          match read_exp s with
          | None => None
          | Some (exp, s) => Some (minus +:+ int +:+ frac +:+ exp, s)
          end
      end
  end.

Fixpoint strip (word s : string) : option string :=
  match word, s with
  | EmptyString, _ => Some s
  | String a word, String b s => if Ascii.eqb a b then strip word s else None
  | _, EmptyString => None
  end.

(** A word whose first letter has been read. *)
Definition read_word (word : string) (j : json) (s : string) : option (json * string) :=
  match strip word s with Some rest => Some (j, rest) | None => None end.

Definition read_key (s : string) : option (string * string) :=
  match skip s with
  | String c s =>
      if code c =? 34 then
        match read_string (S (String.length s)) s with
        | Some (k, s) => match skip s with String c s => if code c =? 58 then Some (k, s) else None | EmptyString => None end
        | None => None
        end
      else None
  | EmptyString => None
  end.

(** What follows an element: another one, or the end. *)
Definition after {A} (close : Z) (more : string -> option (list A * string)) (x : A) (s : string)
    : option (list A * string) :=
  match skip s with
  | String c s =>
      if code c =? 44 then match more s with Some (l, s) => Some (x :: l, s) | None => None end
      else if code c =? close then Some ([x], s) else None
  | EmptyString => None
  end.

(** An opening bracket has been read. *)
Definition list_of {A} (close : Z) (more : string -> option (list A * string)) (s : string)
    : option (list A * string) :=
  match skip s with
  | String c s' => if code c =? close then Some ([], s') else more s
  | EmptyString => None
  end.

Fixpoint read_value (fuel : nat) (s : string) : option (json * string) :=
  match fuel with
  | O => None
  | S fuel =>
      match skip s with
      | EmptyString => None
      | String c s' =>
          let b := code c in
          if b =? 34 then
            match read_string (S (String.length s')) s' with Some (t, s) => Some (JStr t, s) | None => None end
          else if b =? 91 then
            match list_of 93 (read_elems fuel) s' with Some (l, s) => Some (JArr l, s) | None => None end
          else if b =? 123 then
            match list_of 125 (read_members fuel) s' with Some (l, s) => Some (JObj l, s) | None => None end
          else if b =? 116 then read_word "rue" (JBool true) s'
          else if b =? 102 then read_word "alse" (JBool false) s'
          else if b =? 110 then read_word "ull" JNull s'
          else match read_number (String c s') with Some (t, s) => Some (JNum t, s) | None => None end
      end
  end
with read_elems (fuel : nat) (s : string) : option (list json * string) :=
  match fuel with
  | O => None
  | S fuel =>
      match read_value fuel s with
      | Some (j, s) => after 93 (read_elems fuel) j s
      | None => None
      end
  end
with read_members (fuel : nat) (s : string) : option (list (string * json) * string) :=
  match fuel with
  | O => None
  | S fuel =>
      match read_key s with
      | Some (k, s) =>
          match read_value fuel s with
          | Some (j, s) => after 125 (read_members fuel) (k, j) s
          | None => None
          end
      | None => None
      end
  end.

(** The value of a whole text; every step of the reader consumes a character. *)
Definition parse (s : string) : option json :=
  match read_value (2 * String.length s + 2) s with
  | Some (j, rest) => match skip rest with EmptyString => Some j | _ => None end
  | None => None
  end.

Definition sample_text : string :=
  print (JObj [("a"%string, JArr [JNum "-10"; JNull; JBool true; JStr (String dquote "<x>")]); ("b"%string, JObj [])]).

Example sample_parses :
  parse sample_text =
  Some (JObj [("a"%string, JArr [JNum "-10"; JNull; JBool true; JStr (String dquote "<x>")]); ("b"%string, JObj [])]) /\
  parse (" [ 1.5e+3 , " +:+ sample_text +:+ "] ") =
  Some (JArr [JNum "1.5e+3"; JObj [("a"%string, JArr [JNum "-10"; JNull; JBool true; JStr (String dquote "<x>")]); ("b"%string, JObj [])]]) /\
  parse "[1,]" = None /\ parse "01" = None /\ parse "" = None.
Proof. vm_compute. by split_and!. Qed.

(** ** Reading back what was printed *)

Definition FormatInt (z : Z) : string := if z <? 0 then String "-"%char (FormatUint (- z)) else FormatUint z.

Inductive wf : json -> Prop :=
  | wf_null : wf JNull
  | wf_bool b : wf (JBool b)
  | wf_num z : wf (JNum (FormatInt z))
  | wf_str s : utf8 s -> wf (JStr s)
  | wf_arr l : (forall j, j ∈ l -> wf j) -> wf (JArr l)
  | wf_obj kvs : (forall e, e ∈ kvs -> utf8 e.1) -> (forall e, e ∈ kvs -> wf e.2) -> wf (JObj kvs).

(** What may follow a value. *)
Definition ends (s : string) : Prop :=
  match s with EmptyString => True | String c _ => code c = 44 \/ code c = 93 \/ code c = 125 end.

(** What a value begins with. *)
Definition starts (s : string) : Prop :=
  match s with
  | EmptyString => False
  | String c _ => negb ((code c =? 32) || (code c =? 9) || (code c =? 13) || (code c =? 10)) && negb (code c =? 93)
                  && negb (code c =? 125) = true
  end.

Lemma starts_skip s : starts s -> skip s = s.
Proof. destruct s as [|c s]; [done|]. simpl. by destruct (_ || _ || _ || _). Qed.

Lemma starts_app s t : starts s -> starts (s +:+ t).
Proof. by destruct s. Qed.

Lemma is_digit_code c : is_digit c = between 48 (code c) 57.
Proof. done. Qed.

Lemma FormatUint_lead n : 0 < n -> exists c s, FormatUint n = String c s /\ is_digit c = true /\ code c <> 48.
Proof.
  intros Hn. rewrite FormatUint_N, pretty_N_unfold by lia. rewrite decide_False by lia.
  assert (Hx : (0 < Z.to_N n)%N) by lia. revert Hx. generalize (Z.to_N n) ""%string.
  apply (pretty_go_ind (fun x s => (0 < x)%N -> exists c t, pretty_N_go x s = String c t /\ is_digit c = true /\ code c <> 48)).
  - intros s Hx. lia.
  - intros x s Hx IH _. rewrite pretty_N_go_step by done.
    destruct (decide (x / 10 = 0)%N) as [E|E]; [|by apply IH, N.neq_0_lt_0].
    rewrite E, pretty_N_go_0. destruct (pretty_char_digit (x mod 10)) as [Hd Hv]; [apply N.mod_lt; lia|].
    do 2 eexists. split; [done|]. split; [done|]. unfold digit_val in Hv. unfold code.
    assert (Hm : (x mod 10 = x)%N) by (pose proof (N.div_mod x 10); lia). rewrite Hm in Hv |- *. lia.
Qed.

Lemma FormatUint_nonempty n : 0 <= n -> FormatUint n <> ""%string.
Proof.
  intros Hn E. destruct (decide (n = 0)) as [->|]; [discriminate E|].
  destruct (FormatUint_lead n) as (c & s & E' & _); [lia|congruence].
Qed.

Lemma digits_app d rest :
  str_all is_digit d = true -> ends rest -> digits (d +:+ rest) = (d, rest).
Proof.
  intros Hd He. induction d as [|c d IH].
  - rewrite append_nil. destruct rest as [|c rest]; [done|]. simpl. rewrite is_digit_code. unfold between.
    simpl in He. destruct (Z.leb_spec (code c) 57), (Z.leb_spec 48 (code c)); simpl; try done; lia.
  - simpl in Hd. apply andb_true_iff in Hd as [Hc Hd]. rewrite append_cons. cbn [digits]. rewrite Hc, IH; done.
Qed.

Lemma read_int_FormatUint n rest : 0 <= n -> ends rest -> read_int (FormatUint n +:+ rest) = Some (FormatUint n, rest).
Proof.
  intros Hn He. destruct (decide (n = 0)) as [->|Hz]; [reflexivity|].
  destruct (FormatUint_lead n) as (c & s & E & Hc & Hne); [lia|].
  pose proof (digits_FormatUint n Hn) as Hd. rewrite E in *. rewrite append_cons. cbn [read_int].
  rewrite (proj2 (Z.eqb_neq _ _) Hne). unfold digits1.
  rewrite <- append_cons. by rewrite (digits_app _ _ Hd He).
Qed.

Lemma read_frac_ends s : ends s -> read_frac s = Some (""%string, s).
Proof. destruct s as [|c s]; [done|]. simpl. intros H. destruct (Z.eqb_spec (code c) 46); [lia|done]. Qed.

Lemma read_exp_ends s : ends s -> read_exp s = Some (""%string, s).
Proof.
  destruct s as [|c s]; [done|]. simpl. intros H. destruct (Z.eqb_spec (code c) 101), (Z.eqb_spec (code c) 69); [lia..|done].
Qed.

Lemma append_nil_r s : s +:+ "" = s.
Proof. induction s as [|c s IH]; [done|]. by rewrite append_cons, IH. Qed.

Lemma read_number_FormatInt z rest : ends rest -> read_number (FormatInt z +:+ rest) = Some (FormatInt z, rest).
Proof.
  intros He. unfold FormatInt. destruct (Z.ltb_spec z 0).
  - rewrite append_cons. unfold read_number. change (code "-" =? 45) with true. cbv iota.
    rewrite read_int_FormatUint, read_frac_ends, read_exp_ends by (done || lia).
    by rewrite append_cons, append_nil, append_nil, append_nil_r.
  - pose proof (digits_FormatUint z ltac:(lia)) as Hd. pose proof (read_int_FormatUint z rest ltac:(lia) He) as Hi.
    unfold read_number. destruct (FormatUint z) as [|c s] eqn:E; [by apply FormatUint_nonempty in E|].
    simpl in Hd. apply andb_true_iff in Hd as [Hc _]. rewrite is_digit_code in Hc. unfold between in Hc.
    rewrite append_cons in *. destruct (Z.eqb_spec (code c) 45); [bool_to_prop; lia|].
    rewrite Hi, read_frac_ends, read_exp_ends by done. by rewrite append_nil, append_nil, append_nil_r.
Qed.

Lemma print_starts j : wf j -> starts (print j).
Proof.
  destruct 1 as [|[]|z|s|l|kvs]; try reflexivity. simpl. unfold FormatInt.
  destruct (Z.ltb_spec z 0); [reflexivity|].
  pose proof (digits_FormatUint z ltac:(done)) as Hd. destruct (FormatUint z) as [|c s] eqn:E; [by apply FormatUint_nonempty in E|].
  simpl in Hd. apply andb_true_iff in Hd as [Hc _]. rewrite is_digit_code in Hc. unfold between in Hc. bool_to_prop.
  simpl. repeat match goal with |- context [code c =? ?x] => rewrite (proj2 (Z.eqb_neq (code c) x)) by lia end. done.
Qed.

Lemma FormatInt_starts z t :
  exists c s, FormatInt z +:+ t = String c s /\
    negb ((code c =? 34) || (code c =? 91) || (code c =? 123) || (code c =? 116) || (code c =? 102) || (code c =? 110)) = true.
Proof.
  unfold FormatInt. destruct (Z.ltb_spec z 0); [by do 2 eexists|].
  pose proof (digits_FormatUint z ltac:(done)) as Hd. destruct (FormatUint z) as [|c s] eqn:E; [by apply FormatUint_nonempty in E|].
  exists c, (s +:+ t). split; [done|]. simpl in Hd. apply andb_true_iff in Hd as [Hc _]. rewrite is_digit_code in Hc.
  unfold between in Hc. bool_to_prop.
  repeat match goal with |- context [code c =? ?x] => rewrite (proj2 (Z.eqb_neq (code c) x)) by lia end. done.
Qed.

Lemma read_print_string s t :
  utf8 s -> read_string (S (String.length (escape (String.length s) s +:+ String dquote t)))
              (escape (String.length s) s +:+ String dquote t) = Some (s, t).
Proof. intros Hs. apply read_escape; [done|lia|]. rewrite length_append. lia. Qed.

Lemma print_string_app s t : print_string s +:+ t = String dquote (escape (String.length s) s +:+ String dquote t).
Proof. unfold print_string. by rewrite append_cons, append_assoc. Qed.

(** A key is read up to its quote, and a colon is expected. *)
Lemma read_key_string k t :
  utf8 k -> read_key (print_string k +:+ t) =
    match skip t with String c s => if code c =? 58 then Some (k, s) else None | EmptyString => None end.
Proof. intros Hk. rewrite print_string_app. unfold read_key. simpl skip. cbv iota. by rewrite read_print_string. Qed.

Lemma read_key_print k t : utf8 k -> read_key (print_string k +:+ (":" +:+ t)) = Some (k, t).
Proof. intros Hk. by rewrite read_key_string. Qed.

Section elements.
Context {A : Type} (text : A -> string) (close : ascii) (read : nat -> string -> option (list A * string))
  (one : nat -> string -> option (A * string)) (good : A -> Prop).

Hypothesis close_ends : code close = 93 \/ code close = 125.
Hypothesis read_S : forall fuel s,
  read (S fuel) s = match one fuel s with Some (x, s) => after (code close) (read fuel) x s | None => None end.
Hypothesis one_text : forall x fuel t,
  good x -> (2 * String.length (text x) <= fuel)%nat -> ends t -> one fuel (text x +:+ t) = Some (x, t).

(** One or more elements, up to the bracket that closes them. *)
Lemma read_Join l : forall fuel t, l <> [] -> Forall good l ->
  (2 * String.length (Join (map text l) ",") + 1 <= fuel)%nat ->
  read fuel (Join (map text l) "," +:+ String close t) = Some (l, t).
Proof using close_ends read_S one_text.
  induction l as [|x l IH]; intros fuel t Hne Hl Hf; [done|]. apply Forall_cons in Hl as [Hx Hl].
  destruct fuel as [|fuel]; [simpl in Hf; lia|]. rewrite read_S. unfold after.
  destruct l as [|y l].
  - cbn [map Join] in *. rewrite one_text; [|done|lia|by simpl; destruct close_ends; auto].
    simpl skip. destruct close_ends as [E|E]; rewrite E; simpl; by rewrite E.
  - change (Join (map text (x :: y :: l)) ",") with (text x +:+ ("," +:+ Join (map text (y :: l)) ",")) in *.
    rewrite !length_append in Hf. rewrite append_assoc, one_text; [|done|lia|by left].
    rewrite append_assoc. change ("," +:+ ?s) with (String ","%char s).
    simpl skip. cbv iota. rewrite IH; [done|done|done|]. simpl in Hf |- *. lia.
Qed.
End elements.

Lemma list_of_starts {A} close (more : string -> option (list A * string)) s :
  starts s -> (close = 93 \/ close = 125) -> list_of close more s = more s.
Proof.
  intros Hs Hc. unfold list_of. rewrite starts_skip by done. destruct s as [|c s]; [done|]. simpl in Hs.
  rewrite <- andb_assoc in Hs. apply andb_true_iff in Hs as [_ [H1 H2]%andb_true_iff]. bool_to_prop.
  destruct (Z.eqb_spec (code c) close); [lia|done].
Qed.

Lemma Join_starts ws sep t : (forall w, w ∈ ws -> starts w) -> ws <> [] -> starts (Join ws sep +:+ t).
Proof.
  intros Hw Hne. destruct ws as [|w ws]; [done|]. assert (Hs : starts w) by (apply Hw; by left).
  simpl. destruct ws; rewrite ?append_assoc; by apply starts_app.
Qed.

(** What [json.Marshal] writes is read back. *)
Lemma read_print j : wf j -> forall fuel t,
  (2 * String.length (print j) <= fuel)%nat -> ends t -> read_value fuel (print j +:+ t) = Some (j, t).
Proof.
  induction 1 as [|b|z|s Hs|l Hl IH|kvs Hk Hv IH]; intros fuel t Hf Ht.
  - destruct fuel as [|fuel]; [simpl in Hf; lia|]. reflexivity.
  - destruct fuel as [|fuel]; [destruct b; simpl in Hf; lia|]. by destruct b.
  - destruct fuel as [|fuel].
    { pose proof (print_starts _ (wf_num z)) as Hst. destruct (print (JNum (FormatInt z))); [done|simpl in Hf; lia]. }
    pose proof (print_starts _ (wf_num z)) as Hst. apply (starts_app _ t) in Hst. cbn [read_value].
    rewrite starts_skip by done. cbn [print]. destruct (FormatInt_starts z t) as (c & s & E & Hc).
    rewrite E. apply negb_true_iff, orb_false_iff in Hc as [Hc H6]. apply orb_false_iff in Hc as [Hc H5].
    apply orb_false_iff in Hc as [Hc H4]. apply orb_false_iff in Hc as [Hc H3]. apply orb_false_iff in Hc as [H1 H2].
    rewrite H1, H2, H3, H4, H5, H6, <- E. by rewrite read_number_FormatInt.
  - destruct fuel as [|fuel]; [simpl in Hf; lia|]. cbn [print read_value]. rewrite print_string_app. simpl skip. cbv iota.
    change (code dquote) with 34. simpl Z.eqb. cbv iota. by rewrite read_print_string.
  - destruct fuel as [|fuel]; [simpl in Hf; lia|]. cbn [print] in *. rewrite !length_append in Hf. simpl in Hf.
    cbn [read_value]. rewrite append_assoc, append_assoc. change ("[" +:+ ?s) with (String "["%char s). simpl skip. cbv iota.
    change (code "[") with 91. simpl Z.eqb. cbv iota. change ("]" +:+ t) with (String "]"%char t).
    destruct l as [|x l]; [done|].
    rewrite list_of_starts; [|apply Join_starts; [|done]|by left].
    2: { intros w (j & -> & Hj)%list_elem_of_fmap. by apply print_starts, Hl. }
    rewrite (read_Join print "]"%char read_elems read_value (fun j => j ∈ x :: l)); [done|by left| | |done| |lia].
    + intros f s. cbn [read_elems]. by destruct (read_value f s) as [[]|].
    + intros j f s Hj Hlen Hs. by apply IH.
    + by apply Forall_forall.
  - destruct fuel as [|fuel]; [simpl in Hf; lia|]. cbn [print] in *. rewrite !length_append in Hf. simpl in Hf.
    cbn [read_value]. rewrite append_assoc, append_assoc. change ("{" +:+ ?s) with (String "{"%char s). simpl skip. cbv iota.
    change (code "{") with 123. simpl Z.eqb. cbv iota. change ("}" +:+ t) with (String "}"%char t).
    destruct kvs as [|x kvs]; [done|].
    rewrite list_of_starts; [|apply Join_starts; [|done]|by right].
    2: { intros w (j & -> & Hj)%list_elem_of_fmap. unfold print_string. rewrite append_cons. reflexivity. }
    rewrite (read_Join (fun e => print_string e.1 +:+ ":" +:+ print e.2) "}"%char read_members
      (fun f s => match read_key s with
                  | Some (k, s) => match read_value f s with Some (j, s) => Some ((k, j), s) | None => None end
                  | None => None end) (fun e => e ∈ x :: kvs)); [done|by right| | |done| |lia].
    + intros f s. cbn [read_members]. destruct (read_key s) as [[k s1]|]; [|done]. by destruct (read_value f s1) as [[]|].
    + intros [k j] f s Hj Hlen Hs. cbn [fst snd] in *. rewrite !length_append in Hlen.
      rewrite append_assoc, append_assoc, read_key_print by (by apply (Hk (k, j))).
      rewrite (IH (k, j)); [done|done|simpl in *; lia|done].
    + by apply Forall_forall.
Qed.

Theorem parse_print j : wf j -> parse (print j) = Some j.
Proof.
  intros Hj. unfold parse. pose proof (read_print j Hj (2 * String.length (print j) + 2) "" ltac:(lia) I) as E.
  rewrite append_nil_r in E. by rewrite E.
Qed.
