(* ===== verification/GoCodec.v ===== *)
(** * encoding/json on the types of Go

    How a value is written as a tree of the file GoJson and read from one, for the
    types the program gives to encoding/json: strings, booleans, integers of a
    width, pointers, slices, and structs by the names of their fields.  Reading
    goes into a variable, as in Go: null leaves it alone, except that it makes a
    pointer nil and a slice empty; a struct keeps the fields the text does not name.

    Not told apart: a nil slice and an empty one.  An element of a slice is read into
    a zero value; Go reuses the elements of a slice that had some. *)
From Stdlib Require Import ZArith Lia List Ascii.
From stdpp Require Import prelude strings.
From S2P Require Import Prelude GoLang Errs GoStrings GoJson.

Class JsonCodec (A : Type) := {
  blank : A;
  to_json : A -> json;
  of_json : A -> json -> option A }.

(** What is written is read back, whatever the variable held. *)
Class JsonLaws (A : Type) `{!JsonCodec A} (ok : A -> Prop) : Prop := {
  to_json_wf x : ok x -> wf (to_json x);
  of_to_json x y : ok x -> of_json y (to_json x) = Some x }.

(** [json.Marshal] has no error for these types. *)
Definition Marshal `{JsonCodec A} (x : A) : string + error := inl (print (to_json x)).

Definition ErrUnmarshal : error := ENew "json: cannot unmarshal".

Definition Unmarshal `{JsonCodec A} (s : string) (x : A) : A + error :=
  match parse s with
  | Some j => match of_json x j with Some y => inl y | None => inr ErrUnmarshal end
  | None => inr (ENew "invalid character")
  end.

Lemma Unmarshal_Marshal `{JsonLaws A ok} x y s : ok x -> Marshal x = inl s -> Unmarshal s y = inl x.
Proof.
  intros Hx [= <-]. unfold Unmarshal. rewrite parse_print by (by eapply to_json_wf). by erewrite of_to_json.
Qed.

(** ** Basic types *)

#[global] Instance string_codec : JsonCodec string := {|
  blank := ""%string; to_json := JStr;
  of_json cur j := match j with JStr s => Some s | JNull => Some cur | _ => None end |}.

#[global] Instance string_laws : JsonLaws string utf8.
Proof. split; [apply wf_str|done]. Qed.

#[global] Instance bool_codec : JsonCodec bool := {|
  blank := false; to_json := JBool;
  of_json cur j := match j with JBool b => Some b | JNull => Some cur | _ => None end |}.

#[global] Instance bool_laws : JsonLaws bool (fun _ => True).
Proof. split; [intros b _; apply wf_bool|done]. Qed.

(** [strconv.ParseInt] and [ParseUint] on the text of a number. *)
Definition uint_of_text (w : Z) (t : string) : option Z :=
  match ParseUint t with
  | (z, None) => if z <? 2 ^ w then Some z else None
  | (_, Some _) => None
  end.

Definition int_of_text (w : Z) (t : string) : option Z :=
  let check z := if (- 2 ^ (w - 1) <=? z) && (z <? 2 ^ (w - 1)) then Some z else None in
  match t with
  | String c s =>
      if code c =? 45 then match ParseUint s with (z, None) => check (- z) | (_, Some _) => None end
      else match ParseUint t with (z, None) => check z | (_, Some _) => None end
  | EmptyString => None
  end.

Lemma uint_of_FormatInt w z : 0 <= w <= 64 -> in_u w z -> uint_of_text w (FormatInt z) = Some z.
Proof.
  intros Hw [H0 H1]. unfold FormatInt, uint_of_text. destruct (Z.ltb_spec z 0); [lia|].
  assert (2 ^ w <= 2 ^ 64) by (apply Z.pow_le_mono_r; lia).
  rewrite ParseUint_FormatUint by (unfold in_u; lia). by destruct (Z.ltb_spec z (2 ^ w)); [|lia].
Qed.

Lemma int_of_FormatInt w z : 0 < w <= 64 -> in_s w z -> int_of_text w (FormatInt z) = Some z.
Proof.
  intros Hw [H0 H1]. unfold FormatInt, int_of_text.
  assert (2 ^ (w - 1) <= 2 ^ 63) by (apply Z.pow_le_mono_r; lia).
  assert (Hc : (- 2 ^ (w - 1) <=? z) && (z <? 2 ^ (w - 1)) = true) by (apply andb_true_iff; split; [apply Z.leb_le|apply Z.ltb_lt]; lia).
  destruct (Z.ltb_spec z 0).
  - change (code "-") with 45. simpl Z.eqb. cbv iota. rewrite ParseUint_FormatUint by (unfold in_u; lia).
    by rewrite Z.opp_involutive, Hc.
  - pose proof (digits_FormatUint z ltac:(done)) as Hd. pose proof (ParseUint_FormatUint z ltac:(unfold in_u; lia)) as Hp.
    destruct (FormatUint z) as [|c s] eqn:E; [by apply FormatUint_nonempty in E|].
    simpl in Hd. apply andb_true_iff in Hd as [Hd _]. rewrite is_digit_code in Hd.
    apply andb_true_iff in Hd as [Hd%Z.leb_le _]. rewrite (proj2 (Z.eqb_neq (code c) 45)) by lia. by rewrite Hp, Hc.
Qed.

Definition uint_codec (w : Z) : JsonCodec Z := {|
  blank := 0; to_json z := JNum (FormatInt z);
  of_json cur j := match j with JNum t => uint_of_text w t | JNull => Some cur | _ => None end |}.

Definition int_codec (w : Z) : JsonCodec Z := {|
  blank := 0; to_json z := JNum (FormatInt z);
  of_json cur j := match j with JNum t => int_of_text w t | JNull => Some cur | _ => None end |}.

Lemma uint_laws w : 0 <= w <= 64 -> @JsonLaws Z (uint_codec w) (in_u w).
Proof. intros Hw. split; [intros; apply wf_num|]. intros x y Hx. by apply uint_of_FormatInt. Qed.

Lemma int_laws w : 0 < w <= 64 -> @JsonLaws Z (int_codec w) (in_s w).
Proof. intros Hw. split; [intros; apply wf_num|]. intros x y Hx. by apply int_of_FormatInt. Qed.

(** ** Pointers and slices *)

#[global] Instance pointer_codec `{JsonCodec A} : JsonCodec (option A) := {|
  blank := None;
  to_json o := match o with Some x => to_json x | None => JNull end;
  of_json cur j := match j with JNull => Some None | _ => Some <$> of_json (default blank cur) j end |}.

(** What a type writes is not null, so that a pointer to it is read back. *)
Class NotNull (A : Type) `{!JsonCodec A} : Prop := { not_null x : to_json x <> JNull }.

Definition option_ok {A} (ok : A -> Prop) (o : option A) : Prop := match o with Some x => ok x | None => True end.

#[global] Instance pointer_laws `{JsonLaws A ok} `{!NotNull A} : JsonLaws (option A) (option_ok ok).
Proof.
  split; intros [x|]; simpl; intros; [by eapply to_json_wf|constructor| |done].
  assert (Hn := not_null x). assert (E : of_json (default blank y) (to_json x) = Some x) by (by eapply of_to_json).
  destruct (to_json x); [done|..]; by rewrite E.
Qed.

Fixpoint elements_of `{JsonCodec A} (l : list json) : option (list A) :=
  match l with
  | [] => Some []
  | j :: l =>
      match of_json blank j, elements_of l with
      | Some x, Some xs => Some (x :: xs)
      | _, _ => None
      end
  end.

#[global] Instance slice_codec `{JsonCodec A} : JsonCodec (list A) := {|
  blank := []; to_json l := JArr (map to_json l);
  of_json cur j := match j with JNull => Some [] | JArr l => elements_of l | _ => None end |}.

#[global] Instance slice_laws `{JsonLaws A ok} : JsonLaws (list A) (Forall ok).
Proof.
  split; simpl.
  - intros l Hl. constructor. intros j (x & -> & Hx)%list_elem_of_fmap. eapply to_json_wf.
    rewrite Forall_forall in Hl. by apply Hl.
  - intros l _ Hl. induction Hl as [|x l Hx _ IH]; [done|]. simpl.
    assert (E : of_json blank (to_json x) = Some x) by (by eapply of_to_json). by rewrite E, IH.
Qed.

(** ** Structs *)

Record field (R : Type) := mkField { fname : string; fget : R -> json; fset : R -> json -> option R }.
Arguments mkField {R}.
Arguments fname {R}.
Arguments fget {R}.
Arguments fset {R}.

Definition member {R A} `{JsonCodec A} (name : string) (get : R -> A) (set : R -> A -> R) : field R :=
  mkField name (fun r => to_json (get r)) (fun r j => set r <$> of_json (get r) j).

Section struct.
Context {R : Type} (fs : list (field R)).

(** A key names the field it is equal to under folding of case. *)
Definition find_field (k : string) : option (field R) := List.find (fun f => EqualFold k (fname f)) fs.

Fixpoint set_fields (r : R) (kvs : list (string * json)) : option R :=
  match kvs with
  | [] => Some r
  | (k, v) :: kvs =>
      match find_field k with
      | Some f => match fset f r v with Some r => set_fields r kvs | None => None end
      | None => set_fields r kvs
      end
  end.

Definition struct_to (r : R) : json := JObj (map (fun f => (fname f, fget f r)) fs).

Definition struct_of (r : R) (j : json) : option R :=
  match j with JNull => Some r | JObj kvs => set_fields r kvs | _ => None end.

(** The names are ASCII, and different also under folding. *)
Definition names_ok : bool :=
  forallb (fun f => is_ascii (fname f) && match find_field (fname f) with Some g => String.eqb (fname g) (fname f) | None => false end) fs
  && bool_decide (NoDup (map fname fs)).

(** The fields of [x] written to a variable one after the other. *)
Fixpoint copy_fields (l : list (field R)) (y x : R) : option R :=
  match l with
  | [] => Some y
  | f :: l => match fset f y (fget f x) with Some y => copy_fields l y x | None => None end
  end.

Lemma find_field_name f : names_ok = true -> f ∈ fs -> find_field (fname f) = Some f.
Proof using Type.
  unfold names_ok. intros [Hall Hnd]%andb_true_iff Hf. apply bool_decide_eq_true in Hnd.
  rewrite forallb_forall in Hall. pose proof (Hall f ltac:(by apply list_elem_of_In)) as [_ H]%andb_true_iff.
  destruct (find_field (fname f)) as [g|] eqn:E; [|done]. apply String.eqb_eq in H.
  apply find_some in E as [Hg%list_elem_of_In _]. f_equal.
  apply list_elem_of_lookup in Hf as [i Hi]. apply list_elem_of_lookup in Hg as [j Hj].
  assert (i = j) as ->.
  { eapply NoDup_lookup; [exact Hnd|..]; rewrite list_lookup_fmap; [by rewrite Hi|by rewrite Hj, <- H]. }
  congruence.
Qed.

Lemma set_fields_copy l y x :
  names_ok = true -> (forall f, f ∈ l -> f ∈ fs) ->
  set_fields y (map (fun f => (fname f, fget f x)) l) = copy_fields l y x.
Proof using Type.
  intros Hn. revert y. induction l as [|f l IH]; intros y Hl; simpl; [done|].
  rewrite find_field_name; [|done|apply Hl; by left]. destruct (fset f y (fget f x)); [|done].
  apply IH. intros g Hg. apply Hl. by right.
Qed.

Lemma struct_of_to y x : names_ok = true -> struct_of y (struct_to x) = copy_fields fs y x.
Proof using Type. intros Hn. by apply set_fields_copy. Qed.

Lemma struct_to_wf x : names_ok = true -> Forall (fun f => wf (fget f x)) fs -> wf (struct_to x).
Proof using Type.
  intros [Hall _]%andb_true_iff Hx. rewrite forallb_forall in Hall. rewrite Forall_forall in Hx.
  constructor; intros e (f & -> & Hf)%list_elem_of_fmap; simpl; [|by apply Hx].
  apply ascii_utf8. apply list_elem_of_In, Hall, andb_true_iff in Hf as [? _]. done.
Qed.
End struct.

Definition struct_codec {R} (zero : R) (fs : list (field R)) : JsonCodec R := {|
  blank := zero; to_json := struct_to fs; of_json := struct_of fs |}.

Lemma struct_not_null {R} (zero : R) fs : @NotNull R (struct_codec zero fs).
Proof. by split. Qed.

Lemma struct_laws {R} (zero : R) fs (ok : R -> Prop) :
  names_ok fs = true -> (forall x, ok x -> Forall (fun f => wf (fget f x)) fs) ->
  (forall x y, ok x -> copy_fields fs y x = Some x) -> @JsonLaws R (struct_codec zero fs) ok.
Proof.
  intros Hn Hwf Hcopy. split.
  - intros x Hx. apply struct_to_wf; [done|by apply Hwf].
  - intros x y Hx. change (struct_of fs y (struct_to fs x) = Some x). rewrite struct_of_to by done. by apply Hcopy.
Qed.

(** *** Fields of a codec *)

#[global] Instance int64_laws : @JsonLaws Z (int_codec 64) (in_s 64) := int_laws 64 ltac:(lia).
#[global] Instance int32_laws : @JsonLaws Z (int_codec 32) (in_s 32) := int_laws 32 ltac:(lia).
#[global] Instance uint64_laws : @JsonLaws Z (uint_codec 64) (in_u 64) := uint_laws 64 ltac:(lia).

Lemma wf_member {R} `{JsonLaws A ok} name (get : R -> A) set x : ok (get x) -> wf (fget (member name get set) x).
Proof. intros Hx. simpl. by eapply to_json_wf. Qed.

Lemma copy_member {R} `{JsonLaws A ok} name (get : R -> A) set l y x r :
  ok (get x) -> copy_fields l (set y (get x)) x = r -> copy_fields (member name get set :: l) y x = r.
Proof.
  intros Hx Hr. simpl. assert (E : of_json (get y) (to_json (get x)) = Some (get x)) by (by eapply of_to_json).
  by rewrite E.
Qed.

(** The laws of a struct from those of its members: the hypothesis on the struct is
    one on each member, in their order. *)
Ltac struct_wf :=
  let x := fresh "x" in let Hx := fresh "Hx" in intros x Hx; hnf in Hx; destruct_and?;
  match goal with |- Forall _ ?fs => unfold fs end;
  repeat (apply Forall_cons; split; [eapply wf_member; first [eassumption|exact I]|]); apply Forall_nil; exact I.
Ltac struct_copy :=
  let x := fresh "x" in let y := fresh "y" in let Hx := fresh "Hx" in intros x y Hx; hnf in Hx; destruct_and?;
  match goal with |- copy_fields ?fs _ _ = _ => unfold fs end; destruct y;
  repeat (eapply copy_member; [first [eassumption|exact I]|];
          match goal with |- copy_fields ?l ?y ?x = ?r => let z := eval cbn in y in change (copy_fields l z x = r) end);
  by destruct x.
Ltac struct_law := apply struct_laws; [by vm_compute|struct_wf|struct_copy].
