(* ===== verification/Externals.v ===== *)
(** * Code outside the repository

    The packages the repository calls but does not contain, as interfaces: the
    operations the code uses, and the documented behaviour it relies on.  Every
    theorem that rests on one takes it as an argument; the instances below only
    show that the interfaces can be met. *)
From Stdlib Require Import ZArith Lia List Ascii.
From stdpp Require Import prelude strings gmap.
From S2P Require Import Prelude GoLang Errs.

(** ** github.com/cespare/xxhash *)

(** [xxhash.Sum64String] is a function to uint64. *)
Class XXHash := {
  Sum64String : string -> Z;
  Sum64String_range s : in_u 64 (Sum64String s) }.

#[export] Hint Resolve Sum64String_range : jotify.

(** A stand-in: FNV-1a on 64 bits. *)
Fixpoint fnv1a (s : string) (h : Z) : Z :=
  match s with
  | EmptyString => u64 h
  | String c s => fnv1a s (u64 (Z.lxor h (Z.of_N (N_of_ascii c)) * 1099511628211))
  end.

Lemma fnv1a_range s h : in_u 64 (fnv1a s h).
Proof. revert h; induction s as [|c s IH]; intros h; simpl; [auto with jotify|apply IH]. Qed.

Definition fnv_hash : XXHash := {|
  Sum64String s := fnv1a s 14695981039346656037;
  Sum64String_range s := fnv1a_range s _ |}.

(** ** Iteration over a Go map

    [range] over a map visits every entry once, in an order of its own. *)
Class MapRange := {
  map_range `{Countable K} {A} : gmap K A -> list (K * A);
  map_range_perm `{Countable K} {A} (m : gmap K A) : map_range m ≡ₚ map_to_list m }.

Definition key_order : MapRange := {|
  map_range K _ _ A m := map_to_list m;
  map_range_perm K _ _ A m := reflexivity _ |}.

Lemma map_range_lookup `{MapRange} `{Countable K} {A} (m : gmap K A) k x :
  (k, x) ∈ map_range m <-> m !! k = Some x.
Proof. by rewrite map_range_perm, elem_of_map_to_list. Qed.

Lemma map_range_empty `{MapRange} `{Countable K} {A} : map_range (∅ : gmap K A) = [].
Proof. apply Permutation_nil_r. by rewrite map_range_perm, map_to_list_empty. Qed.
