(* ===== verification/RingBuffer.v ===== *)
(** * The sliding window of durations

    internal/pkg/ringbuffer/ringbuffer.go, and internal/pkg/buffer/ring_buffer.go
    which repeats it with a constructor that panics.  The methods hold the
    buffer's mutex from their first line to their return, so each is one atomic
    step on the state.

    The abstract view of a buffer is the list of all durations added since the
    last reset; [repr] relates the two and every operation refines the list
    operation. *)
From Stdlib Require Import ZArith Lia List.
From stdpp Require Import prelude strings gmap.
From S2P Require Import Prelude GoLang Errs.

Module Ring.

Record TimeDurationRingBuffer := mkRB {
  buffer : list Duration;
  size : Z;
  count : Z;
  writePos : Z;
  sum : Duration }.

#[export] Instance rb_eq_dec : EqDecision TimeDurationRingBuffer.
Proof. solve_decision. Defined.

Definition ErrInvalidBufferSize : error :=
  ESentinel (SVar "ErrInvalidBufferSize") "[jotify] buffer size must be greater than zero".

Definition Add (rb : TimeDurationRingBuffer) (d : Duration) : go TimeDurationRingBuffer :=
  let! '(sum1, count1) :=
    (if count rb =? size rb
     then let! old := slice_get (buffer rb) (writePos rb) in
          Ret (i64 (sum rb - old), count rb)
     else Ret (sum rb, i64 (count rb + 1))) in
  let! buffer1 := slice_set (buffer rb) (writePos rb) d in
  let! writePos1 := go_rem (i64 (writePos rb + 1)) (size rb) in
  Ret {| buffer := buffer1; size := size rb; count := count1;
         writePos := writePos1; sum := i64 (sum1 + d) |}.

Definition Avg (rb : TimeDurationRingBuffer) : go Duration :=
  if count rb =? 0 then Ret 0 else go_div (sum rb) (count rb).

(** The loop of [Reset]: [n] elements from index [i] on are set to 0. *)
Fixpoint Reset_loop (n : nat) (i : Z) (b : list Duration) : go (list Duration) :=
  match n with
  | O => Ret b
  | S n => let! b' := slice_set b i 0 in Reset_loop n (i + 1) b'
  end.

Definition Reset (rb : TimeDurationRingBuffer) : go TimeDurationRingBuffer :=
  let! buffer1 := Reset_loop (Z.to_nat (size rb)) 0 (buffer rb) in
  Ret {| buffer := buffer1; size := size rb; count := 0; writePos := 0; sum := 0 |}.

Definition Size (rb : TimeDurationRingBuffer) : Z := size rb.

Definition Count (rb : TimeDurationRingBuffer) : Z := count rb.

Definition NewTimeDurationRingBuffer (n : Z) : option TimeDurationRingBuffer * option error :=
  if n <=? 0 then (None, Some ErrInvalidBufferSize)
  else (Some {| buffer := replicate (Z.to_nat n) 0; size := n;
                count := 0; writePos := 0; sum := 0 |}, None).

(** ** The window a buffer stands for *)

(** [repr rb h]: [rb] holds the last [size rb] durations of the history [h]. *)
Record repr (rb : TimeDurationRingBuffer) (h : list Duration) : Prop := {
  repr_size : 0 < size rb < 2 ^ 62;
  repr_len : Z.of_nat (length (buffer rb)) = size rb;
  repr_count : count rb = Z.min (Z.of_nat (length h)) (size rb);
  repr_pos : writePos rb = Z.of_nat (length h) mod size rb;
  repr_sum : sum rb = i64 (sumZ id (last_n (Z.to_nat (size rb)) h));
  repr_slots : forall j, (length h - Z.to_nat (size rb) <= j < length h)%nat ->
    buffer rb !! Z.to_nat (Z.of_nat j mod size rb) = h !! j }.

Lemma ring_New_repr n :
  0 < n < 2 ^ 62 ->
  exists rb, NewTimeDurationRingBuffer n = (Some rb, None) /\ repr rb [] /\ size rb = n.
Proof.
  intros Hn. unfold NewTimeDurationRingBuffer.
  destruct (Z.leb_spec n 0); [lia|]. eexists; split_and!; [done| |done].
  constructor; cbn [size buffer count writePos sum length]; [done|rewrite length_replicate; lia|lia|by rewrite Z.mod_0_l by lia| |lia].
  by rewrite last_n_nil.
Qed.

Lemma repr_pos_range rb h : repr rb h -> 0 <= writePos rb < size rb.
Proof. intros []. rewrite repr_pos0. apply Z.mod_pos_bound; lia. Qed.

(** The slot about to be overwritten holds the oldest element of a full window. *)
Lemma repr_oldest rb h :
  repr rb h -> size rb <= Z.of_nat (length h) ->
  exists old, buffer rb !! Z.to_nat (writePos rb) = Some old /\
    last_n (Z.to_nat (size rb)) h = old :: drop 1 (last_n (Z.to_nat (size rb)) h).
Proof.
  intros [] Hfull. set (k := Z.to_nat (size rb)) in *.
  destruct (lookup_lt_is_Some_2 h (length h - k)) as [old Hold]; [lia|].
  exists old. split.
  - rewrite repr_pos0, <- Hold, <- repr_slots0 by lia. do 2 f_equal.
    apply mod_shift. lia.
  - unfold last_n at 1. rewrite (drop_S _ old) by done. f_equal.
    unfold last_n. rewrite drop_drop. f_equal. lia.
Qed.

Lemma repr_sum_snoc rb h d old :
  repr rb h -> size rb <= Z.of_nat (length h) ->
  last_n (Z.to_nat (size rb)) h = old :: drop 1 (last_n (Z.to_nat (size rb)) h) ->
  i64 (i64 (sum rb - old) + d) = i64 (sumZ id (last_n (Z.to_nat (size rb)) (h ++ [d]))).
Proof.
  intros [] Hfull Hold. rewrite last_n_snoc_full by lia.
  rewrite repr_sum0, Hold, sumZ_app; simpl. rewrite drop_0.
  rewrite wrap_s_sub_l, wrap_s_add_l by done. f_equal. unfold id. lia.
Qed.

Lemma repr_slots_snoc rb h d b' :
  repr rb h -> b' = <[Z.to_nat (writePos rb) := d]> (buffer rb) ->
  forall j, (length (h ++ [d]) - Z.to_nat (size rb) <= j < length (h ++ [d]))%nat ->
    b' !! Z.to_nat (Z.of_nat j mod size rb) = (h ++ [d]) !! j.
Proof.
  intros Hr ->. pose proof (repr_pos_range _ _ Hr) as Hp. destruct Hr.
  intros j. rewrite length_app; simpl. intros Hj.
  pose proof (Z.mod_pos_bound (Z.of_nat j) (size rb)).
  destruct (decide (j = length h)) as [->|Hne].
  - rewrite repr_pos0, list_lookup_insert_eq by lia.
    by rewrite list_lookup_middle.
  - rewrite list_lookup_insert_ne; [by rewrite lookup_app_l, repr_slots0 by lia|].
    intros Heq. apply Hne, (ring_slot_inj (size rb)); lia.
Qed.

Lemma ring_Add_repr rb h d :
  repr rb h -> exists rb', Add rb d = Ret rb' /\ repr rb' (h ++ [d]) /\ size rb' = size rb.
Proof.
  intros Hr. pose proof (repr_pos_range _ _ Hr) as Hp. pose proof Hr as [].
  assert (Hset : slice_set (buffer rb) (writePos rb) d =
                 Ret (<[Z.to_nat (writePos rb) := d]> (buffer rb))).
  { apply slice_set_in. lia. }
  assert (Hpos : go_rem (i64 (writePos rb + 1)) (size rb) =
                 Ret (Z.of_nat (length (h ++ [d])) mod size rb)).
  { rewrite wrap_s_id by (unfold in_s; lia). rewrite go_rem_pos by lia. f_equal.
    rewrite repr_pos0, length_app, Nat2Z.inj_add; simpl. by autorewrite with zmod. }
  unfold Add. destruct (Z.eqb_spec (count rb) (size rb)) as [Hc|Hc].
  - destruct (repr_oldest _ _ Hr) as (old & Hlk & Hl); [lia|].
    assert (slice_get (buffer rb) (writePos rb) = Ret old) as ->.
    { apply slice_get_in; [lia|done]. }
    simpl. rewrite Hset; simpl. rewrite Hpos; simpl. eexists; split_and!; [done| |done].
    constructor; cbn [size buffer count writePos sum length]; [done|by rewrite length_insert| |done| |].
    + rewrite length_app; simpl; lia.
    + apply repr_sum_snoc; [done|lia|done].
    + by eapply repr_slots_snoc.
  - simpl. rewrite Hset; simpl. rewrite Hpos; simpl. eexists; split_and!; [done| |done].
    constructor; cbn [size buffer count writePos sum length]; [done|by rewrite length_insert| |done| |].
    + rewrite wrap_s_id by (unfold in_s; lia). rewrite length_app; simpl; lia.
    + rewrite last_n_snoc_room, sumZ_app by lia; simpl.
      rewrite repr_sum0, wrap_s_add_l. f_equal. unfold id; lia.
    + by eapply repr_slots_snoc.
Qed.

Lemma Reset_loop_ok n i b :
  0 <= i -> (Z.to_nat i + n <= length b)%nat ->
  exists b', Reset_loop n i b = Ret b' /\ length b' = length b.
Proof.
  revert i b; induction n as [|n IH]; intros i b Hi Hl; simpl; [eauto|].
  rewrite slice_set_in by lia; simpl.
  destruct (IH (i + 1) (<[Z.to_nat i := 0]> b)) as (b' & -> & Hb); [lia|rewrite length_insert; lia|].
  exists b'. by rewrite length_insert in Hb.
Qed.

Lemma Reset_repr rb h :
  repr rb h -> exists rb', Reset rb = Ret rb' /\ repr rb' [] /\ size rb' = size rb.
Proof.
  intros []. unfold Reset.
  destruct (Reset_loop_ok (Z.to_nat (size rb)) 0 (buffer rb)) as (b' & -> & Hb); [lia..|].
  eexists; split_and!; [done| |done].
  constructor; cbn [size buffer count writePos sum length]; [done|lia|lia|by rewrite Z.mod_0_l by lia| |lia].
  by rewrite last_n_nil.
Qed.

Lemma Avg_repr rb h :
  repr rb h ->
  Avg rb = Ret (Z.quot (i64 (sumZ id (last_n (Z.to_nat (size rb)) h)))
                       (Z.of_nat (length (last_n (Z.to_nat (size rb)) h)))).
Proof.
  intros []. unfold Avg. rewrite repr_sum0, repr_count0, length_last_n.
  replace (Z.min (Z.of_nat (length h)) (size rb))
    with (Z.of_nat (Z.to_nat (size rb) `min` length h)) by lia.
  destruct (Z.eqb_spec (Z.of_nat (Z.to_nat (size rb) `min` length h)) 0) as [H0|H0].
  - assert (h = []) as -> by (destruct h; [done|simpl in H0; lia]). done.
  - by rewrite go_div_nz.
Qed.

(** ** Runs *)

Inductive op := OAdd (d : Duration) | OReset.

Definition step (rb : TimeDurationRingBuffer) (o : op) : go TimeDurationRingBuffer :=
  match o with OAdd d => Add rb d | OReset => Reset rb end.

Fixpoint run (rb : TimeDurationRingBuffer) (os : list op) : go TimeDurationRingBuffer :=
  match os with
  | [] => Ret rb
  | o :: os => let! rb' := step rb o in run rb' os
  end.

(** The durations a run of operations leaves in the history. *)
Definition history (os : list op) : list Duration :=
  fold_left (fun h o => match o with OAdd d => h ++ [d] | OReset => [] end) os [].

Lemma run_repr_from rb h os :
  repr rb h ->
  exists rb', run rb os = Ret rb' /\ size rb' = size rb /\
    repr rb' (fold_left (fun h o => match o with OAdd d => h ++ [d] | OReset => [] end) os h).
Proof.
  revert rb h; induction os as [|o os IH]; intros rb h Hr; simpl; [eauto|].
  assert (exists rb1, step rb o = Ret rb1 /\ size rb1 = size rb /\
      repr rb1 (match o with OAdd d => h ++ [d] | OReset => [] end)) as (rb1 & -> & Hs & Hr1).
  { destruct o as [d|]; simpl.
    - destruct (ring_Add_repr rb h d Hr) as (? & ? & ? & ?); eauto.
    - destruct (Reset_repr rb h Hr) as (? & ? & ? & ?); eauto. }
  simpl. rewrite <- Hs. by apply IH.
Qed.

Lemma run_repr n os :
  0 < n < 2 ^ 62 ->
  exists rb rb', NewTimeDurationRingBuffer n = (Some rb, None) /\ run rb os = Ret rb' /\
    size rb' = n /\ repr rb' (history os).
Proof.
  intros Hn. destruct (ring_New_repr n Hn) as (rb & Hnew & Hr & Hs).
  destruct (run_repr_from rb [] os Hr) as (rb' & ? & ? & ?).
  exists rb, rb'. split_and!; [done|done|congruence|done].
Qed.

(** ** The average lies between the extremes of the window *)

Lemma sumZ_bounds l lo hi :
  (forall x, x ∈ l -> lo <= x <= hi) ->
  Z.of_nat (length l) * lo <= sumZ id l <= Z.of_nat (length l) * hi.
Proof.
  induction l as [|x l IH]; intros H; [simpl; lia|].
  pose proof (H x ltac:(set_solver)). specialize (IH ltac:(set_solver)).
  rewrite length_cons, Nat2Z.inj_succ. unfold id in *; simpl. lia.
Qed.

Lemma avg_between l lo hi :
  l <> [] -> 0 <= lo -> (forall x, x ∈ l -> lo <= x <= hi) ->
  in_s 64 (sumZ id l) ->
  lo <= Z.quot (i64 (sumZ id l)) (Z.of_nat (length l)) <= hi.
Proof.
  intros Hne Hlo Hb Hs. rewrite wrap_s_id by done.
  pose proof (sumZ_bounds l lo hi Hb).
  assert (0 < Z.of_nat (length l)) by (destruct l; simpl; [done|lia]).
  rewrite Z.quot_div_nonneg by nia.
  split; [apply Z.div_le_lower_bound; lia|].
  apply Z.div_le_upper_bound; lia.
Qed.

(** ** Properties *)

(** C16: from any valid size, any sequence of [Add] and [Reset] runs without a
    panic, and afterwards [Count] and [Avg] are those of the last [n] durations
    added since the last reset (the sum taken modulo 2^64, the quotient
    truncated). *)
Theorem ring_refines_window n os :
  0 < n < 2 ^ 62 ->
  exists rb rb', NewTimeDurationRingBuffer n = (Some rb, None) /\ run rb os = Ret rb' /\
    Size rb' = n /\
    Count rb' = Z.of_nat (length (last_n (Z.to_nat n) (history os))) /\
    Avg rb' = Ret (Z.quot (i64 (sumZ id (last_n (Z.to_nat n) (history os))))
                          (Z.of_nat (length (last_n (Z.to_nat n) (history os))))).
Proof.
  intros Hn. destruct (run_repr n os Hn) as (rb & rb' & Hnew & Hrun & Hs & Hr).
  exists rb, rb'. subst n. split_and!; [done..| |by apply Avg_repr].
  destruct Hr. unfold Count. rewrite repr_count0, length_last_n. lia.
Qed.

Lemma ring_refines_window_witness :
  exists rb rb', NewTimeDurationRingBuffer 2 = (Some rb, None) /\
    run rb [OAdd 5; OAdd 7; OAdd 10] = Ret rb' /\ Avg rb' = Ret 8.
Proof.
  destruct (ring_refines_window 2 [OAdd 5; OAdd 7; OAdd 10]) as (rb & rb' & H1 & H2 & _ & _ & H3);
    [lia|].
  exists rb, rb'. split; [exact H1|]. split; [exact H2|exact H3].
Defined.

(** When the durations of the window lie between [lo >= 0] and [hi] and
    their sum fits an [int64], so does the average [Avg] reports. *)
Theorem ring_avg_between n os lo hi :
  0 < n < 2 ^ 62 -> 0 <= lo ->
  last_n (Z.to_nat n) (history os) <> [] ->
  (forall d, d ∈ last_n (Z.to_nat n) (history os) -> lo <= d <= hi) ->
  in_s 64 (sumZ id (last_n (Z.to_nat n) (history os))) ->
  exists rb rb' a, NewTimeDurationRingBuffer n = (Some rb, None) /\ run rb os = Ret rb' /\
    Avg rb' = Ret a /\ lo <= a <= hi.
Proof.
  intros Hn Hlo Hne Hb Hsum.
  destruct (run_repr n os Hn) as (rb & rb' & Hnew & Hrun & Hs & Hr).
  subst n. exists rb, rb'. eexists. split; [done|split; [done|]].
  split; [by apply Avg_repr|by apply avg_between].
Qed.

Lemma ring_avg_between_witness :
  exists rb rb' a, NewTimeDurationRingBuffer 2 = (Some rb, None) /\
    run rb [OAdd 9; OAdd 3; OAdd 4] = Ret rb' /\ Avg rb' = Ret a /\ 3 <= a <= 4.
Proof.
  apply (ring_avg_between 2 [OAdd 9; OAdd 3; OAdd 4] 3 4); [lia|lia|done| |vm_compute; split; congruence].
  intros d Hd. assert (d = 3 \/ d = 4) by (vm_compute in Hd; set_solver). lia.
Defined.

End Ring.

(** internal/pkg/buffer/ring_buffer.go: the same type and methods, line for
    line; only the constructor differs. *)
Module LegacyRing.

Abbreviation TimeDurationRingBuffer := Ring.TimeDurationRingBuffer.

Definition Add : TimeDurationRingBuffer -> Duration -> go TimeDurationRingBuffer := Ring.Add.
Definition Avg : TimeDurationRingBuffer -> go Duration := Ring.Avg.
Definition Reset : TimeDurationRingBuffer -> go TimeDurationRingBuffer := Ring.Reset.
Definition Size : TimeDurationRingBuffer -> Z := Ring.Size.
Definition Count : TimeDurationRingBuffer -> Z := Ring.Count.

Definition NewTimeDurationRingBuffer (n : Z) : go TimeDurationRingBuffer :=
  if n <=? 0 then Panic "[jotify] buffer size must be greater than zero"
  else Ret {| Ring.buffer := replicate (Z.to_nat n) 0; Ring.size := n;
              Ring.count := 0; Ring.writePos := 0; Ring.sum := 0 |}.

End LegacyRing.
