(* ===== verification/BitRing.v ===== *)
(** * The sliding window of events

    internal/pkg/bitring/bitring.go: the outcomes of the last [windowSize]
    events as bits of 64-bit words, with the number of events that happened
    kept incrementally.  Every exported method holds the ring's mutex, so each
    is one atomic step.

    The abstract view is the list of all events; [repr] relates the words to
    it.  The event rate is a float64 in the code and an IEEE 754 binary64 here
    (file GoFloat). *)
From Stdlib Require Import ZArith Lia List SpecFloat.
From stdpp Require Import prelude strings gmap.
From S2P Require Import Prelude GoLang GoFloat.

Module BitRing.

(** ** The ring *)

Definition bitsPerWord : Z := 64.
Definition bitsMask : Z := bitsPerWord - 1.
Definition bitsShift : Z := 6.
Definition defaultWindowSize : Z := 128.
Definition defaultMinConsecutive : Z := 3.

Record BitRing := mkBR {
  words : list Z;
  windowSize : Z;
  writePos : Z;
  isFull : bool;
  eventCount : Z;
  consecutiveThreshold : Z;
  eventRateThreshold : spec_float }.

Definition bitAt (br : BitRing) (index : Z) : go bool :=
  let pos := Z.shiftr index bitsShift in
  let offset := Z.land index bitsMask in
  let! w := slice_get (words br) pos in
  Ret (Z.land (Z.shiftr w offset) 1 =? 1).

Definition setBit (br : BitRing) (index : Z) (val : bool) : go (list Z) :=
  let pos := Z.shiftr index bitsShift in
  let offset := Z.land index bitsMask in
  let! w := slice_get (words br) pos in
  if val then slice_set (words br) pos (Z.lor w (u64 (Z.shiftl 1 offset)))
  else slice_set (words br) pos (Z.ldiff w (u64 (Z.shiftl 1 offset))).

Definition Add (br : BitRing) (eventHappened : bool) : go BitRing :=
  let! oldBit := bitAt br (writePos br) in
  let eventCount1 :=
    if isFull br && oldBit then i64 (eventCount br - 1) else eventCount br in
  let! words1 := setBit br (writePos br) eventHappened in
  let eventCount2 := if eventHappened then i64 (eventCount1 + 1) else eventCount1 in
  let writePos1 := i64 (writePos br + 1) in
  let wraps := windowSize br <=? writePos1 in
  Ret {| words := words1; windowSize := windowSize br;
         writePos := if wraps then 0 else writePos1;
         isFull := if wraps then true else isFull br;
         eventCount := eventCount2;
         consecutiveThreshold := consecutiveThreshold br;
         eventRateThreshold := eventRateThreshold br |}.

Definition currWindowSize (br : BitRing) : Z :=
  if isFull br then windowSize br else writePos br.

(** The loop of [ThresholdTriggering]: [n] iterations left, at index [i]. *)
Fixpoint all_set (br : BitRing) (n : nat) (i : Z) : go bool :=
  match n with
  | O => Ret true
  | S n =>
      let! pos := go_rem (i64 (i64 (writePos br - i) + windowSize br)) (windowSize br) in
      let! b := bitAt br pos in
      if b then all_set br n (i + 1) else Ret false
  end.

Definition ThresholdTriggering (br : BitRing) : go bool :=
  let currSize := currWindowSize br in
  if currSize =? 0 then Ret false
  else
    let! all :=
      (if consecutiveThreshold br <=? currSize
       then all_set br (Z.to_nat (consecutiveThreshold br)) 1
       else Ret false) in
    if all then Ret true
    else Ret (fgt (fdiv (float64 (eventCount br)) (float64 currSize))
                  (eventRateThreshold br)).

Definition NewBitRing (windowSize0 consecutiveThreshold0 : Z)
    (eventRateThreshold0 : spec_float) : BitRing :=
  let windowSize1 := if windowSize0 <=? 0 then defaultWindowSize else windowSize0 in
  let consecutive1 :=
    if consecutiveThreshold0 <=? 0 then defaultMinConsecutive else consecutiveThreshold0 in
  let consecutive2 := if windowSize1 <? consecutive1 then windowSize1 else consecutive1 in
  let rate1 :=
    if fgt eventRateThreshold0 (float64 1) then float64 1 else eventRateThreshold0 in
  {| words := replicate (Z.to_nat (Z.quot (i64 (windowSize1 + bitsMask)) bitsPerWord)) 0;
     windowSize := windowSize1; writePos := 0; isFull := false; eventCount := 0;
     consecutiveThreshold := consecutive2; eventRateThreshold := rate1 |}.

(** ** Bits of the words *)

(** The bit the ring stores at slot [i]. *)
Definition bit (ws : list Z) (i : Z) : bool :=
  match ws !! Z.to_nat (i / 64) with Some w => Z.testbit w (i mod 64) | None => false end.

Lemma land_mask i : Z.land i bitsMask = i mod 64.
Proof. change bitsMask with (Z.ones 6). by rewrite Z.land_ones by lia. Qed.

Lemma shiftr_shift i : Z.shiftr i bitsShift = i / 64.
Proof. by rewrite Z.shiftr_div_pow2 by done. Qed.

Lemma testbit_land_shiftr w o : 0 <= o -> (Z.land (Z.shiftr w o) 1 =? 1) = Z.testbit w o.
Proof.
  intros Ho. change 1 with (Z.ones 1) at 1. rewrite Z.land_ones by lia.
  rewrite <- (Z.add_0_l o) at 2. rewrite <- Z.shiftr_spec by lia.
  change (2 ^ 1) with 2. rewrite <- Z.bit0_mod. by destruct (Z.testbit _ 0).
Qed.

Section words.
Context (br : BitRing) (i : Z) (w : Z).
Context (Hi : 0 <= i) (Hw : words br !! Z.to_nat (i / 64) = Some w).

Lemma bitAt_bit : bitAt br i = Ret (bit (words br) i).
Proof using All.
  unfold bitAt, bit. rewrite shiftr_shift, land_mask, Hw.
  rewrite (slice_get_in _ _ w) by (done || divlia); simpl.
  rewrite testbit_land_shiftr; [done|divlia].
Qed.

Lemma setBit_word v :
  exists w', setBit br i v = Ret (<[Z.to_nat (i / 64) := w']> (words br)) /\
    (in_u 64 w -> in_u 64 w') /\
    forall k, 0 <= k -> Z.testbit w' k = if k =? i mod 64 then v else Z.testbit w k.
Proof using All.
  pose proof (Z.mod_pos_bound i 64 ltac:(lia)) as Hm.
  assert (Hone : u64 (Z.shiftl 1 (i mod 64)) = 2 ^ (i mod 64)).
  { rewrite Z.shiftl_1_l. apply wrap_u_id; auto with jotify. }
  assert (Hset : forall x, slice_set (words br) (i / 64) x =
                           Ret (<[Z.to_nat (i / 64) := x]> (words br))).
  { intros x. apply slice_set_in. apply lookup_lt_Some in Hw. divlia. }
  unfold setBit. rewrite shiftr_shift, land_mask.
  rewrite (slice_get_in _ _ w) by (done || divlia); simpl. rewrite Hone.
  assert (Hbits : forall k, 0 <= k -> Z.testbit (2 ^ (i mod 64)) k = (k =? i mod 64)).
  { intros k Hk. rewrite Z.pow2_bits_eqb by lia. apply Z.eqb_sym. }
  destruct v; rewrite Hset; eexists; (split; [done|split]).
  - auto with jotify.
  - intros k Hk. rewrite Z.lor_spec, Hbits by done.
    destruct (k =? i mod 64); by rewrite ?orb_true_r, ?orb_false_r.
  - auto with jotify.
  - intros k Hk. rewrite Z.ldiff_spec, Hbits by done.
    destruct (k =? i mod 64); by rewrite ?andb_false_r, ?andb_true_r.
Qed.

Lemma bit_set v : exists ws',
  setBit br i v = Ret ws' /\ length ws' = length (words br) /\
  (Forall (in_u 64) (words br) -> Forall (in_u 64) ws') /\
  forall k, 0 <= k -> bit ws' k = if k =? i then v else bit (words br) k.
Proof using All.
  destruct (setBit_word v) as (w' & -> & Hr & Hb). eexists; split_and!; [done|by rewrite length_insert| |].
  - intros HF. apply Forall_insert; [done|]. apply Hr. by eapply Forall_lookup_1 in Hw.
  - intros k Hk. unfold bit. destruct (decide (k / 64 = i / 64)) as [He|Hne].
    + rewrite He, list_lookup_insert_eq, Hw, Hb by (by eapply lookup_lt_Some || divlia).
      destruct (Z.eqb_spec (k mod 64) (i mod 64)), (Z.eqb_spec k i); (done || divlia).
    + rewrite list_lookup_insert_ne by divlia.
      destruct (Z.eqb_spec k i) as [->|]; done.
Qed.
End words.

(** ** The window a ring stands for *)

Definition countb (l : list bool) : Z := sumZ Z.b2z l.

(** [repr br h]: [br] holds the last [windowSize br] events of the history [h]. *)
Record repr (br : BitRing) (h : list bool) : Prop := {
  repr_size : 0 < windowSize br < 2 ^ 62;
  repr_words : Z.of_nat (length (words br)) = (windowSize br + 63) / 64;
  repr_range : Forall (in_u 64) (words br);
  repr_thr : 0 < consecutiveThreshold br <= windowSize br;
  repr_pos : writePos br = Z.of_nat (length h) mod windowSize br;
  repr_full : isFull br = bool_decide (windowSize br <= Z.of_nat (length h));
  repr_cnt : eventCount br = countb (last_n (Z.to_nat (windowSize br)) h);
  repr_bits : forall j, (length h - Z.to_nat (windowSize br) <= j < length h)%nat ->
    h !! j = Some (bit (words br) (Z.of_nat j mod windowSize br)) }.

Lemma New_repr n c r :
  n < 2 ^ 62 -> repr (NewBitRing n c r) [].
Proof.
  intros Hn. unfold NewBitRing, defaultWindowSize, defaultMinConsecutive, bitsMask, bitsPerWord.
  set (n' := if n <=? 0 then 128 else n).
  assert (0 < n' < 2 ^ 62) by (subst n'; destruct (Z.leb_spec n 0); lia).
  constructor; cbn [windowSize words writePos isFull eventCount consecutiveThreshold length];
    [done|..|lia].
  - rewrite length_replicate, wrap_s_id by (unfold in_s; lia). divlia.
  - apply Forall_replicate. by vm_compute.
  - guards; lia.
  - by rewrite Z.mod_0_l by lia.
  - rewrite bool_decide_false; [done|lia].
  - done.
Qed.

Lemma countb_range l : 0 <= countb l <= Z.of_nat (length l).
Proof. induction l as [|[] l IH]; unfold countb in *; simpl in *; lia. Qed.

Section ring.
Context (br : BitRing) (h : list bool) (Hr : repr br h).

Lemma pos_range : 0 <= writePos br < windowSize br.
Proof using Hr. destruct Hr. rewrite repr_pos0. apply Z.mod_pos_bound; lia. Qed.

Lemma word_at i : 0 <= i < windowSize br -> exists w, words br !! Z.to_nat (i / 64) = Some w.
Proof using Hr. intros. destruct Hr. apply lookup_lt_is_Some_2. divlia. Qed.

Lemma bitAt_ok i : 0 <= i < windowSize br -> bitAt br i = Ret (bit (words br) i).
Proof using Hr. intros Hi. destruct (word_at i Hi) as [w Hw]. eapply bitAt_bit; [lia|done]. Qed.

(** When the window is full, the slot to be overwritten holds its oldest event. *)
Lemma oldest : windowSize br <= Z.of_nat (length h) ->
  last_n (Z.to_nat (windowSize br)) h =
    bit (words br) (writePos br) :: drop 1 (last_n (Z.to_nat (windowSize br)) h).
Proof using Hr.
  intros Hfull. destruct Hr. set (k := Z.to_nat (windowSize br)) in *.
  unfold last_n at 1. rewrite (drop_S _ (bit (words br) (writePos br))).
  - f_equal. unfold last_n. rewrite drop_drop. f_equal. lia.
  - rewrite repr_bits0 by lia. do 2 f_equal. rewrite repr_pos0.
    symmetry. apply mod_shift. lia.
Qed.

Lemma count_snoc (b : bool) :
  (let c := if isFull br && bit (words br) (writePos br) then i64 (eventCount br - 1) else eventCount br in
   if b then i64 (c + 1) else c) = countb (last_n (Z.to_nat (windowSize br)) (h ++ [b])).
Proof using Hr.
  pose proof (countb_range (last_n (Z.to_nat (windowSize br)) h)) as Hc.
  rewrite length_last_n in Hc. pose proof oldest as Hold. destruct Hr.
  rewrite repr_full0, repr_cnt0 in *. simpl.
  case_bool_decide as Hf; simpl.
  - rewrite last_n_snoc_full by lia. rewrite (Hold Hf). simpl. rewrite drop_0.
    rewrite (Hold Hf) in Hc. unfold countb in *; simpl in *. rewrite sumZ_app; simpl.
    destruct (bit _ _), b; simpl in *; unwrap; lia.
  - rewrite last_n_snoc_room by lia. unfold countb in *. rewrite sumZ_app; simpl.
    destruct b; simpl; unwrap; lia.
Qed.

Lemma Add_repr b : exists br', Add br b = Ret br' /\ repr br' (h ++ [b]) /\
  windowSize br' = windowSize br /\ consecutiveThreshold br' = consecutiveThreshold br /\
  eventRateThreshold br' = eventRateThreshold br.
Proof using Hr.
  pose proof pos_range as Hp. pose proof (count_snoc b) as Hcnt.
  destruct (word_at _ Hp) as [w Hw].
  destruct (bit_set br (writePos br) w ltac:(lia) Hw b) as (ws' & Hset & Hlen & Hrange & Hbit).
  unfold Add. rewrite bitAt_ok by done; simpl. rewrite Hset; simpl.
  eexists; split_and!; [done| |done..]. destruct Hr.
  rewrite wrap_s_id by (unfold in_s; lia).
  assert (Hpos' : (if windowSize br <=? writePos br + 1 then 0 else writePos br + 1)
                  = Z.of_nat (length (h ++ [b])) mod windowSize br).
  { rewrite length_app, Nat2Z.inj_add, <- mod_add_mod_l, <- repr_pos0. change (Z.of_nat (length [b])) with 1.
    destruct (Z.leb_spec (windowSize br) (writePos br + 1)).
    - replace (writePos br + 1) with (windowSize br) by lia. by rewrite Z_mod_same_full.
    - by rewrite Z.mod_small by lia. }
  constructor; cbn [windowSize words writePos isFull eventCount consecutiveThreshold];
    [done|by rewrite Hlen|auto|done|done| |done|].
  - rewrite repr_full0, length_app, Nat2Z.inj_add; simpl.
    destruct (Z.leb_spec (windowSize br) (writePos br + 1)); [|apply bool_decide_ext; split; [lia|]].
    + rewrite bool_decide_true; [done|]. rewrite repr_pos0 in *.
      pose proof (Z.mod_le (Z.of_nat (length h)) (windowSize br)). lia.
    + intros. destruct (decide (windowSize br <= Z.of_nat (length h))); [done|].
      rewrite repr_pos0, Z.mod_small in *; lia.
  - intros j. rewrite length_app; simpl. intros Hj.
    rewrite Hbit by (apply Z.mod_pos_bound; lia).
    destruct (decide (j = length h)) as [->|Hne].
    + rewrite repr_pos0, Z.eqb_refl. by rewrite list_lookup_middle.
    + rewrite lookup_app_l, repr_bits0 by lia.
      destruct (Z.eqb_spec (Z.of_nat j mod windowSize br) (writePos br)) as [He|]; [|done].
      exfalso. rewrite repr_pos0 in He. apply Hne, (ring_slot_inj (windowSize br)); lia.
Qed.

Lemma currWindowSize_repr :
  currWindowSize br = Z.of_nat (length (last_n (Z.to_nat (windowSize br)) h)).
Proof using Hr.
  destruct Hr. unfold currWindowSize. rewrite repr_full0, length_last_n, repr_pos0.
  case_bool_decide; [lia|]. rewrite Z.mod_small; lia.
Qed.

(** The loop inspects the events from the newest on. *)
Lemma all_set_repr n k :
  (n + k <= length h)%nat -> Z.of_nat (n + k) <= windowSize br ->
  all_set br n (Z.of_nat k + 1) = Ret (forallb id (take n (drop k (reverse h)))).
Proof using Hr.
  pose proof pos_range as Hp. pose proof bitAt_ok as Hbit. destruct Hr.
  revert k; induction n as [|n IH]; intros k Hk Hw; simpl; [done|].
  unwrap. rewrite go_rem_pos by lia; simpl.
  rewrite Hbit by (apply Z.mod_pos_bound; lia); simpl.
  assert (Hlk : reverse h !! k = Some (bit (words br) ((writePos br - (Z.of_nat k + 1) + windowSize br) mod windowSize br))).
  { rewrite reverse_lookup by lia. rewrite repr_bits0 by lia. do 2 f_equal.
    rewrite (mod_shift (_ + windowSize br) (writePos br - (Z.of_nat k + 1))) by lia.
    rewrite repr_pos0, mod_sub_mod_l. f_equal. lia. }
  rewrite (drop_S _ _ _ Hlk); simpl. unfold id at 1.
  replace (Z.of_nat k + 1 + 1) with (Z.of_nat (S k) + 1) by lia.
  destruct (bit _ _); simpl; [apply IH; lia|done].
Qed.
End ring.

(** ** Specification and properties *)

Fixpoint add_all (br : BitRing) (es : list bool) : go BitRing :=
  match es with
  | [] => Ret br
  | e :: es => let! br' := Add br e in add_all br' es
  end.

(** What the threshold test promises, on the list of all events: the last
    [consecutive] events all happened, or the share of the events of the window
    that happened exceeds [rate]; never before the first event. *)
Definition triggering_spec (window consecutive : Z) (rate : spec_float) (es : list bool) : bool :=
  let w := last_n (Z.to_nat window) es in
  let len := Z.of_nat (length w) in
  negb (len =? 0) &&
  (((consecutive <=? len) && forallb id (take (Z.to_nat consecutive) (reverse es)))
   || fgt (fdiv (float64 (countb w)) (float64 len)) rate).

Lemma add_all_repr br h es :
  repr br h -> exists br', add_all br es = Ret br' /\ repr br' (h ++ es) /\
    windowSize br' = windowSize br /\ consecutiveThreshold br' = consecutiveThreshold br /\
    eventRateThreshold br' = eventRateThreshold br.
Proof.
  revert br h; induction es as [|e es IH]; intros br h Hr; simpl.
  - exists br. by rewrite app_nil_r.
  - destruct (Add_repr br h Hr e) as (br1 & -> & Hr1 & Hs1 & Hc1 & Ht1); simpl.
    destruct (IH br1 _ Hr1) as (br' & Hadd & Hr' & Hs' & Hc' & Ht').
    exists br'. rewrite <- app_assoc in Hr'. by split_and!; [..|congruence|congruence|congruence].
Qed.

Lemma ThresholdTriggering_repr br h :
  repr br h ->
  ThresholdTriggering br =
    Ret (triggering_spec (windowSize br) (consecutiveThreshold br) (eventRateThreshold br) h).
Proof.
  intros Hr. unfold ThresholdTriggering, triggering_spec.
  rewrite (currWindowSize_repr br h Hr).
  set (w := last_n _ h). destruct (Z.eqb_spec (Z.of_nat (length w)) 0); [done|]; simpl.
  assert (Hw : length w = (Z.to_nat (windowSize br) `min` length h)%nat) by apply length_last_n.
  pose proof Hr as []. rewrite repr_cnt0. fold w.
  destruct (Z.leb_spec (consecutiveThreshold br) (Z.of_nat (length w))); simpl; [|done].
  change 1 with (Z.of_nat 0 + 1). rewrite (all_set_repr br h Hr) by lia. simpl.
  rewrite drop_0. by destruct (forallb _ _).
Qed.

(** C17: for every configuration and every sequence of events, the ring never
    panics and its threshold test is the specification's on the plain list of
    events, with the window and the consecutive threshold the constructor
    settled on. *)
Theorem bitring_refines_spec n c r es :
  n < 2 ^ 62 ->
  exists br, add_all (NewBitRing n c r) es = Ret br /\
    ThresholdTriggering br =
      Ret (triggering_spec (windowSize (NewBitRing n c r))
             (consecutiveThreshold (NewBitRing n c r))
             (eventRateThreshold (NewBitRing n c r)) es).
Proof.
  intros Hn. destruct (add_all_repr _ [] es (New_repr n c r Hn)) as (br & Hadd & Hr & Hs & Hc & Ht).
  exists br. split; [done|]. rewrite <- Hs, <- Hc, <- Ht. by apply ThresholdTriggering_repr.
Qed.

Lemma bitring_refines_spec_witness :
  exists br, add_all (NewBitRing 4 3 (fdiv (float64 1) (float64 2)))
               [true; false; false; true; true; true] = Ret br /\
             ThresholdTriggering br = Ret true.
Proof.
  destruct (bitring_refines_spec 4 3 (fdiv (float64 1) (float64 2))
              [true; false; false; true; true; true]) as (br & H1 & H2); [lia|].
  exists br. split; [exact H1|]. rewrite H2. vm_compute. reflexivity.
Defined.

(** Whatever came before, once as many consecutive events happened as the
    effective consecutive threshold asks for, the ring triggers. *)
Theorem bitring_consecutive_triggers n c r es k :
  n < 2 ^ 62 ->
  consecutiveThreshold (NewBitRing n c r) <= Z.of_nat k ->
  exists br, add_all (NewBitRing n c r) (es ++ replicate k true) = Ret br /\
    ThresholdTriggering br = Ret true.
Proof.
  intros Hn Hk. pose proof (New_repr n c r Hn) as Hr0.
  destruct (add_all_repr _ [] (es ++ replicate k true) Hr0) as (br & Hadd & Hr & Hs & Hc & Ht).
  exists br. split; [done|]. rewrite (ThresholdTriggering_repr br _ Hr). f_equal.
  rewrite Hs, Hc. destruct Hr0. unfold triggering_spec. simpl app.
  rewrite length_last_n, length_app, length_replicate.
  apply andb_true_intro; split; [apply negb_true_iff, Z.eqb_neq; lia|].
  apply orb_true_intro; left. apply andb_true_intro; split; [apply Z.leb_le; lia|].
  rewrite reverse_app, reverse_replicate, take_app_le by (rewrite length_replicate; lia).
  rewrite take_replicate. apply forallb_forall. intros b Hb.
  apply list_elem_of_In, elem_of_replicate in Hb. by destruct Hb as [-> _].
Qed.

Lemma bitring_consecutive_triggers_witness :
  exists br, add_all (NewBitRing 10 2 (float64 1)) ([false; true; false] ++ replicate 2 true) = Ret br /\
             ThresholdTriggering br = Ret true.
Proof. apply (bitring_consecutive_triggers 10 2 (float64 1) [false; true; false] 2); vm_compute; [done|congruence]. Defined.

End BitRing.
