(* ===== verification/Batch.v ===== *)
(** * Batch-size adjusters

    internal/pkg/batch/types.go (the [Adjuster] interface) and its two
    implementations, internal/pkg/batch/fixed/fixed_step_adjuster.go and
    internal/pkg/batch/slidewindow/slide_window_adjuster.go.

    The clock is explicit: [Adjust] takes the reading [now1] that [time.Since]
    makes and the reading [now2] of [time.Now] stored as the last adjustment.
    Sizes are uint64 with their wrap-around. *)
From Stdlib Require Import ZArith Lia List.
From stdpp Require Import prelude strings gmap.
From S2P Require Import Prelude GoLang Errs RingBuffer.

(** ** The interface *)

(** An implementation of [batch.Adjuster] on the state [A], with the size
    bounds it was built with. *)
Class Adjuster (A : Type) := {
  Adjust : A -> Duration -> Time -> Time -> go (A * (Z * option error));
  sizeOf : A -> Z;
  boundsOf : A -> Z * Z }.

(** What an adjuster promises its client on the states [ok]: a call returns,
    never an error, with a size within the bounds, and leaves such a state. *)
Class BoundedAdjuster (A : Type) `{!Adjuster A} (ok : A -> Prop) : Prop := {
  adjust_bounded a d now1 now2 :
    ok a -> exists a', Adjust a d now1 now2 = Ret (a', (sizeOf a', None)) /\ ok a' /\
      boundsOf a' = boundsOf a /\ (boundsOf a).1 <= sizeOf a' <= (boundsOf a).2 }.

(** One call: the response time and the two clock readings. *)
Definition response : Type := Duration * Time * Time.

(** The sizes reported by a sequence of calls. *)
Fixpoint adjust_all `{Adjuster A} (a : A) (rs : list response) : go (A * list Z) :=
  match rs with
  | [] => Ret (a, [])
  | (d, now1, now2) :: rs =>
      let! '(a', (n, _)) := Adjust a d now1 now2 in
      let! '(a'', ns) := adjust_all a' rs in
      Ret (a'', n :: ns)
  end.

Lemma adjust_all_bounded `{BoundedAdjuster A ok} (a : A) rs :
  ok a -> exists a' ns, adjust_all a rs = Ret (a', ns) /\ ok a' /\ length ns = length rs /\
    Forall (fun n => (boundsOf a).1 <= n <= (boundsOf a).2) ns.
Proof.
  revert a; induction rs as [|[[d now1] now2] rs IH]; intros a Ha; simpl; [by exists a, []; split_and!|].
  destruct (adjust_bounded a d now1 now2 Ha) as (a1 & -> & Ha1 & Hb & Hn); simpl.
  destruct (IH a1 Ha1) as (a2 & ns & -> & Ha2 & Hl & Hns); simpl.
  rewrite Hb in Hns. exists a2, (sizeOf a1 :: ns). split_and!; [done|done|simpl; lia|by constructor].
Qed.

(** ** Steps shared by the implementations *)

(** [min(currSize+adjustStep, maxSize)] and [max(currSize-adjustStep, minSize)]
    on uint64. *)
Definition grow (curr step maxSize : Z) : Z := Z.min (u64 (curr + step)) maxSize.
Definition shrink (curr step minSize : Z) : Z := Z.max (u64 (curr - step)) minSize.

(** A size configuration under which no step wraps around. *)
Definition sizes_ok (minSize maxSize step : Z) : Prop :=
  0 <= minSize <= maxSize /\ 0 <= step <= minSize + 1 /\ maxSize + step < 2 ^ 64.

Lemma grow_bounds minSize maxSize step curr :
  sizes_ok minSize maxSize step -> minSize <= curr <= maxSize ->
  curr <= grow curr step maxSize <= maxSize.
Proof. unfold sizes_ok, grow. intros. unwrap. lia. Qed.

Lemma shrink_bounds minSize maxSize step curr :
  sizes_ok minSize maxSize step -> minSize < curr <= maxSize ->
  minSize <= shrink curr step minSize <= curr.
Proof. unfold sizes_ok, shrink. intros. unwrap. lia. Qed.

(** Where the step exceeds the size, the subtraction wraps to a size near 2^64. *)
Lemma shrink_underflow minSize step curr :
  0 <= minSize < curr -> curr < step < 2 ^ 63 ->
  shrink curr step minSize = 2 ^ 64 + curr - step.
Proof.
  intros. unfold shrink, wrap_u.
  rewrite <- (mod_shift (curr - step + 2 ^ 64) (curr - step)) by lia.
  rewrite Z.mod_small by lia. lia.
Qed.

(** The interval guard of both implementations: too early for an adjustment. *)
Definition too_early (last now : Time) (minAdjustInterval : Duration) : bool :=
  negb (IsZero last) && (Sub now last <? minAdjustInterval).

(** The initial size, moved into the bounds. *)
Definition clamp_init (initSize minSize maxSize : Z) : Z :=
  let s := if initSize <? minSize then minSize else initSize in
  if maxSize <? s then maxSize else s.

Lemma clamp_init_bounds initSize minSize maxSize :
  minSize <= maxSize -> minSize <= clamp_init initSize minSize maxSize <= maxSize.
Proof. unfold clamp_init. intros. guards; lia. Qed.

(** What both implementations compute when nothing wraps: one step towards the
    bound on that side, clamped. *)
Lemma step_spec (fast slow : bool) minSize maxSize step curr :
  sizes_ok minSize maxSize step -> minSize <= curr <= maxSize ->
  (if fast then if curr <? maxSize then grow curr step maxSize else curr
   else if slow then if minSize <? curr then shrink curr step minSize else curr
   else curr) =
  (if fast then Z.min (curr + step) maxSize
   else if slow then Z.max (curr - step) minSize else curr).
Proof.
  unfold sizes_ok, grow, shrink. intros Hs Hc.
  destruct fast; [|destruct slow; [|done]]; split_guard; unwrap; lia.
Qed.

(** ** The fixed-step adjuster *)

Module Fixed.

Record Adjuster := mkAdjuster {
  currSize : Z;
  minSize : Z;
  maxSize : Z;
  adjustStep : Z;
  lastAdjustTime : Time;
  minAdjustInterval : Duration;
  fastThreshold : Duration;
  slowThreshold : Duration }.

Definition set_size (a : Adjuster) (n : Z) (t : Time) : Adjuster :=
  {| currSize := n; minSize := minSize a; maxSize := maxSize a; adjustStep := adjustStep a;
     lastAdjustTime := t; minAdjustInterval := minAdjustInterval a;
     fastThreshold := fastThreshold a; slowThreshold := slowThreshold a |}.

Definition Adjust (a : Adjuster) (respTime : Duration) (now1 now2 : Time)
    : go (Adjuster * (Z * option error)) :=
  if too_early (lastAdjustTime a) now1 (minAdjustInterval a) then Ret (a, (currSize a, None))
  else if respTime <? fastThreshold a then
    let a' := if currSize a <? maxSize a
              then set_size a (grow (currSize a) (adjustStep a) (maxSize a)) now2 else a in
    Ret (a', (currSize a', None))
  else
    let a' := if slowThreshold a <? respTime
              then if minSize a <? currSize a
                   then set_size a (shrink (currSize a) (adjustStep a) (minSize a)) now2 else a
              else a in
    Ret (a', (currSize a', None)).

Definition NewAdjuster (initSize minSize maxSize adjustStep : Z)
    (minAdjustInterval fastThreshold slowThreshold : Duration) : Adjuster :=
  {| currSize := clamp_init initSize minSize maxSize; minSize := minSize; maxSize := maxSize;
     adjustStep := adjustStep; lastAdjustTime := zeroTime;
     minAdjustInterval := minAdjustInterval; fastThreshold := fastThreshold;
     slowThreshold := slowThreshold |}.

#[global] Instance adjuster : Batch.Adjuster Adjuster := {
  Adjust := Adjust;
  sizeOf := currSize;
  boundsOf a := (minSize a, maxSize a) }.

Definition ok (a : Adjuster) : Prop :=
  sizes_ok (minSize a) (maxSize a) (adjustStep a) /\ minSize a <= currSize a <= maxSize a.

Lemma fixed_New_ok i lo hi st t f s : sizes_ok lo hi st -> ok (NewAdjuster i lo hi st t f s).
Proof. intros H. split; [done|]. apply clamp_init_bounds. by destruct H as [[_ ?] _]. Qed.

#[global] Instance bounded : BoundedAdjuster Adjuster ok.
Proof.
  constructor. intros a d now1 now2 [Hs Hc]. simpl. unfold Adjust.
  pose proof (grow_bounds _ _ _ _ Hs Hc). pose proof (shrink_bounds _ _ _ (currSize a) Hs).
  repeat split_guard; ret_state;
    (split; [split; [exact Hs|simpl; lia]|split; [done|simpl; lia]]).
Qed.

End Fixed.

(** ** The sliding-window adjuster *)

Module SlideWindow.

Record Adjuster := mkAdjuster {
  currSize : Z;
  minSize : Z;
  maxSize : Z;
  adjustStep : Z;
  lastAdjustTime : Time;
  buffer : Ring.TimeDurationRingBuffer;
  minAdjustInterval : Duration }.

Definition set_size (a : Adjuster) (n : Z) (t : Time) : Adjuster :=
  {| currSize := n; minSize := minSize a; maxSize := maxSize a; adjustStep := adjustStep a;
     lastAdjustTime := t; buffer := buffer a; minAdjustInterval := minAdjustInterval a |}.

Definition set_buffer (a : Adjuster) (b : Ring.TimeDurationRingBuffer) : Adjuster :=
  {| currSize := currSize a; minSize := minSize a; maxSize := maxSize a;
     adjustStep := adjustStep a; lastAdjustTime := lastAdjustTime a; buffer := b;
     minAdjustInterval := minAdjustInterval a |}.

Definition Adjust (a0 : Adjuster) (respTime : Duration) (now1 now2 : Time)
    : go (Adjuster * (Z * option error)) :=
  let! b := Ring.Add (buffer a0) respTime in
  let a := set_buffer a0 b in
  if Ring.Count b <? Ring.Size b then Ret (a, (currSize a, None))
  else if too_early (lastAdjustTime a) now1 (minAdjustInterval a) then Ret (a, (currSize a, None))
  else
    let! avg := Ring.Avg b in
    if respTime <? avg then
      let a' := if currSize a <? maxSize a
                then set_size a (grow (currSize a) (adjustStep a) (maxSize a)) now2 else a in
      Ret (a', (currSize a', None))
    else
      let a' := if avg <? respTime
                then if minSize a <? currSize a
                     then set_size a (shrink (currSize a) (adjustStep a) (minSize a)) now2 else a
                else a in
      Ret (a', (currSize a', None)).

Definition NewAdjuster (bufferSize initSize minSize maxSize adjustStep : Z)
    (minAdjustInterval : Duration) : option Adjuster * option error :=
  match Ring.NewTimeDurationRingBuffer bufferSize with
  | (Some buffer, None) =>
      (Some {| currSize := clamp_init initSize minSize maxSize; minSize := minSize;
               maxSize := maxSize; adjustStep := adjustStep; lastAdjustTime := zeroTime;
               buffer := buffer; minAdjustInterval := minAdjustInterval |}, None)
  | (_, err) => (None, err)
  end.

#[global] Instance adjuster : Batch.Adjuster Adjuster := {
  Adjust := Adjust;
  sizeOf := currSize;
  boundsOf a := (minSize a, maxSize a) }.

Definition ok (a : Adjuster) : Prop :=
  sizes_ok (minSize a) (maxSize a) (adjustStep a) /\ minSize a <= currSize a <= maxSize a /\
  exists h, Ring.repr (buffer a) h.

Lemma slide_New_ok n i lo hi st t :
  0 < n < 2 ^ 62 -> sizes_ok lo hi st ->
  exists a, NewAdjuster n i lo hi st t = (Some a, None) /\ ok a /\ boundsOf a = (lo, hi).
Proof.
  intros Hn H. unfold NewAdjuster. destruct (Ring.ring_New_repr n Hn) as (b & -> & Hr & _).
  eexists; split; [done|]. split; [|done]. split; [done|]. split; [|eauto].
  apply clamp_init_bounds. by destruct H as [[_ ?] _].
Qed.

#[global] Instance bounded : BoundedAdjuster Adjuster ok.
Proof.
  constructor. intros a d now1 now2 (Hs & Hc & h & Hr). simpl. unfold Adjust.
  destruct (Ring.ring_Add_repr _ _ d Hr) as (b & -> & Hb & _); simpl.
  rewrite (Ring.Avg_repr _ _ Hb).
  pose proof (grow_bounds _ _ _ _ Hs Hc). pose proof (shrink_bounds _ _ _ (currSize a) Hs).
  repeat (simpl; split_guard); simpl; ret_state;
    (split; [split; [exact Hs|split; [simpl; lia|by eauto]]|split; [done|simpl; lia]]).
Qed.

End SlideWindow.

(** The size the sliding-window adjuster moves to when [d] arrives after the
    history [h] of a window of [n]: nothing until the window is full or while it
    is too early, then one step up when [d] is below the window's average, one
    step down when it is above. *)
Definition slide_size (n : nat) (lo hi step curr : Z) (early : bool)
    (h : list Duration) (d : Duration) : Z :=
  let w := last_n n (h ++ [d]) in
  let avg := Z.quot (i64 (sumZ id w)) (Z.of_nat (length w)) in
  if (length w <? n)%nat then curr
  else if early then curr
  else if d <? avg then Z.min (curr + step) hi
  else if avg <? d then Z.max (curr - step) lo
  else curr.

Lemma slide_adjust_size a d now1 now2 h :
  sizes_ok (SlideWindow.minSize a) (SlideWindow.maxSize a) (SlideWindow.adjustStep a) ->
  SlideWindow.minSize a <= SlideWindow.currSize a <= SlideWindow.maxSize a ->
  Ring.repr (SlideWindow.buffer a) h ->
  exists a', SlideWindow.Adjust a d now1 now2 = Ret (a', (SlideWindow.currSize a', None)) /\
    SlideWindow.currSize a' =
      slide_size (Z.to_nat (Ring.size (SlideWindow.buffer a)))
        (SlideWindow.minSize a) (SlideWindow.maxSize a) (SlideWindow.adjustStep a)
        (SlideWindow.currSize a)
        (too_early (SlideWindow.lastAdjustTime a) now1 (SlideWindow.minAdjustInterval a)) h d.
Proof.
  intros Hs Hc Hr. unfold SlideWindow.Adjust, slide_size.
  destruct (Ring.ring_Add_repr _ _ d Hr) as (b & -> & Hb & Hsz); simpl.
  rewrite (Ring.Avg_repr _ _ Hb), Hsz. unfold Ring.Count, Ring.Size.
  rewrite (Ring.repr_count _ _ Hb), length_last_n, Hsz. destruct Hr as [Hz _ _ _ _ _].
  set (m := length (h ++ [d])). set (k := Ring.size (SlideWindow.buffer a)) in *.
  destruct (Z.ltb_spec (Z.min (Z.of_nat m) k) k), (Nat.ltb_spec (Z.to_nat k `min` m) (Z.to_nat k));
    try lia; [by ret_state|].
  split_guard; [by ret_state|]. simpl.
  pose proof (fun f s => step_spec f s _ _ _ _ Hs Hc) as Hstep.
  set (avg := _ `quot` _). specialize (Hstep (d <? avg) (avg <? d)). rewrite <- Hstep.
  repeat split_guard; by ret_state.
Qed.

(** ** Properties *)

(** With a step that cannot wrap ([sizes_ok]), every run of the fixed-step
    adjuster returns, reports no error, and reports sizes within
    [minSize, maxSize] only. *)
Theorem fixed_sizes_bounded i lo hi st t f s (rs : list response) :
  sizes_ok lo hi st ->
  exists a ns, adjust_all (Fixed.NewAdjuster i lo hi st t f s) rs = Ret (a, ns) /\
    length ns = length rs /\ Forall (fun n => lo <= n <= hi) ns.
Proof.
  intros H. destruct (adjust_all_bounded _ rs (Fixed.fixed_New_ok i lo hi st t f s H))
    as (a & ns & ? & _ & ? & ?). by exists a, ns.
Qed.

Lemma fixed_sizes_bounded_witness :
  exists a ns, adjust_all (Fixed.NewAdjuster 10 4 20 5 0 100 200)
      [(50, zeroTime, zeroTime); (50, zeroTime, zeroTime); (300, zeroTime, zeroTime)] = Ret (a, ns) /\
    length ns = 3%nat /\ Forall (fun n => 4 <= n <= 20) ns.
Proof.
  apply (fixed_sizes_bounded 10 4 20 5 0 100 200
    [(50, zeroTime, zeroTime); (50, zeroTime, zeroTime); (300, zeroTime, zeroTime)]).
  split_and!; vm_compute; congruence.
Defined.

(** C36: with a window of fewer than 2^62 responses and sizes for which no step
    wraps around ([sizes_ok]: a step of at most minSize + 1, and maxSize plus the
    step below 2^64), the sliding-window adjuster, from its constructor on and over
    every run, never panics, reports no error, and reports sizes within
    [minSize, maxSize] only.  See [slide_shrink_wraps] for a larger step. *)
Theorem slide_sizes_bounded n i lo hi st t (rs : list response) :
  0 < n < 2 ^ 62 -> sizes_ok lo hi st ->
  exists a a' ns, SlideWindow.NewAdjuster n i lo hi st t = (Some a, None) /\
    adjust_all a rs = Ret (a', ns) /\
    length ns = length rs /\ Forall (fun s => lo <= s <= hi) ns.
Proof.
  intros Hn H. destruct (SlideWindow.slide_New_ok n i lo hi st t Hn H) as (a & Hnew & Hok & Hb).
  destruct (adjust_all_bounded _ rs Hok) as (a' & ns & ? & _ & ? & Hns). rewrite Hb in Hns.
  by exists a, a', ns.
Qed.

Lemma slide_sizes_bounded_witness :
  exists a a' ns, SlideWindow.NewAdjuster 2 10 4 20 5 0 = (Some a, None) /\
    adjust_all a [(50, zeroTime, zeroTime); (40, zeroTime, zeroTime); (300, zeroTime, zeroTime)]
      = Ret (a', ns) /\
    length ns = 3%nat /\ Forall (fun s => 4 <= s <= 20) ns.
Proof.
  apply (slide_sizes_bounded 2 10 4 20 5 0
    [(50, zeroTime, zeroTime); (40, zeroTime, zeroTime); (300, zeroTime, zeroTime)]);
    [lia|split_and!; vm_compute; congruence].
Defined.

(** One call of the sliding-window adjuster computes [slide_size] of the
    durations seen so far: it waits for a full window, respects the interval,
    then steps up below the average and down above it, clamped to the bounds. *)
Theorem slide_adjust_spec a d now1 now2 h :
  sizes_ok (SlideWindow.minSize a) (SlideWindow.maxSize a) (SlideWindow.adjustStep a) ->
  SlideWindow.minSize a <= SlideWindow.currSize a <= SlideWindow.maxSize a ->
  Ring.repr (SlideWindow.buffer a) h ->
  exists a', SlideWindow.Adjust a d now1 now2 = Ret (a', (SlideWindow.currSize a', None)) /\
    SlideWindow.currSize a' =
      slide_size (Z.to_nat (Ring.size (SlideWindow.buffer a)))
        (SlideWindow.minSize a) (SlideWindow.maxSize a) (SlideWindow.adjustStep a)
        (SlideWindow.currSize a)
        (too_early (SlideWindow.lastAdjustTime a) now1 (SlideWindow.minAdjustInterval a)) h d.
Proof. apply slide_adjust_size. Qed.

Lemma slide_adjust_spec_witness :
  exists a, SlideWindow.NewAdjuster 1 10 4 20 5 0 = (Some a, None) /\
  exists a', SlideWindow.Adjust a 7 zeroTime zeroTime = Ret (a', (SlideWindow.currSize a', None)) /\
    SlideWindow.currSize a' = 10.
Proof.
  destruct (Ring.ring_New_repr 1 ltac:(lia)) as (b & Hb & Hr & _).
  eexists; split; [reflexivity|]. vm_compute in Hb. injection Hb as <-.
  match goal with |- exists _, SlideWindow.Adjust ?x _ _ _ = _ /\ _ =>
    destruct (slide_adjust_spec x 7 zeroTime zeroTime []) as (a' & H1 & H2);
    [split_and!; vm_compute; congruence|vm_compute; split; congruence|exact Hr|] end.
  exists a'. split; [exact H1|rewrite H2; vm_compute; reflexivity].
Defined.

(** When the step exceeds the current size, a slow response does not clamp to
    [minSize]: the uint64 subtraction wraps and the batch size becomes
    [2^64 + currSize - adjustStep], above [maxSize]. *)
Theorem fixed_shrink_wraps a d now1 now2 :
  too_early (Fixed.lastAdjustTime a) now1 (Fixed.minAdjustInterval a) = false ->
  Fixed.fastThreshold a <= d -> Fixed.slowThreshold a < d ->
  0 <= Fixed.minSize a < Fixed.currSize a -> Fixed.currSize a <= Fixed.maxSize a < 2 ^ 63 ->
  Fixed.currSize a < Fixed.adjustStep a < 2 ^ 63 ->
  exists a', Fixed.Adjust a d now1 now2 =
      Ret (a', (2 ^ 64 + Fixed.currSize a - Fixed.adjustStep a, None)) /\
    Fixed.maxSize a' < Fixed.currSize a'.
Proof.
  intros He Hf Hs Hm Hc Hst. unfold Fixed.Adjust. rewrite He.
  rewrite (proj2 (Z.ltb_ge _ _) Hf), (proj2 (Z.ltb_lt _ _) Hs), (proj2 (Z.ltb_lt _ _) (proj2 Hm)).
  eexists; split; [simpl; rewrite shrink_underflow by lia; done|simpl; lia].
Qed.

Lemma fixed_shrink_wraps_witness :
  let a := Fixed.NewAdjuster 5 1 100 10 0 100 200 in
  exists a', Fixed.Adjust a 300 zeroTime zeroTime = Ret (a', (2 ^ 64 + 5 - 10, None)) /\
    Fixed.maxSize a' < Fixed.currSize a'.
Proof. apply (fixed_shrink_wraps (Fixed.NewAdjuster 5 1 100 10 0 100 200) 300); vm_compute; intuition congruence. Defined.

(** The same holds of the sliding-window adjuster, once its window is full and a
    response is slower than the window's average. *)
Theorem slide_shrink_wraps a d now1 now2 h :
  let w := last_n (Z.to_nat (Ring.size (SlideWindow.buffer a))) (h ++ [d]) in
  Ring.repr (SlideWindow.buffer a) h -> length w = Z.to_nat (Ring.size (SlideWindow.buffer a)) ->
  too_early (SlideWindow.lastAdjustTime a) now1 (SlideWindow.minAdjustInterval a) = false ->
  Z.quot (i64 (sumZ id w)) (Z.of_nat (length w)) < d ->
  0 <= SlideWindow.minSize a < SlideWindow.currSize a ->
  SlideWindow.currSize a <= SlideWindow.maxSize a < 2 ^ 63 ->
  SlideWindow.currSize a < SlideWindow.adjustStep a < 2 ^ 63 ->
  exists a', SlideWindow.Adjust a d now1 now2 =
      Ret (a', (2 ^ 64 + SlideWindow.currSize a - SlideWindow.adjustStep a, None)) /\
    SlideWindow.maxSize a' < SlideWindow.currSize a'.
Proof.
  intros w Hr Hlen He Hd Hm Hc Hst. unfold SlideWindow.Adjust.
  destruct (Ring.ring_Add_repr _ _ d Hr) as (b & -> & Hb & Hsz); simpl.
  rewrite He, (Ring.Avg_repr _ _ Hb), Hsz. unfold Ring.Count, Ring.Size.
  rewrite (Ring.repr_count _ _ Hb), Hsz. unfold w in *. rewrite length_last_n in *.
  destruct Hr as [Hz _ _ _ _ _]. rewrite (proj2 (Z.ltb_ge _ _)) by lia.
  cbn [go_bind]. rewrite (proj2 (Z.ltb_ge d _)) by lia. rewrite (proj2 (Z.ltb_lt _ d) Hd).
  cbn [SlideWindow.set_buffer SlideWindow.minSize SlideWindow.currSize].
  rewrite (proj2 (Z.ltb_lt _ _)) by lia.
  eexists; split; [simpl; rewrite shrink_underflow by lia; done|simpl; lia].
Qed.

Lemma slide_shrink_wraps_witness :
  let b := {| SlideWindow.currSize := 5; SlideWindow.minSize := 1; SlideWindow.maxSize := 100;
              SlideWindow.adjustStep := 10; SlideWindow.lastAdjustTime := zeroTime;
              SlideWindow.buffer := match Ring.NewTimeDurationRingBuffer 2 with
                                    | (Some r, _) => match Ring.Add r 0 with Ret r => r | _ => r end
                                    | _ => Ring.mkRB [] 0 0 0 0 end;
              SlideWindow.minAdjustInterval := 0 |} in
  exists a', SlideWindow.Adjust b 300 zeroTime zeroTime = Ret (a', (2 ^ 64 + 5 - 10, None)) /\
    SlideWindow.maxSize a' < SlideWindow.currSize a'.
Proof.
  destruct (Ring.ring_New_repr 2 ltac:(lia)) as (r & Hn & Hr & _).
  destruct (Ring.ring_Add_repr _ _ 0 Hr) as (r' & Ha & Hr' & _).
  rewrite Hn, Ha. vm_compute in Hn. injection Hn as <-. vm_compute in Ha. injection Ha as <-.
  match goal with |- let b := ?x in _ => apply (slide_shrink_wraps x 300 zeroTime zeroTime [0]) end;
    [exact Hr'|vm_compute; intuition congruence..].
Defined.
