(* ===== verification/Snowflake.v ===== *)
(** * Snowflake ids

    internal/pkg/snowflake/id_generator.go.  An id packs 41 bits of
    milliseconds since 2025, 10 bits of a hash of the business key and 12 bits
    of a sequence number.

    [NextId] reads the clock, then adds 1 to the sequence atomically; the model
    takes the reading as an argument, so a run of the model lists the calls in
    the order of their atomic additions, with clock readings in any order:
    every interleaving of concurrent callers is such a run. *)
From Stdlib Require Import ZArith Lia List.
From stdpp Require Import prelude strings gmap pretty.
From S2P Require Import Prelude GoLang Errs GoStrings Externals.

Module Snowflake.

Definition timestampBits : Z := 41.
Definition hashBits : Z := 10.
Definition sequenceBits : Z := 12.
Definition hashShift : Z := sequenceBits.
Definition timestampShift : Z := hashShift + hashBits.
Definition sequenceMask : Z := Z.shiftl 1 sequenceBits - 1.
Definition hashMask : Z := Z.shiftl 1 hashBits - 1.
Definition timestampMask : Z := Z.shiftl 1 timestampBits - 1.
Definition epochMillis : Z := 1735689600000.
Definition number1000 : Z := 1000.
Definition number1000000 : Z := 1000000.

Record Generator := mkGenerator { sequence : Z; lastTime : Z; epoch : Time }.

Definition NewGenerator : Generator :=
  {| sequence := 0; lastTime := 0;
     epoch := time_Unix (Z.quot epochMillis number1000)
                        (Z.rem epochMillis number1000 * number1000000) |}.

Definition HashKey (bizId : Z) (bizKey : string) : string :=
  FormatUint bizId +:+ ":" +:+ bizKey.

Definition ExtractTimestamp (id : Z) : Time :=
  let timestamp := Z.land (Z.shiftr id timestampShift) timestampMask in
  time_Unix 0 (i64 (u64 (u64 (timestamp + epochMillis) * Millisecond))).

Definition ExtractHash (id : Z) : Z := Z.land (Z.shiftr id hashShift) hashMask.

Definition ExtractSequence (id : Z) : Z := Z.land id sequenceMask.

Lemma ExtractHash_range id : 0 <= ExtractHash id.
Proof. unfold ExtractHash. apply Z.land_nonneg. by right. Qed.

Section generator.
Context `{XXHash}.

Definition NextId (g : Generator) (bizId : Z) (bizKey : string) (now : Time) : Generator * Z :=
  let timestamp := u64 (u64 (UnixMilli now) - epochMillis) in
  let hashVal := Sum64String (HashKey bizId bizKey) in
  let sequence1 := u64 (sequence g + 1) in
  let seq := u64 (sequence1 - 1) in
  ({| sequence := sequence1; lastTime := lastTime g; epoch := epoch g |},
   Z.lor (Z.lor (u64 (Z.shiftl (Z.land timestamp timestampMask) timestampShift))
                (u64 (Z.shiftl (Z.land hashVal hashMask) hashShift)))
         (Z.land seq sequenceMask)).

(** A run of calls: business id, business key and clock reading of each. *)
Fixpoint NextIds (g : Generator) (calls : list (Z * string * Time)) : Generator * list Z :=
  match calls with
  | [] => (g, [])
  | (bizId, bizKey, now) :: calls =>
      let '(g1, id) := NextId g bizId bizKey now in
      let '(g2, ids) := NextIds g1 calls in
      (g2, id :: ids)
  end.
End generator.

Arguments NextId : simpl never.

(** ** The layout of an id *)

(** An id as a number: the three fields side by side. *)
Definition pack (ts h s : Z) : Z := ts * 2 ^ 22 + h * 2 ^ 12 + s.

Lemma lor_field n a b : 0 <= n -> 0 <= b < 2 ^ n -> Z.lor (Z.shiftl a n) b = a * 2 ^ n + b.
Proof.
  intros Hn Hb. rewrite <- Z.shiftl_mul_pow2 by done. symmetry. apply Z.add_nocarry_lor.
  apply Z.bits_inj'. intros i Hi. rewrite Z.bits_0, Z.land_spec.
  destruct (Z.ltb_spec i n); [by rewrite Z.shiftl_spec_low|].
  rewrite <- (Z.mod_small b (2 ^ n)), Z.mod_pow2_bits_high by lia. apply andb_false_r.
Qed.

Lemma mask_mod x n : 0 <= n -> Z.land x (Z.shiftl 1 n - 1) = x mod 2 ^ n.
Proof. intros Hn. by rewrite <- Z.land_ones by done. Qed.

Lemma pack_lor ts h s :
  0 <= ts < 2 ^ 41 -> 0 <= h < 2 ^ 10 -> 0 <= s < 2 ^ 12 ->
  Z.lor (Z.lor (u64 (Z.shiftl ts timestampShift)) (u64 (Z.shiftl h hashShift))) s = pack ts h s.
Proof.
  intros Ht Hh Hs. unfold timestampShift, hashShift, sequenceBits, hashBits, pack.
  rewrite !wrap_u_id by (rewrite ?Z.shiftl_mul_pow2 by lia; unfold in_u; lia).
  rewrite <- Z.lor_assoc, (lor_field 12), (lor_field (12 + 10)) by lia.
  change (12 + 10) with 22. lia.
Qed.

Section fields.
Context (ts h s : Z) (Ht : 0 <= ts < 2 ^ 41) (Hh : 0 <= h < 2 ^ 10) (Hs : 0 <= s < 2 ^ 12).

Lemma ExtractSequence_pack : ExtractSequence (pack ts h s) = s.
Proof using All. unfold ExtractSequence, sequenceMask, sequenceBits. rewrite mask_mod by lia. unfold pack. divlia. Qed.

Lemma ExtractHash_pack : ExtractHash (pack ts h s) = h.
Proof using All.
  unfold ExtractHash, hashMask, hashBits, hashShift, sequenceBits.
  rewrite mask_mod, Z.shiftr_div_pow2 by lia. unfold pack. divlia.
Qed.

Lemma timestamp_pack : Z.land (Z.shiftr (pack ts h s) timestampShift) timestampMask = ts.
Proof using All.
  unfold timestampMask, timestampBits, timestampShift, hashShift, hashBits, sequenceBits.
  rewrite mask_mod, Z.shiftr_div_pow2 by lia. unfold pack. change (12 + 10) with 22. divlia.
Qed.
End fields.

Lemma pack_inj ts h s ts' h' s' :
  0 <= ts < 2 ^ 41 -> 0 <= h < 2 ^ 10 -> 0 <= s < 2 ^ 12 ->
  0 <= ts' < 2 ^ 41 -> 0 <= h' < 2 ^ 10 -> 0 <= s' < 2 ^ 12 ->
  pack ts h s = pack ts' h' s' -> ts = ts' /\ h = h' /\ s = s'.
Proof. unfold pack. lia. Qed.

(** ** What [NextId] packs *)

Section next.
Context `{XXHash}.

Definition id_timestamp (now : Time) : Z := (UnixMilli now - epochMillis) mod 2 ^ 41.
Definition id_hash (bizId : Z) (bizKey : string) : Z :=
  Sum64String (HashKey bizId bizKey) mod 2 ^ 10.

Lemma NextId_pack g bizId bizKey now :
  in_u 64 (sequence g) ->
  NextId g bizId bizKey now =
    ({| sequence := u64 (sequence g + 1); lastTime := lastTime g; epoch := epoch g |},
     pack (id_timestamp now) (id_hash bizId bizKey) (sequence g mod 2 ^ 12)).
Proof.
  intros Hg. unfold NextId. f_equal.
  unfold timestampMask, hashMask, sequenceMask, timestampBits, hashBits, sequenceBits.
  rewrite !mask_mod by lia. rewrite pack_lor by (apply Z.mod_pos_bound; lia).
  unfold id_timestamp, id_hash, wrap_u. f_equal.
  - rewrite mod_sub_mod_l, Z.mod_mod_divide; [done|by exists (2 ^ 23)].
  - rewrite mod_sub_mod_l, Z.mod_mod_divide by (by exists (2 ^ 52)). f_equal. lia.
Qed.

Lemma id_fields g bizId bizKey now id g' :
  in_u 64 (sequence g) -> NextId g bizId bizKey now = (g', id) ->
  ExtractHash id = id_hash bizId bizKey /\ ExtractSequence id = sequence g mod 2 ^ 12 /\
  Z.land (Z.shiftr id timestampShift) timestampMask = id_timestamp now /\ 0 <= id < 2 ^ 63.
Proof.
  intros Hg. rewrite NextId_pack by done. intros [= <- <-].
  unfold id_timestamp, id_hash. rewrite ExtractHash_pack, ExtractSequence_pack, timestamp_pack
    by (apply Z.mod_pos_bound; lia).
  split_and!; [done..| |]; unfold pack; divlia.
Qed.

Lemma NextIds_cons g bizId bizKey now calls :
  in_u 64 (sequence g) ->
  (NextIds g ((bizId, bizKey, now) :: calls)).2 =
    pack (id_timestamp now) (id_hash bizId bizKey) (sequence g mod 2 ^ 12) ::
    (NextIds {| sequence := u64 (sequence g + 1); lastTime := lastTime g; epoch := epoch g |} calls).2.
Proof.
  intros Hg. cbn [NextIds]. rewrite NextId_pack by done. by destruct (NextIds _ calls).
Qed.

(** The [k]-th id of a run carries the generator's sequence number plus [k]. *)
Lemma NextIds_lookup g calls (k : nat) bizId bizKey now :
  in_u 64 (sequence g) -> calls !! k = Some (bizId, bizKey, now) ->
  (NextIds g calls).2 !! k =
    Some (pack (id_timestamp now) (id_hash bizId bizKey) ((sequence g + Z.of_nat k) mod 2 ^ 12)).
Proof.
  revert g k; induction calls as [|[[b1 k1] n1] calls IH]; intros g k Hg Hk; [done|].
  rewrite NextIds_cons by done. destruct k as [|k].
  - injection Hk as -> -> ->. cbn [lookup list_lookup]. do 2 f_equal. f_equal. lia.
  - cbn [lookup list_lookup] in Hk |- *. rewrite IH by (done || apply wrap_u_range; lia).
    cbn [sequence]. do 2 f_equal. rewrite <- mod_add_mod_l. unfold wrap_u.
    rewrite Z.mod_mod_divide by (by exists (2 ^ 52)). rewrite mod_add_mod_l. f_equal. lia.
Qed.

Lemma length_NextIds g calls : length (NextIds g calls).2 = length calls.
Proof.
  revert g; induction calls as [|[[b k] n] calls IH]; intros g; cbn [NextIds]; [done|].
  destruct (NextId g b k n) as [g1 id]. specialize (IH g1).
  destruct (NextIds g1 calls). simpl in *. lia.
Qed.

(** Two calls of a run get the same id only when they are a multiple of 4096
    calls apart. *)
Lemma NextIds_eq g calls (i j : nat) id :
  in_u 64 (sequence g) ->
  (NextIds g calls).2 !! i = Some id -> (NextIds g calls).2 !! j = Some id ->
  (Z.of_nat i - Z.of_nat j) mod 2 ^ 12 = 0.
Proof.
  intros Hg Hi Hj.
  destruct (calls !! i) as [[[b1 k1] n1]|] eqn:Ci.
  2: { apply lookup_ge_None in Ci. apply lookup_lt_Some in Hi. rewrite length_NextIds in Hi. lia. }
  destruct (calls !! j) as [[[b2 k2] n2]|] eqn:Cj.
  2: { apply lookup_ge_None in Cj. apply lookup_lt_Some in Hj. rewrite length_NextIds in Hj. lia. }
  rewrite (NextIds_lookup g calls i b1 k1 n1 Hg Ci) in Hi.
  rewrite (NextIds_lookup g calls j b2 k2 n2 Hg Cj) in Hj.
  assert (Heq := eq_trans Hi (eq_sym Hj)). injection Heq as Heq.
  apply pack_inj in Heq as (_ & _ & Hs); [|apply Z.mod_pos_bound; lia..]. divlia.
Qed.
End next.

(** The key the hash is taken of determines the business id and key. *)
Lemma HashKey_inj b1 k1 b2 k2 :
  0 <= b1 -> 0 <= b2 -> HashKey b1 k1 = HashKey b2 k2 -> b1 = b2 /\ k1 = k2.
Proof.
  intros H1 H2 H. unfold HashKey in H.
  apply (digits_sep_inj (Ascii.ascii_of_nat 58)) in H as [H ->]; [|done|by apply digits_FormatUint..].
  by apply FormatUint_inj in H.
Qed.

(** ** Properties *)

(** The fields of an id can be read back: the hash modulo 1024, the sequence
    number modulo 4096, and, from the epoch of 2025 for 2^41 milliseconds, the
    time of generation to the millisecond; the id itself fits 63 bits. *)
Theorem snowflake_roundtrip `{XXHash} g bizId bizKey now g' id :
  in_u 64 (sequence g) -> NextId g bizId bizKey now = (g', id) ->
  epochMillis <= UnixMilli now < epochMillis + 2 ^ 41 ->
  ExtractHash id = Sum64String (HashKey bizId bizKey) mod 2 ^ 10 /\
  ExtractSequence id = sequence g mod 2 ^ 12 /\
  ExtractTimestamp id = time_UnixMilli (UnixMilli now) /\
  0 <= id < 2 ^ 63.
Proof.
  intros Hg Hn Ht. destruct (id_fields g bizId bizKey now id g' Hg Hn) as (H1 & H2 & H3 & H4).
  split_and!; [done|done| |lia..]. unfold ExtractTimestamp. rewrite H3.
  unfold id_timestamp. rewrite Z.mod_small by lia. unfold epochMillis in *.
  unfold time_UnixMilli, time_Unix, Millisecond, Second in *.
  rewrite Z.sub_add. unwrap. f_equal; [f_equal|]; divlia.
Qed.

Lemma snowflake_roundtrip_witness :
  let now := time_UnixMilli 1735689600123 in
  exists g' id, @NextId fnv_hash NewGenerator 2025 "k" now = (g', id) /\
    ExtractSequence id = 0 /\ ExtractTimestamp id = now.
Proof.
  pose (r := @NextId fnv_hash NewGenerator 2025 "k" (time_UnixMilli 1735689600123)).
  exists r.1, r.2. split; [reflexivity|].
  destruct (@snowflake_roundtrip fnv_hash NewGenerator 2025 "k" (time_UnixMilli 1735689600123) r.1 r.2)
    as (_ & H2 & H3 & _); [vm_compute; intuition congruence..|].
  split; [rewrite H2; reflexivity|rewrite H3; reflexivity].
Defined.

(** C11: whatever the business keys and the clock readings, and however the calls
    interleave, any 4096 consecutive ids of one generator are distinct. *)
Theorem snowflake_unique `{XXHash} g calls :
  in_u 64 (sequence g) -> (length calls <= 4096)%nat -> NoDup (NextIds g calls).2.
Proof.
  intros Hg Hlen. apply NoDup_alt. intros i j id Hi Hj.
  pose proof (NextIds_eq g calls i j id Hg Hi Hj) as Hm.
  apply lookup_lt_Some in Hi, Hj. rewrite length_NextIds in *. divlia.
Qed.

Lemma snowflake_unique_witness :
  NoDup (@NextIds fnv_hash NewGenerator
    [(1, "a", zeroTime); (1, "a", zeroTime); (2, "b", zeroTime); (1, "a", zeroTime)]).2.
Proof. apply snowflake_unique; [vm_compute; intuition congruence|simpl; lia]. Defined.

(** Distinct pairs of business id and key are hashed as distinct strings. *)
Theorem hash_key_injective b1 k1 b2 k2 :
  0 <= b1 -> 0 <= b2 -> HashKey b1 k1 = HashKey b2 k2 -> b1 = b2 /\ k1 = k2.
Proof. apply HashKey_inj. Qed.

Lemma hash_key_injective_witness : 12 = 12 /\ "3:4" = "3:4".
Proof. apply (hash_key_injective 12 "3:4" 12 "3:4"); [lia|lia|reflexivity]. Defined.

End Snowflake.
