(* ===== verification/Sharding.v ===== *)
(** * Sharding

    internal/pkg/sharding/types.go (the [Strategy] interface and the
    destination [Dst]) and internal/pkg/sharding/hash_sharding.go, with the two
    strategies internal/ioc/db.go configures.

    A destination is computed either from the business key ([Shard]) or from an
    id that carries 10 bits of the key's hash ([ShardWithId]); the data layer
    writes through the first and reads through the second. *)
From Stdlib Require Import ZArith Lia List.
From stdpp Require Import prelude strings gmap pretty.
From S2P Require Import Prelude GoLang Errs GoStrings Externals Snowflake.

(** Target database and table. *)
Record Dst := mkDst { DBSuffix : Z; TableSuffix : Z; DB : string; Table : string }.

#[export] Instance Dst_eq_dec : EqDecision Dst.
Proof. solve_decision. Defined.

(** The [Strategy] interface. *)
Class Strategy (S : Type) := {
  Shard : S -> Z -> string -> go Dst;
  ShardWithId : S -> Z -> go Dst;
  BroadCast : S -> list Dst }.

Module Hash.

Record HashStrategy := mkHashStrategy {
  dbPrefix : string;
  tablePrefix : string;
  dbSharding : Z;
  tableSharding : Z }.

Definition NewHashStrategy (dbPrefix tablePrefix : string) (dbSharding tableSharding : Z)
    : HashStrategy :=
  {| dbPrefix := dbPrefix; tablePrefix := tablePrefix;
     dbSharding := dbSharding; tableSharding := tableSharding |}.

(** [fmt.Sprintf("%s_%d", prefix, suffix)]. *)
Definition suffixed (prefix : string) (suffix : Z) : string :=
  prefix +:+ "_" +:+ FormatUint suffix.

Definition dst (h : HashStrategy) (dbSuffix tableSuffix : Z) : Dst :=
  {| DBSuffix := dbSuffix; TableSuffix := tableSuffix;
     DB := suffixed (dbPrefix h) dbSuffix; Table := suffixed (tablePrefix h) tableSuffix |}.

(** The body both methods share once the hash is known. *)
Definition shard_hash (h : HashStrategy) (hashVal : Z) : go Dst :=
  let! dbSuffix := go_rem hashVal (dbSharding h) in
  let! q := go_div hashVal (dbSharding h) in
  let! tableSuffix := go_rem q (tableSharding h) in
  Ret (dst h dbSuffix tableSuffix).

Definition Shard `{XXHash} (h : HashStrategy) (bizId : Z) (bizKey : string) : go Dst :=
  shard_hash h (Sum64String (Snowflake.HashKey bizId bizKey)).

Definition ShardWithId (h : HashStrategy) (id : Z) : go Dst :=
  shard_hash h (Snowflake.ExtractHash id).

Definition BroadCast (h : HashStrategy) : list Dst :=
  seqZ 0 (dbSharding h) ≫= fun i =>
  seqZ 0 (tableSharding h) ≫= fun j => [dst h i j].

Definition TablePrefix (h : HashStrategy) : string := tablePrefix h.

Definition ExtractSuffixAndFormat (h : HashStrategy) (tableName : string) : string :=
  let splits := Split (Ascii.ascii_of_nat 95) tableName in
  let suffix := List.last splits "" in
  tablePrefix h +:+ "_" +:+ suffix.

#[global] Instance strategy `{XXHash} : Strategy HashStrategy := {
  Shard := Shard;
  ShardWithId := ShardWithId;
  BroadCast := BroadCast }.

(** internal/ioc/db.go. *)
Definition InitNotifShardingStrategy : HashStrategy :=
  NewHashStrategy "jotify" "notification" 2 4.

Definition InitCbLogShardingStrategy : HashStrategy :=
  NewHashStrategy "jotify" "callback_log" 2 4.

(** A strategy with at least one database and one table. *)
Definition wf (h : HashStrategy) : Prop :=
  0 < dbSharding h < 2 ^ 64 /\ 0 < tableSharding h < 2 ^ 64.

#[export] Instance wf_dec h : Decision (wf h) := ltac:(unfold wf; apply _).

Lemma shard_hash_ok h v :
  wf h -> 0 <= v ->
  shard_hash h v = Ret (dst h (v mod dbSharding h) (v / dbSharding h mod tableSharding h)).
Proof.
  intros [Hd Ht] Hv. unfold shard_hash.
  rewrite go_rem_pos by lia; simpl. rewrite go_div_nz by lia; simpl.
  rewrite Z.quot_div_nonneg by lia.
  rewrite go_rem_pos by (try apply Z.div_pos; lia). done.
Qed.

Lemma dst_in_BroadCast h i j :
  0 <= i < dbSharding h -> 0 <= j < tableSharding h -> dst h i j ∈ BroadCast h.
Proof.
  intros Hi Hj. apply list_elem_of_bind. exists i. split; [|by apply elem_of_seqZ; lia].
  apply list_elem_of_bind. exists j. split; [set_solver|by apply elem_of_seqZ; lia].
Qed.

Lemma elem_of_BroadCast h d :
  d ∈ BroadCast h <->
  exists i j, d = dst h i j /\ 0 <= i < dbSharding h /\ 0 <= j < tableSharding h.
Proof.
  split; [|intros (i & j & -> & ? & ?); by apply dst_in_BroadCast].
  intros (i & Hd & Hi)%list_elem_of_bind.
  apply list_elem_of_bind in Hd as (j & Hd & Hj).
  apply elem_of_seqZ in Hi, Hj. exists i, j. split; [set_solver|lia].
Qed.

Lemma suffixed_inj p a b : suffixed p a = suffixed p b -> a = b.
Proof.
  unfold suffixed. induction p as [|c p IH]; simpl; intros H.
  - apply FormatUint_inj. by injection H.
  - apply IH. by injection H.
Qed.

(** Destinations of one strategy are determined by their two names. *)
Lemma names_inj h i j i' j' :
  DB (dst h i j) = DB (dst h i' j') -> Table (dst h i j) = Table (dst h i' j') ->
  i = i' /\ j = j'.
Proof. simpl. intros H1%suffixed_inj H2%suffixed_inj. done. Qed.

Lemma NoDup_BroadCast h : NoDup (BroadCast h).
Proof.
  apply NoDup_bind; [|intros i _|apply NoDup_seqZ].
  - intros i1 i2 y _ _ (j1 & H1 & _)%list_elem_of_bind (j2 & H2 & _)%list_elem_of_bind.
    apply list_elem_of_singleton in H1, H2. by simplify_eq.
  - apply NoDup_bind; [|intros; apply NoDup_singleton|apply NoDup_seqZ].
    intros j1 j2 y _ _ H1%list_elem_of_singleton H2%list_elem_of_singleton. by simplify_eq.
Qed.

Lemma NoDup_BroadCast_names h :
  NoDup ((fun d => (DB d, Table d)) <$> BroadCast h).
Proof.
  apply NoDup_fmap_2_strong; [|apply NoDup_BroadCast].
  intros d d' (i & j & -> & _)%elem_of_BroadCast (i' & j' & -> & _)%elem_of_BroadCast H.
  injection H as H1 H2. by destruct (names_inj h i j i' j' H1 H2) as [-> ->].
Qed.

Lemma length_BroadCast h :
  0 <= dbSharding h -> 0 <= tableSharding h ->
  Z.of_nat (length (BroadCast h)) = dbSharding h * tableSharding h.
Proof.
  intros Hd Ht. unfold BroadCast.
  assert (Hin : forall i, length (seqZ 0 (tableSharding h) ≫= fun j => [dst h i j]) = Z.to_nat (tableSharding h)).
  { intros i. rewrite <- (length_seqZ 0). generalize (seqZ 0 (tableSharding h)) as l.
    induction l as [|j l IH]; [done|]. by rewrite bind_cons, length_app, IH. }
  rewrite <- (Z2Nat.id (dbSharding h)) at 2 by done. rewrite <- (length_seqZ 0 (dbSharding h)).
  generalize (seqZ 0 (dbSharding h)) as l.
  induction l as [|i l IH]; [done|].
  rewrite bind_cons, length_app, Hin, Nat2Z.inj_add, IH, length_cons. lia.
Qed.

(** The two suffixes determine, and are determined by, the hash modulo the
    number of tables. *)
Lemma suffixes_mod d t v w :
  0 < d -> 0 < t -> 0 <= v -> 0 <= w ->
  (v mod d = w mod d /\ v / d mod t = w / d mod t) <-> v mod (d * t) = w mod (d * t).
Proof.
  intros Hd Ht Hv Hw. rewrite !Z.rem_mul_r by lia. split; [by intros [-> ->]|].
  intros H. pose proof (Z.mod_pos_bound v d Hd). pose proof (Z.mod_pos_bound w d Hd).
  assert (v mod d = w mod d); [|split; [done|nia]].
  apply (f_equal (fun x => x mod d)) in H. by rewrite !(Z.mul_comm d), !Z_mod_plus_full, !Z.mod_mod in H by lia.
Qed.

Lemma dst_eq h i j i' j' : dst h i j = dst h i' j' <-> i = i' /\ j = j'.
Proof. split; [|by intros [-> ->]]. by intros [= -> -> _ _]. Qed.

(** [ShardWithId] sees the hash modulo 1024; that is enough exactly when the
    number of tables divides 1024. *)
Lemma shard_truncated h v :
  wf h -> (dbSharding h * tableSharding h | 1024) -> 0 <= v ->
  shard_hash h (v mod 1024) = shard_hash h v.
Proof.
  intros Hwf Hdiv Hv. pose proof (Z.mod_pos_bound v 1024 ltac:(lia)).
  rewrite !shard_hash_ok by (done || lia). f_equal. apply dst_eq. destruct Hwf.
  apply suffixes_mod; [lia..|]. by rewrite Z.mod_mod_divide.
Qed.

Lemma shard_by_id `{XXHash} h g bizId bizKey now g' id :
  wf h -> (dbSharding h * tableSharding h | 1024) -> in_u 64 (Snowflake.sequence g) ->
  Snowflake.NextId g bizId bizKey now = (g', id) ->
  ShardWithId h id = Shard h bizId bizKey.
Proof.
  intros Hwf Hdiv Hg Hid. unfold ShardWithId, Shard.
  destruct (Snowflake.id_fields g bizId bizKey now id g' Hg Hid) as (-> & _).
  apply shard_truncated; [done..|]. apply Sum64String_range.
Qed.

(** ** Properties *)

(** With at least one database and one table, every business key has a
    destination, no call panics, and it is one [BroadCast] visits. *)
Theorem shard_total `{XXHash} h bizId bizKey :
  wf h -> exists d, Shard h bizId bizKey = Ret d /\ d ∈ BroadCast h.
Proof.
  intros Hwf. pose proof (Sum64String_range (Snowflake.HashKey bizId bizKey)) as [Hv _].
  unfold Shard. rewrite shard_hash_ok by done. eexists; split; [done|].
  destruct Hwf. apply dst_in_BroadCast; apply Z.mod_pos_bound; lia.
Qed.

Lemma shard_total_witness :
  exists d, @Shard fnv_hash InitNotifShardingStrategy 2025 "k" = Ret d /\
    d ∈ BroadCast InitNotifShardingStrategy.
Proof. apply shard_total. vm_compute. intuition congruence. Defined.

(** [BroadCast] visits every pair of database and table exactly once: it has
    [dbSharding * tableSharding] entries, no two with the same names, and
    contains the destination of every pair of suffixes in range and no other. *)
Theorem broadcast_exact h :
  0 <= dbSharding h -> 0 <= tableSharding h ->
  Z.of_nat (length (BroadCast h)) = dbSharding h * tableSharding h /\
  NoDup ((fun d => (DB d, Table d)) <$> BroadCast h) /\
  (forall d, d ∈ BroadCast h <->
     exists i j, d = dst h i j /\ 0 <= i < dbSharding h /\ 0 <= j < tableSharding h).
Proof.
  intros. split; [by apply length_BroadCast|split; [apply NoDup_BroadCast_names|]].
  apply elem_of_BroadCast.
Qed.

Lemma broadcast_exact_witness :
  Z.of_nat (length (BroadCast InitCbLogShardingStrategy)) = 8.
Proof. apply (broadcast_exact InitCbLogShardingStrategy); vm_compute; congruence. Defined.

(** C15: the record written under a business key is found under its id: when the
    number of tables divides 1024, [ShardWithId] of a generated id and [Shard]
    of its key are the same destination. *)
Theorem shard_with_id_agrees `{XXHash} h g bizId bizKey now g' id :
  wf h -> (dbSharding h * tableSharding h | 1024) -> in_u 64 (Snowflake.sequence g) ->
  Snowflake.NextId g bizId bizKey now = (g', id) ->
  ShardWithId h id = Shard h bizId bizKey.
Proof. apply shard_by_id. Qed.

Lemma shard_with_id_agrees_witness :
  let r := @Snowflake.NextId fnv_hash Snowflake.NewGenerator 2025 "k" zeroTime in
  ShardWithId InitNotifShardingStrategy r.2 = @Shard fnv_hash InitNotifShardingStrategy 2025 "k".
Proof.
  apply (@shard_with_id_agrees fnv_hash InitNotifShardingStrategy Snowflake.NewGenerator 2025 "k"
           zeroTime (@Snowflake.NextId fnv_hash Snowflake.NewGenerator 2025 "k" zeroTime).1).
  - vm_compute. intuition congruence.
  - exists 128. reflexivity.
  - vm_compute. intuition congruence.
  - reflexivity.
Defined.

(** That condition is exact: the 10 bits of hash an id keeps determine the
    destination of every hash if and only if the number of tables divides 1024. *)
Theorem id_hash_suffices_iff h :
  wf h ->
  (forall v, in_u 64 v -> shard_hash h (v mod 1024) = shard_hash h v) <->
  (dbSharding h * tableSharding h | 1024).
Proof.
  intros Hwf. split; [|intros Hdiv v [Hv _]; by apply shard_truncated].
  intros Hall. specialize (Hall 1024 ltac:(vm_compute; intuition congruence)).
  rewrite !shard_hash_ok in Hall by (done || lia). injection Hall as H1 H2 _ _.
  change (1024 mod 1024) with 0 in H1, H2.
  assert (Hm : 0 mod (dbSharding h * tableSharding h) = 1024 mod (dbSharding h * tableSharding h)).
  { destruct Hwf. apply suffixes_mod; [lia..|done]. }
  destruct Hwf. rewrite Z.mod_0_l in Hm by lia. apply Z.mod_divide; [nia|done].
Qed.

Lemma id_hash_suffices_iff_witness :
  (forall v, in_u 64 v -> shard_hash InitNotifShardingStrategy (v mod 1024)
                        = shard_hash InitNotifShardingStrategy v) <-> (2 * 4 | 1024).
Proof. apply (id_hash_suffices_iff InitNotifShardingStrategy). vm_compute. intuition congruence. Defined.

(** A table of one strategy names the table with the same number of another:
    [ExtractSuffixAndFormat] replaces the prefix, whatever the prefixes are. *)
Theorem extract_suffix_table h h' i j :
  0 <= j -> ExtractSuffixAndFormat h' (Table (dst h i j)) = Table (dst h' i j).
Proof.
  intros Hj. unfold ExtractSuffixAndFormat, dst, suffixed; simpl.
  change (tablePrefix h +:+ "_" +:+ FormatUint j)
    with (tablePrefix h +:+ String (Ascii.ascii_of_nat 95) (FormatUint j)).
  rewrite Split_app. rewrite (Split_none _ (FormatUint j)).
  - by rewrite List.last_last.
  - apply digits_no_sep; [done|]. by apply digits_FormatUint.
Qed.

Lemma extract_suffix_table_witness :
  ExtractSuffixAndFormat InitCbLogShardingStrategy (Table (dst InitNotifShardingStrategy 1 3))
  = "callback_log_3".
Proof. apply (extract_suffix_table InitNotifShardingStrategy InitCbLogShardingStrategy 1 3). lia. Defined.

(** The two configured strategies put a notification and its callback log in
    one database and in tables of the same number, as the data layer's single
    transaction needs; and both satisfy the condition under which ids locate
    their records. *)
Theorem configured_strategies_colocate `{XXHash} bizId bizKey :
  exists n c, Shard InitNotifShardingStrategy bizId bizKey = Ret n /\
    Shard InitCbLogShardingStrategy bizId bizKey = Ret c /\
    DB n = DB c /\ TableSuffix n = TableSuffix c /\
    Table c = ExtractSuffixAndFormat InitCbLogShardingStrategy (Table n) /\
    (dbSharding InitNotifShardingStrategy * tableSharding InitNotifShardingStrategy | 1024).
Proof.
  pose proof (Sum64String_range (Snowflake.HashKey bizId bizKey)) as [Hv _].
  unfold Shard. rewrite !shard_hash_ok by (done || vm_compute; intuition congruence).
  do 2 eexists. split_and!; [done..| |by exists 128].
  symmetry. simpl. set (v := Sum64String _) in *.
  assert (Hj : 0 <= v / 2 mod 4) by (apply Z.mod_pos_bound; lia).
  unfold ExtractSuffixAndFormat, suffixed; simpl.
  rewrite (Split_none _ (FormatUint (v / 2 mod 4))); [done|].
  apply digits_no_sep; [done|]. by apply digits_FormatUint.
Qed.

End Hash.
