(* ===== verification/Context.v ===== *)
(** * Request contexts and the choices they carry

    internal/pkg/client/types.go, internal/pkg/degradation/context.go,
    internal/pkg/isolation/gorm.go and the context half of
    internal/pkg/sharding/types.go.

    A [context.Context] is, for the values it carries, the list of the keys and
    values added to it, latest first.  A key is compared by its dynamic type:
    the struct types the packages declare are the constructors of [ctx_key].
    [isolation.CoreBizContextKey] is declared as an alias ([= struct{}]), so its
    key is the plain empty struct, shared with any other package that uses it. *)
From Stdlib Require Import ZArith Lia List.
From stdpp Require Import prelude strings gmap.
From S2P Require Import Prelude GoLang Sharding.

Inductive ctx_key :=
  | contextKeyGroup | contextKeyReqType | contextKeyBizId | contextKeyBizKey
  | degradeContext | dstContextKey | empty_struct.

#[export] Instance ctx_key_eq_dec : EqDecision ctx_key.
Proof. solve_decision. Defined.

(** Values of type [any], tagged with their dynamic type. *)
Inductive any := AString (s : string) | AUint8 (n : Z) | AUint64 (n : Z) | ABool (b : bool) | ADst (d : Dst).

Abbreviation Context := (list (ctx_key * any)) (only parsing).

Definition WithValue (ctx : Context) (k : ctx_key) (v : any) : Context := (k, v) :: ctx.

(** [ctx.Value(k)]; [None] is nil. *)
Fixpoint Value (ctx : Context) (k : ctx_key) : option any :=
  match ctx with
  | [] => None
  | (k', v) :: ctx => if decide (k' = k) then Some v else Value ctx k
  end.

(** ** client/types.go *)

Definition AttrWeight : string := "attr_weight".
Definition AttrReadWeight : string := "attr_read_weight".
Definition AttrWriteWeight : string := "attr_write_weight".
Definition AttrGroup : string := "attr_group".
Definition AttrNode : string := "attr_node".

Definition WithGroup (ctx : Context) (group : string) := WithValue ctx contextKeyGroup (AString group).
Definition GroupFromContext (ctx : Context) : string * bool :=
  match Value ctx contextKeyGroup with Some (AString g) => (g, true) | _ => (""%string, false) end.

Definition WithReqType (ctx : Context) (reqType : Z) := WithValue ctx contextKeyReqType (AUint8 reqType).
Definition ReqTypeFromContext (ctx : Context) : Z * bool :=
  match Value ctx contextKeyReqType with Some (AUint8 t) => (t, true) | _ => (0, false) end.

Definition WithBizId (ctx : Context) (bizId : Z) := WithValue ctx contextKeyBizId (AUint64 bizId).
Definition BizIdFromContext (ctx : Context) : Z * bool :=
  match Value ctx contextKeyBizId with Some (AUint64 i) => (i, true) | _ => (0, false) end.

Definition WithBizKey (ctx : Context) (bizKey : string) := WithValue ctx contextKeyBizKey (AString bizKey).
Definition BizKeyFromContext (ctx : Context) : string * bool :=
  match Value ctx contextKeyBizKey with Some (AString k) => (k, true) | _ => (""%string, false) end.

(** ** degradation/context.go *)

Definition WithDegrade (ctx : Context) := WithValue ctx degradeContext (ABool true).
Definition ShouldDegrade (ctx : Context) : bool :=
  match Value ctx degradeContext with Some (ABool true) => true | _ => false end.

(** ** sharding/types.go *)

Definition ContextWitDst (ctx : Context) (dst : Dst) := WithValue ctx dstContextKey (ADst dst).
Definition DstFromContext (ctx : Context) : option Dst :=
  match Value ctx dstContextKey with Some (ADst d) => Some d | _ => None end.

(** ** isolation/gorm.go *)

Module Isolation.

(** The two connection pools, of a type of gorm. *)
Record DB (ConnPool : Type) := mkDB { coreDB : ConnPool; nonCoreDB : ConnPool }.
Arguments mkDB {ConnPool}.
Arguments coreDB {ConnPool}.
Arguments nonCoreDB {ConnPool}.

Definition IsCore (ctx : Context) : bool :=
  match Value ctx empty_struct with Some _ => true | None => false end.

Definition selectDB {ConnPool} (db : DB ConnPool) (ctx : Context) : ConnPool :=
  if IsCore ctx then coreDB db else nonCoreDB db.

(** The four methods forward to the selected pool. *)
Definition on_selected {ConnPool R} (method : ConnPool -> Context -> R)
    (db : DB ConnPool) (ctx : Context) : R :=
  method (selectDB db ctx) ctx.

Definition NewDB {ConnPool} (core nonCore : ConnPool) : DB ConnPool := mkDB core nonCore.

Definition WithCore (ctx : Context) : Context := WithValue ctx empty_struct (ABool true).

End Isolation.

(** ** What the getters see *)

Lemma Value_With_eq ctx k v : Value (WithValue ctx k v) k = Some v.
Proof. simpl. by rewrite decide_True. Qed.

Lemma Value_With_ne ctx k k' v : k <> k' -> Value (WithValue ctx k' v) k = Value ctx k.
Proof. intros H. simpl. by rewrite decide_False. Qed.

(** Everything the program reads from a context. *)
Record view := mkView {
  v_group : string * bool; v_reqType : Z * bool; v_bizId : Z * bool; v_bizKey : string * bool;
  v_degrade : bool; v_core : bool; v_dst : option Dst }.

Definition view_of (ctx : Context) : view :=
  mkView (GroupFromContext ctx) (ReqTypeFromContext ctx) (BizIdFromContext ctx)
    (BizKeyFromContext ctx) (ShouldDegrade ctx) (Isolation.IsCore ctx) (DstFromContext ctx).

(** Each writer of a context is read back by its own getter and changes what
    no other getter returns. *)
Theorem context_writers_isolated ctx g t i k d :
  let v := view_of ctx in
  view_of (WithGroup ctx g) = mkView (g, true) (v_reqType v) (v_bizId v) (v_bizKey v) (v_degrade v) (v_core v) (v_dst v) /\
  view_of (WithReqType ctx t) = mkView (v_group v) (t, true) (v_bizId v) (v_bizKey v) (v_degrade v) (v_core v) (v_dst v) /\
  view_of (WithBizId ctx i) = mkView (v_group v) (v_reqType v) (i, true) (v_bizKey v) (v_degrade v) (v_core v) (v_dst v) /\
  view_of (WithBizKey ctx k) = mkView (v_group v) (v_reqType v) (v_bizId v) (k, true) (v_degrade v) (v_core v) (v_dst v) /\
  view_of (WithDegrade ctx) = mkView (v_group v) (v_reqType v) (v_bizId v) (v_bizKey v) true (v_core v) (v_dst v) /\
  view_of (Isolation.WithCore ctx) = mkView (v_group v) (v_reqType v) (v_bizId v) (v_bizKey v) (v_degrade v) true (v_dst v) /\
  view_of (ContextWitDst ctx d) = mkView (v_group v) (v_reqType v) (v_bizId v) (v_bizKey v) (v_degrade v) (v_core v) (Some d).
Proof. by split_and!. Qed.
