(* ===== verification/Retry.v ===== *)
(** * Retry policies: internal/pkg/retry

    [NewRetryStrategy] chooses a strategy of github.com/JrMarcco/easy-kit from a
    configuration.  The strategies are code outside the repository: a class. *)
From Stdlib Require Import ZArith Lia List.
From stdpp Require Import prelude strings gmap.
From S2P Require Import Prelude GoLang Errs.

(** github.com/JrMarcco/easy-kit/retry. *)
Class RetryKit := {
  Strategy : Type;
  NewFixedIntervalStrategy : Duration -> Z -> Strategy + error;
  NewExponentialBackoffStrategy : Duration -> Duration -> Z -> Strategy + error;
  NextWithRetried : Strategy -> Z -> Duration * bool
}.

Record ExponentialBackoffConfig := {
  InitInterval : Duration; MaxInterval : Duration; exp_MaxTimes : Z }.

Record FixedIntervalConfig := { Interval : Duration; fixed_MaxTimes : Z }.

Record Config := mkConfig {
  Type_ : string;
  FixedInterval : option FixedIntervalConfig;
  ExponentialBackoff : option ExponentialBackoffConfig }.

(** Dereferencing the part of the configuration that [Type_] names panics when
    it is missing. *)
Definition NewRetryStrategy `{RetryKit} (cfg : Config) : go (Strategy + error) :=
  if String.eqb (Type_ cfg) "fixed_interval" then
    match FixedInterval cfg with
    | None => Panic "nil pointer dereference"
    | Some c => Ret (NewFixedIntervalStrategy (Interval c) (fixed_MaxTimes c))
    end
  else if String.eqb (Type_ cfg) "exponential_backoff" then
    match ExponentialBackoff cfg with
    | None => Panic "nil pointer dereference"
    | Some c => Ret (NewExponentialBackoffStrategy (InitInterval c) (MaxInterval c) (exp_MaxTimes c))
    end
  else Ret (inr (ENew ("unknown retry strategy type: " +:+ Type_ cfg))).

(** The configurations the constructor accepts without panicking. *)
Definition config_complete (cfg : Config) : Prop :=
  (Type_ cfg = "fixed_interval" -> FixedInterval cfg <> None) /\
  (Type_ cfg = "exponential_backoff" -> ExponentialBackoff cfg <> None).

Lemma NewRetryStrategy_panics_iff `{RetryKit} cfg :
  is_panic (NewRetryStrategy cfg) = false <-> config_complete cfg.
Proof.
  unfold NewRetryStrategy, config_complete.
  destruct (String.eqb_spec (Type_ cfg) "fixed_interval") as [->|H1].
  { destruct (FixedInterval cfg); simpl; naive_solver. }
  destruct (String.eqb_spec (Type_ cfg) "exponential_backoff") as [->|H2].
  { destruct (ExponentialBackoff cfg); simpl; naive_solver. }
  simpl. naive_solver.
Qed.

(** A stand-in: a fixed interval for the first [n] retries. *)
Definition fixed_kit : RetryKit := {|
  Strategy := Z * Z;
  NewFixedIntervalStrategy i n := if (0 <? i) then inl (i, n) else inr (ENew "invalid interval");
  NewExponentialBackoffStrategy i m n := if (0 <? i) then inl (i, n) else inr (ENew "invalid interval");
  NextWithRetried s retried := if retried <? s.2 then (s.1, true) else (0, false)
|}.
