(* ===== verification/Domain.v ===== *)
(** * Domain objects: internal/domain

    Notifications and their sending strategies, templates and their versions,
    providers, configurations, transactional notifications.  Statuses, channels
    and the like are the strings the code declares; a method with a pointer
    receiver that changes its object returns the changed object; [time.Now()]
    is the argument [now]. *)
From Stdlib Require Import ZArith Lia List.
From stdpp Require Import prelude strings gmap.
From S2P Require Import Prelude GoLang Errs GoStrings Retry.

(** ** provider.go *)

Abbreviation Channel := string (only parsing).
Definition ChannelEmail : Channel := "email".
Definition ChannelSMS : Channel := "sms".
Definition ChannelApp : Channel := "app".

Definition Channel_Validate (c : Channel) : bool :=
  String.eqb c ChannelEmail || String.eqb c ChannelSMS || String.eqb c ChannelApp.

Definition IsSMS (c : Channel) : bool := String.eqb c ChannelSMS.
Definition IsEmail (c : Channel) : bool := String.eqb c ChannelEmail.
Definition IsApp (c : Channel) : bool := String.eqb c ChannelApp.

Abbreviation ProviderStatus := string (only parsing).
Definition ProviderStatusActive : ProviderStatus := "active".
Definition ProviderStatusInactive : ProviderStatus := "inactive".

Module Provider.

Record Provider := mkProvider {
  Id : Z; Name : string; Channel_ : Channel; Endpoint : string; RegionId : string;
  AppId : string; ApiKey : string; ApiSecret : string;
  Weight : Z; QpsLimit : Z; DailyLimit : Z;
  CallbackUrl : string; Status : ProviderStatus }.

Definition Validate (p : Provider) : option error :=
  if negb (Channel_Validate (Channel_ p)) then Some (code_err ErrInvalidParam " invalid channel")
  else if String.eqb (Name p) "" then
    Some (code_err ErrInvalidParam " provider name should not be empty")
  else if String.eqb (Endpoint p) "" then
    Some (code_err ErrInvalidParam " api endpoint should not be empty")
  else if String.eqb (ApiKey p) "" then
    Some (code_err ErrInvalidParam " api key should not be empty")
  else if String.eqb (ApiSecret p) "" then
    Some (code_err ErrInvalidParam " api secret should not be empty")
  else if Weight p <=? 0 then
    Some (code_err ErrInvalidParam " weight should not be greater than 0")
  else if QpsLimit p <=? 0 then
    Some (code_err ErrInvalidParam " qps limit should not be greater than 0")
  else if DailyLimit p <=? 0 then
    Some (code_err ErrInvalidParam " daily limit should not be greater than 0")
  else None.

Definition valid (p : Provider) : Prop :=
  Channel_ p ∈ [ChannelEmail; ChannelSMS; ChannelApp] /\
  Name p <> "" /\ Endpoint p <> "" /\ ApiKey p <> "" /\ ApiSecret p <> "" /\
  0 < Weight p /\ 0 < QpsLimit p /\ 0 < DailyLimit p.

End Provider.

(** ** notification_send.go *)

Abbreviation SendStrategy := string (only parsing).
Definition SendStrategyImmediate : SendStrategy := "immediate".
Definition SendStrategyDelayed : SendStrategy := "delayed".
Definition SendStrategyScheduled : SendStrategy := "scheduled".
Definition SendStrategyTimeWindow : SendStrategy := "time_window".
Definition SendStrategyDeadline : SendStrategy := "deadline".

Module SendConf.

Record SendStrategyConf := mkConf {
  Type_ : SendStrategy; Delay : Duration; ScheduleAt : Time;
  Start : Time; End_ : Time; Deadline : Time }.

(** The zero value. *)
Definition zero : SendStrategyConf := mkConf "" 0 zeroTime zeroTime zeroTime zeroTime.

Definition Validate (now : Time) (c : SendStrategyConf) : option error :=
  if String.eqb (Type_ c) SendStrategyImmediate then None
  else if String.eqb (Type_ c) SendStrategyDelayed then
    if Delay c <=? 0 then Some (code_err ErrInvalidParam ": delay time should be greater than 0")
    else None
  else if String.eqb (Type_ c) SendStrategyScheduled then
    if IsZero (ScheduleAt c) || Before (ScheduleAt c) now then
      Some (code_err ErrInvalidParam ": schedule_at should not be zero or before now")
    else None
  else if String.eqb (Type_ c) SendStrategyTimeWindow then
    if IsZero (Start c) || After (Start c) (End_ c) then
      Some (code_err ErrInvalidParam
              ": start and end time should not be zero and start should be before end")
    else None
  else if String.eqb (Type_ c) SendStrategyDeadline then
    if IsZero (Deadline c) || Before (Deadline c) now then
      Some (code_err ErrInvalidParam ": deadline should not be zero or before now")
    else None
  else Some (code_err ErrInvalidParam ": unknown strategy").

Definition defaultEndDuration : Duration := i64 (30 * Minute).
Definition scheduledTimeTolerance : Duration := i64 (3 * Second).

Definition CalcTimeWindow (now : Time) (c : SendStrategyConf) : Time * Time :=
  if String.eqb (Type_ c) SendStrategyImmediate then (now, Add now defaultEndDuration)
  else if String.eqb (Type_ c) SendStrategyDelayed then (now, Add now (Delay c))
  else if String.eqb (Type_ c) SendStrategyDeadline then (now, Deadline c)
  else if String.eqb (Type_ c) SendStrategyTimeWindow then (Start c, End_ c)
  else if String.eqb (Type_ c) SendStrategyScheduled then
    (Add (Start c) (- scheduledTimeTolerance), Deadline c)
  else (now, now).

(** What [Validate] accepts. *)
Inductive valid (now : Time) (c : SendStrategyConf) : Prop :=
  | valid_immediate : Type_ c = SendStrategyImmediate -> valid now c
  | valid_delayed : Type_ c = SendStrategyDelayed -> 0 < Delay c -> valid now c
  | valid_scheduled : Type_ c = SendStrategyScheduled -> IsZero (ScheduleAt c) = false ->
      Before (ScheduleAt c) now = false -> valid now c
  | valid_time_window : Type_ c = SendStrategyTimeWindow -> IsZero (Start c) = false ->
      Before (End_ c) (Start c) = false -> valid now c
  | valid_deadline : Type_ c = SendStrategyDeadline -> IsZero (Deadline c) = false ->
      Before (Deadline c) now = false -> valid now c.

Lemma Validate_ok now c : Validate now c = None <-> valid now c.
Proof.
  unfold Validate, After. split.
  - intros H. repeat (split_guard; try done).
    + by apply valid_immediate.
    + by apply valid_delayed.
    + by apply valid_scheduled.
    + by apply valid_time_window.
    + by apply valid_deadline.
  - intros [H|H H1|H H1 H2|H H1 H2|H H1 H2]; rewrite H; simpl; rewrite ?H1, ?H2; try done.
    by destruct (Z.leb_spec (Delay c) 0); [lia|].
Qed.

(** Every refusal is an [ErrInvalidParam]. *)
Lemma Validate_err now c e :
  Validate now c = Some e -> errors_Is e (SCode ErrInvalidParam) = true.
Proof.
  unfold Validate. intros H.
  repeat (split_guard; simplify_eq); try done; apply errors_Is_code_err.
Qed.

End SendConf.

Abbreviation SendStatus := string (only parsing).
Definition SendStatusPrepare : SendStatus := "prepare".
Definition SendStatusCancel : SendStatus := "cancel".
Definition SendStatusPending : SendStatus := "pending".
Definition SendStatusSending : SendStatus := "sending".
Definition SendStatusSuccess : SendStatus := "success".
Definition SendStatusFailure : SendStatus := "failure".

Record SendResult := mkResult { NotificationId : Z; Result_Status : SendStatus }.
Record SendResp := mkResp { Result : SendResult }.
Record BatchSendResp := mkBatchResp { Results : list SendResult }.
Record BatchAsyncSendResp := mkAsyncResp { NotificationIds : list Z }.

(** ** notification.go *)

(** The zero value of [Template] has no parameters; an empty map and a nil map
    are not told apart by the code. *)
Record Template := mkTemplate { Tpl_Id : Z; VersionId : Z; Params : gmap string string }.

Module Notif.

Record Notification := mkNotification {
  Id : Z; BizId : Z; BizKey : string; Receivers : list string; Channel_ : Channel;
  Tpl : Template; Status : SendStatus; ScheduledStart : Time; ScheduledEnd : Time;
  Version : Z; StrategyConfig : SendConf.SendStrategyConf }.

(** The zero value, [Notification{}]. *)
Definition zero : Notification :=
  mkNotification 0 0 "" [] "" (mkTemplate 0 0 ∅) "" zeroTime zeroTime 0 SendConf.zero.

(** Assignments to one field. *)
Definition with_Id (n : Notification) v :=
  mkNotification v (BizId n) (BizKey n) (Receivers n) (Channel_ n) (Tpl n) (Status n)
    (ScheduledStart n) (ScheduledEnd n) (Version n) (StrategyConfig n).
Definition with_BizId (n : Notification) v :=
  mkNotification (Id n) v (BizKey n) (Receivers n) (Channel_ n) (Tpl n) (Status n)
    (ScheduledStart n) (ScheduledEnd n) (Version n) (StrategyConfig n).
Definition with_Status (n : Notification) v :=
  mkNotification (Id n) (BizId n) (BizKey n) (Receivers n) (Channel_ n) (Tpl n) v
    (ScheduledStart n) (ScheduledEnd n) (Version n) (StrategyConfig n).
Definition with_Window (n : Notification) s e :=
  mkNotification (Id n) (BizId n) (BizKey n) (Receivers n) (Channel_ n) (Tpl n) (Status n)
    s e (Version n) (StrategyConfig n).
Definition with_Version (n : Notification) v :=
  mkNotification (Id n) (BizId n) (BizKey n) (Receivers n) (Channel_ n) (Tpl n) (Status n)
    (ScheduledStart n) (ScheduledEnd n) v (StrategyConfig n).
Definition with_Strategy (n : Notification) c :=
  mkNotification (Id n) (BizId n) (BizKey n) (Receivers n) (Channel_ n) (Tpl n) (Status n)
    (ScheduledStart n) (ScheduledEnd n) (Version n) c.

Definition Validate (now : Time) (n : Notification) : option error :=
  if BizId n <=? 0 then Some (code_err ErrInvalidParam ": biz id should not be negative or zero")
  else if String.eqb (BizKey n) "" then
    Some (code_err ErrInvalidParam ": biz key should not be empty")
  else if (length (Receivers n) =? 0)%nat then
    Some (code_err ErrInvalidParam ": receivers should not be empty")
  else if negb (Channel_Validate (Channel_ n)) then
    Some (code_err ErrInvalidParam ": invalid channel")
  else if Tpl_Id (Tpl n) <=? 0 then
    Some (code_err ErrInvalidParam ": template id should not be negative or zero")
  else if VersionId (Tpl n) <=? 0 then
    Some (code_err ErrInvalidParam ": template version id should not be negative or zero")
  else if (size (Params (Tpl n)) =? 0)%nat then
    Some (code_err ErrInvalidParam ": template params should not be empty")
  else SendConf.Validate now (StrategyConfig n).

(** [fmt]'s [%q] prints the only value that reaches it, 0, as a quoted rune. *)
Definition ValidatedBizId (n : Notification) : option error :=
  if BizId n <=? 0 then Some (code_err ErrInvalidParam ": BizId = '\x00'") else None.

Definition SetSendTime (now : Time) (n : Notification) : Notification :=
  let '(start, end_) := SendConf.CalcTimeWindow now (StrategyConfig n) in
  with_Window n start end_.

Definition IsImmediate (n : Notification) : bool :=
  String.eqb (SendConf.Type_ (StrategyConfig n)) SendStrategyImmediate.

Definition ReplaceAsyncImmediate (now : Time) (n : Notification) : Notification :=
  if IsImmediate n then
    let c := StrategyConfig n in
    with_Strategy n (SendConf.mkConf SendStrategyDeadline (SendConf.Delay c)
      (SendConf.ScheduleAt c) (SendConf.Start c) (SendConf.End_ c) (Add now Minute))
  else n.

(** What [Validate] accepts. *)
Definition valid (now : Time) (n : Notification) : Prop :=
  0 < BizId n /\ BizKey n <> "" /\ Receivers n <> [] /\
  Channel_ n ∈ [ChannelEmail; ChannelSMS; ChannelApp] /\
  0 < Tpl_Id (Tpl n) /\ 0 < VersionId (Tpl n) /\ Params (Tpl n) <> ∅ /\
  SendConf.valid now (StrategyConfig n).

End Notif.

(** *** Requests of the API

    The messages are generated in github.com/JrMarcco/jotify-api; the types
    below are the fields the conversion reads.  A protobuf timestamp and its
    [AsTime] (which accepts nil) are parameters. *)
Class ProtoTime := {
  Timestamp : Type;
  AsTime : option Timestamp -> Time
}.

Module Api.
Section api.
Context `{ProtoTime}.

Inductive ApiChannel := Channel_SMS | Channel_EMAIL | Channel_IN_APP | Channel_other (v : Z).

Inductive StrategyType :=
  | SendStrategy_Immediate
  | SendStrategy_Delayed (Delayed : option Z)
  | SendStrategy_Scheduled (Scheduled : option (option Timestamp))
  | SendStrategy_TimeWindow (TimeWindow : option (Z * Z))
  | SendStrategy_Deadline (Deadline : option (option Timestamp))
  | StrategyType_nil.

Record Notification := mkApi {
  BizKey : string; Receivers : list string; Channel_ : ApiChannel; TplId : string;
  TplParams : gmap string string; Strategy_ : option StrategyType }.

Definition getDomainChannel (n : Notification) : Channel * option error :=
  match Channel_ n with
  | Channel_SMS => (ChannelSMS, None)
  | Channel_EMAIL => (ChannelEmail, None)
  | Channel_IN_APP => (ChannelApp, None)
  | Channel_other _ => (""%string, Some (code_err ErrInvalidChannel ""))
  end.

(** The configuration built after the switch. *)
Definition strategy_conf strategy delaySeconds scheduleAt startTime endTime deadline :=
  SendConf.mkConf strategy (i64 (delaySeconds * Second)) scheduleAt
    (time_Unix startTime 0) (time_Unix endTime 0) deadline.

Definition getDomainStrategyConfig (n : Notification) : SendConf.SendStrategyConf * option error :=
  let invalid := (SendConf.zero, Some (code_err ErrInvalidSendStrategy "")) in
  match Strategy_ n with
  | None => (strategy_conf "" 0 zeroTime 0 0 zeroTime, None)
  | Some SendStrategy_Immediate =>
      (strategy_conf SendStrategyImmediate 0 zeroTime 0 0 zeroTime, None)
  | Some (SendStrategy_Delayed (Some s)) =>
      if 0 <? s then (strategy_conf SendStrategyDelayed s zeroTime 0 0 zeroTime, None)
      else invalid
  | Some (SendStrategy_Scheduled (Some (Some t))) =>
      (strategy_conf SendStrategyScheduled 0 (AsTime (Some t)) 0 0 zeroTime, None)
  | Some (SendStrategy_TimeWindow (Some (s, e))) =>
      (strategy_conf SendStrategyTimeWindow 0 zeroTime s e zeroTime, None)
  | Some (SendStrategy_Deadline (Some t)) =>
      (strategy_conf SendStrategyDeadline 0 zeroTime 0 0 (AsTime t), None)
  | Some _ => invalid
  end.

Definition NotificationFromApi (n : option Notification) : Notif.Notification * option error :=
  match n with
  | None => (Notif.zero, Some (code_err ErrInvalidParam ": notification is nil"))
  | Some n =>
      match ParseUint (TplId n) with
      | (_, Some err) =>
          (Notif.zero, Some (Errorf_ww (ECode ErrInvalidParam) ": parse template id failed: " err))
      | (tplId, None) =>
          match getDomainChannel n with
          | (_, Some err) => (Notif.zero, Some err)
          | (channel, None) =>
              match getDomainStrategyConfig n with
              | (_, Some err) => (Notif.zero, Some err)
              | (strategyConfig, None) =>
                  (Notif.mkNotification 0 0 (BizKey n) (Receivers n) channel
                     (mkTemplate tplId 0 (TplParams n)) "" zeroTime zeroTime 0 strategyConfig,
                   None)
              end
          end
      end
  end.

End api.
End Api.

(** ** template.go *)

Abbreviation AuditStatus := string (only parsing).
Definition AuditStatusPending : AuditStatus := "pending".
Definition AuditStatusInPreview : AuditStatus := "in_preview".
Definition AuditStatusApproved : AuditStatus := "approved".
Definition AuditStatusRejected : AuditStatus := "rejected".

Definition IsPending (a : AuditStatus) : bool := String.eqb a AuditStatusPending.
Definition IsInPreview (a : AuditStatus) : bool := String.eqb a AuditStatusInPreview.
Definition IsApproved (a : AuditStatus) : bool := String.eqb a AuditStatusApproved.
Definition IsRejected (a : AuditStatus) : bool := String.eqb a AuditStatusRejected.

Definition AuditStatus_Validate (a : AuditStatus) : bool :=
  String.eqb a AuditStatusPending || String.eqb a AuditStatusInPreview ||
  String.eqb a AuditStatusApproved || String.eqb a AuditStatusRejected.

Abbreviation OwnerType := string (only parsing).
Definition OwnerTypePerson : OwnerType := "person".
Definition OwnerTypeOrganization : OwnerType := "organization".

Definition OwnerType_Validate (o : OwnerType) : bool :=
  String.eqb o OwnerTypePerson || String.eqb o OwnerTypeOrganization.

Abbreviation BizType := string (only parsing).
Definition BizTypePromotion : BizType := "Promotion".
Definition BizTypeNotification : BizType := "notification".
Definition BizTypeVerifyCode : BizType := "verify_code".

Definition BizType_Validate (b : BizType) : bool :=
  String.eqb b BizTypePromotion || String.eqb b BizTypeNotification ||
  String.eqb b BizTypeVerifyCode.

Record ChannelTplProvider := mkTplProvider {
  tp_Id : Z; TplId : Z; TplVersionId : Z; ProviderId : Z; ProviderName : string;
  ProviderChannel : Channel; RequestId : string; ProviderTplId : string;
  tp_AuditStatus : AuditStatus; tp_RejectReason : string; tp_LastReviewAt : Z;
  tp_CreateAt : Z; tp_UpdateAt : Z }.

Record ChannelTplVersion := mkVersion {
  ver_Id : Z; ChannelTplId : Z; ver_Name : string; Signature : string; Content : string;
  Remark : string; AuditId : Z; AuditorId : Z; AuditAt : Z; ver_AuditStatus : AuditStatus;
  ver_RejectReason : string; ver_LastReviewAt : Z; ver_CreateAt : Z; ver_UpdateAt : Z;
  Providers : list ChannelTplProvider }.

Module ChannelTpl.

Record ChannelTpl := mkTpl {
  Id : Z; OwnerId : Z; OwnerType_ : OwnerType; Name : string; Description : string;
  Channel_ : Channel; BizType_ : BizType; ActivatedVersionId : Z;
  CreateAt : Z; UpdateAt : Z; Versions : list ChannelTplVersion }.

Definition Validate (ct : ChannelTpl) : option error :=
  if negb (OwnerType_Validate (OwnerType_ ct)) then
    Some (code_err ErrInvalidParam " invalid owner type")
  else if negb (Channel_Validate (Channel_ ct)) then
    Some (code_err ErrInvalidParam " invalid channel")
  else if negb (BizType_Validate (BizType_ ct)) then
    Some (code_err ErrInvalidParam " invalid biz type")
  else if OwnerId ct <=? 0 then
    Some (code_err ErrInvalidParam " owner id should not be negative or zero")
  else if String.eqb (Name ct) "" then
    Some (code_err ErrInvalidParam " template name should not be empty")
  else if String.eqb (Description ct) "" then
    Some (code_err ErrInvalidParam " template description should not be empty")
  else None.

Definition Published (ct : ChannelTpl) : bool := 0 <? ActivatedVersionId ct.

(** The loops over the versions return at the first hit. *)
Definition first {A} (p : A -> bool) (l : list A) : option A := List.find p l.

Definition ActivatedVersion (ct : ChannelTpl) : option ChannelTplVersion :=
  if ActivatedVersionId ct <=? 0 then None
  else first (fun v => ver_Id v =? ActivatedVersionId ct) (Versions ct).

Definition GetVersion (ct : ChannelTpl) (versionId : Z) : option ChannelTplVersion :=
  first (fun v => ver_Id v =? versionId) (Versions ct).

Definition GetProvidersByVersion (ct : ChannelTpl) (versionId : Z) : list ChannelTplProvider :=
  match GetVersion ct versionId with None => [] | Some version => Providers version end.

Definition GetProvider (ct : ChannelTpl) (versionId providerId : Z) : option ChannelTplProvider :=
  match GetVersion ct versionId with
  | None => None
  | Some version => first (fun p => tp_Id p =? providerId) (Providers version)
  end.

Definition HasApprovedVersion (ct : ChannelTpl) : bool :=
  existsb (fun v => String.eqb (ver_AuditStatus v) AuditStatusApproved) (Versions ct).

Lemma ActivatedVersion_GetVersion ct :
  ActivatedVersion ct = if Published ct then GetVersion ct (ActivatedVersionId ct) else None.
Proof.
  unfold ActivatedVersion, Published, GetVersion.
  destruct (Z.leb_spec (ActivatedVersionId ct) 0), (Z.ltb_spec 0 (ActivatedVersionId ct)); lia || done.
Qed.

Lemma GetVersion_some ct i v : GetVersion ct i = Some v -> v ∈ Versions ct /\ ver_Id v = i.
Proof.
  intros H. apply List.find_some in H as [H E]. apply Z.eqb_eq in E.
  split; [by apply list_elem_of_In|done].
Qed.

Lemma GetVersion_none ct i : GetVersion ct i = None <-> forall v, v ∈ Versions ct -> ver_Id v <> i.
Proof.
  unfold GetVersion, first. split.
  - intros H v Hv. apply list_elem_of_In in Hv. apply (List.find_none _ _ H) in Hv. by apply Z.eqb_neq.
  - intros H. destruct (List.find _ _) as [v|] eqn:E; [|done].
    apply GetVersion_some in E as [Hv E]. by destruct (H v Hv).
Qed.

End ChannelTpl.

(** ** audit.go, callback_log.go, conf.go, quota.go *)

Definition ResourceTypeTemplate : string := "Template".
Definition IsTemplate (r : string) : bool := String.eqb r ResourceTypeTemplate.

Record Audit := mkAudit { ResourceId : Z; ResourceType : string; audit_Content : string }.

(** What [audit_Content] is the JSON text of. *)
Record AuditContent := mkAuditContent {
  ac_OwnerId : Z; ac_OwnerType : string; ac_Name : string; ac_Description : string; ac_Channel : string;
  ac_BizType : string; ac_Version : string; ac_Signature : string; ac_Content : string; ac_Remark : string;
  ac_ProviderNames : list string }.

Abbreviation CallbackLogStatus := string (only parsing).
Definition CallbackStatusInit : CallbackLogStatus := "init".
Definition CallbackStatusPending : CallbackLogStatus := "pending".
Definition CallbackStatusSuccess : CallbackLogStatus := "success".
Definition CallbackStatusFailure : CallbackLogStatus := "failure".

Module CbLog.
Record CallbackLog := mkLog {
  Notification : Notif.Notification; RetriedTimes : Z; NextRetryAt : Z;
  Status : CallbackLogStatus }.
End CbLog.

Record ChannelItem := mkItem { item_Channel : string; Priority : Z; Enabled : bool }.
Record ChannelConf := mkChannelConf {
  Channels : list ChannelItem; ch_RetryPolicy : option Retry.Config }.
Record TxNotifConf := mkTxConf {
  tx_ServiceName : string; InitialDelay : Z; tx_RetryPolicy : option Retry.Config }.
Record CallbackConf := mkCbConf { cb_ServiceName : string; cb_RetryPolicy : option Retry.Config }.
Record DailyQuotaConf := mkDaily { daily_SMS : Z; daily_Email : Z }.
Record MonthlyQuotaConf := mkMonthly { monthly_SMS : Z; monthly_Email : Z }.
Record QuotaConf := mkQuotaConf {
  Daily : option DailyQuotaConf; Monthly : option MonthlyQuotaConf }.
Record BizConf := mkBizConf {
  bc_Id : Z; bc_OwnerId : Z; bc_OwnerType : string; ChannelConf_ : option ChannelConf;
  TxNotifConf_ : option TxNotifConf; RateLimit : Z; QuotaConf_ : option QuotaConf;
  CallbackConf_ : option CallbackConf; bc_CreateAt : Z; bc_UpdateAt : Z }.

Record Quota := mkQuota { quota_BizId : Z; quota_Quota : Z; quota_Channel : Channel }.

(** ** notification_tx.go *)

Definition TxnStatusPrepare : string := "prepare".
Definition TxnStatusCommit : string := "commit".
Definition TxnStatusCancel : string := "cancel".
Definition TxnStatusFailed : string := "failed".

Module Tx.

Record TxNotification := mkTx {
  TxId : Z; BizId : Z; BizKey : string; Notification : Notif.Notification; Status : string;
  CheckedBackCnt : Z; NextCheckBackAt : Z; CreateAt : Z; UpdateAt : Z }.

Definition SetSendTime (now : Time) (tn : TxNotification) : TxNotification :=
  mkTx (TxId tn) (BizId tn) (BizKey tn) (Notif.SetSendTime now (Notification tn)) (Status tn)
    (CheckedBackCnt tn) (NextCheckBackAt tn) (CreateAt tn) (UpdateAt tn).

Definition with_check (tn : TxNotification) (nextAt : Z) (status : string) : TxNotification :=
  mkTx (TxId tn) (BizId tn) (BizKey tn) (Notification tn) status
    (CheckedBackCnt tn) nextAt (CreateAt tn) (UpdateAt tn).

Section retry.
Context `{RetryKit}.

Definition nextCheck (tn : TxNotification) (txNotifConfig : option TxNotifConf)
    : go (Duration * bool) :=
  match txNotifConfig with
  | None => Ret (0, false)
  | Some c =>
      match tx_RetryPolicy c with
      | None => Ret (0, false)
      | Some p =>
          let! r := NewRetryStrategy p in
          match r with
          | inr _ => Ret (0, false)
          | inl strategy => Ret (NextWithRetried strategy (CheckedBackCnt tn))
          end
      end
  end.

Definition SetNextCheckAtAndStatus (now : Time) (tn : TxNotification)
    (txNotifConfig : option TxNotifConf) : go TxNotification :=
  let! '(next, ok) := nextCheck tn txNotifConfig in
  if (ok : bool) then Ret (with_check tn (UnixMilli (Add now next)) (Status tn))
  else Ret (with_check tn 0 TxnStatusFailed).

(** A transaction that is not to be checked again is failed; one that is keeps
    its status. *)
Lemma SetNextCheck_status now tn c tn' :
  SetNextCheckAtAndStatus now tn c = Ret tn' ->
  (exists d, nextCheck tn c = Ret (d, true) /\ Status tn' = Status tn /\
             NextCheckBackAt tn' = UnixMilli (Add now d)) \/
  (exists d, nextCheck tn c = Ret (d, false) /\ Status tn' = TxnStatusFailed /\
             NextCheckBackAt tn' = 0).
Proof.
  unfold SetNextCheckAtAndStatus. intros Hr.
  destruct (nextCheck tn c) as [[d [|]]|msg]; simpl in Hr; simplify_eq.
  - left. by exists d.
  - right. by exists d.
Qed.

End retry.
End Tx.

(** ** Properties *)

Lemma Channel_Validate_iff c :
  Channel_Validate c = true <-> c ∈ [ChannelEmail; ChannelSMS; ChannelApp].
Proof.
  unfold Channel_Validate. rewrite !orb_true_iff, !String.eqb_eq, !elem_of_cons, elem_of_nil. tauto.
Qed.

Lemma eqb_empty_false (s : string) : String.eqb s "" = false <-> s <> ""%string.
Proof. apply String.eqb_neq. Qed.

(** [Provider.Validate] accepts exactly the providers of a known channel
    with a name, an endpoint, credentials and positive limits, and refuses
    the others with [ErrInvalidParam]. *)
Theorem provider_validate_spec (p : Provider.Provider) :
  (Provider.Validate p = None <-> Provider.valid p) /\
  (forall e, Provider.Validate p = Some e -> errors_Is e (SCode ErrInvalidParam) = true).
Proof.
  unfold Provider.Validate, Provider.valid. rewrite <- Channel_Validate_iff. split.
  - split.
    + intros H. repeat (split_guard; try done).
    + intros (H1 & H2 & H3 & H4 & H5 & H6 & H7 & H8).
      apply eqb_empty_false in H2, H3, H4, H5. rewrite H1, H2, H3, H4, H5; simpl.
      apply Z.leb_gt in H6, H7, H8. by rewrite H6, H7, H8.
  - intros e H. repeat (split_guard; simplify_eq); try done; apply errors_Is_code_err.
Qed.

Section notif.
Context (now : Time).

Lemma Notif_Validate_err n e :
  Notif.Validate now n = Some e -> errors_Is e (SCode ErrInvalidParam) = true.
Proof.
  unfold Notif.Validate. intros H.
  repeat (split_guard; simplify_eq); try apply errors_Is_code_err.
  by eapply SendConf.Validate_err.
Qed.

Lemma Notif_Validate_ok n : Notif.Validate now n = None <-> Notif.valid now n.
Proof.
  unfold Notif.Validate, Notif.valid. rewrite <- Channel_Validate_iff, <- SendConf.Validate_ok. split.
  - intros H. repeat (split_guard; try done). split_and!; try done.
    + intros E. rewrite E in *. done.
    + intros E. rewrite E, map_size_empty in *. done.
  - intros (H1 & H2 & H3 & H4 & H5 & H6 & H7 & H8).
    apply Z.leb_gt in H1, H5, H6. apply eqb_empty_false in H2. rewrite H1, H2, H4, H5, H6; simpl.
    destruct (Notif.Receivers n) eqn:E; [done|]; simpl.
    destruct (Nat.eqb_spec (size (Params (Notif.Tpl n))) 0) as [E'|]; [|done].
    by apply map_size_empty_inv in E'.
Qed.

End notif.

(** C19: [Notification.Validate] accepts exactly the notifications with a business
    id and key, receivers, a known channel, a template with a version and
    parameters, and a valid strategy for its type; every refusal is an
    [ErrInvalidParam]. *)
Theorem notification_validate_spec now n :
  (Notif.Validate now n = None <-> Notif.valid now n) /\
  (forall e, Notif.Validate now n = Some e -> errors_Is e (SCode ErrInvalidParam) = true).
Proof. split; [apply Notif_Validate_ok|apply Notif_Validate_err]. Qed.

Lemma Before_irrefl t : Before t t = false.
Proof. unfold Before. by rewrite !Z.ltb_irrefl, andb_false_r. Qed.

Lemma Before_asym t u : Before t u = true -> Before u t = false.
Proof.
  unfold Before. rewrite orb_true_iff, orb_false_iff, andb_true_iff, andb_false_iff,
    !Z.ltb_lt, !Z.ltb_ge, !Z.eqb_eq, Z.eqb_neq. lia.
Qed.

(** Adding a positive duration to a clock reading of the present epoch. *)
Lemma Before_now_later now d :
  time_ok now -> t_sec now < 2 ^ 62 -> 0 < d -> in_s 64 d -> Before (Add now d) now = false.
Proof.
  intros Hok Hs Hd [_ Hd']. apply Before_asym, Before_Add_pos; [done..|].
  destruct Hok as [[Hl _] Hn]. unfold in_s, Second in *.
  assert (0 <= (t_nsec now + d) / 1000000000 < 2 ^ 62) by (split; divlia). lia.
Qed.

Definition is_strategy (s : SendStrategy) (n : Notif.Notification) : bool :=
  String.eqb (SendConf.Type_ (Notif.StrategyConfig n)) s.

(** A notification validated at [now] that is not a scheduled one gets, at a
    later time [now'], a sending window that does not end before it starts,
    unless it has a deadline that passed in between. *)
Theorem valid_window_ordered now now' n :
  Notif.valid now n -> is_strategy SendStrategyScheduled n = false ->
  time_ok now' -> t_sec now' < 2 ^ 62 -> in_s 64 (SendConf.Delay (Notif.StrategyConfig n)) ->
  let n' := Notif.SetSendTime now' n in
  Before (Notif.ScheduledEnd n') (Notif.ScheduledStart n') =
  is_strategy SendStrategyDeadline n && Before (SendConf.Deadline (Notif.StrategyConfig n)) now'.
Proof.
  intros Hv Hns Hok Hs Hd. unfold Notif.SetSendTime, is_strategy in *.
  destruct Hv as (_ & _ & _ & _ & _ & _ & _ & Hv). revert Hv Hns Hd.
  generalize (Notif.StrategyConfig n); intros c Hv Hns Hd.
  unfold SendConf.CalcTimeWindow.
  destruct Hv as [H|H H1|H H1 H2|H H1 H2|H H1 H2]; rewrite H in *; simpl in *; try done.
  - apply Before_now_later; done.
  - apply Before_now_later; done.
Qed.

(** A clock reading of 2025 and a notification that waits a minute. *)
Definition now2025 : Time := time_UnixMilli 1750000000000.
Definition sample_conf (ty : SendStrategy) : SendConf.SendStrategyConf :=
  SendConf.mkConf ty Minute zeroTime zeroTime zeroTime zeroTime.
Definition sample (c : SendConf.SendStrategyConf) : Notif.Notification :=
  Notif.mkNotification 1 7 "order-1" ["13800000000"%string] ChannelSMS
    (mkTemplate 3 4 {[ "code"%string := "42"%string ]}) "" zeroTime zeroTime 0 c.

Lemma valid_window_ordered_witness :
  let n' := Notif.SetSendTime now2025 (sample (sample_conf SendStrategyDelayed)) in
  Before (Notif.ScheduledEnd n') (Notif.ScheduledStart n') = false.
Proof.
  refine (valid_window_ordered now2025 now2025 (sample (sample_conf SendStrategyDelayed)) _ _ _ _ _).
  - apply Notif_Validate_ok. vm_compute. reflexivity.
  - reflexivity.
  - vm_compute. intuition congruence.
  - vm_compute. reflexivity.
  - vm_compute. intuition congruence.
Defined.

Section from_api.
Context `{ProtoTime}.

(** What a successful conversion returns. *)
Lemma NotificationFromApi_ok n m :
  Api.NotificationFromApi (Some n) = (m, None) ->
  exists tplId channel conf,
    ParseUint (Api.TplId n) = (tplId, None) /\
    Api.getDomainChannel n = (channel, None) /\
    Api.getDomainStrategyConfig n = (conf, None) /\
    m = Notif.mkNotification 0 0 (Api.BizKey n) (Api.Receivers n) channel
          (mkTemplate tplId 0 (Api.TplParams n)) "" zeroTime zeroTime 0 conf.
Proof.
  unfold Api.NotificationFromApi.
  destruct (ParseUint _) as [tplId [e|]]; [done|].
  destruct (Api.getDomainChannel n) as [channel [e|]]; [done|].
  destruct (Api.getDomainStrategyConfig n) as [conf [e|]]; [done|].
  intros E. simplify_eq. by exists tplId, channel, conf.
Qed.

End from_api.

(** A notification built by [NotificationFromApi] never validates, whatever
    business id is assigned to it afterwards: the conversion leaves the
    template's version id at zero, and [Validate] requires one. *)
Theorem from_api_never_valid `{ProtoTime} now n m bizId :
  Api.NotificationFromApi n = (m, None) ->
  exists e, Notif.Validate now (Notif.with_BizId m bizId) = Some e /\
            errors_Is e (SCode ErrInvalidParam) = true.
Proof.
  intros Hm. destruct n as [n|]; [|done].
  apply NotificationFromApi_ok in Hm as (tplId & channel & conf & _ & _ & _ & ->).
  destruct (Notif.Validate now _) as [e|] eqn:E.
  - exists e. split; [done|]. by eapply Notif_Validate_err.
  - apply Notif_Validate_ok in E. destruct E as (_ & _ & _ & _ & _ & E & _). simpl in E. lia.
Qed.

(** A stand-in for protobuf timestamps: seconds and nanoseconds. *)
Definition proto_secs : ProtoTime := {|
  Timestamp := Z * Z;
  AsTime t := match t with Some (s, n) => time_Unix s n | None => time_Unix 0 0 end
|}.

Definition sample_api (st : @Api.StrategyType proto_secs) : @Api.Notification proto_secs :=
  @Api.mkApi proto_secs "order-1" ["13800000000"%string] (Api.Channel_SMS) "3"
    {[ "code"%string := "42"%string ]} (Some st).

Definition sample_scheduled : @Api.StrategyType proto_secs :=
  @Api.SendStrategy_Scheduled proto_secs (Some (Some (1760000000, 0))).

Lemma from_api_never_valid_witness :
  exists e, Notif.Validate now2025 (Notif.with_BizId
              (@Api.NotificationFromApi proto_secs (Some (sample_api sample_scheduled))).1 7) = Some e /\
            errors_Is e (SCode ErrInvalidParam) = true.
Proof.
  apply (@from_api_never_valid proto_secs now2025 (Some (sample_api sample_scheduled))).
  vm_compute. reflexivity.
Defined.

(** The time a scheduled notification asks for does not reach its sending
    window: the conversion from the API sets [ScheduleAt], the window is
    computed from [Start] and [Deadline], which it leaves at the epoch and at
    the zero time; the window ends before it starts, for every request. *)
Theorem scheduled_window_lost `{ProtoTime} now n t m :
  Api.NotificationFromApi (Some n) = (m, None) ->
  Api.Strategy_ n = Some (Api.SendStrategy_Scheduled (Some (Some t))) ->
  let n' := Notif.SetSendTime now m in
  SendConf.ScheduleAt (Notif.StrategyConfig m) = AsTime (Some t) /\
  Notif.ScheduledStart n' = time_Unix (-3) 0 /\ Notif.ScheduledEnd n' = zeroTime /\
  Before (Notif.ScheduledEnd n') (Notif.ScheduledStart n') = true.
Proof.
  intros Hm Hst. apply NotificationFromApi_ok in Hm as (tplId & channel & conf & _ & _ & Hc & ->).
  unfold Api.getDomainStrategyConfig in Hc. rewrite Hst in Hc. simplify_eq. by split_and!.
Qed.

Lemma scheduled_window_lost_witness :
  let m := (@Api.NotificationFromApi proto_secs (Some (sample_api sample_scheduled))).1 in
  let n' := Notif.SetSendTime now2025 m in
  SendConf.ScheduleAt (Notif.StrategyConfig m) = time_Unix 1760000000 0 /\
  Notif.ScheduledStart n' = time_Unix (-3) 0 /\ Notif.ScheduledEnd n' = zeroTime /\
  Before (Notif.ScheduledEnd n') (Notif.ScheduledStart n') = true.
Proof.
  intros m. apply (@scheduled_window_lost proto_secs now2025 (sample_api sample_scheduled) (1760000000, 0)).
  - vm_compute. reflexivity.
  - reflexivity.
Defined.

(** The milliseconds of an API time window are read as seconds: the window of
    the converted notification is a thousand times as far from the epoch. *)
Theorem api_window_in_seconds `{ProtoTime} n s e m :
  Api.NotificationFromApi (Some n) = (m, None) ->
  Api.Strategy_ n = Some (Api.SendStrategy_TimeWindow (Some (s, e))) ->
  - 2 ^ 52 <= s <= 2 ^ 52 -> - 2 ^ 52 <= e <= 2 ^ 52 ->
  UnixMilli (SendConf.Start (Notif.StrategyConfig m)) = 1000 * s /\
  UnixMilli (SendConf.End_ (Notif.StrategyConfig m)) = 1000 * e.
Proof.
  intros Hm Hst Hs He.
  apply NotificationFromApi_ok in Hm as (tplId & channel & conf & _ & _ & Hc & ->).
  unfold Api.getDomainStrategyConfig in Hc. rewrite Hst in Hc. simplify_eq. simpl.
  assert (Hu : forall x, - 2 ^ 52 <= x <= 2 ^ 52 -> UnixMilli (time_Unix x 0) = 1000 * x).
  { intros x Hx. unfold UnixMilli, Unix, time_Unix, unixToInternal; simpl.
    change (0 / Second) with 0. change (0 mod Second / Millisecond) with 0.
    rewrite wrap_s_sub_l.
    replace (x + 0 + 62135596800 - 62135596800) with x by lia.
    rewrite (wrap_s_id 64 ltac:(lia) x) by (unfold in_s; lia).
    rewrite (wrap_s_id 64 ltac:(lia)); unfold in_s; lia. }
  by rewrite !Hu.
Qed.

Definition sample_window : @Api.StrategyType proto_secs :=
  @Api.SendStrategy_TimeWindow proto_secs (Some (1750000000000, 1750000060000)).

Lemma api_window_in_seconds_witness :
  let m := (@Api.NotificationFromApi proto_secs (Some (sample_api sample_window))).1 in
  UnixMilli (SendConf.Start (Notif.StrategyConfig m)) = 1000 * 1750000000000 /\
  UnixMilli (SendConf.End_ (Notif.StrategyConfig m)) = 1000 * 1750000060000.
Proof.
  intros m. apply (@api_window_in_seconds proto_secs (sample_api sample_window)).
  - vm_compute. reflexivity.
  - reflexivity.
  - split; lia.
  - split; lia.
Defined.
