(* ===== verification/ConfJson.v ===== *)
(** * Configurations and audits as JSON

    The struct tags of internal/domain/conf.go and internal/pkg/retry/retry.go: what
    the redis cache and the JSON columns of the table biz_conf hold; and those of
    internal/domain/audit.go. *)
From Stdlib Require Import ZArith Lia List.
From stdpp Require Import prelude strings.
From S2P Require Import Prelude GoLang GoStrings GoJson GoCodec Retry Domain.

Module ConfJson.

Abbreviation int64 := (int_codec 64) (only parsing).
Abbreviation int32 := (int_codec 32) (only parsing).
Abbreviation uint64 := (uint_codec 64) (only parsing).

(** ** retry.go *)

Definition fixed_fields : list (field FixedIntervalConfig) := [
  @member _ _ int64 "interval" Interval (fun c v => {| Interval := v; fixed_MaxTimes := fixed_MaxTimes c |});
  @member _ _ int32 "max_times" fixed_MaxTimes (fun c v => {| Interval := Interval c; fixed_MaxTimes := v |})].

#[global] Instance fixed_codec : JsonCodec FixedIntervalConfig :=
  struct_codec {| Interval := 0; fixed_MaxTimes := 0 |} fixed_fields.
#[global] Instance fixed_not_null : NotNull FixedIntervalConfig := struct_not_null _ _.

Definition fixed_ok (c : FixedIntervalConfig) : Prop := in_s 64 (Interval c) /\ in_s 32 (fixed_MaxTimes c).

#[global] Instance fixed_laws : JsonLaws FixedIntervalConfig fixed_ok.
Proof. struct_law. Qed.

Definition exp_fields : list (field ExponentialBackoffConfig) := [
  @member _ _ int64 "init_interval" InitInterval
    (fun c v => {| InitInterval := v; MaxInterval := MaxInterval c; exp_MaxTimes := exp_MaxTimes c |});
  @member _ _ int64 "max_interval" MaxInterval
    (fun c v => {| InitInterval := InitInterval c; MaxInterval := v; exp_MaxTimes := exp_MaxTimes c |});
  @member _ _ int32 "max_times" exp_MaxTimes
    (fun c v => {| InitInterval := InitInterval c; MaxInterval := MaxInterval c; exp_MaxTimes := v |})].

#[global] Instance exp_codec : JsonCodec ExponentialBackoffConfig :=
  struct_codec {| InitInterval := 0; MaxInterval := 0; exp_MaxTimes := 0 |} exp_fields.
#[global] Instance exp_not_null : NotNull ExponentialBackoffConfig := struct_not_null _ _.

Definition exp_ok (c : ExponentialBackoffConfig) : Prop :=
  in_s 64 (InitInterval c) /\ in_s 64 (MaxInterval c) /\ in_s 32 (exp_MaxTimes c).

#[global] Instance exp_laws : JsonLaws ExponentialBackoffConfig exp_ok.
Proof. struct_law. Qed.

Definition retry_fields : list (field Config) := [
  member "type" Type_ (fun c v => mkConfig v (FixedInterval c) (ExponentialBackoff c));
  member "fixed_interval" FixedInterval (fun c v => mkConfig (Type_ c) v (ExponentialBackoff c));
  member "exponential_backoff" ExponentialBackoff (fun c v => mkConfig (Type_ c) (FixedInterval c) v)].

#[global] Instance retry_codec : JsonCodec Config := struct_codec (mkConfig "" None None) retry_fields.
#[global] Instance retry_not_null : NotNull Config := struct_not_null _ _.

Definition retry_ok (c : Config) : Prop :=
  utf8 (Type_ c) /\ option_ok fixed_ok (FixedInterval c) /\ option_ok exp_ok (ExponentialBackoff c).

#[global] Instance retry_laws : JsonLaws Config retry_ok.
Proof. struct_law. Qed.

(** ** conf.go *)

Definition item_fields : list (field ChannelItem) := [
  member "channel" item_Channel (fun c v => mkItem v (Priority c) (Enabled c));
  @member _ _ int32 "priority" Priority (fun c v => mkItem (item_Channel c) v (Enabled c));
  member "enabled" Enabled (fun c v => mkItem (item_Channel c) (Priority c) v)].

#[global] Instance item_codec : JsonCodec ChannelItem := struct_codec (mkItem "" 0 false) item_fields.

Definition item_ok (c : ChannelItem) : Prop := utf8 (item_Channel c) /\ in_s 32 (Priority c) /\ True.

#[global] Instance item_laws : JsonLaws ChannelItem item_ok.
Proof. struct_law. Qed.

Definition channel_fields : list (field ChannelConf) := [
  member "channels" Channels (fun c v => mkChannelConf v (ch_RetryPolicy c));
  member "retry_policy" ch_RetryPolicy (fun c v => mkChannelConf (Channels c) v)].

#[global] Instance channel_codec : JsonCodec ChannelConf := struct_codec (mkChannelConf [] None) channel_fields.
#[global] Instance channel_not_null : NotNull ChannelConf := struct_not_null _ _.

Definition channel_ok (c : ChannelConf) : Prop :=
  Forall item_ok (Channels c) /\ option_ok retry_ok (ch_RetryPolicy c).

#[global] Instance channel_laws : JsonLaws ChannelConf channel_ok.
Proof. struct_law. Qed.

Definition tx_fields : list (field TxNotifConf) := [
  member "service_name" tx_ServiceName (fun c v => mkTxConf v (InitialDelay c) (tx_RetryPolicy c));
  @member _ _ int32 "initial_delay" InitialDelay (fun c v => mkTxConf (tx_ServiceName c) v (tx_RetryPolicy c));
  member "retry_policy" tx_RetryPolicy (fun c v => mkTxConf (tx_ServiceName c) (InitialDelay c) v)].

#[global] Instance tx_codec : JsonCodec TxNotifConf := struct_codec (mkTxConf "" 0 None) tx_fields.
#[global] Instance tx_not_null : NotNull TxNotifConf := struct_not_null _ _.

Definition tx_ok (c : TxNotifConf) : Prop :=
  utf8 (tx_ServiceName c) /\ in_s 32 (InitialDelay c) /\ option_ok retry_ok (tx_RetryPolicy c).

#[global] Instance tx_laws : JsonLaws TxNotifConf tx_ok.
Proof. struct_law. Qed.

Definition callback_fields : list (field CallbackConf) := [
  member "service_name" cb_ServiceName (fun c v => mkCbConf v (cb_RetryPolicy c));
  member "retry_policy" cb_RetryPolicy (fun c v => mkCbConf (cb_ServiceName c) v)].

#[global] Instance callback_codec : JsonCodec CallbackConf := struct_codec (mkCbConf "" None) callback_fields.
#[global] Instance callback_not_null : NotNull CallbackConf := struct_not_null _ _.

Definition callback_ok (c : CallbackConf) : Prop :=
  utf8 (cb_ServiceName c) /\ option_ok retry_ok (cb_RetryPolicy c).

#[global] Instance callback_laws : JsonLaws CallbackConf callback_ok.
Proof. struct_law. Qed.

Definition daily_fields : list (field DailyQuotaConf) := [
  @member _ _ int32 "sms" daily_SMS (fun c v => mkDaily v (daily_Email c));
  @member _ _ int32 "email" daily_Email (fun c v => mkDaily (daily_SMS c) v)].

#[global] Instance daily_codec : JsonCodec DailyQuotaConf := struct_codec (mkDaily 0 0) daily_fields.
#[global] Instance daily_not_null : NotNull DailyQuotaConf := struct_not_null _ _.

Definition daily_ok (c : DailyQuotaConf) : Prop := in_s 32 (daily_SMS c) /\ in_s 32 (daily_Email c).

#[global] Instance daily_laws : JsonLaws DailyQuotaConf daily_ok.
Proof. struct_law. Qed.

Definition monthly_fields : list (field MonthlyQuotaConf) := [
  @member _ _ int32 "sms" monthly_SMS (fun c v => mkMonthly v (monthly_Email c));
  @member _ _ int32 "email" monthly_Email (fun c v => mkMonthly (monthly_SMS c) v)].

#[global] Instance monthly_codec : JsonCodec MonthlyQuotaConf := struct_codec (mkMonthly 0 0) monthly_fields.
#[global] Instance monthly_not_null : NotNull MonthlyQuotaConf := struct_not_null _ _.

Definition monthly_ok (c : MonthlyQuotaConf) : Prop := in_s 32 (monthly_SMS c) /\ in_s 32 (monthly_Email c).

#[global] Instance monthly_laws : JsonLaws MonthlyQuotaConf monthly_ok.
Proof. struct_law. Qed.

Definition quota_fields : list (field QuotaConf) := [
  member "daily" Daily (fun c v => mkQuotaConf v (Monthly c));
  member "monthly" Monthly (fun c v => mkQuotaConf (Daily c) v)].

#[global] Instance quota_codec : JsonCodec QuotaConf := struct_codec (mkQuotaConf None None) quota_fields.
#[global] Instance quota_not_null : NotNull QuotaConf := struct_not_null _ _.

Definition quota_ok (c : QuotaConf) : Prop := option_ok daily_ok (Daily c) /\ option_ok monthly_ok (Monthly c).

#[global] Instance quota_laws : JsonLaws QuotaConf quota_ok.
Proof. struct_law. Qed.

(** [BizConf] has no tags: its fields are written under their own names. *)
Definition conf_fields : list (field BizConf) := [
  @member _ _ uint64 "Id" bc_Id (fun c v =>
    mkBizConf v (bc_OwnerId c) (bc_OwnerType c) (ChannelConf_ c) (TxNotifConf_ c) (RateLimit c) (QuotaConf_ c)
      (CallbackConf_ c) (bc_CreateAt c) (bc_UpdateAt c));
  @member _ _ uint64 "OwnerId" bc_OwnerId (fun c v =>
    mkBizConf (bc_Id c) v (bc_OwnerType c) (ChannelConf_ c) (TxNotifConf_ c) (RateLimit c) (QuotaConf_ c)
      (CallbackConf_ c) (bc_CreateAt c) (bc_UpdateAt c));
  member "OwnerType" bc_OwnerType (fun c v =>
    mkBizConf (bc_Id c) (bc_OwnerId c) v (ChannelConf_ c) (TxNotifConf_ c) (RateLimit c) (QuotaConf_ c)
      (CallbackConf_ c) (bc_CreateAt c) (bc_UpdateAt c));
  member "ChannelConf" ChannelConf_ (fun c v =>
    mkBizConf (bc_Id c) (bc_OwnerId c) (bc_OwnerType c) v (TxNotifConf_ c) (RateLimit c) (QuotaConf_ c)
      (CallbackConf_ c) (bc_CreateAt c) (bc_UpdateAt c));
  member "TxNotifConf" TxNotifConf_ (fun c v =>
    mkBizConf (bc_Id c) (bc_OwnerId c) (bc_OwnerType c) (ChannelConf_ c) v (RateLimit c) (QuotaConf_ c)
      (CallbackConf_ c) (bc_CreateAt c) (bc_UpdateAt c));
  @member _ _ int32 "RateLimit" RateLimit (fun c v =>
    mkBizConf (bc_Id c) (bc_OwnerId c) (bc_OwnerType c) (ChannelConf_ c) (TxNotifConf_ c) v (QuotaConf_ c)
      (CallbackConf_ c) (bc_CreateAt c) (bc_UpdateAt c));
  member "QuotaConf" QuotaConf_ (fun c v =>
    mkBizConf (bc_Id c) (bc_OwnerId c) (bc_OwnerType c) (ChannelConf_ c) (TxNotifConf_ c) (RateLimit c) v
      (CallbackConf_ c) (bc_CreateAt c) (bc_UpdateAt c));
  member "CallbackConf" CallbackConf_ (fun c v =>
    mkBizConf (bc_Id c) (bc_OwnerId c) (bc_OwnerType c) (ChannelConf_ c) (TxNotifConf_ c) (RateLimit c) (QuotaConf_ c)
      v (bc_CreateAt c) (bc_UpdateAt c));
  @member _ _ int64 "CreateAt" bc_CreateAt (fun c v =>
    mkBizConf (bc_Id c) (bc_OwnerId c) (bc_OwnerType c) (ChannelConf_ c) (TxNotifConf_ c) (RateLimit c) (QuotaConf_ c)
      (CallbackConf_ c) v (bc_UpdateAt c));
  @member _ _ int64 "UpdateAt" bc_UpdateAt (fun c v =>
    mkBizConf (bc_Id c) (bc_OwnerId c) (bc_OwnerType c) (ChannelConf_ c) (TxNotifConf_ c) (RateLimit c) (QuotaConf_ c)
      (CallbackConf_ c) (bc_CreateAt c) v)].

Definition zeroConf : BizConf := mkBizConf 0 0 "" None None 0 None None 0 0.

#[global] Instance conf_codec : JsonCodec BizConf := struct_codec zeroConf conf_fields.

(** The configurations that survive the trip: integers of their widths, and text. *)
Definition conf_ok (c : BizConf) : Prop :=
  in_u 64 (bc_Id c) /\ in_u 64 (bc_OwnerId c) /\ utf8 (bc_OwnerType c) /\ option_ok channel_ok (ChannelConf_ c) /\
  option_ok tx_ok (TxNotifConf_ c) /\ in_s 32 (RateLimit c) /\ option_ok quota_ok (QuotaConf_ c) /\
  option_ok callback_ok (CallbackConf_ c) /\ in_s 64 (bc_CreateAt c) /\ in_s 64 (bc_UpdateAt c).

#[global] Instance conf_laws : JsonLaws BizConf conf_ok.
Proof. struct_law. Qed.
(** ** audit.go *)

Definition audit_fields : list (field AuditContent) := [
  @member _ _ uint64 "owner_id" ac_OwnerId (fun c v =>
    mkAuditContent v (ac_OwnerType c) (ac_Name c) (ac_Description c) (ac_Channel c) (ac_BizType c) (ac_Version
      c) (ac_Signature c) (ac_Content c) (ac_Remark c) (ac_ProviderNames c));
  member "owner_type" ac_OwnerType (fun c v =>
    mkAuditContent (ac_OwnerId c) v (ac_Name c) (ac_Description c) (ac_Channel c) (ac_BizType c) (ac_Version
      c) (ac_Signature c) (ac_Content c) (ac_Remark c) (ac_ProviderNames c));
  member "name" ac_Name (fun c v =>
    mkAuditContent (ac_OwnerId c) (ac_OwnerType c) v (ac_Description c) (ac_Channel c) (ac_BizType c)
      (ac_Version c) (ac_Signature c) (ac_Content c) (ac_Remark c) (ac_ProviderNames c));
  member "description" ac_Description (fun c v =>
    mkAuditContent (ac_OwnerId c) (ac_OwnerType c) (ac_Name c) v (ac_Channel c) (ac_BizType c) (ac_Version c)
      (ac_Signature c) (ac_Content c) (ac_Remark c) (ac_ProviderNames c));
  member "channel" ac_Channel (fun c v =>
    mkAuditContent (ac_OwnerId c) (ac_OwnerType c) (ac_Name c) (ac_Description c) v (ac_BizType c) (ac_Version
      c) (ac_Signature c) (ac_Content c) (ac_Remark c) (ac_ProviderNames c));
  member "biz_type" ac_BizType (fun c v =>
    mkAuditContent (ac_OwnerId c) (ac_OwnerType c) (ac_Name c) (ac_Description c) (ac_Channel c) v (ac_Version
      c) (ac_Signature c) (ac_Content c) (ac_Remark c) (ac_ProviderNames c));
  member "version" ac_Version (fun c v =>
    mkAuditContent (ac_OwnerId c) (ac_OwnerType c) (ac_Name c) (ac_Description c) (ac_Channel c) (ac_BizType
      c) v (ac_Signature c) (ac_Content c) (ac_Remark c) (ac_ProviderNames c));
  member "signature" ac_Signature (fun c v =>
    mkAuditContent (ac_OwnerId c) (ac_OwnerType c) (ac_Name c) (ac_Description c) (ac_Channel c) (ac_BizType
      c) (ac_Version c) v (ac_Content c) (ac_Remark c) (ac_ProviderNames c));
  member "content" ac_Content (fun c v =>
    mkAuditContent (ac_OwnerId c) (ac_OwnerType c) (ac_Name c) (ac_Description c) (ac_Channel c) (ac_BizType
      c) (ac_Version c) (ac_Signature c) v (ac_Remark c) (ac_ProviderNames c));
  member "remark" ac_Remark (fun c v =>
    mkAuditContent (ac_OwnerId c) (ac_OwnerType c) (ac_Name c) (ac_Description c) (ac_Channel c) (ac_BizType
      c) (ac_Version c) (ac_Signature c) (ac_Content c) v (ac_ProviderNames c));
  member "provider_names" ac_ProviderNames (fun c v =>
    mkAuditContent (ac_OwnerId c) (ac_OwnerType c) (ac_Name c) (ac_Description c) (ac_Channel c) (ac_BizType
      c) (ac_Version c) (ac_Signature c) (ac_Content c) (ac_Remark c) v)].

#[global] Instance audit_codec : JsonCodec AuditContent :=
  struct_codec (mkAuditContent 0 "" "" "" "" "" "" "" "" "" []) audit_fields.

Definition audit_ok (c : AuditContent) : Prop :=
  in_u 64 (ac_OwnerId c) /\ utf8 (ac_OwnerType c) /\ utf8 (ac_Name c) /\ utf8 (ac_Description c) /\
  utf8 (ac_Channel c) /\ utf8 (ac_BizType c) /\ utf8 (ac_Version c) /\ utf8 (ac_Signature c) /\
  utf8 (ac_Content c) /\ utf8 (ac_Remark c) /\ Forall utf8 (ac_ProviderNames c).

#[global] Instance audit_laws : JsonLaws AuditContent audit_ok.
Proof. struct_law. Qed.
End ConfJson.
