(* ===== verification/Job.v ===== *)
(** * The sharded loop job: internal/pkg/job

    [Semaphore] is resource.go, the counting semaphore that bounds how many
    tables one process works on.  [Loop] is sharding_loop_job.go: the goroutine
    of [Run] and the goroutines of [tableLoop] it starts, as one step relation
    over the semaphore, the distributed lock service and a program counter per
    goroutine.  Every call of the source that reads or writes shared state is a
    step, so the relation has all their interleavings. *)
From Stdlib Require Import ZArith Lia List.
From stdpp Require Import prelude strings gmap fin_maps.
From S2P Require Import Prelude GoLang Errs GoStrings Sharding.

Module Semaphore.

Record MaxCntResourceSemaphore := mkSem { maxCnt : Z; currCnt : Z }.

Definition NewMaxCntResourceSemaphore (maxCnt : Z) : MaxCntResourceSemaphore := mkSem maxCnt 0.

Definition Acquire (s : MaxCntResourceSemaphore) : MaxCntResourceSemaphore * option error :=
  if maxCnt s <=? currCnt s then (s, Some (ECode ErrAcquireExceedLimit))
  else (mkSem (maxCnt s) (i64 (currCnt s + 1)), None).

Definition Release (s : MaxCntResourceSemaphore) : MaxCntResourceSemaphore * option error :=
  (mkSem (maxCnt s) (i64 (currCnt s - 1)), None).

Definition UpdateMaxCnt (s : MaxCntResourceSemaphore) (max : Z) : MaxCntResourceSemaphore :=
  mkSem max (currCnt s).

End Semaphore.
Import Semaphore.

(** github.com/JrMarcco/dlock.  [holder s k] is the owner of the lock [k]; a
    call may change the service's state and succeeds or fails; a lock is made with the
    time after which it expires unless it is refreshed.  The laws: a
    successful [TryLock] takes a free lock, a successful [Refresh] or a failed
    call leaves the lock with its owner, [Unlock] gives up only the caller's own
    lock, no call touches another key, and on its own the service can only let
    locks expire. *)
Class DLock := {
  svc : Type;
  holder : svc -> string -> option nat;
  NewDlock : svc -> string -> Duration -> svc -> bool -> Prop;
  TryLock : svc -> string -> nat -> svc -> bool -> Prop;
  Refresh : svc -> string -> nat -> svc -> bool -> Prop;
  Unlock : svc -> string -> nat -> svc -> bool -> Prop;
  expire : svc -> string -> svc -> Prop;
  NewDlock_law s k t s' b : NewDlock s k t s' b -> holder s' = holder s;
  TryLock_true s k o s' : TryLock s k o s' true ->
    holder s k = None /\ holder s' k = Some o /\ forall k', k' <> k -> holder s' k' = holder s k';
  TryLock_false s k o s' : TryLock s k o s' false -> holder s' = holder s;
  Refresh_law s k o s' b : Refresh s k o s' b -> holder s' = holder s;
  Unlock_law s k o s' b : Unlock s k o s' b ->
    (holder s' k = holder s k \/ holder s k = Some o /\ holder s' k = None) /\
    (forall k', k' <> k -> holder s' k' = holder s k');
  expire_law s k s' : expire s k s' -> holder s' k = None /\ forall k', k' <> k -> holder s' k' = holder s k'
}.

(** sharding_loop_job.go: the job and its constructors; the logger and the lock
    client are left out, [bizFunc] is the parameter of what runs it. *)
Record ShardingLoopJob := mkJob {
  job_baseKey : string; retryInterval : Duration; job_defaultTimeout : Duration;
  resourceSemaphore : MaxCntResourceSemaphore; job_shardingStrategy : Hash.HashStrategy }.

Definition newShardingLoopJob (baseKey : string) (retryInterval defaultTimeout : Duration)
    (resourceSemaphore : MaxCntResourceSemaphore) (shardingStrategy : Hash.HashStrategy) : ShardingLoopJob :=
  mkJob baseKey retryInterval defaultTimeout resourceSemaphore shardingStrategy.

Definition NewShardingLoopJob (baseKey : string) (resourceSemaphore : MaxCntResourceSemaphore)
    (shardingStrategy : Hash.HashStrategy) : ShardingLoopJob :=
  newShardingLoopJob baseKey Minute (i64 (3 * Second)) resourceSemaphore shardingStrategy.

Module Loop.
Section loop.
Context `{DLock}.

(** [owner i] is the value the lock objects of goroutine [i] put into the service;
    [interval] is the job's [retryInterval], for which locks are made; [limit] says which
    numbers of tables the watch of internal/ioc/scheduler.go may set while the job runs. *)
Variables (baseKey : string) (interval : Duration) (broadcast : list Dst) (owner : nat -> nat) (limit : Z -> Prop).

(** [fmt.Sprintf("%s:%s:%s", baseKey, db, table)]. *)
Definition generateDlockKey (db table : string) : string :=
  baseKey +:+ ":" +:+ db +:+ ":" +:+ table.

Definition key (d : Dst) : string := generateDlockKey (DB d) (Table d).

(** Where [Run] is in the body of its inner loop. *)
Inductive run_pc := RAcquire | RNewDlock | RTryLock | RRelease | RGo.

(** Where a [tableLoop] is: [bizLoop]'s business call and its refresh, the
    unlock after it, the choice between returning and waiting, and the deferred
    release.  [bizErr] says whether [bizLoop] returned an error. *)
Inductive loop_pc := LBiz | LRefresh | LUnlock (bizErr : bool) | LSwitch (bizErr : bool) | LSleep | LRelease.

(** [todo] is what is left of the inner [range], its head the current
    destination; [loops] are the running [tableLoop]s by goroutine. *)
Record state := mkState {
  sem : MaxCntResourceSemaphore; locks : svc;
  todo : list Dst; pc : run_pc; loops : gmap nat (Dst * loop_pc); next : nat; cancelled : bool }.

(** One step; the flag says whether locks may expire in between. *)
Inductive step (lossy : bool) : state -> state -> Prop :=
  | step_range sm lk ls n c :
      step lossy (mkState sm lk [] RAcquire ls n c) (mkState sm lk broadcast RAcquire ls n c)
  | step_acquire sm sm' lk d ds ls n c :
      Acquire sm = (sm', None) ->
      step lossy (mkState sm lk (d :: ds) RAcquire ls n c) (mkState sm' lk (d :: ds) RNewDlock ls n c)
  | step_exceed sm sm' lk d ds ls n c e :
      Acquire sm = (sm', Some e) ->
      step lossy (mkState sm lk (d :: ds) RAcquire ls n c) (mkState sm' lk ds RAcquire ls n c)
  | step_newlock sm lk lk' d ds ls n c ok :
      NewDlock lk (key d) interval lk' ok ->
      step lossy (mkState sm lk (d :: ds) RNewDlock ls n c)
        (mkState sm lk' (d :: ds) (if ok then RTryLock else RRelease) ls n c)
  | step_trylock sm lk lk' d ds ls n c ok :
      TryLock lk (key d) (owner n) lk' ok ->
      step lossy (mkState sm lk (d :: ds) RTryLock ls n c)
        (mkState sm lk' (d :: ds) (if ok then RGo else RRelease) ls n c)
  | step_release sm sm' e lk d ds ls n c :
      Release sm = (sm', e) ->
      step lossy (mkState sm lk (d :: ds) RRelease ls n c) (mkState sm' lk ds RAcquire ls n c)
  | step_go sm lk d ds ls n c :
      step lossy (mkState sm lk (d :: ds) RGo ls n c)
        (mkState sm lk ds RAcquire (<[n := (d, LBiz)]> ls) (S n) c)
  | step_biz sm lk ds p ls n c i d :
      ls !! i = Some (d, LBiz) ->
      step lossy (mkState sm lk ds p ls n c)
        (mkState sm lk ds p (<[i := (d, if c then LUnlock true else LRefresh)]> ls) n c)
  | step_refresh sm lk lk' ds p ls n c i d ok :
      ls !! i = Some (d, LRefresh) -> Refresh lk (key d) (owner i) lk' ok ->
      step lossy (mkState sm lk ds p ls n c)
        (mkState sm lk' ds p (<[i := (d, if ok then LBiz else LUnlock true)]> ls) n c)
  | step_unlock sm lk lk' ds p ls n c i d b ok :
      ls !! i = Some (d, LUnlock b) -> Unlock lk (key d) (owner i) lk' ok ->
      step lossy (mkState sm lk ds p ls n c) (mkState sm lk' ds p (<[i := (d, LSwitch b)]> ls) n c)
  | step_switch sm lk ds p ls n c i d b :
      ls !! i = Some (d, LSwitch b) ->
      step lossy (mkState sm lk ds p ls n c)
        (mkState sm lk ds p (<[i := (d, if c then LRelease else if b then LSleep else LRelease)]> ls) n c)
  | step_sleep sm lk ds p ls n c i d :
      ls !! i = Some (d, LSleep) ->
      step lossy (mkState sm lk ds p ls n c) (mkState sm lk ds p (<[i := (d, LRelease)]> ls) n c)
  | step_defer sm sm' e lk ds p ls n c i d :
      ls !! i = Some (d, LRelease) -> Release sm = (sm', e) ->
      step lossy (mkState sm lk ds p ls n c) (mkState sm' lk ds p (delete i ls) n c)
  | step_update sm lk ds p ls n c m :
      limit m -> step lossy (mkState sm lk ds p ls n c) (mkState (UpdateMaxCnt sm m) lk ds p ls n c)
  | step_cancel sm lk ds p ls n :
      step lossy (mkState sm lk ds p ls n false) (mkState sm lk ds p ls n true)
  | step_expire sm lk lk' ds p ls n c k :
      lossy = true -> expire lk k lk' ->
      step lossy (mkState sm lk ds p ls n c) (mkState sm lk' ds p ls n c).

(** The process at start, the lock service in some state, and what it reaches. *)
Definition init (lk : svc) (max : Z) : state :=
  mkState (NewMaxCntResourceSemaphore max) lk [] RAcquire ∅ 0 false.

Inductive reachable (lossy : bool) (lk : svc) (max : Z) : state -> Prop :=
  | reach_init : reachable lossy lk max (init lk max)
  | reach_step s s' : reachable lossy lk max s -> step lossy s s' -> reachable lossy lk max s'.

(** ** Permits *)

(** [Run] holds a permit between a successful [Acquire] and the start of the
    goroutine that inherits it, or the release. *)
Definition run_holds (p : run_pc) : Z := match p with RAcquire => 0 | _ => 1 end.

Definition permits (s : state) : Z := run_holds (pc s) + Z.of_nat (size (loops s)).

(** All limits, the first one too, are numbers of Go's [int], and at most [bound]. *)
Record permit_inv (bound : Z) (s : state) : Prop := {
  inv_max : maxCnt (sem s) <= bound;
  inv_curr : currCnt (sem s) = permits s;
  inv_bound : permits s <= Z.max 0 bound;
  inv_fresh : forall i, (next s <= i)%nat -> loops s !! i = None }.

Lemma size_update (ls : gmap nat (Dst * loop_pc)) i x y : ls !! i = Some y -> size (<[i := x]> ls) = size ls.
Proof. intros E. rewrite map_size_insert. by rewrite E. Qed.

Lemma fresh_update (ls : gmap nat (Dst * loop_pc)) (n i : nat) x y :
  ls !! i = Some y -> (forall j, (n <= j)%nat -> ls !! j = None) ->
  forall j, (n <= j)%nat -> <[i := x]> ls !! j = None.
Proof.
  intros E Hf j Hj. rewrite lookup_insert_ne; [by apply Hf|]. intros ->. by rewrite Hf in E.
Qed.

Lemma permit_inv_init lk max bound : max <= bound -> permit_inv bound (init lk max).
Proof. intros Hm. by constructor; unfold permits; simpl; rewrite ?map_size_empty; try lia. Qed.

(** A step of a [tableLoop] that only moves its program counter. *)
Lemma permit_inv_move max sm lk lk' ds p ls n c i d q q' :
  permit_inv max (mkState sm lk ds p ls n c) -> ls !! i = Some (d, q) ->
  permit_inv max (mkState sm lk' ds p (<[i := (d, q')]> ls) n c).
Proof.
  intros [H1 H2 H3 H4] E. unfold permits in *; simpl in *.
  constructor; unfold permits; simpl; rewrite ?(size_update _ _ _ _ E); try done.
  by eapply fresh_update.
Qed.

Lemma permit_inv_step lossy bound s s' :
  bound < 2 ^ 63 -> (forall m, limit m -> m <= bound) ->
  step lossy s s' -> permit_inv bound s -> permit_inv bound s'.
Proof.
  intros Hmax Hlim Hst Hinv. destruct Hst;
    try (by eapply permit_inv_move); destruct Hinv as [Im Ic Ib If];
    unfold permits in *; simpl in *; unfold Acquire, Release in *; simplify_eq;
    try (constructor; unfold permits; simpl; (done || lia || (by destruct ok) || (by apply Hlim))).
  - destruct (Z.leb_spec (maxCnt sm) (currCnt sm)); simplify_eq.
    constructor; unfold permits; simpl; try done; [|lia].
    rewrite wrap_s_id; unfold in_s; lia.
  - destruct (Z.leb_spec (maxCnt sm) (currCnt sm)); simplify_eq. by constructor.
  - constructor; unfold permits; simpl; try done; [|lia].
    rewrite wrap_s_id; unfold in_s; lia.
  - assert (Hn : ls !! n = None) by (apply If; lia).
    constructor; unfold permits; simpl; try done.
    + rewrite map_size_insert, Hn; simpl. lia.
    + rewrite map_size_insert, Hn; simpl. lia.
    + intros i Hi. rewrite lookup_insert_ne by lia. apply If; lia.
  - match goal with E : ls !! i = Some _ |- _ => rename E into Hi end.
    assert (Hp : 0 <= run_holds p <= 1) by (destruct p; simpl; lia).
    assert (Hs : size ls <> 0%nat).
    { intros E. apply map_size_empty_inv in E. by subst. }
    constructor; unfold permits; simpl; try done.
    + rewrite map_size_delete, Hi; simpl. rewrite wrap_s_id; unfold in_s; lia.
    + rewrite map_size_delete, Hi; simpl. lia.
    + intros j Hj. by rewrite lookup_delete_None; right; apply If.
Qed.

Lemma reachable_permit_inv lossy lk max bound s :
  bound < 2 ^ 63 -> max <= bound -> (forall m, limit m -> m <= bound) ->
  reachable lossy lk max s -> permit_inv bound s.
Proof.
  intros Hb Hmax Hlim. induction 1; [by apply permit_inv_init|by eapply permit_inv_step].
Qed.

(** A permit is granted only under the limit that is then in force. *)
Lemma grant_within lossy s s' :
  step lossy s s' -> 0 <= currCnt (sem s) < 2 ^ 63 - 1 -> currCnt (sem s) < currCnt (sem s') ->
  currCnt (sem s') <= maxCnt (sem s').
Proof.
  intros Hst Hc. destruct Hst; simpl in *; unfold Acquire, Release in *; simplify_eq; try lia;
    try (rewrite wrap_s_id by (lia || unfold in_s; lia)); try lia.
  - destruct (Z.leb_spec (maxCnt sm) (currCnt sm)); simplify_eq; simpl.
    rewrite wrap_s_id by (lia || unfold in_s; lia). lia.
  - destruct (Z.leb_spec (maxCnt sm) (currCnt sm)); simplify_eq; lia.
  - simpl. lia.
  - simpl. lia.
Qed.

(** ** Locks *)

(** Different goroutines put different values. *)
Context `{!Inj (=) (=) owner}.

(** A [tableLoop] works under its lock from its start to its unlock. *)
Definition working (q : loop_pc) : Prop :=
  match q with LBiz | LRefresh | LUnlock _ => True | _ => False end.

Record lock_inv (s : state) : Prop := {
  inv_loops : forall i d q, loops s !! i = Some (d, q) -> working q ->
    holder (locks s) (key d) = Some (owner i);
  inv_go : forall d ds, pc s = RGo -> todo s = d :: ds -> holder (locks s) (key d) = Some (owner (next s));
  inv_fresh' : forall i, (next s <= i)%nat -> loops s !! i = None }.

Lemma lock_inv_init lk max : lock_inv (init lk max).
Proof. by constructor. Qed.

(** A step of a [tableLoop] that leaves the lock service's holders alone. *)
Lemma lock_inv_move sm lk lk' ds p ls n c i d q q' :
  lock_inv (mkState sm lk ds p ls n c) -> ls !! i = Some (d, q) -> holder lk' = holder lk ->
  (working q' -> working q) ->
  lock_inv (mkState sm lk' ds p (<[i := (d, q')]> ls) n c).
Proof.
  intros [L1 L2 L3] E Hh Hw. simpl in *. constructor; simpl; rewrite ?Hh; try done.
  - intros j d' r Hj Hr. destruct (decide (i = j)) as [->|Hij].
    + rewrite lookup_insert_eq in Hj. simplify_eq. eapply L1; [done|by apply Hw].
    + rewrite lookup_insert_ne in Hj by done. by eapply L1.
  - by eapply fresh_update.
Qed.

Lemma lock_inv_unlock sm lk lk' ds p ls n c i d b ok :
  lock_inv (mkState sm lk ds p ls n c) -> ls !! i = Some (d, LUnlock b) ->
  Unlock lk (key d) (owner i) lk' ok ->
  lock_inv (mkState sm lk' ds p (<[i := (d, LSwitch b)]> ls) n c).
Proof.
  intros [L1 L2 L3] E Hu. simpl in *.
  assert (Hi : holder lk (key d) = Some (owner i)) by (by eapply L1).
  assert (Hin : (i < n)%nat).
  { destruct (decide (i < n)%nat); [done|]. rewrite L3 in E by lia. done. }
  apply Unlock_law in Hu as [_ Hother].
  constructor; simpl.
  - intros j d' r Hj Hr. destruct (decide (i = j)) as [->|Hij].
    { rewrite lookup_insert_eq in Hj. by simplify_eq. }
    rewrite lookup_insert_ne in Hj by done. pose proof (L1 _ _ _ Hj Hr) as Hh.
    rewrite Hother; [done|]. intros Ek. rewrite Ek, Hi in Hh. simplify_eq.
  - intros d' ds' Hp Hd. pose proof (L2 _ _ Hp Hd) as Hh.
    rewrite Hother; [done|]. intros Ek. rewrite Ek, Hi in Hh. simplify_eq. lia.
  - by eapply fresh_update.
Qed.

Lemma lock_inv_trylock sm lk lk' d ds ls n c :
  lock_inv (mkState sm lk (d :: ds) RTryLock ls n c) -> TryLock lk (key d) (owner n) lk' true ->
  lock_inv (mkState sm lk' (d :: ds) RGo ls n c).
Proof.
  intros [L1 L2 L3] Ht. simpl in *. apply TryLock_true in Ht as (Hfree & Hmine & Hother).
  constructor; simpl; [| |done].
  - intros j d' r Hj Hr. pose proof (L1 _ _ _ Hj Hr) as Hh.
    rewrite Hother; [done|]. intros Ek. rewrite Ek in Hh. congruence.
  - intros d' ds' _ Hd. by simplify_eq.
Qed.

Lemma lock_inv_go sm lk d ds ls n c :
  lock_inv (mkState sm lk (d :: ds) RGo ls n c) ->
  lock_inv (mkState sm lk ds RAcquire (<[n := (d, LBiz)]> ls) (S n) c).
Proof.
  intros [L1 L2 L3]. simpl in *. constructor; simpl; [|done|].
  - intros j d' r Hj Hr. destruct (decide (n = j)) as [->|Hij].
    + rewrite lookup_insert_eq in Hj. simplify_eq. by eapply L2.
    + rewrite lookup_insert_ne in Hj by done. by eapply L1.
  - intros j Hj. rewrite lookup_insert_ne by lia. apply L3. lia.
Qed.

(** The parts of a state the lock invariant does not read. *)
Lemma lock_inv_frame sm sm' lk lk' ds ds' p p' ls n c c' :
  lock_inv (mkState sm lk ds p ls n c) -> holder lk' = holder lk -> p' <> RGo ->
  lock_inv (mkState sm' lk' ds' p' ls n c').
Proof. intros [L1 L2 L3] Hh Hp. simpl in *. constructor; simpl; rewrite ?Hh; done. Qed.

Lemma lock_inv_step s s' : step false s s' -> lock_inv s -> lock_inv s'.
Proof.
  intros Hst Hinv. destruct Hst; simplify_eq;
    try (by eapply lock_inv_frame); try (by eapply lock_inv_go);
    try (by eapply lock_inv_unlock); try (by eapply lock_inv_move).
  - eapply lock_inv_frame; [done|by eapply NewDlock_law|by destruct ok].
  - destruct ok; [by eapply lock_inv_trylock|].
    eapply lock_inv_frame; [done|by eapply TryLock_false|done].
  - eapply lock_inv_move; [done|done|by eapply Refresh_law|done].
  - eapply lock_inv_move; [done..|]. by destruct c, b.
  - destruct Hinv as [L1 L2 L3]. simpl in *. constructor; simpl; [|done|].
    + intros j d' r Hj. apply lookup_delete_Some in Hj as [_ Hj]. by eapply L1.
    + intros j Hj. rewrite lookup_delete_None. right. by apply L3.
  - destruct Hinv as [L1 L2 L3]. by constructor.
  - destruct Hinv as [L1 L2 L3]. by constructor.
Qed.

Lemma reachable_lock_inv lk max s : reachable false lk max s -> lock_inv s.
Proof. induction 1; [apply lock_inv_init|by eapply lock_inv_step]. Qed.

(** ** Properties *)

(** C12: in every interleaving, with the limit changed at any time, the semaphore counts
    exactly the permits in use: the one [Run] holds while it acquires a table's lock and
    one per [tableLoop].  The count never goes below zero, a step that raises it leaves
    it within the limit then in force, and it never exceeds the largest limit there was:
    a lower limit takes no permit back, but grants none until enough are released. *)
Theorem permits_accounted lossy lk max bound s :
  bound < 2 ^ 63 -> max <= bound -> (forall m, limit m -> m <= bound) -> reachable lossy lk max s ->
  currCnt (sem s) = run_holds (pc s) + Z.of_nat (size (loops s)) /\
  0 <= currCnt (sem s) <= Z.max 0 bound /\
  (forall s', step lossy s s' -> currCnt (sem s) < currCnt (sem s') -> currCnt (sem s') <= maxCnt (sem s')).
Proof.
  intros Hb Hmax Hlim Hr. destruct (reachable_permit_inv _ _ _ _ _ Hb Hmax Hlim Hr) as [_ Hc Hp _].
  assert (0 <= run_holds (pc s)) by (destruct (pc s); simpl; lia).
  unfold permits in *. split; [done|]. split; [lia|]. intros s' Hst Hlt.
  pose proof (reachable_permit_inv _ _ _ _ _ Hb Hmax Hlim (reach_step _ _ _ _ _ Hr Hst)) as [_ Hc' Hp' _].
  apply (grant_within lossy s s' Hst); [|done]. unfold permits in *. lia.
Qed.

(** As long as the lock service lets no lock expire, two goroutines never
    work on the same table: a [tableLoop] that has not unlocked is the only one
    with its key. *)
Theorem tables_exclusive lk max s i j d d' q q' :
  reachable false lk max s ->
  loops s !! i = Some (d, q) -> loops s !! j = Some (d', q') ->
  working q -> working q' -> key d = key d' -> i = j.
Proof.
  intros Hr Hi Hj Hq Hq' Hk. destruct (reachable_lock_inv _ _ _ Hr) as [L _ _].
  pose proof (L _ _ _ Hi Hq) as H1. pose proof (L _ _ _ Hj Hq') as H2.
  rewrite Hk, H2 in H1. by simplify_eq.
Qed.

End loop.

(** ** Keys *)

(** Two tables of a strategy have the same lock only if they are the same table. *)
Lemma suffixed_sep_inj p i i' t t' :
  0 <= i -> 0 <= i' -> Hash.suffixed p i +:+ ":" +:+ t = Hash.suffixed p i' +:+ ":" +:+ t' -> i = i' /\ t = t'.
Proof.
  intros Hi Hi'. induction p as [|c p IH]; intros E; [|injection E; exact IH].
  injection E as E. apply (digits_sep_inj (Ascii.ascii_of_nat 58)) in E as [E ->];
    [by apply FormatUint_inj in E|done|by apply digits_FormatUint..].
Qed.

Lemma key_inj base h d d' :
  d ∈ Hash.BroadCast h -> d' ∈ Hash.BroadCast h -> key base d = key base d' -> d = d'.
Proof.
  intros (i & j & -> & Hi & Hj)%Hash.elem_of_BroadCast (i' & j' & -> & Hi' & Hj')%Hash.elem_of_BroadCast E.
  unfold key, generateDlockKey in E. apply (inj (String.append base)), (inj (String.append ":")) in E.
  apply suffixed_sep_inj in E as [-> E]; [|lia..]. apply Hash.suffixed_inj in E. by subst.
Qed.

Lemma NoDup_keys base h : NoDup (map (key base) (Hash.BroadCast h)).
Proof. apply NoDup_fmap_2_strong; [apply key_inj|apply Hash.NoDup_BroadCast]. Qed.

(** A lock service that keeps its locks in a map. *)
Program Definition map_locks : DLock := {|
  svc := gmap string nat;
  holder s k := s !! k;
  NewDlock s k t s' b := s' = s /\ b = true;
  TryLock s k o s' b :=
    (b = true /\ s !! k = None /\ s' = <[k := o]> s) \/ (b = false /\ s' = s);
  Refresh s k o s' b := s' = s /\ b = bool_decide (s !! k = Some o);
  Unlock s k o s' b := b = true /\ s' = if decide (s !! k = Some o) then delete k s else s;
  expire s k s' := s' = delete k s
|}.
Next Obligation. naive_solver. Qed.
Next Obligation.
  intros s k o s' [(_ & Hk & ->)|[? _]]; [|done]. split_and!; [done|by rewrite lookup_insert_eq|].
  intros k' Hk'. by rewrite lookup_insert_ne.
Qed.
Next Obligation. naive_solver. Qed.
Next Obligation. naive_solver. Qed.
Next Obligation.
  intros s k o s' b [_ ->]. destruct (decide _) as [Hk|].
  - split; [right; by rewrite lookup_delete_eq|]. intros k' Hk'. by rewrite lookup_delete_ne.
  - auto.
Qed.
Next Obligation.
  intros s k s' ->. split; [apply lookup_delete_eq|]. intros k' Hk'. by rewrite lookup_delete_ne.
Qed.

Definition one_table : Dst := mkDst 0 0 "jotify_0" "notification_0".
Definition one_loop : @state map_locks :=
  @mkState map_locks (mkSem 1 1) {[ "job:jotify_0:notification_0"%string := 0%nat ]} [] RAcquire
    {[ 0%nat := (one_table, LBiz) ]} 1 false.

(** The limit is lowered from two to one while the table is worked on. *)
Definition two_limits (m : Z) : Prop := m = 1.

Lemma reach_one_loop : @reachable map_locks "job" Minute [one_table] id two_limits false (∅ : gmap string nat) 2 one_loop.
Proof.
  eapply (@reach_step map_locks); [|by apply (@step_update map_locks) with (sm := mkSem 2 1)].
  eapply (@reach_step map_locks); [|apply (@step_go map_locks)].
  eapply (@reach_step map_locks); [|apply (@step_trylock map_locks) with (lk := ∅) (ok := true); by left].
  eapply (@reach_step map_locks); [|apply (@step_newlock map_locks) with (ok := true); by split].
  eapply (@reach_step map_locks); [|by apply (@step_acquire map_locks) with (sm := mkSem 2 0)].
  eapply (@reach_step map_locks); [|apply (@step_range map_locks)].
  apply (@reach_init map_locks).
Qed.

Lemma permits_accounted_witness : currCnt (sem one_loop) = 0 + 1.
Proof.
  apply (@permits_accounted map_locks "job" Minute [one_table] id two_limits false ∅ 2 2 one_loop);
    [lia|lia|intros m Hm; unfold two_limits in Hm; lia|apply reach_one_loop].
Defined.

Lemma tables_exclusive_witness :
  loops one_loop !! 0%nat = Some (one_table, LBiz) /\ 0%nat = 0%nat.
Proof.
  split; [reflexivity|].
  by apply (@tables_exclusive map_locks "job" Minute [one_table] id two_limits _ ∅ 2 one_loop 0 0 one_table one_table LBiz LBiz reach_one_loop).
Defined.

End Loop.
