(* ===== verification/Cluster.v ===== *)
(** * Processes that share the lock service

    The job of the file Job runs in every process of a deployment, and the locks are
    there to keep the processes apart.  A cluster is a lock service and the
    processes that run [ShardingLoopJob.Run] (internal/pkg/job/sharding_loop_job.go);
    a step is a step of one process, or a process that starts or dies, or the expiry
    of a lock.  A lock lives for [retryInterval], a minute, from when it was taken or
    last refreshed, and [bizLoop] refreshes it only when the business function returns:
    the loop of the scheduler, which need not return within a minute, or at all.  So the
    lock of a live process can expire; [prompt] says that it does not, and the locks
    keep the processes apart only then ([late_refresh_shares_table]).
    internal/service/schedule/sharding/sharding_scheduler.go starts one such process
    ([Start]). *)
From Stdlib Require Import ZArith Lia List.
From stdpp Require Import prelude strings gmap.
From S2P Require Import Prelude GoLang Errs Sharding Job.
Import Semaphore.

Module Cluster.

#[local] Open Scope nat_scope.

Section cluster.
Context `{DLock}.

(** All processes build their keys from the same base and have the same tables;
    [owner p i] is the value of the locks of goroutine [i] of process [p]. *)
Variables (baseKey : string) (interval : Duration) (broadcast : list Dst) (owner : nat -> nat -> nat)
  (limit : Z -> Prop).

Record cluster := mkCluster { service : svc; procs : gmap nat Loop.state; born : nat }.

(** The state of a process as its next step sees it. *)
Definition with_locks (s : Loop.state) (lk : svc) : Loop.state :=
  Loop.mkState (Loop.sem s) lk (Loop.todo s) (Loop.pc s) (Loop.loops s) (Loop.next s) (Loop.cancelled s).

(** [Start]: a goroutine that runs the job, with a semaphore of its own. *)
Definition Start (max : Z) (c : cluster) : cluster :=
  mkCluster (service c) (<[born c := Loop.init (service c) max]> (procs c)) (S (born c)).

(** With [prompt], only locks whose owners have died expire. *)
Inductive step (prompt : bool) : cluster -> cluster -> Prop :=
  | step_start max c : step prompt c (Start max c)
  | step_process lk ps n p s s' :
      ps !! p = Some s -> Loop.step baseKey interval broadcast (owner p) limit false (with_locks s lk) s' ->
      step prompt (mkCluster lk ps n) (mkCluster (Loop.locks s') (<[p := s']> ps) n)
  | step_crash lk ps n p : step prompt (mkCluster lk ps n) (mkCluster lk (delete p ps) n)
  | step_expire lk lk' ps n k :
      expire lk k lk' -> (prompt = true -> forall p i, is_Some (ps !! p) -> holder lk k <> Some (owner p i)) ->
      step prompt (mkCluster lk ps n) (mkCluster lk' ps n).

Inductive reachable (prompt : bool) : cluster -> Prop :=
  | reach_none lk : reachable prompt (mkCluster lk ∅ 0)
  | reach_step c c' : reachable prompt c -> step prompt c c' -> reachable prompt c'.

(** No two goroutines, of one process or of two, use the same value. *)
Hypothesis owner_inj : forall p i q j, owner p i = owner q j -> p = q /\ i = j.

#[local] Instance owner_process_inj p : Inj (=) (=) (owner p).
Proof using owner_inj. intros i j E. by apply owner_inj in E as []. Qed.

(** A process does not take another's lock away. *)
Lemma step_keeps o s s' k t :
  Loop.step baseKey interval broadcast o limit false s s' ->
  holder (Loop.locks s) k = Some t -> (forall i, t <> o i) -> holder (Loop.locks s') k = Some t.
Proof using Type.
  intros Hst Ht Ho. destruct Hst; simpl in *; try done.
  - match goal with E : NewDlock _ _ _ _ _ |- _ => by rewrite (NewDlock_law _ _ _ _ _ E) end.
  - destruct ok.
    + match goal with E : TryLock _ _ _ _ _ |- _ => apply TryLock_true in E as (Hn & _ & Hother) end.
      rewrite Hother; [done|]. intros ->. congruence.
    + match goal with E : TryLock _ _ _ _ _ |- _ => by rewrite (TryLock_false _ _ _ _ E) end.
  - match goal with E : Refresh _ _ _ _ _ |- _ => by rewrite (Refresh_law _ _ _ _ _ E) end.
  - match goal with E : Unlock _ _ _ _ _ |- _ => apply Unlock_law in E as [Hk Hother] end.
    destruct (decide (k = Loop.key baseKey d)) as [->|Hne]; [|by rewrite Hother].
    destruct Hk as [->|[Hi _]]; [done|]. rewrite Ht in Hi. injection Hi as Hi. by destruct (Ho i).
Qed.

(** The invariant of a process, at a service that keeps its locks. *)
Lemma lock_inv_service o s lk lk' :
  Loop.lock_inv baseKey o (with_locks s lk) ->
  (forall k i, holder lk k = Some (o i) -> holder lk' k = Some (o i)) ->
  Loop.lock_inv baseKey o (with_locks s lk').
Proof using Type.
  intros [L1 L2 L3] Hk. constructor; simpl in *; [|by intros; apply Hk; eapply L2|done].
  intros i d q Hi Hq. by eapply Hk, L1.
Qed.

Definition inv (c : cluster) : Prop :=
  forall p s, procs c !! p = Some s -> Loop.lock_inv baseKey (owner p) (with_locks s (service c)).

Lemma cluster_step_inv c c' : step true c c' -> inv c -> inv c'.
Proof using owner_inj.
  intros Hst Hinv q sq. destruct Hst as [max c|lk ps n p s s' Hp Hst|lk ps n p|lk lk' ps n k He Hk]; simpl.
  - rewrite lookup_insert_Some. intros [[<- <-]|[_ Hq]]; [by constructor|by apply Hinv].
  - rewrite lookup_insert_Some. intros [[<- <-]|[Hne Hq]].
    + specialize (Hinv p s Hp). destruct s'. exact (Loop.lock_inv_step _ _ _ _ _ _ _ Hst Hinv).
    + apply (lock_inv_service _ _ lk); [by apply Hinv|]. intros k i Hh.
      eapply step_keeps; [exact Hst|exact Hh|]. intros j E. by apply owner_inj in E as [].
  - rewrite lookup_delete_Some. intros [_ Hq]. by apply Hinv.
  - intros Hq. apply (lock_inv_service _ _ lk); [by apply Hinv|]. intros k' i Hh.
    apply expire_law in He as [_ Hother]. rewrite Hother; [done|].
    intros ->. by eapply Hk; [done|by eexists|].
Qed.

Lemma cluster_inv c : reachable true c -> inv c.
Proof using owner_inj. induction 1; [by intros p s|by eapply cluster_step_inv]. Qed.

(** C13: In every interleaving of any number of processes, some of which may start or
    die at any time, in which no lock of a live process expires, no table is worked on
    twice: two goroutines that work on the same table and have not unlocked it are the
    same goroutine of the same process.  The code does not ensure that condition: see
    [late_refresh_shares_table]. *)
Theorem cluster_tables_exclusive c p s i d a q t j e b :
  reachable true c ->
  procs c !! p = Some s -> Loop.loops s !! i = Some (d, a) -> Loop.working a ->
  procs c !! q = Some t -> Loop.loops t !! j = Some (e, b) -> Loop.working b ->
  DB d = DB e -> Table d = Table e -> p = q /\ i = j.
Proof using owner_inj.
  intros Hr Hp Hi Ha Hq Hj Hb Hdb Htb. pose proof (cluster_inv c Hr) as Hinv.
  pose proof (Loop.inv_loops _ _ _ (Hinv p s Hp) i d a Hi Ha) as H1.
  pose proof (Loop.inv_loops _ _ _ (Hinv q t Hq) j e b Hj Hb) as H2. simpl in H1, H2.
  unfold Loop.key in *. rewrite Hdb, Htb, H2 in H1. injection H1 as E. apply owner_inj in E as []. by split.
Qed.

(** ** Cancellation *)

(** The loop of [Run] does not look at its context: a process that was cancelled and
    whose goroutines have all returned goes on to take the next table it can. *)
Theorem run_ignores_cancel p sm sm' lk lk1 lk2 d ds n :
  broadcast = d :: ds -> Acquire sm = (sm', None) ->
  NewDlock lk (Loop.key baseKey d) interval lk1 true -> TryLock lk1 (Loop.key baseKey d) (owner p n) lk2 true ->
  rtc (Loop.step baseKey interval broadcast (owner p) limit false) (Loop.mkState sm lk [] Loop.RAcquire ∅ n true)
    (Loop.mkState sm' lk2 ds Loop.RAcquire {[ n := (d, Loop.LBiz) ]} (S n) true).
Proof using Type.
  intros Hb Hs Hn Ht. eapply rtc_l; [apply Loop.step_range|]. rewrite Hb.
  eapply rtc_l; [by apply Loop.step_acquire|]. eapply rtc_l; [by apply Loop.step_newlock|].
  eapply rtc_l; [by apply Loop.step_trylock|]. eapply rtc_l; [apply Loop.step_go|]. reflexivity.
Qed.
End cluster.
Arguments mkCluster {_}.
Arguments service {_}.
Arguments procs {_}.
Arguments born {_}.

(** ** A run: two processes and one table *)

Definition pair_owner (p i : nat) : nat := encode_nat (p, i).

Lemma pair_owner_inj p i q j : pair_owner p i = pair_owner q j -> p = q /\ i = j.
Proof. intros E%encode_nat_inj. by injection E. Qed.

Definition table : Dst := Loop.one_table.

(** Process 0 works on the table, process 1 has not begun. *)
Definition working_one : @Loop.state Loop.map_locks :=
  @Loop.mkState Loop.map_locks (mkSem 1 1) {[ "job:jotify_0:notification_0"%string := pair_owner 0 0 ]} [] Loop.RAcquire
    {[ 0 := (table, Loop.LBiz) ]} 1 false.

Definition two : @cluster Loop.map_locks :=
  @mkCluster Loop.map_locks {[ "job:jotify_0:notification_0"%string := pair_owner 0 0 ]}
    (<[0 := working_one]> (<[1 := @Loop.init Loop.map_locks (∅ : gmap string nat) 1]>
       (<[0 := @Loop.init Loop.map_locks (∅ : gmap string nat) 1]> ∅))) 2.

(** The limit is not changed. *)
Definition no_limit (m : Z) : Prop := False.

Abbreviation run_step p := (@Loop.step Loop.map_locks "job" Minute [table] (pair_owner p) no_limit false).
Abbreviation run_reachable := (@reachable Loop.map_locks "job" Minute [table] pair_owner no_limit).

(** Steps of one process. *)
Lemma process_steps prompt p (lk : gmap string nat) ps n s s' :
  ps !! p = Some s -> rtc (run_step p) (@with_locks Loop.map_locks s lk) s' ->
  run_reachable prompt (@mkCluster Loop.map_locks lk ps n) ->
  run_reachable prompt (@mkCluster Loop.map_locks (@Loop.locks Loop.map_locks s') (<[p := s']> ps) n) \/
  s' = @with_locks Loop.map_locks s lk.
Proof.
  intros Hp Hst Hr. inversion Hst as [|x s1 y H1 H2]; subst; [by right|left].
  assert (Hr1 : run_reachable prompt (@mkCluster Loop.map_locks (@Loop.locks Loop.map_locks s1) (<[p := s1]> ps) n)).
  { eapply reach_step; [exact Hr|]. by eapply (@step_process Loop.map_locks). }
  clear H1 Hst Hr Hp s lk. revert Hr1. induction H2 as [s1|s1 s2 s3 H1 _ IH]; [done|]. intros Hr. apply IH.
  replace (<[p := s2]> ps) with (<[p := s2]> (<[p := s1]> ps)) by apply insert_insert_eq.
  eapply reach_step; [exact Hr|]. eapply (@step_process Loop.map_locks); [apply lookup_insert_eq|]. by destruct s1.
Qed.

(** A process takes a free lock and starts to work. *)
Lemma process_takes p (lk : gmap string nat) :
  lk !! "job:jotify_0:notification_0"%string = None ->
  rtc (run_step p) (@Loop.init Loop.map_locks lk 1)
    (@Loop.mkState Loop.map_locks (mkSem 1 1) (<["job:jotify_0:notification_0"%string := pair_owner p 0]> lk) [] Loop.RAcquire
      {[ 0 := (table, Loop.LBiz) ]} 1 false).
Proof.
  intros Hfree. eapply rtc_l; [apply (@Loop.step_range Loop.map_locks)|].
  eapply rtc_l; [by apply (@Loop.step_acquire Loop.map_locks) with (sm' := mkSem 1 1)|].
  eapply rtc_l; [apply (@Loop.step_newlock Loop.map_locks) with (ok := true); by split|].
  eapply rtc_l; [apply (@Loop.step_trylock Loop.map_locks) with (lk := lk) (ok := true); by left|].
  eapply rtc_l; [apply (@Loop.step_go Loop.map_locks)|]. reflexivity.
Qed.

Definition started : gmap nat (@Loop.state Loop.map_locks) :=
  <[1 := @Loop.init Loop.map_locks (∅ : gmap string nat) 1]> (<[0 := @Loop.init Loop.map_locks (∅ : gmap string nat) 1]> ∅).

Lemma reach_started prompt : run_reachable prompt (@mkCluster Loop.map_locks (∅ : gmap string nat) started 2).
Proof.
  change (@mkCluster Loop.map_locks (∅ : gmap string nat) started 2)
    with (@Start Loop.map_locks 1 (@Start Loop.map_locks 1 (@mkCluster Loop.map_locks (∅ : gmap string nat) ∅ 0))).
  eapply reach_step; [|apply (@step_start Loop.map_locks)].
  eapply reach_step; [apply reach_none|apply (@step_start Loop.map_locks)].
Qed.

Lemma reach_two prompt : run_reachable prompt two.
Proof.
  destruct (process_steps prompt 0 ∅ started 2 (@Loop.init Loop.map_locks (∅ : gmap string nat) 1) working_one)
    as [Hr|Hr]; [reflexivity|by apply process_takes|apply reach_started|exact Hr|discriminate Hr].
Qed.

Lemma cluster_tables_exclusive_witness : 0 = 0 /\ 0 = 0.
Proof.
  exact (@cluster_tables_exclusive Loop.map_locks "job" Minute [table] pair_owner no_limit pair_owner_inj two
    0 working_one 0 table Loop.LBiz 0 working_one 0 table Loop.LBiz (reach_two true) eq_refl eq_refl I eq_refl eq_refl I eq_refl eq_refl).
Defined.

(** The same process after the first one's lock expired. *)
Definition working_too : @Loop.state Loop.map_locks :=
  @Loop.mkState Loop.map_locks (mkSem 1 1) {[ "job:jotify_0:notification_0"%string := pair_owner 1 0 ]} [] Loop.RAcquire
    {[ 0 := (table, Loop.LBiz) ]} 1 false.

(** A business function that runs for longer than the lock lives shares its table: the
    lock of the first process expires while it works, and the second takes it. *)
Theorem late_refresh_shares_table :
  exists c s t, run_reachable false c /\ procs c !! 0 = Some s /\ procs c !! 1 = Some t /\
    Loop.loops s !! 0 = Some (table, Loop.LBiz) /\ Loop.loops t !! 0 = Some (table, Loop.LBiz).
Proof.
  assert (Hx : run_reachable false (@mkCluster Loop.map_locks (∅ : gmap string nat) (procs two) 2)).
  { eapply reach_step; [exact (reach_two false)|].
    apply (@step_expire Loop.map_locks) with (k := "job:jotify_0:notification_0"%string); [reflexivity|discriminate]. }
  destruct (process_steps false 1 ∅ (procs two) 2 (@Loop.init Loop.map_locks (∅ : gmap string nat) 1) working_too)
    as [Hr|Hr]; [reflexivity|by apply process_takes|exact Hx| |discriminate Hr].
  do 3 eexists. split; [exact Hr|]. by split_and!.
Qed.
End Cluster.
