(* ===== verification/Balancer.v ===== *)
(** * Client-side load balancers: internal/pkg/client/balancer

    One Module per balancer.  gRPC hands a builder the ready connections as a Go
    map, whose iteration order is unspecified: [Build] takes the list of the
    map's entries in the order of one iteration.  A pick result is a connection
    or an error; the [Done] callback of a pick is a separate definition on the
    picker's nodes.  Each [Pick] runs as a whole: the interleaving of two
    concurrent picks inside the scan over the nodes is not modelled. *)
From Stdlib Require Import ZArith Lia List.
From stdpp Require Import prelude strings gmap.
From S2P Require Import Prelude GoLang Errs Context.

(** ** google.golang.org/grpc *)

(** Values of address attributes, by dynamic type. *)
Inductive attr := AttrU32 (v : Z) | AttrInt (v : Z) | AttrStr (s : string).

Abbreviation Attributes := (list (string * attr)) (only parsing).

Fixpoint attr_Value (a : Attributes) (k : string) : option attr :=
  match a with
  | [] => None
  | (k', v) :: a => if String.eqb k k' then Some v else attr_Value a k
  end.

(** The type assertion [.(uint32)] with its two results. *)
Definition as_u32 (v : option attr) : Z * bool :=
  match v with Some (AttrU32 x) => (x, true) | _ => (0, false) end.

Definition as_str (v : option attr) : string * bool :=
  match v with Some (AttrStr s) => (s, true) | _ => (""%string, false) end.

Record Address := mkAddress { Addr : string; ServerName : string; Attrs : Attributes }.

Definition ErrNoSubConnAvailable : error :=
  ESentinel (SExtern balancer_ErrNoSubConnAvailable) "no SubConn is available".

(** [status.FromError(err)]'s code, for errors that carry none. *)
Class GrpcStatus := { FromError_Code : error -> Z }.
Definition codes_Unavailable : Z := 14.

Definition ctx_or_eof (e : error) : bool :=
  errors_Is e (SExtern context_DeadlineExceeded) || errors_Is e (SExtern io_EOF).

Section balancers.
Context {SubConn : Type}.

Abbreviation PickResult := (SubConn + error)%type (only parsing).
Abbreviation ReadySCs := (list (SubConn * Address)) (only parsing).

(** ** round_robin_balancer.go *)

Record RoundRobinBalancer := mkRR { rr_ccs : list SubConn; rr_index : Z; rr_length : Z }.

Definition rr_Build (info : ReadySCs) : RoundRobinBalancer :=
  let ccs := info.*1 in mkRR ccs 0 (Z.of_nat (length ccs)).

Definition rr_Pick (p : RoundRobinBalancer) : go (RoundRobinBalancer * PickResult) :=
  if (length (rr_ccs p) =? 0)%nat then Ret (p, inr ErrNoSubConnAvailable)
  else
    let index := u64 (rr_index p + 1) in
    let! i := go_rem (u64 (index - 1)) (rr_length p) in
    let! cc := slice_get (rr_ccs p) i in
    Ret (mkRR (rr_ccs p) index (rr_length p), inl cc).

(** Successive picks. *)
Fixpoint rr_picks (p : RoundRobinBalancer) (n : nat) : go (RoundRobinBalancer * list PickResult) :=
  match n with
  | O => Ret (p, [])
  | S n =>
      let! '(p, r) := rr_Pick p in
      let! '(p, rs) := rr_picks p n in
      Ret (p, r :: rs)
  end.

Definition rr_wf (p : RoundRobinBalancer) : Prop :=
  rr_length p = Z.of_nat (length (rr_ccs p)) /\ rr_ccs p <> [] /\ 0 <= rr_index p.

Lemma rr_Pick_ok p :
  rr_wf p -> rr_index p + 1 < 2 ^ 64 ->
  exists cc, rr_ccs p !! Z.to_nat (rr_index p mod rr_length p) = Some cc /\
    rr_Pick p = Ret (mkRR (rr_ccs p) (rr_index p + 1) (rr_length p), inl cc).
Proof.
  intros (Hl & Hne & Hi) Hb. unfold rr_Pick.
  destruct (rr_ccs p) as [|c0 l0] eqn:E; [done|]. rewrite <- E in *.
  replace (length (rr_ccs p) =? 0)%nat with false by (by rewrite E).
  assert (Hpos : 0 < rr_length p) by (rewrite Hl, E; simpl; lia).
  pose proof (Z.mod_pos_bound (rr_index p) (rr_length p) Hpos) as Hm.
  destruct (lookup_lt_is_Some_2 (rr_ccs p) (Z.to_nat (rr_index p mod rr_length p))) as [cc Hcc]; [lia|].
  exists cc. split; [done|].
  rewrite (wrap_u_id 64 ltac:(lia) (rr_index p + 1)) by (unfold in_u; lia).
  replace (rr_index p + 1 - 1) with (rr_index p) by lia.
  rewrite (wrap_u_id 64 ltac:(lia)) by (unfold in_u; lia).
  rewrite go_rem_pos by lia. simpl.
  by erewrite slice_get_in by (done || lia).
Qed.

Lemma rr_picks_ok p n :
  rr_wf p -> rr_index p + Z.of_nat n < 2 ^ 64 ->
  exists rs, length rs = n /\
    (forall j, (j < n)%nat ->
       rs !! j = rr_ccs p !! Z.to_nat ((rr_index p + Z.of_nat j) mod rr_length p)) /\
    rr_picks p n = Ret (mkRR (rr_ccs p) (rr_index p + Z.of_nat n) (rr_length p), inl <$> rs).
Proof.
  revert p; induction n as [|n IH]; intros p Hwf Hb.
  - exists []. split_and!; [done|lia|]. rewrite Z.add_0_r. by destruct p.
  - destruct (rr_Pick_ok p Hwf) as (cc & Hcc & Hp); [lia|].
    destruct (IH (mkRR (rr_ccs p) (rr_index p + 1) (rr_length p))) as (rs & Hl & Hrs & Hps).
    { destruct Hwf as (H1 & H2 & H3). split_and!; simpl; [done..|lia]. }
    { simpl; lia. }
    exists (cc :: rs). simpl in *. split_and!; [by rewrite Hl| |].
    + intros [|j] Hj; simpl.
      * by rewrite Z.add_0_r.
      * rewrite Hrs by lia. do 3 f_equal. lia.
    + rewrite Hp. simpl. rewrite Hps. simpl. by replace (rr_index p + 1 + Z.of_nat n) with (rr_index p + Z.pos (Pos.of_succ_nat n)) by lia.
Qed.

(** ** random_balancer.go *)

Record RandomBalancer := mkRandom { rnd_nodes : list SubConn; rnd_length : Z }.

(** [Build] leaves the field [length] at its zero value. *)
Definition rnd_Build (info : ReadySCs) : RandomBalancer := mkRandom (info.*1) 0.

(** [draw n] is what [rand.IntN(n)] returns. *)
Definition rnd_Pick (draw : Z -> Z) (p : RandomBalancer) : go PickResult :=
  if rnd_length p =? 0 then Ret (inr ErrNoSubConnAvailable)
  else let! cc := slice_get (rnd_nodes p) (draw (rnd_length p)) in Ret (inl cc).

(** ** hash_balancer.go: neither method is implemented. *)

Record HashBalancer := mkHashBalancer {}.

Definition hash_Build (_ : ReadySCs) : go HashBalancer := Panic "implement me".

Definition hash_Pick (_ : HashBalancer) : go PickResult := Panic "implement me".

(** ** weight_random_balancer.go *)

Record weightRandomNode := mkWRNode { wr_cc : SubConn; wr_weight : Z }.
Record WeightRandomBalancer := mkWR { wr_nodes : list weightRandomNode; wr_totalWeight : Z }.

Fixpoint wr_Build_loop (info : ReadySCs) (nodes : list weightRandomNode) (totalWeight : Z)
    : WeightRandomBalancer :=
  match info with
  | [] => mkWR nodes totalWeight
  | (cc, ccInfo) :: info =>
      let '(weight, _) := as_u32 (attr_Value (Attrs ccInfo) AttrWeight) in
      wr_Build_loop info (nodes ++ [mkWRNode cc weight]) (u32 (totalWeight + weight))
  end.

Definition wr_Build (info : ReadySCs) : WeightRandomBalancer := wr_Build_loop info [] 0.

Fixpoint wr_Pick_loop (nodes : list weightRandomNode) (target : Z) : go PickResult :=
  match nodes with
  | [] => Panic "[jotify] unreachable"
  | node :: nodes =>
      let target := i64 (target - wr_weight node) in
      if target <? 0 then Ret (inl (wr_cc node)) else wr_Pick_loop nodes target
  end.

(** [draw n] is what [rand.Intn(n)] returns. *)
Definition wr_Pick (draw : Z -> Z) (p : WeightRandomBalancer) : go PickResult :=
  if (length (wr_nodes p) =? 0)%nat then Ret (inr ErrNoSubConnAvailable)
  else wr_Pick_loop (wr_nodes p) (draw (wr_totalWeight p + 1)).

(** Weights are uint32 values. *)
Definition info_ok (info : ReadySCs) : Prop :=
  Forall (fun e => in_u 32 (as_u32 (attr_Value (Attrs e.2) AttrWeight)).1) info.

Definition weight_of (e : SubConn * Address) : Z := (as_u32 (attr_Value (Attrs e.2) AttrWeight)).1.

Lemma wr_Build_loop_spec info nodes total :
  wr_Build_loop info nodes total =
  mkWR (nodes ++ map (fun e => mkWRNode e.1 (weight_of e)) info)
    (wr_totalWeight (wr_Build_loop info nodes total)).
Proof.
  revert nodes total; induction info as [|[cc a] info IH]; intros nodes total; simpl.
  - by rewrite app_nil_r.
  - unfold weight_of; simpl. destruct (as_u32 _) as [w b]; simpl.
    rewrite IH. by rewrite <- app_assoc.
Qed.

Lemma wr_Build_loop_total info nodes total :
  info_ok info -> 0 <= total -> total + sumZ weight_of info < 2 ^ 32 ->
  wr_totalWeight (wr_Build_loop info nodes total) = total + sumZ weight_of info.
Proof.
  intros Hok. revert nodes total; induction Hok as [|[cc a] info Hw Hok IH]; intros nodes total Ht Hs; simpl.
  - lia.
  - simpl in Hw, Hs. destruct (as_u32 (attr_Value (Attrs a) AttrWeight)) as [w b] eqn:E.
    assert (Hcw : weight_of (cc, a) = w) by (unfold weight_of; simpl; by rewrite E).
    rewrite Hcw in *. simpl in Hw.
    assert (Hnn : 0 <= sumZ weight_of info).
    { apply sumZ_nonneg. intros e He. rewrite Forall_forall in Hok. apply Hok in He. apply He. }
    destruct Hw as [Hw _].
    rewrite (wrap_u_id 32 ltac:(lia)) by (unfold in_u; lia). rewrite IH; lia.
Qed.

(** The node at which the weights passed exceed the draw. *)
Lemma wr_Pick_loop_at nodes1 node nodes2 r :
  Forall (fun x => 0 <= wr_weight x) nodes1 ->
  - 2 ^ 62 < sumZ wr_weight nodes1 < 2 ^ 62 -> in_u 32 (wr_weight node) ->
  sumZ wr_weight nodes1 <= r < sumZ wr_weight nodes1 + wr_weight node -> r < 2 ^ 62 ->
  wr_Pick_loop (nodes1 ++ node :: nodes2) r = Ret (inl (wr_cc node)).
Proof.
  intros Hf. revert r; induction Hf as [|x nodes1 Hx Hf IH]; intros r Hs [Hn Hn'] Hr Hb; simpl in *.
  - rewrite (wrap_s_id 64 ltac:(lia)) by (unfold in_s; lia).
    destruct (Z.ltb_spec (r - wr_weight node) 0); [done|lia].
  - assert (0 <= sumZ wr_weight nodes1).
    { apply sumZ_nonneg. intros y Hy. rewrite Forall_forall in Hf. by apply Hf. }
    rewrite (wrap_s_id 64 ltac:(lia)) by (unfold in_s; lia).
    destruct (Z.ltb_spec (r - wr_weight x) 0); [lia|].
    apply IH; [lia|done|lia|lia].
Qed.

Lemma wr_Pick_loop_end nodes r :
  Forall (fun x => 0 <= wr_weight x) nodes -> sumZ wr_weight nodes <= r < 2 ^ 62 ->
  wr_Pick_loop nodes r = Panic "[jotify] unreachable".
Proof.
  intros Hf. revert r; induction Hf as [|x nodes Hx Hf IH]; intros r Hr; simpl in *; [done|].
  assert (0 <= sumZ wr_weight nodes).
  { apply sumZ_nonneg. intros y Hy. rewrite Forall_forall in Hf. by apply Hf. }
  rewrite (wrap_s_id 64 ltac:(lia)) by (unfold in_s; lia).
  destruct (Z.ltb_spec (r - wr_weight x) 0); [lia|]. apply IH. lia.
Qed.

(** ** Properties of the stateless balancers *)

(** Round robin is fair: from any state of the picker, as many picks as there
    are connections choose every connection exactly once (as long as the 64-bit
    counter does not wrap around). *)
Theorem round_robin_fair p :
  rr_wf p -> rr_index p + rr_length p < 2 ^ 64 ->
  exists p' rs, rr_picks p (length (rr_ccs p)) = Ret (p', inl <$> rs) /\
    rs ≡ₚ rr_ccs p /\ rr_wf p' /\ rr_ccs p' = rr_ccs p.
Proof.
  intros Hwf Hb. pose proof Hwf as (Hl & Hne & Hi).
  destruct (rr_picks_ok p (length (rr_ccs p)) Hwf) as (rs & Hlen & Hrs & Hp); [lia|].
  eexists _, rs. split; [exact Hp|]. split; [|by repeat split; simpl; try lia].
  set (k := Z.to_nat (rr_index p mod rr_length p)).
  assert (Hpos : 0 < rr_length p).
  { rewrite Hl. destruct (rr_ccs p); [done|simpl; lia]. }
  pose proof (Z.mod_pos_bound (rr_index p) _ Hpos).
  assert (Hrot : rs = rotate k (rr_ccs p)).
  - apply list_eq_same_length with (n := length (rr_ccs p)); [by rewrite length_rotate|done|].
    intros j x y Hj Hx Hy. rewrite Hrs in Hx by done.
    rewrite lookup_rotate_r in Hy by done. unfold rotate_nat_add in Hy.
    rewrite <- Hl in Hy. unfold k in Hy. rewrite Z2Nat.id in Hy by lia.
    rewrite mod_add_mod_l in Hy. congruence.
  - rewrite Hrot. unfold rotate. rewrite Permutation_app_comm. by rewrite take_drop.
Qed.

(** The random balancer never balances: its builder leaves the length at
    zero, so every pick of every picker it builds finds no connection. *)
Theorem random_never_picks draw info : rnd_Pick draw (rnd_Build info) = Ret (inr ErrNoSubConnAvailable).
Proof. done. Qed.

(** A draw [r] of the weighted random balancer picks the connection on whose
    share of the weights it falls, so that each connection gets as many draws as
    its weight; the one draw that is left, the total itself (which the argument
    [total + 1] makes possible), panics. *)
Theorem weight_random_shares (draw : Z -> Z) info1 cc addr info2 r :
  let info := info1 ++ (cc, addr) :: info2 in
  info_ok info -> sumZ weight_of info < 2 ^ 32 ->
  let total := wr_totalWeight (wr_Build info) in
  (forall n, draw n = r) -> 0 <= r < total + 1 ->
  total = sumZ weight_of info /\
  (sumZ weight_of info1 <= r < sumZ weight_of info1 + weight_of (cc, addr) ->
     wr_Pick draw (wr_Build info) = Ret (inl cc)) /\
  (wr_Pick draw (wr_Build info) = Panic "[jotify] unreachable" <-> r = total).
Proof.
  intros info Hok Hs total Hd Hr.
  assert (Ht : total = sumZ weight_of info) by (apply wr_Build_loop_total; [done|lia|lia]).
  pose proof (wr_Build_loop_spec info [] 0) as Hn. simpl in Hn.
  assert (Hnn : forall l, info_ok l -> Forall (fun x => 0 <= wr_weight x) (map (fun e => mkWRNode e.1 (weight_of e)) l)).
  { intros l Hl. apply Forall_map. eapply Forall_impl; [exact Hl|]. simpl. intros e [H _]. exact H. }
  assert (Hsum : forall l, sumZ wr_weight (map (fun e => mkWRNode e.1 (weight_of e)) l) = sumZ weight_of l).
  { induction l as [|e l IHl]; simpl; [done|]. by rewrite IHl. }
  assert (Hpick : wr_Pick draw (wr_Build info) = wr_Pick_loop (wr_nodes (wr_Build info)) r).
  { unfold wr_Pick. rewrite Hd. unfold wr_Build. rewrite Hn. unfold info; simpl. by rewrite map_app, length_app, Nat.add_comm. }
  assert (Hat : forall l1 c a l2, info = l1 ++ (c, a) :: l2 ->
    sumZ weight_of l1 <= r < sumZ weight_of l1 + weight_of (c, a) ->
    wr_Pick draw (wr_Build info) = Ret (inl c)).
  { intros l1 c a l2 E Hr1. rewrite Hpick. unfold wr_Build. rewrite Hn. simpl. rewrite E, map_app. simpl.
    rewrite E in Hok. apply Forall_app in Hok as [Hok1 Hok2]. inversion Hok2 as [|? ? Hw Hok3]; subst.
    assert (0 <= sumZ weight_of l1) by (rewrite <- Hsum; apply sumZ_nonneg; intros y Hy;
      pose proof (Hnn _ Hok1) as Hf; rewrite Forall_forall in Hf; by apply Hf).
    apply (wr_Pick_loop_at _ (mkWRNode c (weight_of (c, a)))); simpl; rewrite ?Hsum; [by apply Hnn|lia|exact Hw|lia|lia]. }
  split_and!; [done|by eapply Hat|].
  split.
  - intros Hpan. destruct (decide (r = total)) as [|Hne]; [done|].
    destruct (sumZ_share weight_of info r) as (l1 & [c a] & l2 & E & Hsh); [lia|].
    rewrite (Hat l1 c a l2 E Hsh) in Hpan. done.
  - intros ->. rewrite Hpick. unfold wr_Build. rewrite Hn. simpl.
    apply wr_Pick_loop_end; [by apply Hnn|]. rewrite Hsum. lia.
Qed.

End balancers.

Definition two_weights : list (string * Address) :=
  [("a"%string, mkAddress "" "" [(AttrWeight, AttrU32 2)]);
   ("b"%string, mkAddress "" "" [(AttrWeight, AttrU32 3)])].

Lemma round_robin_fair_witness :
  exists p' rs, rr_picks (mkRR ["a"; "b"; "c"]%string 5 3) 3 = Ret (p', inl <$> rs) /\
    rs ≡ₚ ["a"; "b"; "c"]%string.
Proof.
  destruct (round_robin_fair (mkRR ["a"; "b"; "c"]%string 5 3)) as (p' & rs & H & Hp & _).
  - split; [reflexivity|]. split; [discriminate|]. simpl. lia.
  - simpl. lia.
  - by exists p', rs.
Defined.

Lemma weight_random_shares_witness :
  wr_Pick (fun _ => 5) (wr_Build two_weights) = Panic "[jotify] unreachable" /\
  wr_Pick (fun _ => 1) (wr_Build two_weights) = Ret (inl "a"%string).
Proof.
  assert (Hok : info_ok two_weights) by (repeat constructor; vm_compute; intuition congruence).
  split.
  - apply (weight_random_shares (fun _ => 5) [] "a"%string (mkAddress "" "" [(AttrWeight, AttrU32 2)])
             [("b"%string, mkAddress "" "" [(AttrWeight, AttrU32 3)])] 5 Hok);
      vm_compute; intuition congruence.
  - apply (weight_random_shares (fun _ => 1) [] "a"%string (mkAddress "" "" [(AttrWeight, AttrU32 2)])
             [("b"%string, mkAddress "" "" [(AttrWeight, AttrU32 3)])] 1 Hok);
      vm_compute; intuition congruence.
Defined.
