(* ===== verification/SmoothWeight.v ===== *)
(** * Smooth weighted balancers: weight_balancer.go, dynamic_weight_balancer.go

    Both pickers scan their nodes the same way ([pick]): every node's current
    weight grows by its efficient weight, the first node with the greatest
    current weight is selected and pays the total.  They differ in how the
    builder initialises the nodes and in how the [Done] callback adjusts the
    efficient weight.  A node is a pointer; the pickers identify it by its place
    in their list, which [Build] fills with distinct fresh nodes. *)
From Stdlib Require Import ZArith Lia List.
From stdpp Require Import prelude strings gmap.
From S2P Require Import Prelude GoLang Errs GoStrings Context Balancer.

Section smooth.
Context {SubConn : Type}.

Record node := mkNode { cc : SubConn; weight : Z; currentWeight : Z; efficientWeight : Z }.

Definition with_current (n : node) (c : Z) : node := mkNode (cc n) (weight n) c (efficientWeight n).
Definition with_efficient (n : node) (e : Z) : node := mkNode (cc n) (weight n) (currentWeight n) e.

Definition bump (n : node) : node := with_current n (u32 (currentWeight n + efficientWeight n)).

(** The selection so far: the node's place and its current weight. *)
Definition better (sel : option (nat * Z)) (i : nat) (c : Z) : option (nat * Z) :=
  match sel with
  | None => Some (i, c)
  | Some (_, c') => if c' <? c then Some (i, c) else sel
  end.

Fixpoint scan (i : nat) (nodes : list node) (totalWeight : Z) (sel : option (nat * Z))
    : list node * Z * option (nat * Z) :=
  match nodes with
  | [] => ([], totalWeight, sel)
  | n :: ns =>
      let totalWeight := u32 (totalWeight + efficientWeight n) in
      let n := bump n in
      let sel := better sel i (currentWeight n) in
      let '(ns, totalWeight, sel) := scan (S i) ns totalWeight sel in
      (n :: ns, totalWeight, sel)
  end.

(** A pick returns the nodes, and the place of the selected node. *)
Definition pick (nodes : list node) : list node * (nat + error) :=
  if (length nodes =? 0)%nat then (nodes, inr ErrNoSubConnAvailable)
  else
    let '(nodes, totalWeight, sel) := scan 0 nodes 0 None in
    match sel with
    | None => (nodes, inr ErrNoSubConnAvailable)
    | Some (j, _) =>
        (alter (fun n => with_current n (u32 (currentWeight n - totalWeight))) j nodes, inl j)
    end.

(** The connection of a pick's result. *)
Definition picked (nodes : list node) (r : nat + error) : option SubConn :=
  match r with inl j => cc <$> nodes !! j | inr _ => None end.

(** *** What the scan computes *)

Lemma scan_nodes i nodes t sel : (scan i nodes t sel).1.1 = bump <$> nodes.
Proof.
  revert i t sel; induction nodes as [|n ns IH]; intros i t sel; simpl; [done|].
  specialize (IH (S i) (u32 (t + efficientWeight n)) (better sel i (currentWeight (bump n)))).
  destruct (scan _ _ _ _) as [[ns' t'] sel']. simpl in *. by rewrite IH.
Qed.

Lemma scan_total i nodes t sel :
  (scan i nodes t sel).1.2 mod 2 ^ 32 = (t + sumZ efficientWeight nodes) mod 2 ^ 32.
Proof.
  revert i t sel; induction nodes as [|n ns IH]; intros i t sel; simpl; [by rewrite Z.add_0_r|].
  specialize (IH (S i) (u32 (t + efficientWeight n)) (better sel i (currentWeight (bump n)))).
  destruct (scan _ _ _ _) as [[ns' t'] sel']. simpl in *. rewrite IH.
  unfold wrap_u. autorewrite with zmod. f_equal. lia.
Qed.

(** [sel] names the first of the greatest elements of [cs], numbered from [i],
    or is the selection made before if none is greater. *)
Definition selects (i : nat) (cs : list Z) (sel res : option (nat * Z)) : Prop :=
  match res with
  | None => sel = None /\ cs = []
  | Some (j, c) =>
      (forall k c', cs !! k = Some c' -> c' <= c) /\
      (forall j0 c0, sel = Some (j0, c0) -> c0 <= c) /\
      ((sel = Some (j, c)) \/
       (exists k, j = (i + k)%nat /\ cs !! k = Some c /\
          (forall k' c', (k' < k)%nat -> cs !! k' = Some c' -> c' < c) /\
          (forall j0 c0, sel = Some (j0, c0) -> c0 < c)))
  end.

Lemma selects_cons i c cs sel res :
  selects (S i) cs (better sel i c) res -> selects i (c :: cs) sel res.
Proof.
  destruct res as [[j cr]|]; unfold selects; simpl.
  2: { intros [H _]. destruct sel as [[j0 c0]|]; simpl in H; [|done]. by destruct (c0 <? c). }
  intros (Hmax & Hsel & Hres).
  assert (Hc : c <= cr /\ forall j0 c0, sel = Some (j0, c0) -> c0 <= cr).
  { destruct sel as [[j0 c0]|]; simpl in *.
    - destruct (Z.ltb_spec c0 c); [|pose proof (Hsel j0 c0 eq_refl)].
      + pose proof (Hsel i c eq_refl). split; [done|]. intros ? ? [= <- <-]. lia.
      + split; [lia|]. intros ? ? [= <- <-]. lia.
    - split; [by apply (Hsel i c)|done]. }
  destruct Hc as [Hc Hs0]. split; [|split; [done|]].
  - intros [|k] c' Hk; simplify_eq/=; [done|by eapply Hmax].
  - destruct Hres as [E|(k & -> & Hk & Hlt & Hgt)].
    + destruct sel as [[j0 c0]|]; simpl in E.
      * destruct (Z.ltb_spec c0 c); simplify_eq; [right|by left].
        exists 0%nat. split_and!; [lia|done|lia|]. intros ? ? [= <- <-]. done.
      * simplify_eq. right. exists 0%nat. split_and!; [lia|done|lia|done].
    + right. exists (S k). split_and!; [lia|done| |].
      * intros [|k'] c' Hk' E; simplify_eq/=; [|eapply (Hlt k'); [lia|done]].
        destruct sel as [[j0 c0]|]; simpl in Hgt; [|by eapply Hgt].
        destruct (Z.ltb_spec c0 c'); [by eapply Hgt|]. pose proof (Hgt _ _ eq_refl). lia.
      * intros j0 c0 ->. simpl in Hgt. destruct (Z.ltb_spec c0 c); [|by eapply Hgt].
        pose proof (Hgt _ _ eq_refl). lia.
Qed.

Lemma scan_selects i nodes t sel :
  selects i (currentWeight <$> (bump <$> nodes)) sel (scan i nodes t sel).2.
Proof.
  revert i t sel; induction nodes as [|n ns IH]; intros i t sel.
  - simpl. destruct sel as [[j c]|]; simpl; [|done].
    split_and!; [done| |by left]. intros ? ? [= <- <-]. lia.
  - specialize (IH (S i) (u32 (t + efficientWeight n)) (better sel i (currentWeight (bump n)))).
    simpl. destruct (scan _ _ _ _) as [[ns' t'] sel']. simpl in *. by apply selects_cons.
Qed.

(** *** What a pick does *)

Lemma pick_spec nodes :
  nodes <> [] ->
  exists j n total, (bump <$> nodes) !! j = Some n /\
    total mod 2 ^ 32 = sumZ efficientWeight nodes mod 2 ^ 32 /\
    pick nodes = (<[j := with_current n (u32 (currentWeight n - total))]> (bump <$> nodes), inl j) /\
    (forall i m, (bump <$> nodes) !! i = Some m -> currentWeight m <= currentWeight n) /\
    (forall i m, (i < j)%nat -> (bump <$> nodes) !! i = Some m -> currentWeight m < currentWeight n).
Proof.
  intros Hne. unfold pick.
  destruct (Nat.eqb_spec (length nodes) 0) as [E|_]; [by apply length_zero_iff_nil in E|].
  pose proof (scan_nodes 0 nodes 0 None) as Hn. pose proof (scan_total 0 nodes 0 None) as Ht.
  pose proof (scan_selects 0 nodes 0 None) as Hs.
  destruct (scan 0 nodes 0 None) as [[ns total] sel]. simpl in *. subst ns.
  destruct sel as [[j c]|]; simpl in Hs.
  2: { destruct Hs as [_ Hs]. apply fmap_nil_inv, fmap_nil_inv in Hs. done. }
  destruct Hs as (Hmax & _ & [?|(k & Hk & Hc & Hlt & _)]); [done|]. simpl in Hk. subst k.
  apply list_lookup_fmap_Some in Hc as (n & -> & Hn).
  exists j, n, total. split_and!; [done|done| |..].
  - f_equal. rewrite list_insert_alter. apply list_alter_ext; [|done].
    intros x Hx. rewrite Hn in Hx. by simplify_eq.
  - intros i m Hm. eapply Hmax. rewrite list_lookup_fmap, Hm. done.
  - intros i m Hi Hm. eapply Hlt; [done|]. by rewrite list_lookup_fmap, Hm.
Qed.

(** Successive picks, no call completing in between. *)
Fixpoint picks (nodes : list node) (n : nat) : list node * list (nat + error) :=
  match n with
  | O => (nodes, [])
  | S n =>
      let '(nodes, r) := pick nodes in
      let '(nodes, rs) := picks nodes n in
      (nodes, r :: rs)
  end.

Definition nodes_ok (nodes : list node) : Prop :=
  Forall (fun n => in_u 32 (weight n) /\ in_u 32 (currentWeight n) /\ in_u 32 (efficientWeight n)) nodes.

(** A node's weight attribute; a missing or mistyped one counts as 0. *)
Definition addr_weight (a : Address) : Z := (as_u32 (attr_Value (Attrs a) AttrWeight)).1.

End smooth.

Arguments node : clear implicits.

(** ** weight_balancer.go *)
Module Weight.
Section weight.
Context {SubConn : Type}.

(** [efficientWeight] is left at its zero value. *)
Definition Build (info : list (SubConn * Address)) : list (node SubConn) :=
  map (fun e => let weight := addr_weight e.2 in mkNode e.1 weight weight 0) info.

Definition Pick : list (node SubConn) -> list (node SubConn) * (nat + error) := pick.

Definition done_node (err : option error) (n : node SubConn) : node SubConn :=
  match err with
  | None =>
      let e := u32 (efficientWeight n + 1) in
      with_efficient n (Z.max e (u32 (weight n * 2)))
  | Some e =>
      if ctx_or_eof e then
        if 1 <? efficientWeight n then with_efficient n (u32 (efficientWeight n - 1)) else n
      else n
  end.

(** The callback of a pick that selected the [j]th node. *)
Definition Done (j : nat) (err : option error) (nodes : list (node SubConn)) : list (node SubConn) :=
  alter (done_node err) j nodes.

End weight.
End Weight.

(** ** dynamic_weight_balancer.go *)
Module Dynamic.
Section dynamic.
Context {SubConn : Type} `{GrpcStatus}.

Definition Build (info : list (SubConn * Address)) : list (node SubConn) :=
  map (fun e => let weight := addr_weight e.2 in mkNode e.1 weight weight weight) info.

Definition Pick : list (node SubConn) -> list (node SubConn) * (nat + error) := pick.

Definition done_node (err : option error) (n : node SubConn) : node SubConn :=
  match err with
  | None =>
      let e := u32 (efficientWeight n + 1) in
      with_efficient n (Z.max e (u32 (weight n * 2)))
  | Some e =>
      if ctx_or_eof e then with_efficient n 1
      else if FromError_Code e =? codes_Unavailable then with_efficient n 1
      else if 1 <? efficientWeight n then with_efficient n (u32 (efficientWeight n - 1)) else n
  end.

Definition Done (j : nat) (err : option error) (nodes : list (node SubConn)) : list (node SubConn) :=
  alter (done_node err) j nodes.

End dynamic.
End Dynamic.

(** ** Properties *)

Lemma sumZ_bump {SubConn} (nodes : list (node SubConn)) :
  sumZ currentWeight (bump <$> nodes) mod 2 ^ 32 =
  (sumZ currentWeight nodes + sumZ efficientWeight nodes) mod 2 ^ 32.
Proof.
  induction nodes as [|n ns IH]; csimpl; [done|]. unfold wrap_u at 1.
  rewrite mod_add_mod_l, <- mod_add_mod_r, IH, mod_add_mod_r. f_equal. lia.
Qed.

(** A pick of the smooth weighted balancers selects the first node whose
    current weight, after every node has gained its efficient weight, is the
    greatest, charges it the total, and preserves the sum of the current
    weights (modulo 2^32, the width they have). *)
Theorem smooth_pick_selects {SubConn} (nodes : list (node SubConn)) :
  nodes <> [] ->
  exists j n nodes', (bump <$> nodes) !! j = Some n /\ pick nodes = (nodes', inl j) /\
    (forall i m, (bump <$> nodes) !! i = Some m -> currentWeight m <= currentWeight n) /\
    (forall i m, (i < j)%nat -> (bump <$> nodes) !! i = Some m -> currentWeight m < currentWeight n) /\
    (forall i, i <> j -> nodes' !! i = (bump <$> nodes) !! i) /\
    sumZ currentWeight nodes' mod 2 ^ 32 = sumZ currentWeight nodes mod 2 ^ 32.
Proof.
  intros Hne. destruct (pick_spec nodes Hne) as (j & n & total & Hj & Ht & Hp & Hmax & Hfirst).
  exists j, n. eexists. split_and!; [done|exact Hp|done|done| |].
  - intros i Hi. by rewrite list_lookup_insert_ne.
  - rewrite (sumZ_insert _ _ _ n) by done. unfold with_current; cbn [currentWeight].
    unfold wrap_u. rewrite mod_add_mod_r.
    replace (sumZ currentWeight (bump <$> nodes) - currentWeight n + (currentWeight n - total))
      with (sumZ currentWeight (bump <$> nodes) - total) by lia.
    rewrite <- mod_sub_mod_l, <- mod_sub_mod_r, sumZ_bump, Ht. autorewrite with zmod. f_equal. lia.
Qed.

Definition weights (ws : list Z) : list (string * Address) :=
  map (fun w => (FormatUint w, mkAddress "" "" [(AttrWeight, AttrU32 w)])) ws.

Lemma smooth_pick_selects_witness :
  exists j n nodes', (bump <$> Dynamic.Build (weights [5; 1; 1])) !! j = Some n /\
    pick (Dynamic.Build (weights [5; 1; 1])) = (nodes', inl j).
Proof.
  destruct (smooth_pick_selects (Dynamic.Build (weights [5; 1; 1]))) as (j & n & ns & H1 & H2 & _).
  - done.
  - by exists j, n, ns.
Defined.

(** Nodes that gain nothing. *)
Lemma bump_id {SubConn} (n : node SubConn) :
  in_u 32 (currentWeight n) -> efficientWeight n = 0 -> bump n = n.
Proof.
  intros Hc He. unfold bump. rewrite He, Z.add_0_r, (wrap_u_id 32) by (lia || done). by destruct n.
Qed.

Lemma pick_frozen {SubConn} (nodes : list (node SubConn)) :
  nodes_ok nodes -> nodes <> [] -> Forall (fun n => efficientWeight n = 0) nodes ->
  exists j, pick nodes = (nodes, inl j).
Proof.
  intros Hok Hne Hz.
  assert (Hb : bump <$> nodes = nodes).
  { rewrite <- (list_fmap_id nodes) at 2. apply list_fmap_ext. intros i n Hn.
    pose proof (Forall_lookup_1 _ _ _ _ Hok Hn) as (_ & Hc & _).
    by apply bump_id; [|apply (Forall_lookup_1 _ _ _ _ Hz Hn)]. }
  assert (Hs : sumZ efficientWeight nodes = 0).
  { clear -Hz. induction Hz as [|n ns H Hz IH]; simpl; lia. }
  destruct (pick_spec nodes Hne) as (j & n & total & Hj & Ht & Hp & _ & _).
  rewrite Hb in Hj, Hp. exists j. rewrite Hp. f_equal.
  apply list_insert_id. rewrite Hj. f_equal.
  pose proof (Forall_lookup_1 _ _ _ _ Hok Hj) as (_ & Hc & _).
  unfold wrap_u. rewrite <- mod_sub_mod_r, Ht, Hs, Z.mod_0_l, Z.sub_0_r by lia.
  rewrite Z.mod_small by done. by destruct n.
Qed.

Lemma picks_frozen {SubConn} (nodes : list (node SubConn)) n :
  nodes_ok nodes -> nodes <> [] -> Forall (fun n => efficientWeight n = 0) nodes ->
  exists j, picks nodes n = (nodes, replicate n (inl j)).
Proof.
  intros Hok Hne Hz. destruct (pick_frozen nodes Hok Hne Hz) as [j Hp]. exists j.
  induction n as [|n IH]; simpl; [done|]. by rewrite Hp, IH.
Qed.

Lemma as_u32_ok (info : list (string * Address)) :
  info_ok info -> nodes_ok (Weight.Build info).
Proof.
  intros Hok. unfold nodes_ok, Weight.Build. apply Forall_map. eapply Forall_impl; [exact Hok|].
  intros [c a] Hw. simpl. split_and!; try (apply Hw); done.
Qed.

(** The weighted balancer does not balance until a call succeeds: its builder
    leaves every efficient weight at zero, so any number of picks made before
    the first completion choose the same node and change nothing. *)
Theorem weight_frozen_until_done (info : list (string * Address)) n :
  info_ok info -> info <> [] ->
  exists j, picks (Weight.Build info) n = (Weight.Build info, replicate n (inl j)).
Proof.
  intros Hok Hne. apply picks_frozen; [by apply as_u32_ok|by destruct info|].
  unfold Weight.Build. apply Forall_map, Forall_true. done.
Qed.

Lemma weight_frozen_until_done_witness :
  exists j, picks (Weight.Build (weights [5; 1; 1])) 10 =
            (Weight.Build (weights [5; 1; 1]), replicate 10 (inl j)).
Proof.
  apply (weight_frozen_until_done (weights [5; 1; 1]) 10).
  - repeat constructor; vm_compute; intuition congruence.
  - done.
Defined.

(** The efficient weight after [n] successful calls on a node. *)
Lemma done_successes {SubConn} (n0 : node SubConn) n :
  efficientWeight n0 + 1 <= weight n0 * 2 -> 0 <= efficientWeight n0 ->
  weight n0 * 2 + Z.of_nat n < 2 ^ 32 ->
  Nat.iter (S n) (Weight.done_node None) n0 =
  with_efficient n0 (weight n0 * 2 + Z.of_nat n).
Proof.
  intros He Hp. induction n as [|n IH]; intros Hb.
  - simpl. unfold Weight.done_node. rewrite !(wrap_u_id 32) by (lia || unfold in_u; lia).
    f_equal. lia.
  - rewrite Nat.iter_succ, IH by lia. unfold Weight.done_node, with_efficient; simpl.
    rewrite !(wrap_u_id 32) by (lia || unfold in_u; lia). f_equal. lia.
Qed.

(** Success raises a node's efficient weight without limit: after [n + 1]
    successful calls it is twice the node's weight plus [n] in both smooth
    balancers, the limit of twice the weight being taken as a lower bound. *)
Theorem success_uncapped `{GrpcStatus} (e : string * Address) n :
  let w := addr_weight e.2 in
  1 <= w -> w * 2 + Z.of_nat n < 2 ^ 32 ->
  (forall x, In x (Weight.Build [e]) ->
     efficientWeight (Nat.iter (S n) (Weight.done_node None) x) = w * 2 + Z.of_nat n) /\
  (forall x, In x (Dynamic.Build [e]) ->
     efficientWeight (Nat.iter (S n) (Dynamic.done_node None) x) = w * 2 + Z.of_nat n).
Proof.
  intros w Hw Hb.
  assert (Hs : forall x, Nat.iter (S n) (Dynamic.done_node None) x =
                 Nat.iter (S n) (Weight.done_node (SubConn := string) None) x) by done.
  split; intros x [<-|[]]; rewrite ?Hs, done_successes; simpl; fold w; lia.
Qed.

Definition no_status : GrpcStatus := {| FromError_Code _ := 2 |}.

Lemma success_uncapped_witness :
  efficientWeight (Nat.iter 101 (@Dynamic.done_node string no_status None)
    (mkNode "5"%string 5 5 5)) = 110.
Proof.
  apply (@success_uncapped no_status ("5"%string, mkAddress "" "" [(AttrWeight, AttrU32 5)]) 100).
  - vm_compute. congruence.
  - vm_compute. reflexivity.
  - by left.
Defined.

(** How many of the picks chose a node. *)
Definition count_picks (j : nat) (rs : list (nat + error)) : nat :=
  length (List.filter (fun r => match r with inl i => (i =? j)%nat | inr _ => false end) rs).

(** The unsigned current weights break the smooth weighted rotation: a charge
    that exceeds a node's current weight wraps around and makes that node the
    greatest.  With weights 5, 1, 1, of the first 2000 picks the heaviest node
    gets 3 and one of the lightest all the others. *)
Theorem dynamic_wrap_monopoly :
  let rs := (picks (Dynamic.Build (weights [5; 1; 1])) 2000).2 in
  count_picks 0 rs = 3%nat /\ count_picks 1 rs = 1997%nat /\ count_picks 2 rs = 0%nat.
Proof. vm_compute. done. Qed.
