(* ===== verification/Picks.v ===== *)
(** * Concurrent picks of the smooth weighted balancers

    gRPC calls a picker from any number of goroutines.  weight_balancer.go takes the
    lock of one node at a time, so picks interleave node by node, and with the
    callbacks of calls that complete; dynamic_weight_balancer.go takes the read lock
    of a node it writes to, so that two goroutines may both read a weight before
    either has written it.  The sequential [pick] of the file SmoothWeight is the
    run of one goroutine without the others ([picks_alone]).

    The current weight of the node selected so far is read without its lock; the
    read is taken to be atomic. *)
From Stdlib Require Import ZArith Lia List.
From stdpp Require Import prelude strings gmap relations.
From S2P Require Import Prelude GoLang Errs GoStrings Context Balancer SmoothWeight.

Module Picks.
Section picks.
Context {SubConn : Type}.

(** Where a goroutine is in [Pick]: before the next node, with the total and the
    selection so far; between reading and writing a node's weight, which only a read
    lock lets others see; before it charges the selected node; and waiting for its
    call to complete. *)
Inductive pc :=
  | PIdle
  | PScan (i : nat) (totalWeight : Z) (sel : option nat)
  | PStore (i : nat) (totalWeight : Z) (sel : option nat) (w : Z)
  | PCharge (j : nat) (totalWeight : Z)
  | PCall (j : nat).

Record state := mkState { nodes : list (node SubConn); procs : list pc }.

(** The selection after a node whose weight is now [c]; the node selected before is
    read through its pointer. *)
Definition select (ns : list (node SubConn)) (sel : option nat) (i : nat) (c : Z) : option nat :=
  match sel with
  | None => Some i
  | Some j =>
      match ns !! j with
      | Some m => if currentWeight m <? c then Some i else sel
      | None => sel
      end
  end.

(** No goroutine holds the read lock of node [j]. *)
Definition unlocked (ps : list pc) (j : nat) : Prop := forall t sel w, PStore j t sel w ∉ ps.

Section steps.
(** Whether the scan takes read locks, and what a callback does. *)
Variables (rlock : bool) (done_node : option error -> node SubConn -> node SubConn).

(** One step of goroutine [p]. *)
Inductive step (p : nat) : state -> state -> Prop :=
  | step_start ns ps :
      ps !! p = Some PIdle -> ns <> [] ->
      step p (mkState ns ps) (mkState ns (<[p := PScan 0 0 None]> ps))
  | step_scan ns ps i t sel n :
      rlock = false -> ps !! p = Some (PScan i t sel) -> ns !! i = Some n ->
      let ns' := <[i := bump n]> ns in
      step p (mkState ns ps)
        (mkState ns' (<[p := PScan (S i) (u32 (t + efficientWeight n)) (select ns' sel i (currentWeight (bump n)))]> ps))
  | step_load ns ps i t sel n :
      rlock = true -> ps !! p = Some (PScan i t sel) -> ns !! i = Some n ->
      step p (mkState ns ps)
        (mkState ns (<[p := PStore i (u32 (t + efficientWeight n)) sel (currentWeight (bump n))]> ps))
  | step_store ns ps i t sel w n :
      ps !! p = Some (PStore i t sel w) -> ns !! i = Some n ->
      let ns' := <[i := with_current n w]> ns in
      step p (mkState ns ps) (mkState ns' (<[p := PScan (S i) t (select ns' sel i w)]> ps))
  | step_select ns ps t j :
      ps !! p = Some (PScan (length ns) t (Some j)) ->
      step p (mkState ns ps) (mkState ns (<[p := PCharge j t]> ps))
  | step_charge ns ps j t n :
      ps !! p = Some (PCharge j t) -> ns !! j = Some n -> unlocked ps j ->
      step p (mkState ns ps)
        (mkState (<[j := with_current n (u32 (currentWeight n - t))]> ns) (<[p := PCall j]> ps))
  | step_done ns ps j err :
      ps !! p = Some (PCall j) -> unlocked ps j ->
      step p (mkState ns ps) (mkState (alter (done_node err) j ns) (<[p := PIdle]> ps)).

(** [k] goroutines and a fresh picker. *)
Definition init (ns : list (node SubConn)) (k : nat) : state := mkState ns (replicate k PIdle).

Definition reachable (ns : list (node SubConn)) (k : nat) : state -> Prop :=
  rtc (fun s s' => exists p, step p s s') (init ns k).
End steps.

(** ** Every interleaving conserves the weights *)

(** What a goroutine has added to the nodes and not yet charged. *)
Definition owed (p : pc) : Z :=
  match p with PScan _ t _ | PStore _ t _ _ | PCharge _ t => t | PIdle | PCall _ => 0 end.

(** A node that a goroutine has selected exists; under the locks of the weighted
    balancer no write is pending. *)
Definition pc_ok (len : nat) (p : pc) : Prop :=
  match p with
  | PIdle => True
  | PScan i _ sel => (i <= len)%nat /\ match sel with None => i = 0%nat | Some j => (j < len)%nat end
  | PStore _ _ _ _ => False
  | PCharge j _ | PCall j => (j < len)%nat
  end.

Record inv (c : Z) (len : nat) (s : state) : Prop := mkInv {
  inv_len : length (nodes s) = len;
  inv_pcs : Forall (pc_ok len) (procs s);
  inv_sum : (sumZ currentWeight (nodes s) - sumZ owed (procs s)) mod 2 ^ 32 = c mod 2 ^ 32 }.

Lemma select_ok (ns : list (node SubConn)) sel i c len :
  (i < len)%nat -> match sel with None => i = 0%nat | Some j => (j < len)%nat end ->
  match select ns sel i c with None => S i = 0%nat | Some j => (j < len)%nat end.
Proof using Type.
  intros Hi Hs. unfold select. destruct sel as [j|]; [|done].
  destruct (ns !! j); [|done]. by destruct (_ <? _).
Qed.

Lemma wrap_diff_cancel x y z : x - y = z -> (u32 x - u32 y - z) mod 2 ^ 32 = 0.
Proof using Type. intros <-. unfold wrap_u. rewrite <- mod_sub_mod_l, <- Zminus_mod, mod_sub_mod_l, Z.sub_diag. done. Qed.

(** A goroutine moves on, and what it has added or charged is what it owes. *)
Lemma inv_move c len ns ns' ps p x x' :
  inv c len (mkState ns ps) -> ps !! p = Some x -> pc_ok len x' -> length ns' = length ns ->
  (sumZ currentWeight ns' - sumZ currentWeight ns - (owed x' - owed x)) mod 2 ^ 32 = 0 ->
  inv c len (mkState ns' (<[p := x']> ps)).
Proof using Type.
  intros [Hl Hp Hs] E Hx' Hns H0. simpl in *. split; simpl; [lia|by apply Forall_insert|].
  rewrite (sumZ_insert _ _ _ _ _ E). rewrite <- Hs.
  replace (sumZ currentWeight ns' - (sumZ owed ps - owed x + owed x'))
    with (sumZ currentWeight ns - sumZ owed ps + (sumZ currentWeight ns' - sumZ currentWeight ns - (owed x' - owed x))) by lia.
  by rewrite <- mod_add_mod_r, H0, Z.add_0_r.
Qed.

Section locked.
Variable done_node : option error -> node SubConn -> node SubConn.
Hypothesis done_current : forall err n, currentWeight (done_node err n) = currentWeight n.

Lemma sumZ_alter_done err j ns : sumZ currentWeight (alter (done_node err) j ns) = sumZ currentWeight ns.
Proof using done_current.
  revert j; induction ns as [|n ns IH]; intros [|j]; simpl; try done; [by rewrite done_current|].
  f_equal. apply IH.
Qed.

Lemma inv_step c len p s s' : inv c len s -> step false done_node p s s' -> inv c len s'.
Proof using done_current.
  intros Hi Hstep. pose proof (inv_len _ _ _ Hi) as Hl. pose proof (inv_pcs _ _ _ Hi) as Hp.
  destruct Hstep as [ns ps E Hne|ns ps i t sel n _ E En ns'|ns ps i t sel n ? E En
    |ns ps i t sel w n E En ns'|ns ps t j E|ns ps j t n E En _|ns ps j err E _]; simpl in *; [..|done| | | |].
  all: pose proof (Forall_lookup_1 _ _ _ _ Hp E) as Hok; simpl in Hok.
  - apply (inv_move _ _ _ _ _ _ _ _ Hi E); simpl; [split; [lia|done]|done|by rewrite Z.sub_diag].
  - pose proof (lookup_lt_Some _ _ _ En) as Hlt.
    apply (inv_move _ _ _ _ _ _ _ _ Hi E); simpl; [split; [lia|apply select_ok; [lia|by destruct sel; [apply Hok|lia]]]|by apply length_insert|].
    unfold ns'. rewrite (sumZ_insert _ _ _ _ _ En). simpl. etrans; [|apply (wrap_diff_cancel (currentWeight n + efficientWeight n)
      (t + efficientWeight n) (currentWeight n - t)); lia]. f_equal. lia.
  - done.
  - apply (inv_move _ _ _ _ _ _ _ _ Hi E); simpl; [by destruct Hok|done|by rewrite !Z.sub_diag].
  - apply (inv_move _ _ _ _ _ _ _ _ Hi E); simpl; [done|by apply length_insert|].
    rewrite (sumZ_insert _ _ _ _ _ En). simpl. etrans; [|apply (wrap_diff_cancel (currentWeight n - t) 0 (currentWeight n - t)); lia].
    change (u32 0) with 0. f_equal. lia.
  - apply (inv_move _ _ _ _ _ _ _ _ Hi E); simpl; [done|by rewrite length_alter|].
    by rewrite sumZ_alter_done, !Z.sub_diag.
Qed.

Lemma picks_inv_init ns k : inv (sumZ currentWeight ns) (length ns) (init ns k).
Proof using Type.
  split; simpl; [done|by apply Forall_replicate|].
  replace (sumZ owed (replicate k PIdle)) with 0 by (by induction k). by rewrite Z.sub_0_r.
Qed.

Lemma inv_reachable ns k s : reachable false done_node ns k s -> inv (sumZ currentWeight ns) (length ns) s.
Proof using done_current.
  intros Hr. unfold reachable in Hr. remember (init ns k) as s0 eqn:E0.
  assert (Hi : inv (sumZ currentWeight ns) (length ns) s0) by (subst; apply picks_inv_init). clear E0.
  induction Hr as [s|s1 s2 s3 [p Hs] _ IH]; [done|]. apply IH. by eapply inv_step.
Qed.

Lemma procs_length ns k s : reachable false done_node ns k s -> length (procs s) = k.
Proof using Type.
  unfold reachable. intros Hr. remember (init ns k) as s0 eqn:E0.
  assert (Hi : length (procs s0) = k) by (subst; apply length_replicate). clear E0.
  induction Hr as [s|s1 s2 s3 [p Hs] _ IH]; [done|]. apply IH.
  destruct Hs; simpl in *; by rewrite length_insert.
Qed.
End locked.

(** ** One goroutine alone *)

Section alone.
Variable done_node : option error -> node SubConn -> node SubConn.

(** The weight the scan remembers is the one it reads through the pointer. *)
Definition remembers (ns : list (node SubConn)) (sel : option (nat * Z)) : Prop :=
  match sel with None => True | Some (j, c) => currentWeight <$> ns !! j = Some c end.

Lemma scan_run p (pre suf : list (node SubConn)) ps t sel :
  ps !! p = Some (PScan (length pre) t (fst <$> sel)) -> remembers pre sel ->
  let '(suf', t', sel') := scan (length pre) suf t sel in
  rtc (step false done_node p) (mkState (pre ++ suf) ps)
    (mkState (pre ++ suf') (<[p := PScan (length (pre ++ suf)) t' (fst <$> sel')]> ps)) /\
  remembers (pre ++ suf') sel'.
Proof using Type.
  revert pre ps t sel; induction suf as [|n suf IH]; intros pre ps t sel E Hrem; cbn [scan].
  - rewrite app_nil_r, list_insert_id by done. by split; [apply rtc_refl|].
  - set (n' := bump n). set (sel1 := better sel (length pre) (currentWeight n')).
    set (t1 := u32 (t + efficientWeight n)).
    assert (En : (pre ++ n :: suf) !! length pre = Some n) by (by rewrite list_lookup_middle).
    assert (Hns : <[length pre := n']> (pre ++ n :: suf) = (pre ++ [n']) ++ suf).
    { rewrite <- app_assoc, insert_app_r_alt, Nat.sub_diag by done. done. }
    assert (Hsel : select ((pre ++ [n']) ++ suf) (fst <$> sel) (length pre) (currentWeight n') = fst <$> sel1).
    { unfold sel1, select, better. destruct sel as [[j c]|]; [|done]. simpl in *.
      destruct (pre !! j) as [m|] eqn:Em; [|done]. simpl in Hrem. injection Hrem as Hm.
      rewrite <- app_assoc, lookup_app_l by (by eapply lookup_lt_Some). rewrite Em, Hm.
      by destruct (_ <? _). }
    assert (Hrem1 : remembers (pre ++ [n']) sel1).
    { unfold sel1, better. destruct sel as [[j c]|]; simpl in *.
      - destruct (_ <? _); simpl; [by rewrite list_lookup_middle|].
        destruct (pre !! j) as [m|] eqn:Em; [|done]. by rewrite (lookup_app_l_Some _ _ _ _ Em).
      - by rewrite list_lookup_middle. }
    assert (Hlen : S (length pre) = length (pre ++ [n'])) by (rewrite length_app; simpl; lia).
    set (ps1 := <[p := PScan (S (length pre)) t1 (fst <$> sel1)]> ps).
    assert (E1 : ps1 !! p = Some (PScan (length (pre ++ [n'])) t1 (fst <$> sel1))).
    { rewrite <- Hlen. apply list_lookup_insert_eq. by eapply lookup_lt_Some. }
    specialize (IH _ _ _ _ E1 Hrem1). rewrite <- Hlen in IH.
    destruct (scan (S (length pre)) suf t1 sel1) as [[suf' t'] sel'].
    rewrite <- !app_assoc in IH. cbn [app] in IH. destruct IH as [Hrun Hrem'].
    split; [|done]. eapply rtc_l.
    + eapply (step_scan _ _ _ _ _ _ _ _ _ eq_refl E En).
    + fold n' t1. rewrite Hns, Hsel. fold ps1. rewrite <- app_assoc. cbn [app].
      unfold ps1 in Hrun. rewrite list_insert_insert_eq in Hrun. fold ps1 in Hrun.
      replace (length (pre ++ n :: suf)) with (length (pre ++ n' :: suf)) by (rewrite !length_app; done).
      exact Hrun.
Qed.

Lemma charge_alter (ns : list (node SubConn)) j n t :
  ns !! j = Some n ->
  <[j := with_current n (u32 (currentWeight n - t))]> ns =
  alter (fun n => with_current n (u32 (currentWeight n - t))) j ns.
Proof using Type.
  intros Hn. rewrite list_insert_alter. apply list_alter_ext; [|done]. intros x Hx. by simplify_eq.
Qed.

(** The steps of one goroutine while the others wait are the sequential pick. *)
Lemma picks_alone p ns ps :
  ps !! p = Some PIdle -> ns <> [] -> (forall j, unlocked ps j) ->
  exists ns' j, pick ns = (ns', inl j) /\
    rtc (step false done_node p) (mkState ns ps) (mkState ns' (<[p := PCall j]> ps)).
Proof using Type.
  intros E Hne Hu. destruct (pick_spec ns Hne) as (j & n & total & Hj & _ & Hpick & _ & _).
  pose proof (lookup_lt_Some _ _ _ E) as Hlt. pose proof Hpick as Hp. unfold pick in Hp.
  destruct (Nat.eqb_spec (length ns) 0) as [H0|_]; [by apply length_zero_iff_nil in H0|].
  pose proof (scan_nodes 0 ns 0 None) as Hns. set (ps0 := <[p := PScan 0 0 None]> ps).
  assert (E0 : ps0 !! p = Some (PScan (length (@nil (node SubConn))) 0 (fst <$> (None : option (nat * Z))))).
  { by apply list_lookup_insert_eq. }
  pose proof (scan_run p [] ns ps0 0 None E0 I) as Hrun. cbn [length app] in Hrun.
  destruct (scan 0 ns 0 None) as [[ns1 t] sel]. simpl in Hns. subst ns1.
  destruct sel as [[j1 c]|]; [|by injection Hp]. injection Hp as Hp ->.
  destruct Hrun as [Hrun _]. unfold ps0 in Hrun. rewrite list_insert_insert_eq in Hrun. simpl in Hrun.
  eexists _, j. split; [exact Hpick|].
  eapply rtc_l; [by apply step_start|]. etrans; [exact Hrun|].
  eapply rtc_l.
  { rewrite <- (length_fmap bump ns). apply step_select. by apply list_lookup_insert_eq. }
  rewrite list_insert_insert_eq. eapply rtc_l; [|apply rtc_refl].
  rewrite <- Hp, <- (charge_alter _ _ _ _ Hj), <- (list_insert_insert_eq ps p (PCall j) (PCharge j t)).
  apply step_charge; [by apply list_lookup_insert_eq|done|].
  intros t' sel' w [i Hi]%list_elem_of_lookup. destruct (decide (i = p)) as [->|Hip].
  - by rewrite list_lookup_insert_eq in Hi.
  - rewrite list_lookup_insert_ne in Hi by done. apply (Hu j t' sel' w). by eapply list_elem_of_lookup_2.
Qed.
End alone.

(** ** Properties *)

Section properties.
Variables (done_node : option error -> node SubConn -> node SubConn).
Hypothesis done_current : forall err n, currentWeight (done_node err n) = currentWeight n.

(** No goroutine is between its first addition and its charge. *)
Definition quiet (s : state) : Prop := Forall (fun p => p = PIdle \/ exists j, p = PCall j) (procs s).

(** C22: however the picks of any number of goroutines and the callbacks of their calls
    interleave under the locks of the weighted balancer, no weight is lost: whenever
    no pick is under way the current weights add up to what they did at first
    (modulo 2^32), each call in flight is to a node that exists, and every goroutine
    can go on at any time. *)
Theorem picks_conserve_weights ns k s :
  ns <> [] -> reachable false done_node ns k s ->
  (quiet s -> sumZ currentWeight (nodes s) mod 2 ^ 32 = sumZ currentWeight ns mod 2 ^ 32) /\
  (forall p j, procs s !! p = Some (PCall j) -> is_Some (nodes s !! j)) /\
  (forall p, (p < k)%nat -> exists s', step false done_node p s s').
Proof using done_current.
  intros Hne Hr. pose proof (inv_reachable _ done_current _ _ _ Hr) as [Hl Hp Hs]. split; [|split].
  - intros Hq. rewrite <- Hs. replace (sumZ owed (procs s)) with 0; [by rewrite Z.sub_0_r|].
    unfold quiet in Hq. clear -Hq. induction Hq as [|p ps [->|[j ->]] _ IH]; simpl; lia.
  - intros p j E. pose proof (Forall_lookup_1 _ _ _ _ Hp E) as Hj. simpl in Hj. apply lookup_lt_is_Some. lia.
  - intros p Hk. destruct s as [ns' ps]. simpl in *.
    assert (Hu : forall j, unlocked ps j).
    { intros j t sel w Hin. apply (Forall_forall (pc_ok (length ns)) ps) in Hin; [done|exact Hp]. }
    assert (Hlen : length ps = k) by exact (procs_length _ _ _ _ Hr).
    destruct (lookup_lt_is_Some_2 ps p) as [x E]; [lia|].
    pose proof (Forall_lookup_1 _ _ _ _ Hp E) as Hx.
    destruct x as [|i t sel|i t sel w|j t|j]; simpl in Hx.
    + eexists. apply step_start; [done|]. destruct ns', ns; done.
    + destruct (decide (i = length ns')) as [->|].
      * destruct sel as [j|]; [by eexists; apply step_select|]. destruct Hx as [_ Hx].
        destruct ns', ns; done.
      * destruct (lookup_lt_is_Some_2 ns' i) as [m En]; [lia|]. eexists. by eapply step_scan.
    + done.
    + destruct (lookup_lt_is_Some_2 ns' j) as [m En]; [lia|]. eexists. by eapply step_charge.
    + eexists. by apply (step_done _ _ _ _ _ j None).
Qed.
End properties.
End picks.
Arguments state : clear implicits.

(** The two balancers: the callbacks leave the current weights alone. *)
Lemma weight_done_current {SubConn} err (n : node SubConn) : currentWeight (Weight.done_node err n) = currentWeight n.
Proof. unfold Weight.done_node. destruct err as [e|]; [|done]. destruct (ctx_or_eof e); [|done]. by destruct (1 <? _). Qed.

(** The locks of dynamic_weight_balancer.go lose weight: two goroutines that pick at
    once on one node of weight 5 both read 5 and both write 10, and both charge 5,
    so that 0 is left. *)
Theorem dynamic_picks_lose_weight :
  exists s, reachable true (Dynamic.done_node (H := no_status)) (Dynamic.Build (weights [5])) 2 s /\ quiet s /\
    sumZ currentWeight (Dynamic.Build (weights [5])) = 5 /\ sumZ currentWeight (nodes s) = 0.
Proof.
  set (n w := mkNode "5"%string 5 w 5).
  exists (mkState [n 0] [PCall 0; PCall 0]). split; [|split_and!; [|done..]].
  - unfold reachable. change (init (Dynamic.Build (weights [5])) 2) with (mkState [n 5] [PIdle; PIdle]).
    assert (Hu : forall ps j, Forall (fun p => match p with PStore _ _ _ _ => False | _ => True end) ps -> unlocked ps j).
    { intros ps j Hf t sel w Hin. by apply (proj1 (Forall_forall _ _) Hf) in Hin. }
    eapply rtc_l; [exists 0%nat; by apply step_start|]. simpl.
    eapply rtc_l; [exists 1%nat; by apply step_start|]. simpl.
    eapply rtc_l; [exists 0%nat; by eapply step_load|]. simpl.
    eapply rtc_l; [exists 1%nat; by eapply step_load|]. simpl.
    eapply rtc_l; [exists 0%nat; by eapply step_store|]. simpl.
    eapply rtc_l; [exists 1%nat; by eapply step_store|]. simpl.
    eapply rtc_l; [exists 0%nat; by apply (step_select _ _ _ [n 10])|]. simpl.
    eapply rtc_l; [exists 1%nat; by apply (step_select _ _ _ [n 10])|]. simpl.
    eapply rtc_l; [exists 0%nat; eapply step_charge; [done|done|apply Hu; by repeat constructor]|]. simpl.
    eapply rtc_l; [exists 1%nat; eapply step_charge; [done|done|apply Hu; by repeat constructor]|].
    apply rtc_refl.
  - unfold quiet; simpl. apply Forall_cons; split; [right; by eexists|]. apply Forall_cons; split; [right; by eexists|done].
Qed.

Lemma picks_conserve_weights_witness :
  exists s, reachable false Weight.done_node (Weight.Build (weights [5; 1])) 2 s /\
    sumZ currentWeight (nodes s) mod 2 ^ 32 = 6 /\ procs s = [PCall 0; PIdle].
Proof.
  set (ns := Weight.Build (weights [5; 1])).
  destruct (picks_alone Weight.done_node 0 ns [PIdle; PIdle]) as (ns' & j & Hp & Hrun); [done|done| |].
  { intros j t sel w Hin. rewrite !elem_of_cons, elem_of_nil in Hin. naive_solver. }
  exists (mkState ns' [PCall 0; PIdle]).
  assert (Hj : j = 0%nat) by (apply (f_equal snd) in Hp; vm_compute in Hp; by injection Hp). subst j.
  assert (Hr : reachable false Weight.done_node ns 2 (mkState ns' [PCall 0; PIdle])).
  { unfold reachable. eapply rtc_subrel; [|exact Hrun]. intros s s' Hs. by exists 0%nat. }
  split; [exact Hr|]. split; [|done].
  apply (picks_conserve_weights Weight.done_node weight_done_current ns 2 _ ltac:(done) Hr).
  unfold quiet; simpl. apply Forall_cons; split; [right; by eexists|]. apply Forall_cons; split; [by left|done].
Defined.
End Picks.
