(* ===== verification/RwBalancer.v ===== *)
(** * The read/write weighted balancer and the resolver that feeds it

    rw_weight_balancer.go and client/resolver/grpc_resolver.go.  The builder
    keeps its nodes from one [Build] to the next in a cache keyed by node name,
    and hands pointers to them to its pickers, so one node can be in the cache,
    in several pickers, and more than once in a picker's list: nodes live in a
    heap and the cache and the pickers hold locations. *)
From Stdlib Require Import ZArith Lia List.
From stdpp Require Import prelude strings gmap.
From S2P Require Import Prelude GoLang Errs GoStrings Context Balancer.

Module Rw.
Section rw.
Context {SubConn : Type}.

Record rwWeightServiceNode := mkRwNode {
  cc : SubConn;
  readWeight : Z; currentReadWeight : Z; efficientReadWeight : Z;
  writeWeight : Z; currentWriteWeight : Z; efficientWriteWeight : Z;
  group : string }.

Definition newRwWeightServiceNode (cc : SubConn) (readWeight writeWeight : Z) (group : string) :=
  mkRwNode cc readWeight readWeight readWeight writeWeight writeWeight writeWeight group.

Definition with_group (n : rwWeightServiceNode) (g : string) :=
  mkRwNode (cc n) (readWeight n) (currentReadWeight n) (efficientReadWeight n)
    (writeWeight n) (currentWriteWeight n) (efficientWriteWeight n) g.
Definition with_read (n : rwWeightServiceNode) (cur eff : Z) :=
  mkRwNode (cc n) (readWeight n) cur eff
    (writeWeight n) (currentWriteWeight n) (efficientWriteWeight n) (group n).
Definition with_write (n : rwWeightServiceNode) (cur eff : Z) :=
  mkRwNode (cc n) (readWeight n) (currentReadWeight n) (efficientReadWeight n)
    (writeWeight n) cur eff (group n).

Definition loc := nat.

(** The heap of nodes and the builder's cache. *)
Record builder := mkBuilder {
  heap : gmap loc rwWeightServiceNode; nextLoc : loc; nodeCache : gmap string loc }.

Definition NewRwWeightBalancerBuilder : builder := mkBuilder ∅ 0%nat ∅.

Definition alloc (b : builder) (n : rwWeightServiceNode) : builder * loc :=
  (mkBuilder (<[nextLoc b := n]> (heap b)) (S (nextLoc b)) (nodeCache b), nextLoc b).

Definition cache_set (b : builder) (name : string) (l : loc) : builder :=
  mkBuilder (heap b) (nextLoc b) (<[name := l]> (nodeCache b)).

(** One connection of [Build]'s loop; [None] when an attribute is missing or has
    another type ([continue]). *)
Definition build_attrs (a : Address) : option (Z * Z * string * string) :=
  match as_u32 (attr_Value (Attrs a) AttrReadWeight) with
  | (_, false) => None
  | (readWeight, true) =>
      match as_u32 (attr_Value (Attrs a) AttrWriteWeight) with
      | (_, false) => None
      | (writeWeight, true) =>
          match as_str (attr_Value (Attrs a) AttrGroup) with
          | (_, false) => None
          | (groupName, true) =>
              match as_str (attr_Value (Attrs a) AttrNode) with
              | (_, false) => None
              | (nodeName, true) => Some (readWeight, writeWeight, groupName, nodeName)
              end
          end
      end
  end.

Definition build_node (b : builder) (c : SubConn) (rWeight wWeight : Z)
    (groupName nodeName : string) : builder * loc :=
  let fresh b :=
    let '(b, l) := alloc b (newRwWeightServiceNode c rWeight wWeight groupName) in
    (cache_set b nodeName l, l) in
  match nodeCache b !! nodeName with
  | Some l =>
      let b := mkBuilder (alter (fun n => with_group n groupName) l (heap b)) (nextLoc b) (nodeCache b) in
      match heap b !! l with
      | Some n =>
          if negb (readWeight n =? rWeight) || negb (writeWeight n =? wWeight)
          then fresh b else (b, l)
      | None => (b, l)
      end
  | None => fresh b
  end.

Fixpoint Build_loop (b : builder) (info : list (SubConn * Address)) (nodes : list loc)
    (ccMap : gset string) : builder * list loc * gset string :=
  match info with
  | [] => (b, nodes, ccMap)
  | (c, ccInfo) :: info =>
      match build_attrs ccInfo with
      | None => Build_loop b info nodes ccMap
      | Some (readWeight, writeWeight, groupName, nodeName) =>
          let '(b, l) := build_node b c readWeight writeWeight groupName nodeName in
          Build_loop b info (nodes ++ [l]) ({[ nodeName ]} ∪ ccMap)
      end
  end.

Definition Build (b : builder) (info : list (SubConn * Address)) : builder * list loc :=
  let '(b, nodes, ccMap) := Build_loop b info [] ∅ in
  (mkBuilder (heap b) (nextLoc b) (filter (fun kv => kv.1 ∈ ccMap) (nodeCache b)), nodes).

(** ** Picks *)

Definition isWriteReq (ctx : Context) : bool :=
  match ReqTypeFromContext ctx with (reqType, true) => reqType =? 1 | _ => false end.

Definition candidates (h : gmap loc rwWeightServiceNode) (ctx : Context) (nodes : list loc) : list loc :=
  List.filter (fun l =>
    match h !! l with
    | Some n => let '(g, ok) := GroupFromContext ctx in ok && String.eqb g (group n)
    | None => false
    end) nodes.

Definition current (isWrite : bool) (n : rwWeightServiceNode) : Z :=
  if isWrite then currentWriteWeight n else currentReadWeight n.
Definition efficient (isWrite : bool) (n : rwWeightServiceNode) : Z :=
  if isWrite then efficientWriteWeight n else efficientReadWeight n.
Definition with_current (isWrite : bool) (n : rwWeightServiceNode) (c : Z) : rwWeightServiceNode :=
  if isWrite then with_write n c (efficientWriteWeight n) else with_read n c (efficientReadWeight n).

(** The selected node's current weight is read through the pointer. *)
Fixpoint scan (isWrite : bool) (h : gmap loc rwWeightServiceNode) (nodes : list loc)
    (totalWeight : Z) (sel : option loc)
    : gmap loc rwWeightServiceNode * Z * option loc :=
  match nodes with
  | [] => (h, totalWeight, sel)
  | l :: nodes =>
      match h !! l with
      | None => scan isWrite h nodes totalWeight sel
      | Some n =>
          let totalWeight := u32 (totalWeight + efficient isWrite n) in
          let n := with_current isWrite n (u32 (current isWrite n + efficient isWrite n)) in
          let h := <[l := n]> h in
          let sel :=
            match sel with
            | None => Some l
            | Some s =>
                match h !! s with
                | Some ns => if current isWrite ns <? current isWrite n then Some l else sel
                | None => sel
                end
            end in
          scan isWrite h nodes totalWeight sel
      end
  end.

(** A pick returns the selected node and its connection. *)
Definition Pick (h : gmap loc rwWeightServiceNode) (nodes : list loc) (ctx : Context)
    : gmap loc rwWeightServiceNode * (loc * SubConn + error) :=
  if (length nodes =? 0)%nat then (h, inr ErrNoSubConnAvailable)
  else
    let candidateNodes := candidates h ctx nodes in
    if (length candidateNodes =? 0)%nat then (h, inr ErrNoSubConnAvailable)
    else
      let w := isWriteReq ctx in
      let '(h, totalWeight, sel) := scan w h candidateNodes 0 None in
      match sel with
      | None => (h, inr ErrNoSubConnAvailable)
      | Some s =>
          match h !! s with
          | None => (h, inr ErrNoSubConnAvailable)
          | Some n => (<[s := with_current w n (u32 (current w n - totalWeight))]> h, inl (s, cc n))
          end
      end.

Definition done_node (isWrite : bool) (err : option error) (n : rwWeightServiceNode)
    : rwWeightServiceNode :=
  let isDecrementErr := match err with Some e => ctx_or_eof e | None => false end in
  if isWrite then
    match err with
    | None =>
        let e := u32 (efficientWriteWeight n + 1) in
        with_write n (Z.max e (u32 (writeWeight n * 2))) e
    | Some _ =>
        if isDecrementErr && (1 <? efficientWriteWeight n)
        then with_write n (currentWriteWeight n) (u32 (efficientWriteWeight n - 1)) else n
    end
  else
    match err with
    | None =>
        let e := u32 (efficientReadWeight n + 1) in
        with_read n (Z.max e (u32 (readWeight n * 2))) e
    | Some _ =>
        if isDecrementErr && (1 <? efficientReadWeight n)
        then with_read n (currentReadWeight n) (u32 (efficientReadWeight n - 1)) else n
    end.

Definition Done (s : loc) (isWrite : bool) (err : option error)
    (h : gmap loc rwWeightServiceNode) : gmap loc rwWeightServiceNode :=
  alter (done_node isWrite err) s h.

End rw.
Arguments rwWeightServiceNode : clear implicits.
Arguments builder : clear implicits.
End Rw.

(** ** registry/types.go, resolver/grpc_resolver.go *)

Module Resolver.

Record ServiceInstance := mkInstance {
  Name : string; Addr : string; Group : string; ReadWeight : Z; WriteWeight : Z }.

(** The address of an instance; its weights are Go [int]s. *)
Definition address (i : ServiceInstance) : Address :=
  mkAddress (Addr i) (Name i)
    [(AttrNode, AttrStr (Name i)); (AttrGroup, AttrStr (Group i));
     (AttrWriteWeight, AttrInt (WriteWeight i)); (AttrReadWeight, AttrInt (ReadWeight i))].

Definition Scheme : string := "registry".

(** What one [resolve] reports to the client connection: an error, or a state
    whose update may itself fail. *)
Inductive report := ReportError (e : error) | UpdateState (addrs : list Address).

Definition resolve (ListService : string -> list ServiceInstance + error)
    (update : list Address -> option error) (endpoint : string) : list report :=
  match ListService endpoint with
  | inr err => [ReportError err]
  | inl instances =>
      let addrs := map address instances in
      match update addrs with
      | Some err => [UpdateState addrs; ReportError err]
      | None => [UpdateState addrs]
      end
  end.

End Resolver.

(** ** Properties *)

Section rw_lemmas.
Context {SubConn : Type}.
Implicit Types (b : Rw.builder SubConn) (c : SubConn).

Lemma build_attrs_address i : Rw.build_attrs (Resolver.address i) = None.
Proof. done. Qed.

Lemma Build_loop_resolved b (conns : list (SubConn * Resolver.ServiceInstance)) nodes m :
  Rw.Build_loop b (map (fun e => (e.1, Resolver.address e.2)) conns) nodes m = (b, nodes, m).
Proof. revert b nodes m; induction conns as [|e conns IH]; intros; simpl; [done|]. apply IH. Qed.

End rw_lemmas.

(** The resolver and the weighted balancers do not agree on the attributes:
    the resolver stores Go [int]s, under the read and write weight keys only,
    and the balancers assert [uint32].  The read/write balancer therefore builds
    a picker without nodes from any list of resolved instances, and the others
    see the weight 0. *)
Theorem resolved_weights_ignored {SubConn} (b : Rw.builder SubConn)
    (conns : list (SubConn * Resolver.ServiceInstance))
    (h : gmap Rw.loc (Rw.rwWeightServiceNode SubConn)) ctx :
  let info := map (fun e => (e.1, Resolver.address e.2)) conns in
  (Rw.Build b info).2 = [] /\
  Rw.Pick h (Rw.Build b info).2 ctx = (h, inr ErrNoSubConnAvailable) /\
  (forall e, e ∈ info -> weight_of e = 0).
Proof.
  intros info.
  assert (E : (Rw.Build b info).2 = []) by (unfold Rw.Build, info; by rewrite Build_loop_resolved).
  split; [done|]. split; [by rewrite E|].
  intros e He. apply list_elem_of_In, in_map_iff in He as (x & <- & _). done.
Qed.

(** A hit in the cache with unchanged weights changes the node's group only. *)
Lemma build_node_hit {SubConn} (b : Rw.builder SubConn) c g name l n :
  Rw.nodeCache b !! name = Some l -> Rw.heap b !! l = Some n ->
  Rw.build_node b c (Rw.readWeight n) (Rw.writeWeight n) g name =
  (Rw.mkBuilder (alter (fun n => Rw.with_group n g) l (Rw.heap b)) (Rw.nextLoc b) (Rw.nodeCache b), l).
Proof.
  intros Hc Hl. unfold Rw.build_node. rewrite Hc. simpl. rewrite lookup_alter_eq, Hl. simpl.
  by rewrite !Z.eqb_refl.
Qed.

(** A picker with one node of the request's group picks it. *)
Lemma Pick_single {SubConn} (h : gmap Rw.loc (Rw.rwWeightServiceNode SubConn)) l n ctx :
  h !! l = Some n -> GroupFromContext ctx = (Rw.group n, true) ->
  exists h', Rw.Pick h [l] ctx = (h', inl (l, Rw.cc n)).
Proof.
  intros Hl Hg. unfold Rw.Pick, Rw.candidates. simpl. rewrite Hl, Hg, String.eqb_refl. simpl.
  rewrite Hl, lookup_insert_eq. destruct (Rw.isWriteReq ctx); by eexists.
Qed.

(** A connection that comes back under a cached node name with the same
    weights is not used: [Build] updates the node's group and keeps the
    connection it was created with, so the new picker leads to the connection
    that was replaced. *)
Theorem rw_rebuild_keeps_old_connection {SubConn} (b : Rw.builder SubConn) l n c' a' g' name ctx :
  Rw.nodeCache b !! name = Some l -> Rw.heap b !! l = Some n ->
  Rw.build_attrs a' = Some (Rw.readWeight n, Rw.writeWeight n, g', name) ->
  GroupFromContext ctx = (g', true) ->
  let '(b', nodes') := Rw.Build b [(c', a')] in
  exists h', Rw.Pick (Rw.heap b') nodes' ctx = (h', inl (l, Rw.cc n)).
Proof.
  intros Hc Hl Ha Hg. unfold Rw.Build. simpl. rewrite Ha, (build_node_hit b c' g' name l n) by done.
  simpl. apply (Pick_single _ l (Rw.with_group n g')); [by rewrite lookup_alter_eq, Hl|done].
Qed.

Definition rw_attrs (r w : Z) : Address :=
  mkAddress "10.0.0.1" "" [(AttrReadWeight, AttrU32 r); (AttrWriteWeight, AttrU32 w);
                           (AttrGroup, AttrStr "g"); (AttrNode, AttrStr "n1")].

Lemma rw_rebuild_keeps_old_connection_witness :
  let b := (Rw.Build Rw.NewRwWeightBalancerBuilder [("old"%string, rw_attrs 2 3)]).1 in
  let '(b', nodes') := Rw.Build b [("new"%string, rw_attrs 2 3)] in
  exists h', Rw.Pick (Rw.heap b') nodes' (WithGroup [] "g") = (h', inl (0%nat, "old"%string)).
Proof.
  intros b. apply (rw_rebuild_keeps_old_connection b 0%nat
    (Rw.newRwWeightServiceNode "old"%string 2 3 "g") "new"%string (rw_attrs 2 3) "g" "n1");
    vm_compute; reflexivity.
Defined.
