(* ===== verification/ConsistentHash.v ===== *)
(** * The consistent-hash balancer: consistent_hash_balancer.go

    The picker keeps a ring of hash values and, in parallel, the addresses of
    the virtual nodes they belong to; a key goes to the first virtual node at or
    after its hash, around the ring. *)
From Stdlib Require Import ZArith Lia List Sorted.
From stdpp Require Import prelude strings gmap sorting.
From S2P Require Import Prelude GoLang Errs GoStrings Externals Snowflake Context Balancer.

(** ** [sort.Slice] and [sort.Search] *)

Definition strict_weak {A} (less : A -> A -> bool) : Prop :=
  (forall x, less x x = false) /\
  (forall x y z, less x y = true -> less y z = true -> less x z = true) /\
  (forall x y z, less x y = false -> less y z = false -> less x z = false).

(** [sort.Slice] does not say in which order it leaves elements that compare
    equal: any function that sorts. *)
Class SortSlice := {
  sort_Slice : forall {A}, (A -> A -> bool) -> list A -> list A;
  sort_Slice_perm {A} (less : A -> A -> bool) l : sort_Slice less l ≡ₚ l;
  sort_Slice_sorted {A} (less : A -> A -> bool) l i j x y : strict_weak less ->
    (i < j)%nat -> sort_Slice less l !! i = Some x -> sort_Slice less l !! j = Some y ->
    less y x = false
}.

(** [sort.Search(n, f)]'s loop, with fuel for its halvings. *)
Fixpoint search_loop (fuel : nat) (f : nat -> bool) (i j : nat) : nat :=
  match fuel with
  | O => i
  | S fuel =>
      if (i <? j)%nat then
        let h := Nat.div2 (i + j) in
        if negb (f h) then search_loop fuel f (S h) j else search_loop fuel f i h
      else i
  end.

Definition sort_Search (n : nat) (f : nat -> bool) : nat := search_loop (S n) f 0 n.

Lemma search_loop_spec fuel f i j :
  (j - i < fuel)%nat -> (i <= j)%nat ->
  (forall a b, (a <= b)%nat -> (b < j)%nat -> f a = true -> f b = true) ->
  let r := search_loop fuel f i j in
  (i <= r <= j)%nat /\ ((r < j)%nat -> f r = true) /\ (forall k, (i <= k < r)%nat -> f k = false).
Proof.
  revert i j; induction fuel as [|fuel IH]; intros i j Hfuel Hij Hm; [lia|]. simpl.
  destruct (Nat.ltb_spec i j) as [Hlt|]; [|split_and!; intros; lia].
  pose proof (Nat.div2_odd (i + j)) as Hd. set (h := Nat.div2 (i + j)) in *.
  assert (Hh : (i <= h < j)%nat) by (destruct (Nat.odd (i + j)); simpl in Hd; lia).
  destruct (f h) eqn:E; simpl.
  - destruct (IH i h) as (H1 & H2 & H3); [lia|lia|intros; eapply Hm; [..|done]; lia|].
    split_and!; [lia|lia| |done].
    intros Hr. destruct (decide (search_loop fuel f i h < h)%nat); [by apply H2|].
    by replace (search_loop fuel f i h) with h by lia.
  - destruct (IH (S h) j) as (H1 & H2 & H3); [lia|lia|done|].
    split_and!; [lia|lia|done|].
    intros k Hk. destruct (decide (S h <= k)%nat); [apply H3; lia|].
    destruct (f k) eqn:Ek; [|done]. rewrite (Hm k h) in E; [done|lia|lia|done].
Qed.

(** The binary search finds the first position at which a monotone test holds,
    [n] if there is none. *)
Lemma sort_Search_spec n f :
  (forall a b, (a <= b)%nat -> (b < n)%nat -> f a = true -> f b = true) ->
  (sort_Search n f <= n)%nat /\
  ((sort_Search n f < n)%nat -> f (sort_Search n f) = true) /\
  (forall k, (k < sort_Search n f)%nat -> f k = false).
Proof.
  intros Hm. destruct (search_loop_spec (S n) f 0 n ltac:(lia) ltac:(lia) Hm) as (H1 & H2 & H3).
  fold (sort_Search n f) in *. split_and!; [lia|done|]. intros k Hk. apply H3. lia.
Qed.

(** ** The picker *)

Module CH.
Section ch.
Context {SubConn : Type} `{XXHash} `{SortSlice}.

Record CHBalancerBuilder := mkBuilder { b_virtualNodeCnt : Z }.

Definition VirtualNodeCnt (b : CHBalancerBuilder) (cnt : Z) : CHBalancerBuilder := mkBuilder cnt.

Definition NewCHBalancerBuilder : CHBalancerBuilder := mkBuilder 100.

Record CHBalancer := mkCH {
  ccs : gmap string SubConn; ring : list Z; nodes : list string; virtualNodeCnt : Z }.

Definition hash (src : string) : Z := u32 (Sum64String src).

(** Indexing the two slices through the sorted indices. *)
Definition sortRing (p : CHBalancer) : go CHBalancer :=
  let indices := seq 0 (length (ring p)) in
  let key i := default 0 (ring p !! i) in
  let indices := sort_Slice (fun i j => key i <? key j) indices in
  let! sortedRing := go_mapM (fun index => slice_get (ring p) (Z.of_nat index)) indices in
  let! sortedNodes := go_mapM (fun index => slice_get (nodes p) (Z.of_nat index)) indices in
  Ret (mkCH (ccs p) sortedRing sortedNodes (virtualNodeCnt p)).

(** The virtual nodes of an address, in the order the loop appends them. *)
Definition vhash (addr : string) (i : nat) : Z := hash (addr +:+ "#" +:+ FormatUint (Z.of_nat i)).

Definition addNode (cc : SubConn) (addr : string) (p : CHBalancer) : go CHBalancer :=
  let idx := seq 0 (Z.to_nat (virtualNodeCnt p)) in
  sortRing (mkCH (<[addr := cc]> (ccs p)) (ring p ++ map (vhash addr) idx)
              (nodes p ++ map (fun _ => addr) idx) (virtualNodeCnt p)).

Fixpoint removeNode_loop (addr : string) (ring : list Z) (nodes : list string)
    : list Z * list string :=
  match nodes, ring with
  | node :: nodes, h :: ring =>
      let '(newRing, newNodes) := removeNode_loop addr ring nodes in
      if String.eqb node addr then (newRing, newNodes) else (h :: newRing, node :: newNodes)
  | _, _ => ([], [])
  end.

(** The picker without the virtual nodes of an address. *)
Definition without (addr : string) (p : CHBalancer) : CHBalancer :=
  let '(newRing, newNodes) := removeNode_loop addr (ring p) (nodes p) in
  mkCH (delete addr (ccs p)) newRing newNodes (virtualNodeCnt p).

(** [make] panics on a negative capacity: the code reserves room for the ring
    less the virtual nodes of one address, whether or not the address has any. *)
Definition removeNode (addr : string) (p : CHBalancer) : go CHBalancer :=
  if Z.of_nat (length (ring p)) - virtualNodeCnt p <? 0 then Panic "makeslice: cap out of range"
  else if Z.of_nat (length (nodes p)) - virtualNodeCnt p <? 0 then Panic "makeslice: cap out of range"
  else Ret (without addr p).

Fixpoint Build_loop (info : list (SubConn * Address)) (p : CHBalancer) : go CHBalancer :=
  match info with
  | [] => Ret p
  | (cc, ccInfo) :: info => let! p := addNode cc (Addr ccInfo) p in Build_loop info p
  end.

(** A picker, or the picker that always returns an error. *)
Definition Build (b : CHBalancerBuilder) (info : list (SubConn * Address)) : go (CHBalancer + error) :=
  if (length info =? 0)%nat then Ret (inr ErrNoSubConnAvailable)
  else if b_virtualNodeCnt b <=? 0 then
    Ret (inr (ENew "[jotify] virtual node count must be greater than 0"))
  else let! p := Build_loop info (mkCH ∅ [] [] (b_virtualNodeCnt b)) in Ret (inl p).

Definition getNodeAddr (p : CHBalancer) (hash : Z) : go string :=
  if (length (ring p) =? 0)%nat then Ret ""%string
  else
    let index := sort_Search (length (ring p)) (fun i => hash <=? default 0 (ring p !! i)) in
    let index := if (length (ring p) <=? index)%nat then 0%nat else index in
    slice_get (nodes p) (Z.of_nat index).

Definition hashFromContext (ctx : Context) : Z * option error :=
  match BizIdFromContext ctx with
  | (_, false) => (0, Some (ENew "[jotify] bizId not found in context"))
  | (bizId, true) =>
      match BizKeyFromContext ctx with
      | (_, false) => (0, Some (ENew "[jotify] bizKey not found in context"))
      | (bizKey, true) => (hash (Snowflake.HashKey bizId bizKey), None)
      end
  end.

Definition Pick (p : CHBalancer) (ctx : Context) : go (SubConn + error) :=
  if (size (ccs p) =? 0)%nat then Ret (inr ErrNoSubConnAvailable)
  else
    match hashFromContext ctx with
    | (_, Some err) => Ret (inr err)
    | (hashKey, None) =>
        let! nodeAddr := getNodeAddr p hashKey in
        if String.eqb nodeAddr "" then Ret (inr ErrNoSubConnAvailable)
        else match ccs p !! nodeAddr with
             | Some cc => Ret (inl cc)
             | None => Ret (inr ErrNoSubConnAvailable)
             end
    end.

(** *** The ring as a list of entries *)

Definition entries (p : CHBalancer) : list (Z * string) := zip (ring p) (nodes p).

Definition sorted_entries (es : list (Z * string)) : Prop :=
  forall i j e e', (i < j)%nat -> es !! i = Some e -> es !! j = Some e' -> e.1 <= e'.1.

Record wf (p : CHBalancer) : Prop := {
  wf_len : length (ring p) = length (nodes p);
  wf_sorted : sorted_entries (entries p) }.

Definition vnodes (cnt : nat) (addr : string) : list (Z * string) :=
  map (fun i => (vhash addr i, addr)) (seq 0 cnt).

Lemma zip_map {A B C} (f : A -> B) (g : A -> C) l : zip (map f l) (map g l) = map (fun x => (f x, g x)) l.
Proof. induction l as [|x l IH]; simpl; [done|]. by rewrite IH. Qed.

Lemma map_lookup_seq {A} (d : A) (l : list A) : map (fun i => default d (l !! i)) (seq 0 (length l)) = l.
Proof.
  apply list_eq_same_length with (n := length l); [done|by rewrite length_map, length_seq|].
  intros i x y Hi Hx Hy. change (map ?f ?l) with (f <$> l) in Hx.
  rewrite list_lookup_fmap, lookup_seq_lt in Hx by done. simpl in Hx. rewrite Hy in Hx. by simplify_eq/=.
Qed.

Lemma key_strict_weak {A} (key : A -> Z) : strict_weak (fun i j => key i <? key j).
Proof.
  split_and!.
  - intros x. apply Z.ltb_irrefl.
  - intros x y z. rewrite !Z.ltb_lt. lia.
  - intros x y z. rewrite !Z.ltb_ge. lia.
Qed.

Lemma sortRing_ok p :
  length (ring p) = length (nodes p) ->
  exists p', sortRing p = Ret p' /\ wf p' /\ entries p' ≡ₚ entries p /\
    ccs p' = ccs p /\ virtualNodeCnt p' = virtualNodeCnt p.
Proof.
  intros Hl. unfold sortRing. set (key i := default 0 (ring p !! i)).
  match goal with |- context [sort_Slice ?l _] => set (less := l) end. set (name i := default ""%string (nodes p !! i)).
  pose proof (sort_Slice_perm less (seq 0 (length (ring p)))) as Hp.
  set (idx := sort_Slice less (seq 0 (length (ring p)))) in *.
  assert (Hin : forall i, i ∈ idx -> (i < length (ring p))%nat).
  { intros i Hi. rewrite Hp in Hi. apply elem_of_seq in Hi. lia. }
  assert (Hget : forall {A} (d : A) (l : list A) i, (i < length l)%nat ->
            slice_get l (Z.of_nat i) = Ret (default d (l !! i))).
  { intros A d l i Hi. destruct (lookup_lt_is_Some_2 l i Hi) as [x Hx].
    rewrite Hx. apply slice_get_in; [lia|by rewrite Nat2Z.id]. }
  rewrite (go_mapM_ret _ key) by (intros i Hi; by apply Hget, Hin).
  rewrite (go_mapM_ret _ name) by (intros i Hi; apply Hget; rewrite <- Hl; by apply Hin).
  simpl. eexists. split; [done|].
  assert (He : zip (map key idx) (map name idx) = map (fun i => (key i, name i)) idx) by apply zip_map.
  split; [constructor; unfold entries; simpl|].
  - by rewrite !length_map.
  - rewrite He. intros i j e e' Hij Hi Hj. change (map ?f ?l) with (f <$> l) in Hi, Hj.
    apply list_lookup_fmap_Some in Hi as (a & -> & Ha).
    apply list_lookup_fmap_Some in Hj as (b & -> & Hb). simpl.
    apply Z.ltb_ge. eapply (sort_Slice_sorted less); [apply key_strict_weak|exact Hij|done|done].
  - split; [|done]. unfold entries; simpl. rewrite He, Hp, <- zip_map. unfold key, name.
    rewrite (map_lookup_seq 0). rewrite Hl. by rewrite map_lookup_seq.
Qed.

Lemma addNode_ok cc addr p :
  length (ring p) = length (nodes p) ->
  exists p', addNode cc addr p = Ret p' /\ wf p' /\
    entries p' ≡ₚ entries p ++ vnodes (Z.to_nat (virtualNodeCnt p)) addr /\
    ccs p' = <[addr := cc]> (ccs p) /\ virtualNodeCnt p' = virtualNodeCnt p.
Proof.
  intros Hl. unfold addNode.
  edestruct sortRing_ok as (p' & Hp & Hwf & He & Hc & Hv); [|exists p'; split; [exact Hp|]].
  - simpl. by rewrite !length_app, !length_map, Hl.
  - split; [done|]. split; [|by rewrite Hc, Hv].
    rewrite He. unfold entries; simpl. rewrite zip_with_app by done. unfold vnodes.
    by rewrite zip_map.
Qed.

(** The virtual nodes of all the ready connections. *)
Definition all_vnodes (cnt : nat) (info : list (SubConn * Address)) : list (Z * string) :=
  concat (map (fun e => vnodes cnt (Addr e.2)) info).

Definition ccs_from (info : list (SubConn * Address)) (m : gmap string SubConn) : Prop :=
  (forall a cc, m !! a = Some cc -> exists ad, (cc, ad) ∈ info /\ Addr ad = a) /\
  (forall e, e ∈ info -> is_Some (m !! Addr e.2)).

Lemma Build_loop_ok info p cnt :
  wf p -> virtualNodeCnt p = cnt -> 
  exists p', Build_loop info p = Ret p' /\ wf p' /\
    entries p' ≡ₚ entries p ++ all_vnodes (Z.to_nat cnt) info /\
    (forall before, ccs_from before (ccs p) -> ccs_from (before ++ info) (ccs p')).
Proof.
  revert p; induction info as [|[cc ad] info IH]; intros p Hwf Hv; simpl.
  - exists p. split; [done|]. split; [done|]. unfold all_vnodes; simpl.
    rewrite app_nil_r. split; [done|]. intros before. by rewrite app_nil_r.
  - destruct (addNode_ok cc (Addr ad) p (wf_len _ Hwf)) as (p1 & -> & Hwf1 & He1 & Hc1 & Hv1).
    destruct (IH p1 Hwf1) as (p' & Hp' & Hwf' & He' & Hc'); [congruence|].
    exists p'. simpl. split; [done|]. split; [done|]. split.
    + rewrite He', He1, Hv. unfold all_vnodes; simpl. by rewrite <- app_assoc.
    + intros before [Hb1 Hb2]. rewrite cons_middle, app_assoc. apply Hc'. rewrite Hc1. split.
      * intros a c. rewrite lookup_insert_Some. intros [[<- <-]|[_ Hc]].
        -- exists ad. split; [set_solver|done].
        -- destruct (Hb1 _ _ Hc) as (ad' & Hin & <-). exists ad'. split; [set_solver|done].
      * intros e He. apply elem_of_app in He as [He|He%list_elem_of_singleton].
        -- apply lookup_insert_is_Some. destruct (decide (Addr ad = Addr e.2)); [by left|right; auto].
        -- subst e. simpl. rewrite lookup_insert_eq. eauto.
Qed.

(** *** Lookup *)

(** The first entry at or after [h], else the first of the ring. *)
Definition ring_find (es : list (Z * string)) (h : Z) : option (Z * string) :=
  match List.find (fun e => h <=? e.1) es with Some e => Some e | None => head es end.

Lemma find_first {A} (f : A -> bool) (l : list A) k x :
  l !! k = Some x -> f x = true -> (forall i y, (i < k)%nat -> l !! i = Some y -> f y = false) ->
  List.find f l = Some x.
Proof.
  revert k; induction l as [|a l IH]; intros [|k] Hk Hx Hlt; simplify_eq/=; [by rewrite Hx|].
  rewrite (Hlt 0%nat a) by (lia || done). apply (IH k); [done..|].
  intros i y Hi Hy. apply (Hlt (S i) y); [lia|done].
Qed.

Lemma getNodeAddr_find p h :
  wf p -> entries p <> [] ->
  exists e, ring_find (entries p) h = Some e /\ getNodeAddr p h = Ret e.2.
Proof.
  intros [Hl Hs] Hne. unfold getNodeAddr, ring_find.
  assert (Hlen : length (entries p) = length (ring p)).
  { unfold entries. rewrite length_zip_with. lia. }
  destruct (Nat.eqb_spec (length (ring p)) 0) as [E|Hn0].
  { rewrite E in Hlen. by apply length_zero_iff_nil in Hlen. }
  assert (Hent : forall i, (i < length (ring p))%nat -> exists e, entries p !! i = Some e /\
            default 0 (ring p !! i) = e.1 /\ slice_get (nodes p) (Z.of_nat i) = Ret e.2).
  { intros i Hi. destruct (lookup_lt_is_Some_2 (ring p) i Hi) as [x Hx].
    destruct (lookup_lt_is_Some_2 (nodes p) i) as [a Ha]; [lia|].
    exists (x, a). unfold entries. rewrite lookup_zip_with, Hx, Ha. simpl.
    split_and!; [done..|]. by apply slice_get_in; [lia|rewrite Nat2Z.id]. }
  destruct (sort_Search_spec (length (ring p)) (fun i => h <=? default 0 (ring p !! i))) as (H1 & H2 & H3).
  { intros a b Hab Hb. destruct (Hent a) as (ea & Hea & -> & _); [lia|].
    destruct (Hent b) as (eb & Heb & -> & _); [lia|]. rewrite !Z.leb_le.
    destruct (decide (a = b)) as [->|]; [by simplify_eq|].
    pose proof (Hs a b ea eb ltac:(lia) Hea Heb). lia. }
  set (k := sort_Search _ _) in *.
  destruct (Nat.leb_spec (length (ring p)) k) as [Hk|Hk].
  - destruct (Hent 0%nat) as (e & He & _ & Hget); [lia|]. exists e. split; [|done].
    destruct (List.find _ _) as [e'|] eqn:Ef; [|by rewrite head_lookup].
    exfalso. apply List.find_some in Ef as [Hin Hle]. apply list_elem_of_In, list_elem_of_lookup in Hin as [i Hi].
    pose proof (lookup_lt_Some _ _ _ Hi).
    destruct (Hent i) as (e2 & He2 & Hr & _); [lia|]. rewrite Hi in He2. simplify_eq.
    rewrite <- Hr, H3 in Hle by lia. done.
  - destruct (Hent k Hk) as (e & He & Hr & Hget). exists e. split; [|done].
    rewrite (find_first _ _ k e); [done|done|rewrite <- Hr; by apply H2|].
    intros i y Hi Hy. destruct (Hent i) as (e2 & He2 & Hr2 & _); [lia|].
    rewrite Hy in He2. simplify_eq. rewrite <- Hr2. by apply H3.
Qed.

(** [e] is the virtual node of [es] a key with hash [h] belongs to. *)
Definition successor (es : list (Z * string)) (h : Z) (e : Z * string) : Prop :=
  e ∈ es /\
  ((h <= e.1 /\ forall e', e' ∈ es -> h <= e'.1 -> e.1 <= e'.1) \/
   ((forall e', e' ∈ es -> e'.1 < h) /\ forall e', e' ∈ es -> e.1 <= e'.1)).

#[export] Instance successor_proper : Proper ((≡ₚ) ==> eq ==> eq ==> iff) successor.
Proof. intros es es' E h ? <- e ? <-. unfold successor. by setoid_rewrite E. Qed.

Lemma ring_find_successor es h e :
  sorted_entries es -> ring_find es h = Some e -> successor es h e.
Proof.
  intros Hs. unfold ring_find. destruct (List.find _ _) as [e0|] eqn:Ef; intros Hf; [injection Hf as ->|].
  - assert (Hk : exists k, es !! k = Some e /\ h <= e.1 /\
              forall i y, (i < k)%nat -> es !! i = Some y -> y.1 < h).
    { clear Hs. induction es as [|a es IH]; simpl in Ef; [done|].
      destruct (Z.leb_spec h a.1).
      - simplify_eq. exists 0%nat. split_and!; [done|done|lia].
      - destruct (IH Ef) as (k & Hk & Hle & Hlt). exists (S k). split_and!; [done..|].
        intros [|i] y Hi Hy; simplify_eq/=; [done|]. apply (Hlt i); [lia|done]. }
    destruct Hk as (k & Hk & Hle & Hlt). split; [by eapply list_elem_of_lookup_2|]. left. split; [done|].
    intros e' He' Hle'. apply list_elem_of_lookup in He' as [i Hi].
    destruct (decide (i < k)%nat) as [Hik|]; [pose proof (Hlt _ _ Hik Hi); lia|].
    destruct (decide (i = k)) as [->|]; [by simplify_eq|]. apply (Hs k i); [lia|done..].
  - pose proof (List.find_none _ _ Ef) as Hnone. clear Ef.
    destruct es as [|a es]; simplify_eq/=. split; [set_solver|]. right. split.
    + intros e' He'. apply Z.leb_gt, (Hnone e'). by apply list_elem_of_In in He'.
    + intros e' He'. apply list_elem_of_lookup in He' as [[|i] Hi]; simplify_eq/=; [done|].
      apply (Hs 0%nat (S i)); [lia|done..].
Qed.

(** Without hash collisions a key belongs to one virtual node. *)
Lemma successor_unique es h e e' :
  NoDup (es.*1) -> successor es h e -> successor es h e' -> e = e'.
Proof.
  intros Hnd [He H1] [He' H2].
  assert (Heq : e.1 = e'.1).
  { destruct H1 as [[H1 H1']|[H1 H1']], H2 as [[H2 H2']|[H2 H2']].
    - pose proof (H1' _ He' H2). pose proof (H2' _ He H1). lia.
    - specialize (H2 _ He). lia.
    - specialize (H1 _ He'). lia.
    - pose proof (H1' _ He'). pose proof (H2' _ He). lia. }
  apply list_elem_of_lookup in He as [i Hi]. apply list_elem_of_lookup in He' as [j Hj].
  assert (i = j) as ->.
  { eapply (NoDup_lookup (es.*1)); [done|by rewrite list_lookup_fmap, Hi|].
    rewrite list_lookup_fmap, Hj; simpl. by rewrite Heq. }
  congruence.
Qed.

(** *** Removal *)

Lemma without_entries addr p :
  length (ring p) = length (nodes p) ->
  length (ring (without addr p)) = length (nodes (without addr p)) /\
  entries (without addr p) = List.filter (fun e => negb (String.eqb e.2 addr)) (entries p).
Proof.
  unfold without, entries. destruct p as [m r ns c]; simpl. revert ns.
  induction r as [|h r IH]; intros [|n ns] Hl; simplify_eq/=; [done|].
  destruct (IH ns Hl) as [IH1 IH2]. destruct (removeNode_loop addr r ns) as [r' n']; simpl in *.
  destruct (String.eqb n addr); simpl; [done|]. by rewrite IH1, IH2.
Qed.

Lemma ring_find_filter es h e (p : Z * string -> bool) :
  ring_find es h = Some e -> p e = true -> ring_find (List.filter p es) h = Some e.
Proof.
  unfold ring_find. intros Hf Hp.
  assert (Hfind : forall es e, p e = true -> List.find (fun e => h <=? e.1) es = Some e ->
            List.find (fun e => h <=? e.1) (List.filter p es) = Some e).
  { clear. induction es as [|a es IH]; intros e Hp Hf; simplify_eq/=.
    destruct (h <=? a.1) eqn:E; simplify_eq.
    - rewrite Hp. simpl. by rewrite E.
    - destruct (p a); simpl; rewrite ?E; by apply IH. }
  destruct (List.find _ es) as [e0|] eqn:Ef; simplify_eq.
  - by rewrite (Hfind _ _ Hp Ef).
  - assert (Hnone : List.find (fun e => h <=? e.1) (List.filter p es) = None).
    { destruct (List.find _ (List.filter p es)) eqn:E'; [|done].
      apply List.find_some in E' as [Hin Hle]. apply filter_In in Hin as [Hin _].
      eapply List.find_none in Ef; [|exact Hin]. simpl in *. congruence. }
    rewrite Hnone. destruct es as [|a es]; simplify_eq/=. by rewrite Hp.
Qed.

Lemma sorted_filter es (p : Z * string -> bool) :
  sorted_entries es -> sorted_entries (List.filter p es).
Proof.
  induction es as [|a es IH]; intros Hs; simpl; [done|].
  assert (Hs' : sorted_entries es).
  { intros i j e e' Hij Hi Hj. by apply (Hs (S i) (S j)); [lia|..]. }
  destruct (p a); [|by apply IH].
  intros [|i] [|j] e e' Hij Hi Hj; simplify_eq/=; [lia| |lia|by apply (IH Hs' i j); [lia|..]].
  apply list_elem_of_lookup_2, list_elem_of_In, filter_In in Hj as [Hj _].
  apply list_elem_of_In, list_elem_of_lookup in Hj as [k Hk]. by apply (Hs 0%nat (S k)); [lia|..].
Qed.

(** ** Properties *)

Lemma Build_loop_cnt info p p' : Build_loop info p = Ret p' -> virtualNodeCnt p' = virtualNodeCnt p.
Proof.
  revert p; induction info as [|[cc ad] info IH]; intros p; simpl; [by intros [= ->]|].
  destruct (addNode cc (Addr ad) p) as [q|] eqn:Ea; simpl; [|done]. intros Hb. rewrite (IH _ Hb).
  revert Ea. unfold addNode, sortRing. do 2 (destruct (go_mapM _ _); simpl; [|done]). by intros [= <-].
Qed.

Lemma Build_ok cnt info :
  0 < cnt -> info <> [] ->
  exists p, Build (mkBuilder cnt) info = Ret (inl p) /\ wf p /\
    entries p ≡ₚ all_vnodes (Z.to_nat cnt) info /\ entries p <> [] /\ ccs_from info (ccs p).
Proof.
  intros Hc Hne. unfold Build. destruct info as [|e info]; [done|]. simpl length. cbn [Nat.eqb b_virtualNodeCnt].
  destruct (Z.leb_spec cnt 0); [lia|].
  destruct (Build_loop_ok (e :: info) (mkCH ∅ [] [] cnt) cnt) as (p & Hp & Hwf & He & Hcc).
  { constructor; [done|]. by intros i j x y _. }
  { done. }
  rewrite Hp. exists p. split; [done|]. split; [done|]. split; [exact He|]. split.
  - intros Hnil. rewrite Hnil in He. apply Permutation_nil in He.
    assert (Hz : exists k, Z.to_nat cnt = S k) by (exists (Nat.pred (Z.to_nat cnt)); lia).
    destruct Hz as [k Hk]. simpl in He. rewrite Hk in He. done.
  - apply (Hcc []). split; [|set_solver]. intros a cc. simpl. by rewrite lookup_empty.
Qed.

Lemma vnodes_addr cnt info e :
  e ∈ all_vnodes cnt info -> exists x, x ∈ info /\ e.2 = Addr x.2.
Proof.
  unfold all_vnodes. intros He. apply list_elem_of_In, in_concat in He as (l & Hl & He).
  apply in_map_iff in Hl as (x & <- & Hx). apply in_map_iff in He as (i & <- & _).
  exists x. split; [by apply list_elem_of_In|done].
Qed.

(** C14: a pick of the consistent-hash balancer returns a connection to the node
    that owns the successor of the key's hash: the virtual node with the least
    hash not below it, or the least of all when there is none.  The binary
    search, the sorted index slices and the map of connections never fail. *)
Theorem consistent_hash_successor cnt info ctx key :
  0 < cnt -> info <> [] -> (forall e, e ∈ info -> Addr e.2 <> ""%string) ->
  hashFromContext ctx = (key, None) ->
  exists p e cc ad, Build (mkBuilder cnt) info = Ret (inl p) /\
    successor (all_vnodes (Z.to_nat cnt) info) key e /\
    Pick p ctx = Ret (inl cc) /\ (cc, ad) ∈ info /\ Addr ad = e.2.
Proof.
  intros Hc Hne Haddr Hk. destruct (Build_ok cnt info Hc Hne) as (p & Hp & Hwf & He & Hne' & Hcc1 & Hcc2).
  destruct (getNodeAddr_find p key Hwf Hne') as (e & Hf & Hg).
  apply (ring_find_successor _ _ _ (wf_sorted _ Hwf)) in Hf. rewrite He in Hf.
  destruct (vnodes_addr _ _ e (proj1 Hf)) as (x & Hx & Hex).
  destruct (Hcc2 x Hx) as [cc Hcc]. destruct (Hcc1 _ _ Hcc) as (ad & Hin & Had).
  exists p, e, cc, ad. split_and!; [done|exact Hf| |done|congruence].
  unfold Pick. rewrite Hk.
  destruct (Nat.eqb_spec (size (ccs p)) 0) as [E|_].
  { apply map_size_empty_inv in E. rewrite E in Hcc. done. }
  rewrite Hg. simpl. rewrite Hex, Hcc.
  destruct (String.eqb_spec (Addr x.2) ""); [by apply Haddr in Hx|done].
Qed.

(** Processes that see the ready connections in different orders send a key
    to the same node, unless two virtual nodes have the same hash. *)
Theorem consistent_hash_order_independent cnt info info' p p' h :
  0 < cnt -> info <> [] -> info ≡ₚ info' -> NoDup (all_vnodes (Z.to_nat cnt) info).*1 ->
  Build (mkBuilder cnt) info = Ret (inl p) -> Build (mkBuilder cnt) info' = Ret (inl p') ->
  getNodeAddr p h = getNodeAddr p' h.
Proof.
  intros Hc Hne Hperm Hnd Hp Hp'.
  destruct (Build_ok cnt info Hc Hne) as (q & Hq & Hwf & He & Hne1 & _).
  destruct (Build_ok cnt info' Hc) as (q' & Hq' & Hwf' & He' & Hne1' & _).
  { intros ->. by apply Permutation_nil_r in Hperm. }
  assert (q = p) as -> by congruence. assert (q' = p') as -> by congruence.
  destruct (getNodeAddr_find p h Hwf Hne1) as (e & Hf & ->).
  destruct (getNodeAddr_find p' h Hwf' Hne1') as (e' & Hf' & ->). do 2 f_equal.
  apply (ring_find_successor _ _ _ (wf_sorted _ Hwf)) in Hf. rewrite He in Hf.
  apply (ring_find_successor _ _ _ (wf_sorted _ Hwf')) in Hf'. rewrite He' in Hf'.
  eapply successor_unique; [exact Hnd|exact Hf|].
  assert (Hv : all_vnodes (Z.to_nat cnt) info' ≡ₚ all_vnodes (Z.to_nat cnt) info).
  { unfold all_vnodes. clear -Hperm. induction Hperm; simpl; [done|by f_equiv| |by etrans].
    rewrite !app_assoc. f_equiv. apply Permutation_app_comm. }
  by rewrite Hv in Hf'.
Qed.

(** A removal keeps the ring well formed and moves only the address's keys. *)
Lemma without_ok p addr addr' h :
  wf p -> entries p <> [] -> getNodeAddr p h = Ret addr' -> addr' <> addr ->
  wf (without addr p) /\ getNodeAddr (without addr p) h = Ret addr'.
Proof.
  intros Hwf Hne Hg Ha. destruct (getNodeAddr_find p h Hwf Hne) as (e & Hf & Hg').
  assert (addr' = e.2) as -> by congruence.
  destruct (without_entries addr p (wf_len _ Hwf)) as [Hl He].
  assert (Hwf' : wf (without addr p)).
  { constructor; [done|]. rewrite He. apply sorted_filter, Hwf. }
  split; [done|].
  assert (Hf' : ring_find (entries (without addr p)) h = Some e).
  { rewrite He. apply ring_find_filter; [done|]. by apply negb_true_iff, String.eqb_neq. }
  destruct (getNodeAddr_find (without addr p) h Hwf') as (e2 & Hf2 & ->).
  { intros E. by rewrite E in Hf'. }
  congruence.
Qed.

Lemma removeNode_cases p addr :
  wf p ->
  removeNode addr p = if Z.of_nat (length (ring p)) <? virtualNodeCnt p
                      then Panic "makeslice: cap out of range" else Ret (without addr p).
Proof.
  intros [Hl _]. unfold removeNode. rewrite <- Hl.
  destruct (Z.ltb_spec (Z.of_nat (length (ring p)) - virtualNodeCnt p) 0),
    (Z.ltb_spec (Z.of_nat (length (ring p))) (virtualNodeCnt p)); (done || lia).
Qed.

(** A picker as [Build] makes it holds at least the virtual nodes of one address. *)
Lemma Build_room cnt info p :
  Build (mkBuilder cnt) info = Ret (inl p) ->
  wf p /\ entries p <> [] /\ 0 < cnt /\ virtualNodeCnt p = cnt /\ cnt <= Z.of_nat (length (ring p)).
Proof.
  intros Hb. assert (Hc : 0 < cnt /\ info <> []).
  { unfold Build in Hb. destruct info; [done|]. simpl in Hb.
    destruct (Z.leb_spec cnt 0); [done|]. split; [lia|done]. }
  destruct Hc as [Hc Hne]. destruct (Build_ok cnt info Hc Hne) as (p' & Hp & Hwf & He & Hn & _).
  assert (p' = p) as -> by congruence. split; [done|]. split; [done|]. split; [done|].
  assert (Hv : virtualNodeCnt p = cnt).
  { unfold Build in Hb. destruct info as [|e info]; [done|]. simpl length in Hb. cbn [Nat.eqb b_virtualNodeCnt] in Hb.
    destruct (Z.leb_spec cnt 0); [lia|].
    destruct (Build_loop (e :: info) (mkCH ∅ [] [] cnt)) as [q|] eqn:El; simpl in Hb; [|done].
    assert (q = p) as -> by congruence. by apply Build_loop_cnt in El. }
  split; [done|]. apply Permutation_length in He. revert He. unfold entries.
  rewrite length_zip_with, <- (wf_len _ Hwf), Nat.min_id.
  destruct info as [|e info]; [done|]. unfold all_vnodes. simpl.
  rewrite length_app. unfold vnodes. rewrite length_map, length_seq. lia.
Qed.

(** C35: removing a node from a picker as [Build] makes it moves only the keys of
    that node: the call returns, every key of another node keeps its node, and
    the ring stays well formed.  From a well-formed picker with fewer virtual
    nodes than one address has, such as one emptied by a removal, every removal
    panics. *)
Theorem consistent_hash_remove_stable cnt info p addr :
  Build (mkBuilder cnt) info = Ret (inl p) ->
  exists p', removeNode addr p = Ret p' /\ wf p' /\ virtualNodeCnt p' = cnt /\
    (forall addr' h, getNodeAddr p h = Ret addr' -> addr' <> addr -> getNodeAddr p' h = Ret addr') /\
    (forall h, entries p' <> [] -> getNodeAddr p' h <> Ret addr) /\
    (forall addr', Z.of_nat (length (ring p')) < cnt ->
       removeNode addr' p' = Panic "makeslice: cap out of range").
Proof.
  intros Hb. destruct (Build_room _ _ _ Hb) as (Hwf & Hne & Hc & Hv & Hroom).
  exists (without addr p). destruct (without_entries addr p (wf_len _ Hwf)) as [Hl He].
  assert (Hwf' : wf (without addr p)).
  { constructor; [done|]. rewrite He. apply sorted_filter, Hwf. }
  assert (Hv' : virtualNodeCnt (without addr p) = cnt).
  { unfold without. by destruct (removeNode_loop _ _ _). }
  split_and!; [|done|done|..].
  - rewrite removeNode_cases by done. destruct (Z.ltb_spec (Z.of_nat (length (ring p))) (virtualNodeCnt p)); [lia|done].
  - intros addr' h Hg Ha. by apply without_ok.
  - intros h Hn Hg. destruct (getNodeAddr_find _ h Hwf' Hn) as (e & Hf & Hg').
    apply (ring_find_successor _ _ _ (wf_sorted _ Hwf')) in Hf as [Hin _].
    rewrite He in Hin. apply list_elem_of_In, filter_In in Hin as [_ Hin].
    apply negb_true_iff, String.eqb_neq in Hin. congruence.
  - intros addr' Hlt. rewrite removeNode_cases by done. rewrite Hv'.
    destruct (Z.ltb_spec (Z.of_nat (length (ring (without addr p)))) cnt); [done|lia].
Qed.

End ch.
Arguments CHBalancer : clear implicits.

(** ** A sort to run the model with *)

Section insertion.
Context {A : Type} (less : A -> A -> bool).

Fixpoint insert_sorted (x : A) (l : list A) : list A :=
  match l with
  | [] => [x]
  | y :: l => if less y x then y :: insert_sorted x l else x :: y :: l
  end.

Lemma insert_sorted_perm x l : insert_sorted x l ≡ₚ x :: l.
Proof.
  induction l as [|y l IH]; simpl; [done|]. destruct (less y x); [|done]. rewrite IH. apply Permutation_swap.
Qed.

Definition le_sorted (l : list A) : Prop := StronglySorted (fun x y => less y x = false) l.

Lemma insert_sorted_sorted x l : strict_weak less -> le_sorted l -> le_sorted (insert_sorted x l).
Proof.
  intros (Hirr & Htr & Hntr) Hs. induction Hs as [|y l Hs IH Hy]; simpl; [by repeat constructor|].
  destruct (less y x) eqn:E.
  - constructor; [done|]. rewrite insert_sorted_perm. constructor; [|done].
    destruct (less x y) eqn:E'; [|done]. by rewrite (Htr _ _ _ E E') in Hirr || (pose proof (Htr _ _ _ E E'); rewrite Hirr in *).
  - constructor; [by constructor|]. constructor; [done|].
    eapply Forall_impl; [exact Hy|]. intros z Hz. simpl in *. by eapply Hntr.
Qed.

Definition insertion_sort (l : list A) : list A := foldr insert_sorted [] l.

Lemma insertion_sort_perm l : insertion_sort l ≡ₚ l.
Proof. induction l as [|x l IH]; simpl; [done|]. by rewrite insert_sorted_perm, IH. Qed.

Lemma insertion_sort_sorted l : strict_weak less -> le_sorted (insertion_sort l).
Proof. intros H. induction l; simpl; [constructor|by apply insert_sorted_sorted]. Qed.

Lemma le_sorted_lookup l i j x y :
  le_sorted l -> (i < j)%nat -> l !! i = Some x -> l !! j = Some y -> less y x = false.
Proof.
  intros Hs. revert i j; induction Hs as [|a l Hs IH Ha]; intros [|i] [|j] Hij Hi Hj; simplify_eq/=; try lia.
  - rewrite Forall_lookup in Ha. by eapply Ha.
  - eapply (IH i j); [lia|done..].
Qed.
End insertion.

Definition insertion : SortSlice := {|
  sort_Slice A := @insertion_sort A;
  sort_Slice_perm A := @insertion_sort_perm A;
  sort_Slice_sorted A less l i j x y H := le_sorted_lookup less _ i j x y (insertion_sort_sorted less l H)
|}.

(** Two connections and a request. *)
Definition sample_info : list (string * Address) :=
  [("cc1"%string, mkAddress "10.0.0.1" "" []); ("cc2"%string, mkAddress "10.0.0.2" "" [])].
Definition sample_ctx : Context := WithBizKey (WithBizId [] 7) "order-1".

Lemma consistent_hash_successor_witness :
  exists (p : CHBalancer string) e cc ad,
    @Build string fnv_hash insertion (mkBuilder 3) sample_info = Ret (inl p) /\
    successor (@all_vnodes string fnv_hash 3 sample_info) (@hashFromContext fnv_hash sample_ctx).1 e /\
    @Pick string fnv_hash p sample_ctx = Ret (inl cc) /\ (cc, ad) ∈ sample_info /\ Addr ad = e.2.
Proof.
  apply (@consistent_hash_successor string fnv_hash insertion 3 sample_info sample_ctx).
  - lia.
  - done.
  - intros e He. unfold sample_info in He. repeat (apply elem_of_cons in He as [->|He]; [done|]).
    by apply elem_of_nil in He.
  - vm_compute. reflexivity.
Defined.

Definition sample_picker (info : list (string * Address)) : CHBalancer string :=
  match @Build string fnv_hash insertion (mkBuilder 3) info with
  | Ret (inl p) => p
  | _ => mkCH ∅ [] [] 0
  end.

Lemma consistent_hash_order_independent_witness :
  getNodeAddr (sample_picker sample_info) 12345 = getNodeAddr (sample_picker (reverse sample_info)) 12345.
Proof.
  apply (@consistent_hash_order_independent string fnv_hash insertion 3 sample_info (reverse sample_info)).
  - lia.
  - done.
  - apply Permutation_swap.
  - apply (bool_decide_unpack _). vm_compute. reflexivity.
  - vm_compute. reflexivity.
  - vm_compute. reflexivity.
Defined.

(** Two nodes, one removed. *)
Lemma consistent_hash_remove_stable_witness :
  exists p', removeNode "10.0.0.1" (sample_picker sample_info) = Ret p' /\ wf p' /\ virtualNodeCnt p' = 3 /\
    (forall addr' h, getNodeAddr (sample_picker sample_info) h = Ret addr' -> addr' <> "10.0.0.1"%string ->
       getNodeAddr p' h = Ret addr') /\
    (forall h, entries p' <> [] -> getNodeAddr p' h <> Ret "10.0.0.1"%string) /\
    (forall addr', Z.of_nat (length (ring p')) < 3 ->
       removeNode addr' p' = Panic "makeslice: cap out of range").
Proof.
  apply (@consistent_hash_remove_stable string fnv_hash insertion 3 sample_info). vm_compute. reflexivity.
Defined.

End CH.
