(* ===== verification/Quota.v ===== *)
(** * Quotas: internal/repository/cache and its redis implementation

    Quota counters live in redis, one per business and channel.  [QuotaRedisCache]
    changes them with DECRBY and with three Lua scripts, which redis runs
    atomically; the scripts are part of the repository and are translated with
    the methods that run them.  The network between the program and redis is an
    argument of each call: go-redis sends a command again when no reply comes, and
    gives up in the end, so that a command may run several times, or run and be
    reported as failed. *)
From Stdlib Require Import ZArith Lia List.
From stdpp Require Import prelude strings gmap.
From S2P Require Import Prelude GoLang Errs GoStrings Domain.

(** The commands of redis the program uses on numbers, and what a later GET
    sees.  The results of INCRBY and DECRBY are the values they store. *)
Class RedisKV := {
  store : Type;
  GET : store -> string -> option Z;
  SET : store -> string -> Z -> store;
  INCRBY : store -> string -> Z -> store * Z;
  DECRBY : store -> string -> Z -> store * Z;
  GET_SET s k v k' : GET (SET s k v) k' = if decide (k' = k) then Some v else GET s k';
  GET_INCRBY s k d k' :
    GET (INCRBY s k d).1 k' = if decide (k' = k) then Some (default 0 (GET s k) + d) else GET s k';
  GET_DECRBY s k d k' :
    GET (DECRBY s k d).1 k' = if decide (k' = k) then Some (default 0 (GET s k) - d) else GET s k';
  DECRBY_result s k d : (DECRBY s k d).2 = default 0 (GET s k) - d
}.

(** cache/quota.go *)
Record QuotaParam := mkParam { BizId : Z; Quota : Z; Channel_ : Channel }.

(** What happens to a call: how often the command ran without its reply coming back,
    and the error the call ends with, or none when its last attempt is answered. *)
Record net := mkNet { lost : nat; failed : option error }.

(** The first attempt is answered. *)
Definition reached : net := mkNet 0 None.

(** How often the command of a call runs. *)
Definition runs (w : net) : nat := (lost w + match failed w with None => 1 | Some _ => 0 end)%nat.

Definition on_net {S A} (w : net) (cmd : S -> S * A) (s : S) : S * (A + error) :=
  let s := Nat.iter (lost w) (fun s => fst (cmd s)) s in
  match failed w with
  | Some e => (s, inr e)
  | None => let '(s, a) := cmd s in (s, inl a)
  end.

(** The error of a call whose answer is not looked at. *)
Definition call_err {A} (r : A + error) : option error := match r with inl _ => None | inr e => Some e end.

Module QuotaCache.
Section quota.
Context `{RedisKV}.

(** [fmt.Sprintf("quota:%d:%s", bizId, channel)]. *)
Definition redisKey (bizId : Z) (channel : Channel) : string :=
  "quota:" +:+ FormatUint bizId +:+ ":" +:+ channel.

Definition redisKeysAndArgs (params : list QuotaParam) : list string * list Z :=
  (map (fun p => redisKey (BizId p) (Channel_ p)) params, map Quota params).

(** [tonumber(redis.call('GET', key) or 0)]. *)
Definition number (s : store) (k : string) : Z := default 0 (GET s k).

(** *** The scripts *)

(** lua/quota_incr.lua *)
Definition quota_incr (key : string) (quota : Z) (s : store) : store :=
  let current := number s key in
  if current <? 0 then SET s key quota
  else if 0 <? current then (INCRBY s key quota).1
  else SET s key quota.

(** lua/quota_bach_incr.lua *)
Fixpoint quota_bach_incr (keys : list string) (args : list Z) (s : store) : store :=
  match keys, args with
  | key :: keys, quota :: args =>
      let s := if number s key <? 0 then SET s key quota else (INCRBY s key quota).1 in
      quota_bach_incr keys args s
  | _, _ => s
  end.

(** lua/quota_bach_decr.lua: the check, then the subtraction; the result names
    the first key that has too little. *)
Fixpoint first_insufficient (keys : list string) (args : list Z) (s : store) : option string :=
  match keys, args with
  | key :: keys, threshold :: args =>
      if number s key <? threshold then Some key else first_insufficient keys args s
  | _, _ => None
  end.

Fixpoint decr_all (keys : list string) (args : list Z) (s : store) : store :=
  match keys, args with
  | key :: keys, quota :: args => decr_all keys args (DECRBY s key quota).1
  | _, _ => s
  end.

Definition quota_bach_decr (keys : list string) (args : list Z) (s : store) : store * string :=
  match first_insufficient keys args s with
  | Some key => (s, key)
  | None => (decr_all keys args s, ""%string)
  end.

(** *** The methods *)

Definition Incr (w : net) (param : QuotaParam) (s : store) : store * option error :=
  let '(s, r) := on_net w (fun s => (quota_incr (redisKey (BizId param) (Channel_ param)) (Quota param) s, tt)) s in
  (s, call_err r).

Definition BatchIncr (w : net) (params : list QuotaParam) (s : store) : store * option error :=
  if (length params =? 0)%nat then (s, None)
  else
    let '(keys, args) := redisKeysAndArgs params in
    let '(s, r) := on_net w (fun s => (quota_bach_incr keys args s, tt)) s in
    (s, call_err r).

Definition Decr (w : net) (param : QuotaParam) (s : store) : store * option error :=
  let '(s, r) := on_net w (fun s => DECRBY s (redisKey (BizId param) (Channel_ param)) (Quota param)) s in
  match r with
  | inr err => (s, Some err)
  | inl res => if res <? 0 then (s, Some (ECode ErrInsufficientQuota)) else (s, None)
  end.

Definition BatchDecr (w : net) (params : list QuotaParam) (s : store) : store * option error :=
  if (length params =? 0)%nat then (s, None)
  else
    let '(keys, args) := redisKeysAndArgs params in
    let '(s, r) := on_net w (quota_bach_decr keys args) s in
    match r with
    | inr err => (s, Some err)
    | inl resMsg =>
        if String.eqb resMsg "" then (s, None)
        else (s, Some (ENew ("[jotify] the quota of " +:+ resMsg +:+ " is not enough")))
    end.

(** ** The counter the cache implements

    A counter never shows less than nothing: after a failed [Decr] redis holds a
    negative number, which [Incr] replaces.  [avail] is what is left to use. *)
Definition avail (s : store) (k : string) : Z := Z.max 0 (number s k).

Definition pkey (p : QuotaParam) : string := redisKey (BizId p) (Channel_ p).

Lemma redisKey_inj b c b' c' :
  0 <= b -> 0 <= b' -> redisKey b c = redisKey b' c' -> b = b' /\ c = c'.
Proof.
  intros Hb Hb' E. unfold redisKey in E. apply (inj (String.append "quota:")) in E.
  apply (digits_sep_inj (Ascii.ascii_of_nat 58)) in E as [E ->]; [|done|by apply digits_FormatUint..].
  by apply FormatUint_inj in E.
Qed.

Lemma redisKey_nonempty b c : redisKey b c <> ""%string.
Proof. done. Qed.

Lemma number_SET s k v k' : number (SET s k v) k' = if decide (k' = k) then v else number s k'.
Proof. unfold number. rewrite GET_SET. by destruct (decide (k' = k)). Qed.

Lemma number_INCRBY s k d k' :
  number (INCRBY s k d).1 k' = if decide (k' = k) then number s k + d else number s k'.
Proof. unfold number. rewrite GET_INCRBY. by destruct (decide (k' = k)). Qed.

Lemma number_DECRBY s k d k' :
  number (DECRBY s k d).1 k' = if decide (k' = k) then number s k - d else number s k'.
Proof. unfold number. rewrite GET_DECRBY. by destruct (decide (k' = k)). Qed.

Lemma number_quota_incr k q s k' :
  number (quota_incr k q s) k' = if decide (k' = k) then Z.max 0 (number s k) + q else number s k'.
Proof.
  unfold quota_incr. destruct (Z.ltb_spec (number s k) 0); [|destruct (Z.ltb_spec 0 (number s k))];
    rewrite ?number_SET, ?number_INCRBY; destruct (decide (k' = k)); done || lia.
Qed.

(** [x] unless the call failed. *)
Definition unless (e : option error) (x : Z) : Z := match e with Some _ => 0 | None => x end.

(** What a list of parameters asks of one key. *)
Definition asked (params : list QuotaParam) (k : string) : Z :=
  sumZ (fun p => if decide (pkey p = k) then Quota p else 0) params.

Lemma asked_cons p params k :
  asked (p :: params) k = (if decide (pkey p = k) then Quota p else 0) + asked params k.
Proof. done. Qed.

Lemma avail_bach_incr params s k :
  Forall (fun p => 0 <= Quota p) params ->
  avail (quota_bach_incr (map pkey params) (map Quota params) s) k = avail s k + asked params k.
Proof.
  intros Hq. revert s; induction Hq as [|p params Hp Hq IH]; intros s.
  - unfold asked; simpl. lia.
  - cbn [map quota_bach_incr]. rewrite IH, asked_cons. unfold avail.
    destruct (Z.ltb_spec (number s (pkey p)) 0);
      rewrite ?number_SET, ?number_INCRBY;
      destruct (decide (k = pkey p)) as [->|]; destruct (decide (pkey p = _)); simplify_eq; lia.
Qed.

Lemma first_insufficient_none params s :
  first_insufficient (map pkey params) (map Quota params) s = None <->
  Forall (fun p => Quota p <= number s (pkey p)) params.
Proof.
  induction params as [|p params IH]; simpl; [by split|].
  rewrite Forall_cons, <- IH. destruct (Z.ltb_spec (number s (pkey p)) (Quota p)); [|tauto].
  split; [done|]. intros [? _]. lia.
Qed.

Lemma first_insufficient_some params s k :
  first_insufficient (map pkey params) (map Quota params) s = Some k -> k <> ""%string.
Proof.
  induction params as [|p params IH]; simpl; [done|].
  destruct (_ <? _); [|done]. intros [= <-]. apply redisKey_nonempty.
Qed.

Lemma number_decr_all params s k :
  number (decr_all (map pkey params) (map Quota params) s) k = number s k - asked params k.
Proof.
  revert s; induction params as [|p params IH]; intros s; [unfold asked; simpl; lia|].
  cbn [map decr_all]. rewrite IH, number_DECRBY, asked_cons.
  destruct (decide (k = pkey p)) as [->|]; destruct (decide (pkey p = _)); simplify_eq; lia.
Qed.

(** Distinct keys, as the repository's aggregation provides. *)
Definition params_ok (params : list QuotaParam) : Prop :=
  NoDup (map pkey params) /\ Forall (fun p => 0 <= Quota p) params.

Lemma asked_distinct params p :
  NoDup (map pkey params) -> p ∈ params -> asked params (pkey p) = Quota p.
Proof.
  induction params as [|q params IH]; simpl; intros Hnd Hp; [by apply elem_of_nil in Hp|].
  apply NoDup_cons in Hnd as [Hq Hnd]. rewrite asked_cons.
  assert (Hz : forall k, k ∉ map pkey params -> asked params k = 0).
  { clear. intros k. induction params as [|x params IH]; [done|]. cbn [map]. intros Hk.
    rewrite asked_cons. destruct (decide (pkey x = k)); [set_solver|]. rewrite IH by set_solver. lia. }
  apply elem_of_cons in Hp as [->|Hp].
  - rewrite decide_True by done. rewrite Hz by done. lia.
  - destruct (decide (pkey q = pkey p)) as [E|]; [|rewrite IH by done; lia].
    destruct Hq. rewrite E. apply list_elem_of_In, in_map. by apply list_elem_of_In.
Qed.

Lemma asked_nonneg params k : Forall (fun p => 0 <= Quota p) params -> 0 <= asked params k.
Proof.
  intros Hq. apply sumZ_nonneg. intros p Hp. destruct (decide _); [|lia].
  rewrite Forall_forall in Hq. by apply Hq.
Qed.

Lemma asked_absent params k : k ∉ map pkey params -> asked params k = 0.
Proof.
  induction params as [|x params IH]; [done|]. cbn [map]. intros Hk.
  rewrite asked_cons. destruct (decide (pkey x = k)); [set_solver|]. rewrite IH by set_solver. lia.
Qed.

Lemma keys_args params : redisKeysAndArgs params = (map pkey params, map Quota params).
Proof. done. Qed.

Lemma enough_iff params s :
  params_ok params -> Forall (fun p => 0 < Quota p) params ->
  Forall (fun p => Quota p <= number s (pkey p)) params <-> (forall k, asked params k <= avail s k).
Proof.
  intros [Hnd Hq] Hpos. split.
  - intros Hall k. destruct (decide (k ∈ map pkey params)) as [Hin|Hout].
    + apply list_elem_of_In, in_map_iff in Hin as (p & <- & Hp). apply list_elem_of_In in Hp.
      rewrite asked_distinct by done. rewrite Forall_forall in Hall. specialize (Hall p Hp).
      simpl in Hall. unfold avail. lia.
    + rewrite asked_absent by done. unfold avail. lia.
  - intros Hall. apply Forall_forall. intros p Hp. specialize (Hall (pkey p)).
    rewrite asked_distinct in Hall by done. rewrite Forall_forall in Hpos. specialize (Hpos p Hp).
    simpl in Hpos. unfold avail in Hall. lia.
Qed.

(** *** The effect of each method on what is left *)

(** A command of which every run changes nothing, or takes away. *)
Lemma iter_avail_le {A} (cmd : store -> store * A) n s k :
  (forall s, avail (cmd s).1 k <= avail s k) -> avail (Nat.iter n (fun s => (cmd s).1) s) k <= avail s k.
Proof using Type. intros Hc. induction n as [|n IH]; simpl; [done|]. etrans; [apply Hc|exact IH]. Qed.

Lemma incr_avail p s k : 0 <= Quota p ->
  avail (quota_incr (pkey p) (Quota p) s) k = avail s k + asked [p] k.
Proof using Type.
  intros Hq. unfold avail, asked; simpl. rewrite number_quota_incr.
  destruct (decide (k = pkey p)) as [->|]; destruct (decide (pkey p = _)); simplify_eq; lia.
Qed.

(** Giving back adds what is given as often as the command runs. *)
Lemma Incr_runs w p s : 0 <= Quota p ->
  forall k, avail (Incr w p s).1 k = avail s k + Z.of_nat (runs w) * asked [p] k.
Proof using Type.
  intros Hq k. unfold Incr, on_net, runs. fold (pkey p).
  assert (Hit : avail (Nat.iter (lost w) (fun s => quota_incr (pkey p) (Quota p) s) s) k =
                avail s k + Z.of_nat (lost w) * asked [p] k).
  { induction (lost w) as [|n IH]; simpl; [lia|]. rewrite incr_avail, IH by done. lia. }
  cbn [fst]. destruct (failed w); simpl; [rewrite Hit; lia|]. rewrite incr_avail, Hit by done. lia.
Qed.

Lemma Incr_avail p s : 0 <= Quota p ->
  forall k, avail (Incr reached p s).1 k = avail s k + asked [p] k.
Proof using Type. intros Hq k. rewrite Incr_runs by done. change (Z.of_nat (runs reached)) with 1. lia. Qed.

Lemma number_take p s k :
  number (DECRBY s (pkey p) (Quota p)).1 k = number s k - (if decide (pkey p = k) then Quota p else 0).
Proof using Type. rewrite number_DECRBY. destruct (decide (k = pkey p)) as [->|], (decide (pkey p = _)); simplify_eq; lia. Qed.

(** Taking never adds, however often the command runs. *)
Lemma Decr_le w p s k : 0 <= Quota p -> avail (Decr w p s).1 k <= avail s k.
Proof using Type.
  intros Hq. unfold Decr, on_net. fold (pkey p).
  assert (Hc : forall s, avail (DECRBY s (pkey p) (Quota p)).1 k <= avail s k).
  { intros s1. unfold avail. rewrite number_take. destruct (decide _); lia. }
  pose proof (iter_avail_le _ (lost w) s k Hc) as Hi. set (s1 := Nat.iter _ _ _) in *.
  destruct (failed w); simpl; [done|]. specialize (Hc s1). destruct (DECRBY s1 _ _) as [s2 res]. simpl in *.
  destruct (res <? 0); simpl; lia.
Qed.

(** A call that is answered with success took what it asked for, in its last run. *)
Lemma Decr_ok w p s k : 0 < Quota p ->
  (Decr w p s).2 = None -> avail (Decr w p s).1 k + asked [p] k <= avail s k.
Proof using Type.
  intros Hq. unfold Decr, on_net. fold (pkey p).
  assert (Hc : forall s, avail (DECRBY s (pkey p) (Quota p)).1 k <= avail s k).
  { intros s1. unfold avail. rewrite number_take. destruct (decide _); lia. }
  pose proof (iter_avail_le _ (lost w) s k Hc) as Hi. set (s1 := Nat.iter _ _ _) in *.
  destruct (failed w); [done|]. pose proof (DECRBY_result s1 (pkey p) (Quota p)) as Hr.
  pose proof (number_take p s1 k) as Hn. destruct (DECRBY s1 _ _) as [s2 res]. fold (number s1 (pkey p)) in Hr. simpl in *.
  destruct (Z.ltb_spec res 0); [done|]. intros _. unfold asked; simpl. unfold avail in *. rewrite Hn.
  destruct (decide (pkey p = k)) as [<-|]; lia.
Qed.

(** Taking [Quota p] succeeds when that much is left; otherwise redis is left with a
    negative number, and nothing is left of what there was. *)
Lemma Decr_any p s : 0 < Quota p ->
  ((Decr reached p s).2 = None <-> Quota p <= avail s (pkey p)) /\
  ((Decr reached p s).2 = None \/ (Decr reached p s).2 = Some (ECode ErrInsufficientQuota)) /\
  (forall k, avail (Decr reached p s).1 k =
     match (Decr reached p s).2 with
     | None => avail s k - asked [p] k
     | Some _ => if decide (pkey p = k) then 0 else avail s k
     end).
Proof using Type.
  intros Hq. unfold Decr, on_net. simpl Nat.iter. cbn [failed reached]. fold (pkey p).
  pose proof (DECRBY_result s (pkey p) (Quota p)) as Hr. pose proof (number_take p s) as Hn.
  destruct (DECRBY s (pkey p) (Quota p)) as [s' res]. fold (number s (pkey p)) in Hr. simpl in *.
  destruct (Z.ltb_spec res 0); simpl; (split; [unfold avail; split; [done || lia|done || lia]|]);
    (split; [by (left + right)|]); intros k; unfold avail, asked; simpl; rewrite Hn;
    destruct (decide (pkey p = k)) as [<-|]; lia.
Qed.

Lemma Decr_avail p s : Quota p = 1 ->
  (forall k, avail (Decr reached p s).1 k =
     avail s k - unless (Decr reached p s).2 (asked [p] k)) /\
  ((Decr reached p s).2 = None <-> 1 <= avail s (pkey p)).
Proof using Type.
  intros Hq. destruct (Decr_any p s) as (Hok & _ & Ha); [lia|]. rewrite Hq in Hok. split; [|done].
  intros k. rewrite Ha. destruct (Decr reached p s).2 eqn:E; simpl; [|done].
  destruct (decide (pkey p = k)) as [<-|]; [|lia].
  assert (~ 1 <= avail s (pkey p)) by (by rewrite <- Hok). unfold avail in *. lia.
Qed.

Lemma BatchIncr_runs w params s k : Forall (fun p => 0 <= Quota p) params ->
  avail (BatchIncr w params s).1 k = avail s k + Z.of_nat (runs w) * asked params k.
Proof using Type.
  intros Hq. unfold BatchIncr. destruct params as [|p params]; [simpl; unfold asked; simpl; lia|].
  rewrite keys_args. cbn [length Nat.eqb]. set (ps := p :: params) in *. unfold on_net, runs.
  assert (Hit : avail (Nat.iter (lost w) (fun s => quota_bach_incr (map pkey ps) (map Quota ps) s) s) k =
                avail s k + Z.of_nat (lost w) * asked ps k).
  { induction (lost w) as [|n IH]; rewrite ?Nat.iter_succ; cbn beta; [simpl; lia|]. rewrite (avail_bach_incr ps _ k Hq), IH. lia. }
  cbn [fst]. destruct (failed w); cbn [fst]; [rewrite Hit; lia|]. rewrite (avail_bach_incr ps _ k Hq), Hit. lia.
Qed.

(** One run of the script takes everything or nothing. *)
Lemma bach_decr_run params s k :
  Forall (fun p => 0 <= Quota p) params ->
  avail (quota_bach_decr (map pkey params) (map Quota params) s).1 k <= avail s k /\
  (params_ok params -> Forall (fun p => 0 < Quota p) params ->
   (quota_bach_decr (map pkey params) (map Quota params) s).2 = ""%string ->
   avail (quota_bach_decr (map pkey params) (map Quota params) s).1 k + asked params k <= avail s k).
Proof using Type.
  intros Hq. unfold quota_bach_decr.
  destruct (first_insufficient _ _ s) as [key|] eqn:E; cbn [fst snd].
  - apply first_insufficient_some in E. split; [done|]. by intros _ _ ->.
  - pose proof (asked_nonneg params k Hq). unfold avail. rewrite number_decr_all. split; [lia|].
    intros Hok Hpos _. apply first_insufficient_none in E.
    pose proof (proj1 (enough_iff params s Hok Hpos) E k) as Ek. unfold avail in Ek. lia.
Qed.

Lemma BatchDecr_le w params s k : Forall (fun p => 0 <= Quota p) params ->
  avail (BatchDecr w params s).1 k <= avail s k.
Proof using Type.
  intros Hq. unfold BatchDecr. destruct params as [|p params]; [done|].
  rewrite keys_args. cbn [length Nat.eqb]. set (ps := p :: params) in *. unfold on_net.
  pose proof (fun s => proj1 (bach_decr_run ps s k Hq)) as Hc.
  pose proof (iter_avail_le _ (lost w) s k Hc) as Hi. set (s1 := Nat.iter _ _ _) in *.
  destruct (failed w); cbn [fst]; [done|]. specialize (Hc s1).
  destruct (quota_bach_decr _ _ s1) as [s2 msg]. cbn [fst] in *. destruct (String.eqb msg ""); cbn [fst]; lia.
Qed.

Lemma BatchDecr_ok w params s k : params_ok params -> Forall (fun p => 0 < Quota p) params ->
  (BatchDecr w params s).2 = None -> avail (BatchDecr w params s).1 k + asked params k <= avail s k.
Proof using Type.
  intros Hok Hpos. pose proof (proj2 Hok) as Hq. unfold BatchDecr.
  destruct params as [|p params]; [intros _; unfold asked; simpl; lia|].
  rewrite keys_args. cbn [length Nat.eqb]. set (ps := p :: params) in *. unfold on_net.
  pose proof (fun s => proj1 (bach_decr_run ps s k Hq)) as Hc.
  pose proof (iter_avail_le _ (lost w) s k Hc) as Hi. set (s1 := Nat.iter _ _ _) in *.
  destruct (failed w); [done|]. pose proof (proj2 (bach_decr_run ps s1 k Hq) Hok Hpos) as Ht.
  destruct (quota_bach_decr _ _ s1) as [s2 msg]. cbn [fst snd] in *.
  destruct (String.eqb_spec msg ""); [|done]. intros _. specialize (Ht ltac:(done)). cbn [fst]. lia.
Qed.

Lemma BatchIncr_avail params s k : Forall (fun p => 0 <= Quota p) params ->
  avail (BatchIncr reached params s).1 k = avail s k + asked params k.
Proof.
  intros Hq. unfold BatchIncr. destruct params as [|p params].
  - simpl. unfold asked; simpl. lia.
  - rewrite keys_args. by apply (avail_bach_incr (p :: params)).
Qed.

Lemma BatchDecr_avail params s :
  params_ok params -> Forall (fun p => 0 < Quota p) params ->
  (forall k, avail (BatchDecr reached params s).1 k =
     avail s k - unless (BatchDecr reached params s).2 (asked params k)) /\
  ((BatchDecr reached params s).2 = None <-> forall k, asked params k <= avail s k).
Proof.
  intros Hok Hpos. rewrite <- enough_iff by done. rewrite <- first_insufficient_none.
  unfold BatchDecr. destruct params as [|p params].
  { simpl. unfold asked; simpl. split; [intros; lia|done]. }
  rewrite keys_args. cbn [length Nat.eqb]. unfold on_net. simpl Nat.iter. cbn [failed reached].
  set (ps := p :: params) in *. unfold quota_bach_decr.
  destruct (first_insufficient (map pkey ps) (map Quota ps) s) as [key|] eqn:E.
  - apply first_insufficient_some in E. apply String.eqb_neq in E. rewrite E. cbn [fst snd unless].
    split; [intros; lia|done].
  - cbn [fst snd unless]. rewrite String.eqb_refl. cbn [fst snd unless]. split; [|done].
    intros k. apply first_insufficient_none in E.
    pose proof (proj1 (enough_iff ps s Hok Hpos) E k) as Ek.
    unfold avail in *. rewrite number_decr_all.
    pose proof (asked_nonneg ps k (proj2 Hok)). lia.
Qed.

(** ** Properties *)

(** C10: the quota cache implements a counter per key that never goes below zero, when
    redis answers.  Taking [Quota p] units succeeds exactly when that many are left;
    a refusal leaves the other keys alone but nothing on its own, which is no loss for
    one unit, all the program ever takes this way; giving back adds what is given,
    whatever number redis was left with; taking a batch, of distinct keys, succeeds
    exactly when every key has enough, and is all or nothing. *)
Theorem quota_refines_counter p params s :
  0 < Quota p -> params_ok params -> Forall (fun p => 0 < Quota p) params ->
  (forall k, avail s k >= 0) /\
  ((Decr reached p s).2 = None <-> Quota p <= avail s (pkey p)) /\
  (forall k, avail (Decr reached p s).1 k =
     match (Decr reached p s).2 with
     | None => avail s k - asked [p] k
     | Some _ => if decide (pkey p = k) then 0 else avail s k
     end) /\
  (forall k, avail (Incr reached p s).1 k = avail s k + asked [p] k) /\
  ((BatchDecr reached params s).2 = None <-> forall k, asked params k <= avail s k) /\
  (forall k, avail (BatchDecr reached params s).1 k =
     avail s k - unless (BatchDecr reached params s).2 (asked params k)) /\
  (forall k, avail (BatchIncr reached params s).1 k = avail s k + asked params k).
Proof.
  intros Hp Hok Hpos.
  destruct (Decr_any p s Hp) as (Hd1 & _ & Hd2). destruct (BatchDecr_avail params s Hok Hpos) as [Hb1 Hb2].
  split; [intros k; unfold avail; lia|]. split; [done|]. split; [done|].
  split; [intros k; apply Incr_avail; lia|]. split; [done|]. split; [done|].
  intros k. apply BatchIncr_avail. apply Hok.
Qed.

End quota.

(** A redis that keeps its numbers in a map. *)
#[global] Program Instance map_redis : RedisKV := {|
  store := gmap string Z;
  GET s k := s !! k;
  SET s k v := <[k := v]> s;
  INCRBY s k d := let v := default 0 (s !! k) + d in (<[k := v]> s, v);
  DECRBY s k d := let v := default 0 (s !! k) - d in (<[k := v]> s, v)
|}.
Next Obligation. intros s k v k'. simpl. destruct (decide _) as [->|]; by simplify_map_eq. Qed.
Next Obligation. intros s k v k'. simpl. destruct (decide _) as [->|]; by simplify_map_eq. Qed.
Next Obligation. intros s k v k'. simpl. destruct (decide _) as [->|]; by simplify_map_eq. Qed.
Next Obligation. done. Qed.

Definition sample_params : list QuotaParam := [mkParam 7 2 ChannelSMS; mkParam 7 1 ChannelEmail].
Definition sample_map : gmap string Z :=
  {[ redisKey 7 ChannelSMS := 2; redisKey 7 ChannelEmail := 1 ]}.
Definition sample_store : @store map_redis := sample_map.

Lemma sample_params_ok : params_ok sample_params.
Proof. split; [|by repeat constructor]. apply (bool_decide_unpack _). by vm_compute. Qed.

Lemma quota_refines_counter_witness :
  avail (Decr reached (mkParam 7 1 ChannelSMS) sample_store).1 (redisKey 7 ChannelSMS) = 1 /\
  (BatchDecr reached sample_params sample_store).2 = None.
Proof.
  destruct (quota_refines_counter (mkParam 7 1 ChannelSMS) sample_params sample_store) as (_ & _ & H & _ & H' & _).
  - reflexivity.
  - apply sample_params_ok.
  - by repeat constructor.
  - split; [rewrite H; by vm_compute|by vm_compute].
Defined.

(** Taking more than one unit at a time with [Decr] loses what was left: the
    program only ever takes one. *)
Definition one_left : gmap string Z := {[ redisKey 7 ChannelSMS := 1 ]}.

Lemma Decr_two_loses :
  let r := @Decr map_redis reached (mkParam 7 2 ChannelSMS) one_left in
  r.2 = Some (ECode ErrInsufficientQuota) /\ avail r.1 (redisKey 7 ChannelSMS) = 0.
Proof. by vm_compute. Qed.

End QuotaCache.
