(* ===== verification/Json.v ===== *)
(** * Text columns: encoding/json on receivers and template parameters

    The program stores a notification's receivers and parameters as JSON text, and
    reads them back into variables that start out nil, ignoring the error: a text
    that is no JSON leaves the variable nil, and an element of another kind leaves an
    empty string ([MarshalReceivers] and [MarshalTemplateParams] of
    internal/domain/notification.go; the reads in internal/repository).  The text of
    a nil slice or map is null, which reads back as the text of an empty one does.
    [JsonColumn] is internal/pkg/xsql/json.go. *)
From Stdlib Require Import ZArith Lia List Ascii.
From stdpp Require Import prelude strings gmap sorting.
From S2P Require Import Prelude GoLang Errs GoStrings GoJson GoCodec.

(** ** Lists of strings *)

Definition MarshalList (l : list string) : string := print (to_json l).

(** The element of a slice of strings, or the value of a map, that [j] leaves. *)
Definition string_of (j : json) : string := match j with JStr s => s | _ => "" end.

Definition UnmarshalList (s : string) : list string :=
  match parse s with Some (JArr l) => map string_of l | _ => [] end.

Lemma Unmarshal_MarshalList l : Forall utf8 l -> UnmarshalList (MarshalList l) = l.
Proof.
  intros Hl. unfold UnmarshalList, MarshalList. rewrite parse_print.
  - simpl. rewrite map_map. apply map_id.
  - apply (to_json_wf (A := list string)). done.
Qed.

(** ** Maps of strings: the keys are written in order *)

Definition key_le (e e' : string * string) : Prop := String.leb e.1 e'.1 = true.

#[global] Instance key_le_dec : RelDecision key_le.
Proof. intros e e'. unfold key_le. apply _. Defined.

Definition MarshalMap (m : gmap string string) : string :=
  print (JObj (map (fun e => (e.1, JStr e.2)) (merge_sort key_le (map_to_list m)))).

(** Of two values of one key the last counts. *)
Definition UnmarshalMap (s : string) : gmap string string :=
  match parse s with
  | Some (JObj kvs) => foldl (fun m e => <[e.1 := string_of e.2]> m) ∅ kvs
  | _ => ∅
  end.

Lemma foldl_insert_list_to_map (es : list (string * string)) (m0 : gmap string string) :
  NoDup es.*1 -> (forall e, e ∈ es -> m0 !! e.1 = None) ->
  foldl (fun m e => <[e.1 := string_of e.2]> m) m0 (map (fun e => (e.1, JStr e.2)) es) = list_to_map es ∪ m0.
Proof.
  revert m0; induction es as [|[k v] es IH]; intros m0 Hnd Hm; simpl; [by rewrite map_empty_union|].
  apply NoDup_cons in Hnd as [Hk Hnd]. rewrite IH; [|done|].
  - rewrite <- insert_union_l, <- insert_union_r; [done|]. by apply not_elem_of_list_to_map_1.
  - intros [k' v'] Hin. simpl. rewrite lookup_insert_ne.
    + apply (Hm (k', v')). by right.
    + intros <-. apply Hk. apply list_elem_of_fmap. by exists (k, v').
Qed.

Lemma Unmarshal_MarshalMap m :
  map_Forall (fun k v => utf8 k /\ utf8 v) m -> UnmarshalMap (MarshalMap m) = m.
Proof.
  intros Hm. unfold UnmarshalMap, MarshalMap.
  pose proof (merge_sort_Permutation key_le (map_to_list m)) as Hp.
  assert (Hall : forall e, e ∈ merge_sort key_le (map_to_list m) -> utf8 e.1 /\ utf8 e.2).
  { intros [k v]. rewrite Hp, elem_of_map_to_list. apply Hm. }
  assert (Hnd : NoDup (merge_sort key_le (map_to_list m)).*1) by (rewrite Hp; apply NoDup_fst_map_to_list).
  rewrite parse_print.
  - rewrite foldl_insert_list_to_map; [|done|intros e _; apply lookup_empty].
    rewrite map_union_empty, (list_to_map_proper _ _ Hnd Hp). apply list_to_map_to_list.
  - constructor; intros e (e' & -> & He)%list_elem_of_fmap; simpl; [|apply wf_str]; by apply Hall.
Qed.

Example maps_sorted :
  MarshalMap {[ "name"%string := "a<b"%string; "code"%string := "123"%string ]} =
  print (JObj [("code"%string, JStr "123"); ("name"%string, JStr "a<b")]) /\
  UnmarshalList "null" = [] /\ UnmarshalList "[1, null]" = [""; ""]%string.
Proof. vm_compute. by split_and!. Qed.

(** ** xsql/json.go *)

(** What a column holds on the wire: the values [Scan] is given. *)
Inductive driver_value := DNil | DBytes (s : string) | DString (s : string) | DOther.

Record JsonColumn (T : Type) := mkColumn { Val : T; Valid : bool }.
Arguments mkColumn {T}.
Arguments Val {T}.
Arguments Valid {T}.

Section column.
Context `{JsonCodec T}.

Definition Value (j : JsonColumn T) : driver_value * option error :=
  if negb (Valid j) then (DNil, None)
  else match Marshal (Val j) with
       | inl res => (DBytes res, None)
       | inr err => (DBytes "", Some err)
       end.

(** [json.Unmarshal] writes into the value the column has; what a failed one
    leaves there is not modelled (the program drops the value with the error). *)
Definition Scan (src : driver_value) (j : JsonColumn T) : JsonColumn T * option error :=
  let scan bs :=
    match Unmarshal bs (Val j) with
    | inl v => (mkColumn v true, None)
    | inr err => (j, Some err)
    end in
  match src with
  | DNil => (j, None)
  | DBytes bs => scan bs
  | DString val => scan val
  | DOther => (j, Some (ENew "[jotify] unsupported type"))
  end.

(** A valid column survives the trip to the database; an invalid one leaves the
    variable it is read into as it is. *)
Lemma Scan_Value {ok} `{!JsonLaws T ok} (j j0 : JsonColumn T) v :
  ok (Val j) -> Value j = (v, None) -> Scan v j0 = if Valid j then (j, None) else (j0, None).
Proof.
  intros Hx. unfold Value. destruct j as [x []]; simpl; [|by intros [= <-]].
  intros [= <-]. simpl. by rewrite (Unmarshal_Marshal x (Val j0) _ Hx eq_refl).
Qed.
End column.
