(* ===== verification/Dao.v ===== *)
(** * The sharded data access object: internal/repository/dao

    notification.go (NotifShardingDAO) and types.go.  The database is gorm over
    the MySQL shards: a class that says what a statement does to the rows a
    later read sees.  [cluster] is the state of all shards; a table is named by
    its database and its table name. *)
From Stdlib Require Import ZArith Lia List.
From stdpp Require Import prelude strings gmap.
From S2P Require Import Prelude GoLang Errs GoStrings Externals Snowflake Sharding Domain.

(** ** Entities *)

Module Entity.

Record Notification := mkNotif {
  Id : Z; BizId : Z; BizKey : string; Receivers : string; Channel_ : string;
  TplId : Z; TplVersionId : Z; TplParams : string; Status : string;
  ScheduleStrat : Z; ScheduleEnd : Z; Version : Z; CreatedAt : Z; UpdatedAt : Z }.

Record CallbackLog := mkCb {
  NotificationId : Z; RetriedTimes : Z; NextRetryAt : Z; cb_Status : string;
  cb_CreatedAt : Z; cb_UpdatedAt : Z }.

Definition zero : Notification := mkNotif 0 0 "" "" "" 0 0 "" "" 0 0 0 0 0.

Definition with_Id (n : Notification) (i : Z) : Notification :=
  mkNotif i (BizId n) (BizKey n) (Receivers n) (Channel_ n) (TplId n) (TplVersionId n)
    (TplParams n) (Status n) (ScheduleStrat n) (ScheduleEnd n) (Version n) (CreatedAt n) (UpdatedAt n).

(** [n.CreatedAt, n.UpdatedAt, n.Version = now, now, 1] *)
Definition stamp (n : Notification) (now : Z) : Notification :=
  mkNotif (Id n) (BizId n) (BizKey n) (Receivers n) (Channel_ n) (TplId n) (TplVersionId n)
    (TplParams n) (Status n) (ScheduleStrat n) (ScheduleEnd n) 1 now now.

(** A row whose time of update is another. *)
Definition touched (n : Notification) (updated : Z) : Notification :=
  mkNotif (Id n) (BizId n) (BizKey n) (Receivers n) (Channel_ n) (TplId n) (TplVersionId n)
    (TplParams n) (Status n) (ScheduleStrat n) (ScheduleEnd n) (Version n) (CreatedAt n) updated.

Definition cb_touched (c : CallbackLog) (updated : Z) : CallbackLog :=
  mkCb (NotificationId c) (RetriedTimes c) (NextRetryAt c) (cb_Status c) (cb_CreatedAt c) updated.

(** A row with another status, the next version, and another time of update. *)
Definition with_status (n : Notification) (status : string) (updated : Z) : Notification :=
  mkNotif (Id n) (BizId n) (BizKey n) (Receivers n) (Channel_ n) (TplId n) (TplVersionId n)
    (TplParams n) status (ScheduleStrat n) (ScheduleEnd n) (i32 (Version n + 1)) (CreatedAt n) updated.

Definition cb_with_status (c : CallbackLog) (status : string) (updated : Z) : CallbackLog :=
  mkCb (NotificationId c) (RetriedTimes c) (NextRetryAt c) status (cb_CreatedAt c) updated.

End Entity.

(** ** Updates

    An update assigns to columns by their names in the database.  The status, the
    version and the time of update of a row are those the program's updates name;
    gorm calls the last one [updated_at], after the field, and sets it itself when an
    update leaves it out. *)
Inductive value := VString (s : string) | VInt (z : Z) | VNext.

Definition sets := list (string * value).

Definition assign (n : Entity.Notification) (a : string * value) : Entity.Notification :=
  match a with
  | ("status"%string, VString st) =>
      Entity.mkNotif (Entity.Id n) (Entity.BizId n) (Entity.BizKey n) (Entity.Receivers n) (Entity.Channel_ n)
        (Entity.TplId n) (Entity.TplVersionId n) (Entity.TplParams n) st (Entity.ScheduleStrat n)
        (Entity.ScheduleEnd n) (Entity.Version n) (Entity.CreatedAt n) (Entity.UpdatedAt n)
  | ("version"%string, VNext) =>
      Entity.mkNotif (Entity.Id n) (Entity.BizId n) (Entity.BizKey n) (Entity.Receivers n) (Entity.Channel_ n)
        (Entity.TplId n) (Entity.TplVersionId n) (Entity.TplParams n) (Entity.Status n) (Entity.ScheduleStrat n)
        (Entity.ScheduleEnd n) (i32 (Entity.Version n + 1)) (Entity.CreatedAt n) (Entity.UpdatedAt n)
  | ("updated_at"%string, VInt t) => Entity.touched n t
  | _ => n
  end.

Definition cb_assign (c : Entity.CallbackLog) (a : string * value) : Entity.CallbackLog :=
  match a with
  | ("status"%string, VString st) =>
      Entity.mkCb (Entity.NotificationId c) (Entity.RetriedTimes c) (Entity.NextRetryAt c) st
        (Entity.cb_CreatedAt c) (Entity.cb_UpdatedAt c)
  | ("updated_at"%string, VInt t) => Entity.cb_touched c t
  | _ => c
  end.

Definition assigns (n : Entity.Notification) (ss : sets) : Entity.Notification := foldl assign n ss.
Definition cb_assigns (c : Entity.CallbackLog) (ss : sets) : Entity.CallbackLog := foldl cb_assign c ss.

(** The columns gorm gives the two entities. *)
Definition entity_columns : list string :=
  ["id"; "biz_id"; "biz_key"; "receivers"; "channel"; "tpl_id"; "tpl_version_id"; "tpl_params"; "status";
   "schedule_strat"; "schedule_end"; "version"; "created_at"; "updated_at";
   "notification_id"; "retried_times"; "next_retry_at"]%string.

(** ** gorm *)

Definition ErrRecordNotFound : sentinel := SExtern gorm_ErrRecordNotFound.
Definition ErrDuplicatedKey : sentinel := SExtern gorm_ErrDuplicatedKey.

(** An insertion into a table, as a dry-run [Create] writes it down. *)
Inductive insertion :=
  | InsN (table : string) (n : Entity.Notification)
  | InsC (table : string) (c : Entity.CallbackLog).

Section rows.
Context {S : Type} (notifs : S -> string -> string -> Z -> option Entity.Notification)
  (cblogs : S -> string -> string -> Z -> option Entity.CallbackLog) (d : string).

(** What an insertion into the database [d] does: the row is new, and no other row
    changes. *)
Definition inserts (s : S) (i : insertion) (s' : S) : Prop :=
  match i with
  | InsN t n =>
      notifs s d t (Entity.Id n) = None /\ notifs s' d t (Entity.Id n) = Some n /\
      (forall d' t' i, (d', t', i) <> (d, t, Entity.Id n) -> notifs s' d' t' i = notifs s d' t' i) /\
      cblogs s' = cblogs s
  | InsC t c =>
      cblogs s d t (Entity.NotificationId c) = None /\ cblogs s' d t (Entity.NotificationId c) = Some c /\
      (forall d' t' i, (d', t', i) <> (d, t, Entity.NotificationId c) -> cblogs s' d' t' i = cblogs s d' t' i) /\
      notifs s' = notifs s
  end.

Inductive inserts_all : S -> list insertion -> S -> Prop :=
  | inserts_nil s : inserts_all s [] s
  | inserts_cons s i s1 ins s' : inserts s i s1 -> inserts_all s1 ins s' -> inserts_all s (i :: ins) s'.
End rows.

(** [notifs s db table] and [cblogs s db table] are the rows by id.  A statement
    that fails changes nothing, but [Exec] may be given several, and stops at the
    one that fails; errors of the database are not errors of internal/errs. *)
Class Gorm := {
  cluster : Type;
  notifs : cluster -> string -> string -> Z -> option Entity.Notification;
  cblogs : cluster -> string -> string -> Z -> option Entity.CallbackLog;
  Create_n : cluster -> string -> string -> Entity.Notification -> cluster + error;
  Create_c : cluster -> string -> string -> Entity.CallbackLog -> cluster + error;
  First_n : cluster -> string -> string -> Z -> Entity.Notification + error;
  FirstByKey_n : cluster -> string -> string -> Z -> string -> Entity.Notification + error;
  Find_n : cluster -> string -> string -> list Z -> list Entity.Notification * option error;
  (** [Where("id = ?" [AND version = ?]).Updates(...)] with the rows affected, and
      [Where("notification_id = ?").Updates(...)]. *)
  Updates_n : cluster -> string -> string -> Z -> option Z -> sets -> cluster * Z + error;
  Updates_c : cluster -> string -> string -> Z -> sets -> cluster + error;
  (** Whether a table of a database has a column. *)
  has_column : string -> string -> string -> bool;
  arg : Type;
  Exec : cluster -> string -> string -> list arg -> cluster * option error;
  DryRun : insertion -> string * list arg;
  Commit : cluster -> cluster -> option error;
  notifs_id s d t i n : notifs s d t i = Some n -> Entity.Id n = i;
  Create_n_law s d t n s' : Create_n s d t n = inl s' -> inserts notifs cblogs d s (InsN t n) s';
  Create_c_law s d t c s' : Create_c s d t c = inl s' -> inserts notifs cblogs d s (InsC t c) s';
  DryRun_sql i : fst (DryRun i) <> ""%string;
  Exec_law s d ins s' err :
    Exec s d (Join (map (fun i => fst (DryRun i)) ins) ";") (concat (map (fun i => snd (DryRun i)) ins)) = (s', err) ->
    exists done, done `prefix_of` ins /\ inserts_all notifs cblogs d s done s' /\ (err = None -> done = ins);
  Find_n_law s d t ids ns : Find_n s d t ids = (ns, None) ->
    forall n, n ∈ ns <-> Entity.Id n ∈ ids /\ notifs s d t (Entity.Id n) = Some n;
  First_n_some s d t i n : First_n s d t i = inl n -> notifs s d t i = Some n;
  First_n_none s d t i e : First_n s d t i = inr e -> errors_Is e ErrRecordNotFound = true ->
    notifs s d t i = None;
  Updates_n_law s d t i v ss s' rows : Updates_n s d t i v ss = inl (s', rows) ->
    Forall (fun a => has_column d t a.1 = true) ss /\ cblogs s' = cblogs s /\
    (forall d' t' j, (d', t', j) <> (d, t, i) -> notifs s' d' t' j = notifs s d' t' j) /\
    match notifs s d t i with
    | Some n =>
        if match v with Some v => Entity.Version n =? v | None => true end
        then (exists updated, notifs s' d t i = Some (Entity.touched (assigns n ss) updated)) /\ rows = 1
        else notifs s' d t i = Some n /\ rows = 0
    | None => notifs s' d t i = None /\ rows = 0
    end;
  Updates_c_law s d t i ss s' : Updates_c s d t i ss = inl s' ->
    Forall (fun a => has_column d t a.1 = true) ss /\ notifs s' = notifs s /\
    (forall d' t' j, (d', t', j) <> (d, t, i) -> cblogs s' d' t' j = cblogs s d' t' j) /\
    exists updated, cblogs s' d t i = (fun c => Entity.cb_touched (cb_assigns c ss) updated) <$> cblogs s d t i;
  First_n_extern s d t i e c : First_n s d t i = inr e -> errors_Is e (SCode c) = false
}.

(** [db.Transaction(body)]: rolled back when the body fails or the commit does. *)
Definition Transaction `{Gorm} {A} (s : cluster) (body : cluster -> cluster * A * option error)
    : cluster * A * option error :=
  match body s with
  | (_, a, Some e) => (s, a, Some e)
  | (s', a, None) =>
      match Commit s s' with
      | None => (s', a, None)
      | Some e => (s, a, Some e)
      end
  end.

(** types.go *)
Definition IsIdDuplicateErr (ids : list Z) (err : error) : bool :=
  existsb (fun id => Contains (Error err) (FormatUint id)) ids.

Module Dao.
Section dao.
Context `{XXHash} `{Gorm}.

(** [dbs] names the databases that are loaded. *)
Record NotifShardingDAO := mkDAO {
  dbs : gset string;
  notifShardingStrategy : Hash.HashStrategy;
  cbLogShardingStrategy : Hash.HashStrategy }.

(** The state of a process using the DAO: the cluster and the id generator. *)
Record state := mkState { db : cluster; gen : Snowflake.Generator }.

Definition load_err (name : string) : error := ENew ("failed to load db: " +:+ name).

Variable nd : NotifShardingDAO.

(** *** create

    [now] is the time of the call, [now'] the time at which the id is taken. *)

Definition create_tx (s : cluster) (notifDst cbLogDst : Dst) (n : Entity.Notification)
    (now : Z) (needCallback : bool) : cluster * unit * option error :=
  match Create_n s (DB notifDst) (Table notifDst) n with
  | inr err =>
      if errors_Is err ErrDuplicatedKey && IsIdDuplicateErr [Entity.Id n] err
      then (s, tt, Some (code_err ErrDuplicateNotificationId ""))
      else (s, tt, Some err)
  | inl s =>
      if needCallback then
        let cb := Entity.mkCb (Entity.Id n) 0 now CallbackStatusInit now now in
        match Create_c s (DB notifDst) (Table cbLogDst) cb with
        | inr _ => (s, tt, Some (code_err ErrFailedToCreateCallbackLog ""))
        | inl s => (s, tt, None)
        end
      else (s, tt, None)
  end.

Definition create (st : state) (now now' : Time) (n : Entity.Notification) (needCallback : bool)
    : go (state * (Entity.Notification * option error)) :=
  let now := UnixMilli now in
  let n := Entity.stamp n now in
  let! notifDst := Hash.Shard (notifShardingStrategy nd) (Entity.BizId n) (Entity.BizKey n) in
  let! cbLogDst := Hash.Shard (cbLogShardingStrategy nd) (Entity.BizId n) (Entity.BizKey n) in
  if negb (bool_decide (DB notifDst ∈ dbs nd))
  then Ret (st, (Entity.zero, Some (load_err (DB notifDst))))
  else
    let '(g, id) := Snowflake.NextId (gen st) (Entity.BizId n) (Entity.BizKey n) now' in
    let n := Entity.with_Id n id in
    let '(s, _, err) := Transaction (db st) (fun s => create_tx s notifDst cbLogDst n now needCallback) in
    Ret (mkState s g, (n, err)).

Definition Create st now now' n := create st now now' n false.
Definition CreateWithCallback st now now' n := create st now now' n true.

(** *** batchCreate

    The copies [batchCreate] makes are the list [heap]; the groups name them by
    place.  [now'] is the time of every reading after the first. *)

Fixpoint group_by_db (ns : list Entity.Notification) (i : nat) (m : gmap string (list nat))
    : go (gmap string (list nat)) :=
  match ns with
  | [] => Ret m
  | n :: ns =>
      let! dst := Hash.Shard (notifShardingStrategy nd) (Entity.BizId n) (Entity.BizKey n) in
      group_by_db ns (S i) (<[DB dst := default [] (m !! DB dst) ++ [i]]> m)
  end.

(** One turn of [sqlGenerate]'s loop: a fresh id for the notification and the
    statements that insert it. *)
Definition gen_one (now' : Time) (needCallback : bool) (g : Snowflake.Generator)
    (n : Entity.Notification)
    : go (Snowflake.Generator * Entity.Notification * list (string * list arg)) :=
  let '(g, id) := Snowflake.NextId g (Entity.BizId n) (Entity.BizKey n) now' in
  let n := Entity.with_Id n id in
  let! dst := Hash.Shard (notifShardingStrategy nd) (Entity.BizId n) (Entity.BizKey n) in
  let stmt := DryRun (InsN (Table dst) n) in
  if needCallback then
    let! dst := Hash.Shard (cbLogShardingStrategy nd) (Entity.BizId n) (Entity.BizKey n) in
    let now := UnixMilli now' in
    Ret (g, n, [stmt; DryRun (InsC (Table dst) (Entity.mkCb id 0 now CallbackStatusInit now now))])
  else Ret (g, n, [stmt]).

Fixpoint gen_all (now' : Time) (needCallback : bool) (g : Snowflake.Generator)
    (heap : list Entity.Notification) (places : list nat)
    : go (Snowflake.Generator * list Entity.Notification * list (string * list arg) * list Z) :=
  match places with
  | [] => Ret (g, heap, [], [])
  | i :: places =>
      let! n := slice_get heap (Z.of_nat i) in
      let! '(g, n, stmts) := gen_one now' needCallback g n in
      let! '(g, heap, stmts', ids) := gen_all now' needCallback g (<[i := n]> heap) places in
      Ret (g, heap, stmts ++ stmts', Entity.Id n :: ids)
  end.

Definition sqlGenerate (now' : Time) (needCallback : bool) (g : Snowflake.Generator)
    (heap : list Entity.Notification) (places : list nat)
    : go (Snowflake.Generator * list Entity.Notification * (string * list arg * list Z)) :=
  let! '(g, heap, stmts, ids) := gen_all now' needCallback g heap places in
  match stmts with
  | [] => Ret (g, heap, (""%string, [], []))
  | _ => Ret (g, heap, (Join (map fst stmts) ";", concat (map snd stmts), ids))
  end.

(** The loop of one database's goroutine: it starts again with new ids when an
    id was taken; what [Exec] inserted before it failed stays, since it is not in a
    transaction.  [None] when the fuel runs out. *)
Fixpoint insert_loop (fuel : nat) (name : string) (now' : Time) (needCallback : bool)
    (st : state) (heap : list Entity.Notification) (places : list nat)
    : go (option (state * list Entity.Notification * option error)) :=
  match fuel with
  | O => Ret None
  | S fuel =>
      let! '(g, heap, (sql, args, ids)) := sqlGenerate now' needCallback (gen st) heap places in
      let st := mkState (db st) g in
      if String.eqb sql "" then Ret (Some (st, heap, None))
      else
        match Exec (db st) name sql args with
        | (s, None) => Ret (Some (mkState s g, heap, None))
        | (s, Some err) =>
            if errors_Is err ErrDuplicatedKey && IsIdDuplicateErr ids err
            then insert_loop fuel name now' needCallback (mkState s g) heap places
            else Ret (Some (mkState s g, heap, Some err))
        end
  end.

(** The goroutines one after the other; the group keeps the first error. *)
Fixpoint insert_dbs (fuel : nat) (now' : Time) (needCallback : bool) (st : state)
    (heap : list Entity.Notification) (groups : list (string * list nat)) (err : option error)
    : go (option (state * (list Entity.Notification * option error))) :=
  match groups with
  | [] => Ret (Some (st, (heap, err)))
  | (name, places) :: groups =>
      if negb (bool_decide (name ∈ dbs nd)) then Ret (Some (st, ([], Some (load_err name))))
      else
        let! r := insert_loop fuel name now' needCallback st heap places in
        match r with
        | None => Ret None
        | Some (st, heap, e) =>
            insert_dbs fuel now' needCallback st heap groups
              (match err with Some _ => err | None => e end)
        end
  end.

Definition tryBatchInsert `{MapRange} (fuel : nat) (now' : Time) (needCallback : bool) (st : state)
    (heap : list Entity.Notification)
    : go (option (state * (list Entity.Notification * option error))) :=
  let! m := group_by_db heap 0 ∅ in
  insert_dbs fuel now' needCallback st heap (map_range m) None.

Definition batchCreate `{MapRange} (fuel : nat) (now now' : Time) (needCallback : bool) (st : state)
    (ns : list Entity.Notification)
    : go (option (state * (list Entity.Notification * option error))) :=
  if (length ns =? 0)%nat then Ret (Some (st, ([], None)))
  else tryBatchInsert fuel now' needCallback st (map (fun n => Entity.stamp n (UnixMilli now)) ns).

(** *** reads *)

Definition GetById (s : cluster) (id : Z) : go (Entity.Notification * option error) :=
  let! dst := Hash.ShardWithId (notifShardingStrategy nd) id in
  if negb (bool_decide (DB dst ∈ dbs nd)) then Ret (Entity.zero, Some (load_err (DB dst)))
  else
    match First_n s (DB dst) (Table dst) id with
    | inl n => Ret (n, None)
    | inr err =>
        if errors_Is err ErrRecordNotFound
        then Ret (Entity.zero, Some (code_err ErrNotificationNotFound (": id = " +:+ FormatUint id)))
        else Ret (Entity.zero, Some err)
    end.

Definition GetByKey (s : cluster) (bizId : Z) (bizKey : string) : go (Entity.Notification * option error) :=
  let! dst := Hash.Shard (notifShardingStrategy nd) bizId bizKey in
  if negb (bool_decide (DB dst ∈ dbs nd)) then Ret (Entity.zero, Some (load_err (DB dst)))
  else
    match FirstByKey_n s (DB dst) (Table dst) bizId bizKey with
    | inl n => Ret (n, None)
    | inr err =>
        Ret (Entity.zero, Some (Errorf_pw ("failed to get notification, bizId = " +:+ FormatUint bizId
               +:+ ", bizKey = " +:+ bizKey +:+ ", ") err))
    end.

Fixpoint group_ids (ids : list Z) (idMap : gmap (string * string) (list Z))
    : go (gmap (string * string) (list Z)) :=
  match ids with
  | [] => Ret idMap
  | id :: ids =>
      let! dst := Hash.ShardWithId (notifShardingStrategy nd) id in
      let key := (DB dst, Table dst) in
      let val := match idMap !! key with Some val => val ++ [id] | None => [id] end in
      group_ids ids (<[key := val]> idMap)
  end.

(** The goroutines one after the other; rows found before an error stay in the
    map that is returned with it. *)
Fixpoint find_groups (s : cluster) (groups : list ((string * string) * list Z))
    (notifMap : gmap Z Entity.Notification) (err : option error)
    : gmap Z Entity.Notification * option error :=
  match groups with
  | [] => (notifMap, err)
  | ((dbName, tableName), ids) :: groups =>
      let keep e := match err with Some _ => err | None => e end in
      if negb (bool_decide (dbName ∈ dbs nd))
      then find_groups s groups notifMap (keep (Some (load_err dbName)))
      else
        let '(ns, e) := Find_n s dbName tableName ids in
        find_groups s groups (foldl (fun m n => <[Entity.Id n := n]> m) notifMap ns) (keep e)
  end.

Definition GetMapByIds `{MapRange} (s : cluster) (ids : list Z)
    : go (gmap Z Entity.Notification * option error) :=
  let! idMap := group_ids ids ∅ in
  Ret (find_groups s (map_range idMap) ∅ None).

(** *** status updates *)

(** The columns a mark assigns to, which name the time of update [update_at]. *)
Definition mark_sets (status : string) (now : Z) : sets :=
  [("status", VString status); ("update_at", VInt now); ("version", VNext)]%string.
Definition cb_mark_sets (now : Z) : sets :=
  [("status", VString CallbackStatusPending); ("update_at", VInt now)]%string.

Definition MarkSuccess (s : cluster) (now : Time) (n : Entity.Notification) : go (cluster * option error) :=
  let now := UnixMilli now in
  let! dst := Hash.ShardWithId (notifShardingStrategy nd) (Entity.Id n) in
  let! cbLogDst := Hash.ShardWithId (cbLogShardingStrategy nd) (Entity.Id n) in
  if negb (bool_decide (DB dst ∈ dbs nd)) then Ret (s, Some (load_err (DB dst)))
  else
    let '(s, _, err) := Transaction s (fun s =>
      match Updates_n s (DB dst) (Table dst) (Entity.Id n) None (mark_sets (Entity.Status n) now) with
      | inr err => (s, tt, Some err)
      | inl (s, _) =>
          match Updates_c s (DB dst) (Table cbLogDst) (Entity.Id n) (cb_mark_sets now) with
          | inr err => (s, tt, Some err)
          | inl s => (s, tt, None)
          end
      end) in
    Ret (s, err).

Definition MarkFailure (s : cluster) (now : Time) (n : Entity.Notification) : go (cluster * option error) :=
  let now := UnixMilli now in
  let! dst := Hash.ShardWithId (notifShardingStrategy nd) (Entity.Id n) in
  if negb (bool_decide (DB dst ∈ dbs nd)) then Ret (s, Some (load_err (DB dst)))
  else
    let '(s, _, err) := Transaction s (fun s =>
      match Updates_n s (DB dst) (Table dst) (Entity.Id n) None (mark_sets (Entity.Status n) now) with
      | inr err => (s, tt, Some err)
      | inl (s, _) => (s, tt, None)
      end) in
    Ret (s, err).

(** The number of rows affected is not negative, so its test never fails. *)
Definition CompareAndSwapStatus (s : cluster) (now : Time) (n : Entity.Notification)
    : go (cluster * option error) :=
  let! dst := Hash.ShardWithId (notifShardingStrategy nd) (Entity.Id n) in
  if negb (bool_decide (DB dst ∈ dbs nd)) then Ret (s, Some (load_err (DB dst)))
  else
    match Updates_n s (DB dst) (Table dst) (Entity.Id n) (Some (Entity.Version n))
            (mark_sets (Entity.Status n) (UnixMilli now)) with
    | inr err => Ret (s, Some err)
    | inl (s, rowsAffected) =>
        if rowsAffected <? 0 then Ret (s, Some (Errorf_w_opt None ": failed to concurrent competition"))
        else Ret (s, None)
    end.

(** *** BatchUpdateStatus *)

Record modifyIds := mkModify { callbackTable : string; successIds : list Z; failureIds : list Z }.

Definition listToString (list : list Z) : string := Join (map FormatUint list) ",".
Definition successToString (m : modifyIds) : string := listToString (successIds m).
Definition failureToString (m : modifyIds) : string := listToString (failureIds m).

Abbreviation tables := (gmap string (gmap string modifyIds)) (only parsing).

(** One notification of the first loop ([success]) or of the second.  Both
    append to [successIds] when the table is known. *)
Definition group_one (success : bool) (dbMap : tables) (n : Entity.Notification) : go tables :=
  let! notifDst := Hash.ShardWithId (notifShardingStrategy nd) (Entity.Id n) in
  let! callbackDst := Hash.ShardWithId (cbLogShardingStrategy nd) (Entity.Id n) in
  let tableMap := default ∅ (dbMap !! DB notifDst) in
  let modifyId :=
    match tableMap !! Table notifDst with
    | Some m => mkModify (callbackTable m) (successIds m ++ [Entity.Id n]) (failureIds m)
    | None =>
        if success then mkModify (Table callbackDst) [Entity.Id n] []
        else mkModify (Table callbackDst) [] [Entity.Id n]
    end in
  Ret (<[DB notifDst := <[Table notifDst := modifyId]> tableMap]> dbMap).

Fixpoint group (success : bool) (dbMap : tables) (ns : list Entity.Notification) : go tables :=
  match ns with
  | [] => Ret dbMap
  | n :: ns => let! dbMap := group_one success dbMap n in group success dbMap ns
  end.

Definition update_sql (tb status : string) (now : Z) (idColumn ids : string) (version : bool) : string :=
  "UPDATE " +:+ tb +:+ " SET " +:+ (if version then "`version` = `version` + 1, " else "") +:+
  "`status` = '" +:+ status +:+ "', `update_at` = " +:+ FormatUint now +:+
  " WHERE `" +:+ idColumn +:+ "` IN (" +:+ ids +:+ ")".

(** The statements for one table. *)
Definition mark_sqls (now : Z) (tb : string) (m : modifyIds) : list string :=
  (if (0 <? length (successIds m))%nat then
     [update_sql tb SendStatusSuccess now "id" (successToString m) true;
      update_sql tb CallbackStatusPending now "notification_id" (successToString m) false]
   else []) ++
  (if (0 <? length (failureIds m))%nat then
     [update_sql tb SendStatusFailure now "id" (successToString m) true]
   else []).

Section batch.
Context `{MapRange}.

(** [name] is the database of the transaction. *)
Definition batchMark (name : string) (now : Time) (tbMap : gmap string modifyIds) (s : cluster)
    : cluster * unit * option error :=
  let sqls := concat (map (fun e => mark_sqls (UnixMilli now) e.1 e.2) (map_range tbMap)) in
  if (length sqls =? 0)%nat then
    match Exec s name (Join sqls "; ") [] with
    | (s, err) => (s, tt, err)
    end
  else (s, tt, None).

(** One goroutine of the errgroup. *)
Definition mark_db (now : Time) (e : string * gmap string modifyIds) (s : cluster)
    : cluster * option error :=
  if negb (bool_decide (e.1 ∈ dbs nd)) then (s, Some (load_err e.1))
  else let '(s, _, err) := Transaction s (batchMark e.1 now e.2) in (s, err).

(** The goroutines, in the order of the map; the group returns the first error
    and waits for all of them. *)
Fixpoint mark_dbs (now : Time) (es : list (string * gmap string modifyIds)) (s : cluster)
    : cluster * option error :=
  match es with
  | [] => (s, None)
  | e :: es =>
      let '(s, err) := mark_db now e s in
      let '(s, err') := mark_dbs now es s in
      (s, match err with Some e => Some e | None => err' end)
  end.

Definition BatchUpdateStatus (s : cluster) (now : Time) (successNs failureNs : list Entity.Notification)
    : go (cluster * option error) :=
  if (length successNs =? 0)%nat && (length failureNs =? 0)%nat then Ret (s, None)
  else
    let! dbMap := group true ∅ successNs in
    let! dbMap := group false dbMap failureNs in
    Ret (mark_dbs now (map_range dbMap) s).

End batch.

Definition FindReady (offset limit : Z) : go (list Entity.Notification * option error) :=
  Panic "implement me".

(** ** Lemmas *)

Lemma Transaction_ok {A} s (body : cluster -> cluster * A * option error) s' a :
  Transaction s body = (s', a, None) -> body s = (s', a, None).
Proof.
  unfold Transaction. destruct (body s) as [[s1 a1] [e|]]; [by intros|].
  destruct (Commit s s1); intros E; by simplify_eq.
Qed.

Lemma Transaction_err {A} s (body : cluster -> cluster * A * option error) s' a e :
  Transaction s body = (s', a, Some e) -> s' = s.
Proof.
  unfold Transaction. destruct (body s) as [[s1 a1] [e1|]]; [intros E; by simplify_eq|].
  destruct (Commit s s1); intros E; by simplify_eq.
Qed.

Lemma create_tx_ok s nd_dst cb_dst n now cb s' :
  create_tx s nd_dst cb_dst n now cb = (s', tt, None) ->
  notifs s (DB nd_dst) (Table nd_dst) (Entity.Id n) = None /\
  notifs s' (DB nd_dst) (Table nd_dst) (Entity.Id n) = Some n /\
  (forall d t i, (d, t, i) <> (DB nd_dst, Table nd_dst, Entity.Id n) -> notifs s' d t i = notifs s d t i) /\
  (if cb then cblogs s' (DB nd_dst) (Table cb_dst) (Entity.Id n) =
                Some (Entity.mkCb (Entity.Id n) 0 now CallbackStatusInit now now)
   else cblogs s' = cblogs s).
Proof.
  unfold create_tx. destruct (Create_n _ _ _ _) as [s1|e] eqn:E; [|by destruct (_ && _)].
  apply Create_n_law in E as (H1 & H2 & H3 & H4).
  destruct cb; [|intros E; injection E as <-; by rewrite H4].
  destruct (Create_c _ _ _ _) as [s2|e] eqn:E2; [|done]. intros E; injection E as <-.
  apply Create_c_law in E2 as (_ & C2 & _ & C4). simpl in C2. rewrite C4. auto.
Qed.

(** What a successful [create] did. *)
Lemma create_ok st now now' n cb st' n' :
  create st now now' n cb = Ret (st', (n', None)) ->
  exists d c id, Hash.Shard (notifShardingStrategy nd) (Entity.BizId n) (Entity.BizKey n) = Ret d /\
    Hash.Shard (cbLogShardingStrategy nd) (Entity.BizId n) (Entity.BizKey n) = Ret c /\
    DB d ∈ dbs nd /\
    Snowflake.NextId (gen st) (Entity.BizId n) (Entity.BizKey n) now' = (gen st', id) /\
    n' = Entity.with_Id (Entity.stamp n (UnixMilli now)) id /\
    create_tx (db st) d c n' (UnixMilli now) cb = (db st', tt, None).
Proof.
  unfold create. cbn [Entity.BizId Entity.BizKey Entity.stamp].
  destruct (Snowflake.NextId _ _ _ _) as [g id] eqn:Eid.
  destruct (Hash.Shard _ _ _) as [d|] eqn:Ed; [|done]. simpl.
  destruct (Hash.Shard (cbLogShardingStrategy nd) _ _) as [c|] eqn:Ec; [|done]. simpl.
  case_bool_decide as Hdb; simpl; [|done].
  destruct (Transaction _ _) as [[s1 []] err] eqn:Et. intros E. simplify_eq.
  apply Transaction_ok in Et. exists d, c, id. by split_and!.
Qed.

Lemma create_err st now now' n cb st' n' e :
  create st now now' n cb = Ret (st', (n', Some e)) -> db st' = db st.
Proof.
  unfold create. cbn [Entity.BizId Entity.BizKey Entity.stamp].
  destruct (Snowflake.NextId _ _ _ _) as [g id] eqn:Eid.
  destruct (Hash.Shard _ _ _) as [d|] eqn:Ed; [|done]. simpl.
  destruct (Hash.Shard (cbLogShardingStrategy nd) _ _) as [c|] eqn:Ec; [|done]. simpl.
  case_bool_decide as Hdb; simpl; [|intros E; by simplify_eq].
  destruct (Transaction _ _) as [[s1 []] err] eqn:Et. intros E. simplify_eq. simpl.
  by apply Transaction_err in Et.
Qed.

(** Reading where a row is. *)
Lemma GetById_found s id d n :
  Hash.ShardWithId (notifShardingStrategy nd) id = Ret d -> DB d ∈ dbs nd ->
  notifs s (DB d) (Table d) id = Some n ->
  GetById s id = Ret (n, None) \/
  exists e, GetById s id = Ret (Entity.zero, Some e) /\ errors_Is e (SCode ErrNotificationNotFound) = false.
Proof.
  intros Hd Hdb Hn. unfold GetById. rewrite Hd. simpl. rewrite bool_decide_true by done. simpl.
  destruct (First_n _ _ _ _) as [m|e] eqn:E.
  - left. apply First_n_some in E. by simplify_eq.
  - right. destruct (errors_Is e ErrRecordNotFound) eqn:Ee.
    + by rewrite (First_n_none _ _ _ _ _ E Ee) in Hn.
    + exists e. split; [done|]. by eapply First_n_extern.
Qed.

(** The groups of a batch: a place is in the group of a database exactly when
    its notification is sharded to that database. *)
Lemma group_by_db_spec ns i0 m m' :
  group_by_db ns i0 m = Ret m' ->
  forall name i, i ∈ default [] (m' !! name) <->
    i ∈ default [] (m !! name) \/
    exists k n d, i = (i0 + k)%nat /\ ns !! k = Some n /\
      Hash.Shard (notifShardingStrategy nd) (Entity.BizId n) (Entity.BizKey n) = Ret d /\ DB d = name.
Proof.
  revert i0 m; induction ns as [|n ns IH]; simpl; intros i0 m E name i.
  - simplify_eq. split; [by left|]. intros [?|(k & n & d & _ & Hk & _)]; [done|]. by rewrite lookup_nil in Hk.
  - destruct (Hash.Shard _ _ _) as [d|] eqn:Ed; [|done]. simpl in E. rewrite (IH _ _ E name i). clear IH E.
    destruct (decide (DB d = name)) as [<-|Hne].
    + rewrite lookup_insert_eq. simpl. rewrite elem_of_app, list_elem_of_singleton. split.
      * intros [[Hi| ->]|(k & x & dx & -> & Hk & Hx & HD)]; [by left| |].
        -- right. exists 0%nat, n, d. by rewrite Nat.add_0_r.
        -- right. exists (S k), x, dx. split_and!; [lia|done..].
      * intros [Hi|(k & x & dx & -> & Hk & Hx & HD)]; [by left; left|].
        destruct k as [|k]; simpl in Hk; [left; right; lia|]. right. exists k, x, dx. split_and!; [lia|done..].
    + rewrite lookup_insert_ne by done. split.
      * intros [Hi|(k & x & dx & -> & Hk & Hx & HD)]; [by left|].
        right. exists (S k), x, dx. split_and!; [lia|done..].
      * intros [Hi|(k & x & dx & -> & Hk & Hx & HD)]; [by left|].
        destruct k as [|k]; simpl in Hk; [congruence|].
        right. exists k, x, dx. split_and!; [lia|done..].
Qed.

Section marks.
Context `{MapRange}.

(** Every table the grouping adds has something to update. *)
Definition grouped (dbMap : gmap string (gmap string modifyIds)) : Prop :=
  forall d tm, dbMap !! d = Some tm ->
    tm <> ∅ /\ forall t m, tm !! t = Some m -> successIds m ++ failureIds m <> [].

Lemma group_one_grouped b m n m' : group_one b m n = Ret m' -> grouped m -> grouped m'.
Proof.
  unfold group_one. destruct (Hash.ShardWithId _ _) as [d|]; [|done]. simpl.
  destruct (Hash.ShardWithId (cbLogShardingStrategy nd) _) as [c|]; [|done]. simpl.
  intros E Hg d' tm'. simplify_eq. rewrite lookup_insert_Some. intros [[<- <-]|[_ Hd]]; [|exact (Hg _ _ Hd)].
  split; [apply insert_non_empty|]. intros t x. rewrite lookup_insert_Some. intros [[<- <-]|[_ Ht]].
  - destruct (_ !! Table d) as [x0|]; [|by destruct b].
    simpl. destruct (successIds x0); done.
  - destruct (m !! DB d) as [tm|] eqn:Em; simpl in Ht; [|by rewrite lookup_empty in Ht].
    exact (proj2 (Hg _ _ Em) _ _ Ht).
Qed.

Lemma group_grouped b m ns m' : group b m ns = Ret m' -> grouped m -> grouped m'.
Proof.
  revert m; induction ns as [|n ns IH]; simpl; intros m E Hg; [by simplify_eq|].
  destruct (group_one b m n) as [m1|] eqn:E1; [|done]. simpl in E.
  apply (IH m1 E). by eapply group_one_grouped.
Qed.

Lemma mark_sqls_nonempty now t m : successIds m ++ failureIds m <> [] -> mark_sqls now t m <> [].
Proof. unfold mark_sqls. by destruct (successIds m), (failureIds m). Qed.

Lemma batchMark_idle name now tm s :
  tm <> ∅ -> (forall t m, tm !! t = Some m -> successIds m ++ failureIds m <> []) ->
  batchMark name now tm s = (s, tt, None).
Proof.
  intros Hne Hm. unfold batchMark.
  destruct (map_range tm) as [|[t m] es] eqn:E.
  - apply map_choose in Hne as (t & m & Htm). apply map_range_lookup in Htm. rewrite E in Htm.
    by apply elem_of_nil in Htm.
  - assert (Htm : tm !! t = Some m) by (apply map_range_lookup; rewrite E; set_solver).
    apply Hm, (mark_sqls_nonempty (UnixMilli now) t) in Htm. simpl.
    by destruct (mark_sqls (UnixMilli now) t m).
Qed.

Lemma mark_db_idle now d tm s :
  tm <> ∅ -> (forall t m, tm !! t = Some m -> successIds m ++ failureIds m <> []) ->
  (mark_db now (d, tm) s).1 = s /\
  (d ∈ dbs nd -> Commit s s = None -> (mark_db now (d, tm) s).2 = None).
Proof.
  intros Hne Hm. unfold mark_db. simpl. case_bool_decide as Hd; simpl; [|done].
  unfold Transaction. rewrite batchMark_idle by done. by destruct (Commit s s).
Qed.

Lemma mark_dbs_idle now es s :
  (forall d tm, (d, tm) ∈ es -> tm <> ∅ /\
     forall t m, tm !! t = Some m -> successIds m ++ failureIds m <> []) ->
  (mark_dbs now es s).1 = s /\
  ((forall d tm, (d, tm) ∈ es -> d ∈ dbs nd) -> Commit s s = None -> (mark_dbs now es s).2 = None).
Proof.
  induction es as [|[d tm] es IH]; intros Hes; simpl; [done|].
  destruct (Hes d tm) as [Hne Hids]; [set_solver|].
  destruct (mark_db_idle now d tm s Hne Hids) as [Hs He].
  destruct (mark_db now (d, tm) s) as [s1 err]. simpl in *. subst s1.
  destruct IH as [IH1 IH2]; [intros d' tm' Hin; apply (Hes d'); set_solver|].
  destruct (mark_dbs now es s) as [s2 err2]. simpl in *. split; [done|].
  intros Hd Hc. rewrite (He (Hd d tm ltac:(set_solver)) Hc).
  apply IH2; [intros d' tm' Hin; apply (Hd d' tm'); set_solver|done].
Qed.

End marks.

(** ** Properties *)

(** C1: a notification that [create] stores is found by its id.  On success the
    row is in the shard of its business key, under a fresh id, the callback log
    (when asked for) is in the same database, no other notification changed, and
    [GetById] returns the row or fails with an error other than "not found"; on
    failure the transaction left the database as it was. *)
Theorem create_then_get st now now' n cb st' n' err :
  Hash.wf (notifShardingStrategy nd) ->
  (Hash.dbSharding (notifShardingStrategy nd) * Hash.tableSharding (notifShardingStrategy nd) | 1024) ->
  in_u 64 (Snowflake.sequence (gen st)) ->
  create st now now' n cb = Ret (st', (n', err)) ->
  match err with
  | Some _ => db st' = db st
  | None =>
      exists d c, Hash.Shard (notifShardingStrategy nd) (Entity.BizId n) (Entity.BizKey n) = Ret d /\
        Hash.Shard (cbLogShardingStrategy nd) (Entity.BizId n) (Entity.BizKey n) = Ret c /\
        notifs (db st) (DB d) (Table d) (Entity.Id n') = None /\
        notifs (db st') (DB d) (Table d) (Entity.Id n') = Some n' /\
        (cb = true -> exists l, cblogs (db st') (DB d) (Table c) (Entity.Id n') = Some l /\
                                Entity.cb_Status l = CallbackStatusInit) /\
        (GetById (db st') (Entity.Id n') = Ret (n', None) \/
         exists e, GetById (db st') (Entity.Id n') = Ret (Entity.zero, Some e) /\
                   errors_Is e (SCode ErrNotificationNotFound) = false)
  end.
Proof.
  intros Hwf Hdiv Hseq Hcr. destruct err as [e|]; [by eapply create_err|].
  apply create_ok in Hcr as (d & c & id & Hd & Hc & Hdb & Hid & Hn & Htx).
  apply create_tx_ok in Htx as (H1 & H2 & H3 & H4).
  exists d, c. split; [done|]. split; [done|]. split; [done|]. split; [done|]. split.
  - intros ->. by eexists.
  - apply (GetById_found _ _ d); [|done|done].
    rewrite Hn. simpl. by rewrite (Hash.shard_by_id _ _ _ _ _ _ _ Hwf Hdiv Hseq Hid).
Qed.

(** A batch update of statuses never updates anything: the statements are
    executed only when there are none, so that whatever notifications are given
    the database is left as it was, and the call reports success (when the
    databases are loaded and the empty transactions commit). *)
Theorem batch_update_never_writes `{MapRange} s now successNs failureNs s' err :
  BatchUpdateStatus s now successNs failureNs = Ret (s', err) ->
  s' = s /\
  ((forall n d, n ∈ successNs ++ failureNs ->
      Hash.ShardWithId (notifShardingStrategy nd) (Entity.Id n) = Ret d -> DB d ∈ dbs nd) ->
   Commit s s = None -> err = None).
Proof.
  unfold BatchUpdateStatus. destruct (_ && _); [intros E; by simplify_eq|].
  destruct (group true ∅ successNs) as [m1|] eqn:E1; [|done]. simpl.
  destruct (group false m1 failureNs) as [m2|] eqn:E2; [|done]. simpl. intros E.
  assert (Hg : grouped m2).
  { eapply group_grouped; [exact E2|]. eapply group_grouped; [exact E1|]. intros d tm Hd.
    by rewrite lookup_empty in Hd. }
  destruct (mark_dbs_idle now (map_range m2) s) as [Hs He].
  { intros d tm Hin. apply map_range_lookup in Hin. exact (Hg _ _ Hin). }
  assert (Hkeys : forall b ns m m', group b m ns = Ret m' -> forall k, is_Some (m' !! k) ->
            is_Some (m !! k) \/ exists n d, n ∈ ns /\
              Hash.ShardWithId (notifShardingStrategy nd) (Entity.Id n) = Ret d /\ DB d = k).
  { clear. intros b ns. induction ns as [|n ns IH]; simpl; intros m m' E k Hk.
    - simplify_eq. by left.
    - destruct (group_one b m n) as [m1|] eqn:E1; [|done]. simpl in E.
      destruct (IH m1 m' E k Hk) as [Hm1|(x & d & Hx & Hd & Hk')].
      + unfold group_one in E1. destruct (Hash.ShardWithId _ _) as [d|] eqn:Ed; [|done]. simpl in E1.
        destruct (Hash.ShardWithId (cbLogShardingStrategy nd) _) as [c|]; [|done]. simplify_eq/=.
        apply lookup_insert_is_Some in Hm1 as [<-|[_ Hm]]; [right|by left].
        exists n, d. split_and!; [set_solver|done|done].
      + right. exists x, d. split_and!; [set_solver|done|done]. }
  rewrite (surjective_pairing (mark_dbs now (map_range m2) s)) in E. simplify_eq. split; [done|].
  intros Hdbs Hc. apply He; [|done]. intros d tm Hin. apply map_range_lookup in Hin.
  destruct (Hkeys _ _ _ _ E2 d ltac:(by eexists)) as [Hm1|(n & x & Hn & Hx & <-)].
  - destruct (Hkeys _ _ _ _ E1 d Hm1) as [Hm0|(n & x & Hn & Hx & <-)].
    + rewrite lookup_empty in Hm0. by destruct Hm0.
    + eapply (Hdbs n); [set_solver|done].
  - eapply (Hdbs n); [set_solver|done].
Qed.

(** What a mark leaves: the status, the version and the time of update of one row. *)
Definition marked (s s' : cluster) (d : Dst) (id : Z) (status : string) : Prop :=
  (forall d' t i, (d', t, i) <> (DB d, Table d, id) -> notifs s' d' t i = notifs s d' t i) /\
  exists updated,
    notifs s' (DB d) (Table d) id = (fun n => Entity.with_status n status updated) <$> notifs s (DB d) (Table d) id.

Lemma mark_assigns n status now updated :
  Entity.touched (assigns n (mark_sets status now)) updated = Entity.with_status n status updated.
Proof. done. Qed.

Lemma Updates_n_marked s d i st now s' rows :
  Updates_n s (DB d) (Table d) i None (mark_sets st now) = inl (s', rows) ->
  has_column (DB d) (Table d) "update_at" = true /\ marked s s' d i st /\ cblogs s' = cblogs s.
Proof.
  intros (Hcol & Hc & Hother & Hrow)%Updates_n_law. split.
  { rewrite Forall_forall in Hcol. apply (Hcol ("update_at"%string, VInt now)). unfold mark_sets. set_solver. }
  split; [|done]. split; [done|].
  destruct (notifs s (DB d) (Table d) i) as [n|]; destruct Hrow as [Hrow _]; [|by exists 0].
  destruct Hrow as [updated ->]. by exists updated.
Qed.

(** A failure that is marked leaves the callback logs; the table has a column
    [update_at]. *)
Lemma MarkFailure_ok s now n s' d :
  Hash.ShardWithId (notifShardingStrategy nd) (Entity.Id n) = Ret d -> MarkFailure s now n = Ret (s', None) ->
  has_column (DB d) (Table d) "update_at" = true /\
  marked s s' d (Entity.Id n) (Entity.Status n) /\ cblogs s' = cblogs s.
Proof.
  intros Hd. unfold MarkFailure. rewrite Hd. simpl. case_bool_decide; simpl; [|done].
  destruct (Transaction _ _) as [[s1 []] err] eqn:E. intros [= -> ->]. apply Transaction_ok in E.
  destruct (Updates_n _ _ _ _ _ _) as [[s2 rows]|e] eqn:Eu; [|done]. injection E as ->.
  by eapply Updates_n_marked.
Qed.

(** A success that is marked makes the callback log ready to be sent. *)
Lemma MarkSuccess_ok s now n s' d c :
  Hash.ShardWithId (notifShardingStrategy nd) (Entity.Id n) = Ret d ->
  Hash.ShardWithId (cbLogShardingStrategy nd) (Entity.Id n) = Ret c -> MarkSuccess s now n = Ret (s', None) ->
  has_column (DB d) (Table d) "update_at" = true /\ has_column (DB d) (Table c) "update_at" = true /\
  marked s s' d (Entity.Id n) (Entity.Status n) /\
  (forall d' t i, (d', t, i) <> (DB d, Table c, Entity.Id n) -> cblogs s' d' t i = cblogs s d' t i) /\
  exists updated, cblogs s' (DB d) (Table c) (Entity.Id n) =
    (fun l => Entity.cb_with_status l CallbackStatusPending updated) <$> cblogs s (DB d) (Table c) (Entity.Id n).
Proof.
  intros Hd Hc. unfold MarkSuccess. rewrite Hd, Hc. simpl. case_bool_decide; simpl; [|done].
  destruct (Transaction _ _) as [[s1 []] err] eqn:E. intros [= -> ->]. apply Transaction_ok in E.
  destruct (Updates_n _ _ _ _ _ _) as [[s2 rows]|e] eqn:Eu; [|done].
  destruct (Updates_c _ _ _ _ _) as [s3|e] eqn:Ec; [|done]. injection E as ->.
  apply Updates_n_marked in Eu as (Hcol & [Hother Hrow] & Hcb). apply Updates_c_law in Ec as (Hcolc & Hn & Hco & Hcr).
  rewrite Hcb in Hco, Hcr. split; [done|]. split; [|split; [|done]].
  - rewrite Forall_forall in Hcolc. apply (Hcolc ("update_at"%string, VInt (UnixMilli now))). unfold cb_mark_sets. set_solver.
  - unfold marked. by rewrite Hn.
Qed.

(** A shard without the column fails each mark, and is left as it was. *)
Lemma marks_fail s now n d :
  Hash.ShardWithId (notifShardingStrategy nd) (Entity.Id n) = Ret d ->
  has_column (DB d) (Table d) "update_at" = false ->
  (forall s' err, MarkFailure s now n = Ret (s', err) -> is_Some err /\ s' = s) /\
  (forall s' err, MarkSuccess s now n = Ret (s', err) -> is_Some err /\ s' = s) /\
  (forall s' err, CompareAndSwapStatus s now n = Ret (s', err) -> is_Some err /\ s' = s).
Proof.
  intros Hd Hno.
  assert (Hu : forall v st s' rows, Updates_n s (DB d) (Table d) (Entity.Id n) v (mark_sets st (UnixMilli now)) <> inl (s', rows)).
  { intros v st s' rows (Hcol & _)%Updates_n_law. rewrite Forall_forall in Hcol.
    specialize (Hcol ("update_at"%string, VInt (UnixMilli now)) ltac:(unfold mark_sets; set_solver)). simpl in Hcol. congruence. }
  unfold MarkFailure, MarkSuccess, CompareAndSwapStatus. rewrite Hd. simpl.
  case_bool_decide; simpl.
  2: { split_and!; intros s' err.
    all: try (destruct (Hash.ShardWithId (cbLogShardingStrategy nd) (Entity.Id n)); simpl; [|by intros]).
    all: intros E; simplify_eq; split; [by eexists|done]. }
  split_and!; intros s' err.
  2: destruct (Hash.ShardWithId (cbLogShardingStrategy nd) (Entity.Id n)) as [c|]; simpl; [|by intros].
  - unfold Transaction. destruct (Updates_n _ _ _ _ _ _) as [[s2 rows]|e] eqn:Eu; [by apply Hu in Eu|]. intros E; simplify_eq; split; [by eexists|done].
  - unfold Transaction. destruct (Updates_n _ _ _ _ _ _) as [[s2 rows]|e] eqn:Eu; [by apply Hu in Eu|]. intros E; simplify_eq; split; [by eexists|done].
  - destruct (Updates_n _ _ _ _ _ _) as [[s2 rows]|e] eqn:Eu; [by apply Hu in Eu|]. intros E; simplify_eq; split; [by eexists|done].
Qed.

(** C21: The marks assign to a column [update_at], which the entities do not have.  On a
    shard whose table has no such column, as one made from the entities, no
    notification is ever marked as sent, as failed or as being sent: each of the three
    updates fails, and leaves the database as it was. *)
Theorem marks_need_update_at s now n d :
  Hash.ShardWithId (notifShardingStrategy nd) (Entity.Id n) = Ret d ->
  has_column (DB d) (Table d) "update_at" = false ->
  (forall s' err, MarkFailure s now n = Ret (s', err) -> is_Some err /\ s' = s) /\
  (forall s' err, MarkSuccess s now n = Ret (s', err) -> is_Some err /\ s' = s) /\
  (forall s' err, CompareAndSwapStatus s now n = Ret (s', err) -> is_Some err /\ s' = s).
Proof. apply marks_fail. Qed.

(** [CompareAndSwapStatus] does not report a lost race: when the row has
    another version, or is gone, nothing is updated and the call succeeds,
    because its test asks for a negative number of affected rows. *)
Theorem cas_loses_silently s now n d s' err :
  Hash.ShardWithId (notifShardingStrategy nd) (Entity.Id n) = Ret d -> DB d ∈ dbs nd ->
  CompareAndSwapStatus s now n = Ret (s', err) ->
  (forall m, notifs s (DB d) (Table d) (Entity.Id n) = Some m -> Entity.Version m <> Entity.Version n) ->
  (forall d' t i, notifs s' d' t i = notifs s d' t i) /\
  (err = None \/ exists e, Updates_n s (DB d) (Table d) (Entity.Id n) (Some (Entity.Version n))
                           (mark_sets (Entity.Status n) (UnixMilli now)) = inr e /\ err = Some e).
Proof.
  intros Hd Hdb. unfold CompareAndSwapStatus. rewrite Hd. simpl. rewrite bool_decide_true by done. simpl.
  destruct (Updates_n _ _ _ _ _ _) as [[s1 rows]|e] eqn:E; intros Hr Hv.
  2: { simplify_eq. split; [done|]. right. by exists e. }
  apply Updates_n_law in E as (_ & _ & Hother & Hrow).
  assert (Hsame : notifs s1 (DB d) (Table d) (Entity.Id n) = notifs s (DB d) (Table d) (Entity.Id n) /\ rows = 0).
  { destruct (notifs s (DB d) (Table d) (Entity.Id n)) as [m|] eqn:Em; [|by destruct Hrow].
    specialize (Hv m eq_refl). apply Z.eqb_neq in Hv. by rewrite Hv in Hrow. }
  destruct Hsame as [Hsame ->]. simpl in Hr. simplify_eq. split; [|by left].
  intros d' t i. destruct (decide ((d', t, i) = (DB d, Table d, Entity.Id n))) as [E|]; [by simplify_eq|].
  by apply Hother.
Qed.

End dao.

(** ** A database in memory, to run the model with *)

Definition loc : Type := string * string * Z.

Record memory := mkMemory {
  m_notifs : gmap loc Entity.Notification; m_cblogs : gmap loc Entity.CallbackLog }.

Definition mem_err : error := ESentinel ErrRecordNotFound "record not found".

(** How a duplicate id is reported; [mem_gorm_with] takes any such report. *)
Definition mem_duplicate (id : Z) : error :=
  ESentinel ErrDuplicatedKey ("Duplicate entry '" +:+ FormatUint id +:+ "' for key 'PRIMARY'").

(** A row that is not under its own id is no row. *)
Definition mem_notif (m : memory) (d t : string) (i : Z) : option Entity.Notification :=
  match m_notifs m !! (d, t, i) with
  | Some n => if Entity.Id n =? i then Some n else None
  | None => None
  end.

(** The error of MySQL for a column a table does not have. *)
Definition mem_unknown_column : error := ENew "Error 1054 (42S22): Unknown column in 'field list'".

Definition mem_updates (columns : list string) (m : memory) (d t : string) (i : Z) (v : option Z) (ss : sets)
    : memory * Z + error :=
  if forallb (fun a => bool_decide (a.1 ∈ columns)) ss then
    inl match mem_notif m d t i with
        | Some n =>
            if match v with Some v => Entity.Version n =? v | None => true end
            then (mkMemory (<[(d, t, i) := assigns n ss]> (m_notifs m)) (m_cblogs m), 1)
            else (m, 0)
        | None => (m, 0)
        end
  else inr mem_unknown_column.

Definition mem_updates_c (columns : list string) (m : memory) (d t : string) (i : Z) (ss : sets) : memory + error :=
  if forallb (fun a => bool_decide (a.1 ∈ columns)) ss
  then inl (mkMemory (m_notifs m) (alter (fun c => cb_assigns c ss) (d, t, i) (m_cblogs m)))
  else inr mem_unknown_column.

Definition mem_create_n (dup : Z -> error) (m : memory) (d t : string) (n : Entity.Notification) : memory + error :=
  match m_notifs m !! (d, t, Entity.Id n) with
  | Some _ => inr (dup (Entity.Id n))
  | None => inl (mkMemory (<[(d, t, Entity.Id n) := n]> (m_notifs m)) (m_cblogs m))
  end.

Definition mem_create_c (dup : Z -> error) (m : memory) (d t : string) (c : Entity.CallbackLog) : memory + error :=
  match m_cblogs m !! (d, t, Entity.NotificationId c) with
  | Some _ => inr (dup (Entity.NotificationId c))
  | None => inl (mkMemory (m_notifs m) (<[(d, t, Entity.NotificationId c) := c]> (m_cblogs m)))
  end.

Definition mem_first_n (m : memory) (d t : string) (i : Z) : Entity.Notification + error :=
  match mem_notif m d t i with Some n => inl n | None => inr mem_err end.

Definition mem_first_by_key (m : memory) (d t : string) (b : Z) (k : string) : Entity.Notification + error :=
  match List.find (fun e => bool_decide (e.1.1 = (d, t)) && (Entity.BizId e.2 =? b)
                            && String.eqb (Entity.BizKey e.2) k) (map_to_list (m_notifs m)) with
  | Some e => inl e.2
  | None => inr mem_err
  end.

(** The arguments of a statement are the insertion itself. *)
Fixpoint mem_exec (dup : Z -> error) (m : memory) (d : string) (ins : list insertion) : memory * option error :=
  match ins with
  | [] => (m, None)
  | i :: ins =>
      match match i with InsN t n => mem_create_n dup m d t n | InsC t c => mem_create_c dup m d t c end with
      | inl m => mem_exec dup m d ins
      | inr err => (m, Some err)
      end
  end.

Definition mem_cblog (m : memory) (d t : string) (i : Z) : option Entity.CallbackLog := m_cblogs m !! (d, t, i).

Lemma mem_notif_id m d t i n : mem_notif m d t i = Some n -> Entity.Id n = i.
Proof. unfold mem_notif. destruct (m_notifs m !! _); [|done]. case_match eqn:E; [|done]. intros [= <-]. by apply Z.eqb_eq. Qed.

Lemma mem_notif_insert m d t n l d' t' i :
  mem_notif (mkMemory (<[(d, t, Entity.Id n) := n]> (m_notifs m)) l) d' t' i =
  if decide ((d', t', i) = (d, t, Entity.Id n)) then Some n else mem_notif m d' t' i.
Proof.
  unfold mem_notif. simpl. case_decide as E.
  - injection E as -> -> ->. by rewrite lookup_insert_eq, Z.eqb_refl.
  - by rewrite lookup_insert_ne.
Qed.

Lemma mem_create_n_law dup m d t n m' : mem_create_n dup m d t n = inl m' -> inserts mem_notif mem_cblog d m (InsN t n) m'.
Proof.
  unfold mem_create_n. destruct (m_notifs m !! _) eqn:En; intros E; simplify_eq; simpl. split_and!; [| | |done].
  - unfold mem_notif. by rewrite En.
  - rewrite mem_notif_insert. by rewrite decide_True.
  - intros d' t' i Hne. rewrite mem_notif_insert. by rewrite decide_False.
Qed.

Lemma mem_create_c_law dup m d t c m' : mem_create_c dup m d t c = inl m' -> inserts mem_notif mem_cblog d m (InsC t c) m'.
Proof.
  unfold mem_create_c, mem_cblog. destruct (m_cblogs m !! _) eqn:En; intros E; simplify_eq; simpl.
  split_and!; [done|by rewrite lookup_insert_eq| |done].
  intros d' t' i Hne. by rewrite lookup_insert_ne.
Qed.

Lemma mem_exec_law dup m d ins m' err :
  mem_exec dup m d ins = (m', err) ->
  exists done, done `prefix_of` ins /\ inserts_all mem_notif mem_cblog d m done m' /\ (err = None -> done = ins).
Proof.
  revert m; induction ins as [|i ins IH]; intros m; simpl.
  - intros [= <- <-]. exists []. split_and!; [done|constructor|done].
  - destruct (match i with InsN t n => _ | InsC t c => _ end) as [m1|e] eqn:E.
    + intros (done & [rest ->] & Hall & He)%IH. exists (i :: done). split_and!.
      * by exists rest.
      * econstructor; [|exact Hall]. destruct i; [by eapply mem_create_n_law|by eapply mem_create_c_law].
      * intros Hn. by rewrite <- (He Hn).
    + intros [= <- <-]. exists []. split_and!; [by exists (i :: ins)|constructor|done].
Qed.

Lemma assigns_id n ss : Entity.Id (assigns n ss) = Entity.Id n.
Proof.
  unfold assigns. revert n. induction ss as [|[c v] ss IH]; intros n; [done|]. cbn [foldl]. rewrite IH.
  unfold assign. repeat case_match; done.
Qed.

Lemma mem_updates_row m d t i n ss :
  Entity.Id n = i ->
  let m' := mkMemory (<[(d, t, i) := assigns n ss]> (m_notifs m)) (m_cblogs m) in
  mem_cblog m' = mem_cblog m /\
  (forall d' t' j, (d', t', j) <> (d, t, i) -> mem_notif m' d' t' j = mem_notif m d' t' j) /\
  (exists updated, mem_notif m' d t i = Some (Entity.touched (assigns n ss) updated)) /\ 1 = 1.
Proof.
  intros <-. rewrite <- (assigns_id n ss). split_and!; [done| | |done].
  - intros d' t' j Hne. rewrite mem_notif_insert. by rewrite decide_False.
  - exists (Entity.UpdatedAt (assigns n ss)). rewrite mem_notif_insert. rewrite decide_True by done. by destruct (assigns n ss).
Qed.

Lemma cb_touch_same (o : option Entity.CallbackLog) ss :
  exists updated, (fun c => cb_assigns c ss) <$> o = (fun c => Entity.cb_touched (cb_assigns c ss) updated) <$> o.
Proof.
  destruct o as [c|]; [|by exists 0]. exists (Entity.cb_UpdatedAt (cb_assigns c ss)). simpl. by destruct (cb_assigns c ss).
Qed.

#[program] Definition mem_gorm_with (columns : list string) (dup : Z -> error) : Gorm := {|
  cluster := memory;
  notifs := mem_notif;
  cblogs := mem_cblog;
  Create_n := mem_create_n dup;
  Create_c := mem_create_c dup;
  First_n := mem_first_n;
  FirstByKey_n := mem_first_by_key;
  Find_n m d t ids := (omap (mem_notif m d t) ids, None);
  Updates_n := mem_updates columns;
  Updates_c := mem_updates_c columns;
  has_column _ _ c := bool_decide (c ∈ columns);
  arg := insertion;
  Exec m d sql args := mem_exec dup m d args;
  DryRun i := ("INSERT", [i]);
  Commit m m' := None
|}.
Next Obligation. intros _ _. exact mem_notif_id. Qed.
Next Obligation. intros _. exact mem_create_n_law. Qed.
Next Obligation. intros _. exact mem_create_c_law. Qed.
Next Obligation. done. Qed.
Next Obligation.
  intros _ dup m d ins m' err E. apply (mem_exec_law dup). rewrite <- E. cbn beta. f_equal. clear.
  induction ins as [|i ins IH]; simpl; [done|]. f_equal. exact IH.
Qed.
Next Obligation.
  intros _ _ m d t ids ns [= <-] n. rewrite list_elem_of_omap. split.
  - intros (i & Hi & Hn). by rewrite (mem_notif_id _ _ _ _ _ Hn).
  - intros [Hi Hn]. by exists (Entity.Id n).
Qed.
Next Obligation. intros _ _ m d t i n E. unfold mem_first_n in E. simpl. by destruct (mem_notif m d t i); simplify_eq. Qed.
Next Obligation. intros _ _ m d t i e E. unfold mem_first_n in E. simpl. by destruct (mem_notif m d t i); simplify_eq. Qed.
Next Obligation.
  intros columns _ m d t i v ss m' rows E. unfold mem_updates in E. simpl in *.
  destruct (forallb _ ss) eqn:Ec; [|done]. split; [exact (proj2 (List.Forall_forall _ _) (proj1 (forallb_forall _ _) Ec))|].
  destruct (mem_notif m d t i) as [n|] eqn:En; simplify_eq; [|by rewrite En].
  destruct (match v with Some v => _ | None => _ end); simplify_eq; simpl; [|by rewrite En].
  apply mem_updates_row. by apply mem_notif_id in En.
Qed.
Next Obligation.
  intros columns _ m d t i ss m' E. unfold mem_updates_c in E. destruct (forallb _ ss) eqn:Ec; [|done].
  injection E as <-. split; [exact (proj2 (List.Forall_forall _ _) (proj1 (forallb_forall _ _) Ec))|]. split; [done|]. unfold mem_cblog. simpl. split.
  - intros d' t' j Hne. by rewrite lookup_alter_ne.
  - rewrite lookup_alter_eq. apply cb_touch_same.
Qed.
Next Obligation. intros _ _ m d t i e c E. unfold mem_first_n in E. by destruct (mem_notif m d t i); simplify_eq. Qed.

(** Tables made from the entities, and tables that have the column the marks name. *)
#[global] Instance mem_gorm : Gorm := mem_gorm_with entity_columns mem_duplicate.
Definition marking_gorm : Gorm := mem_gorm_with ("update_at"%string :: entity_columns) mem_duplicate.

Definition sample_dao : NotifShardingDAO :=
  mkDAO {[ "jotify_0"%string; "jotify_1"%string ]} Hash.InitNotifShardingStrategy Hash.InitCbLogShardingStrategy.
Definition sample_state : @state mem_gorm :=
  @mkState mem_gorm (mkMemory ∅ ∅) Snowflake.NewGenerator.
Definition sample_row : Entity.Notification :=
  Entity.mkNotif 0 7 "order-1" "[]" ChannelSMS 3 4 "{}" SendStatusPending 0 0 0 0 0.

Definition created := @create fnv_hash mem_gorm sample_dao sample_state now2025 now2025 sample_row true.
Definition created_state : @state mem_gorm := match created with Ret (st, _) => st | _ => sample_state end.
Definition created_row : Entity.Notification := match created with Ret (_, (n, _)) => n | _ => sample_row end.

Lemma created_ok :
  @create fnv_hash mem_gorm sample_dao sample_state now2025 now2025 sample_row true =
  Ret (created_state, (created_row, None)).
Proof.
  assert (H : match created with Ret (_, (_, None)) => true | _ => false end = true) by by vm_compute.
  unfold created_state, created_row. fold created.
  destruct created as [[st [n [e|]]]|]; done.
Qed.

Lemma create_then_get_witness :
  @GetById mem_gorm sample_dao (db created_state) (Entity.Id created_row) = Ret (created_row, None) \/
  exists e, @GetById mem_gorm sample_dao (db created_state) (Entity.Id created_row) = Ret (Entity.zero, Some e) /\
            errors_Is e (SCode ErrNotificationNotFound) = false.
Proof.
  destruct (@create_then_get fnv_hash mem_gorm sample_dao sample_state now2025 now2025 sample_row true
              created_state created_row None) as (d & c & _ & _ & _ & _ & _ & Hget);
    [| | | |exact Hget].
  - vm_compute. intuition congruence.
  - exists 128. reflexivity.
  - vm_compute. intuition congruence.
  - apply created_ok.
Defined.

Lemma batch_update_never_writes_witness :
  match @BatchUpdateStatus mem_gorm sample_dao key_order (mkMemory ∅ ∅) now2025 [created_row] [] with
  | Ret (s', _) => s' = mkMemory ∅ ∅
  | Panic _ => False
  end.
Proof.
  assert (Hr : is_panic (@BatchUpdateStatus mem_gorm sample_dao key_order (mkMemory ∅ ∅) now2025 [created_row] []) = false)
    by by vm_compute.
  destruct (BatchUpdateStatus _ _ _ _ _) as [[s' err]|] eqn:E; [|done].
  apply (@batch_update_never_writes mem_gorm sample_dao key_order _ now2025 [created_row] [] s' err E).
Defined.

Lemma marks_need_update_at_witness :
  match @MarkFailure mem_gorm sample_dao (db created_state) now2025 created_row with
  | Ret (s', err) => is_Some err /\ s' = db created_state
  | Panic _ => False
  end.
Proof.
  assert (Hr : is_panic (@MarkFailure mem_gorm sample_dao (db created_state) now2025 created_row) = false)
    by by vm_compute.
  destruct (MarkFailure _ _ _ _) as [[s' err]|] eqn:E; [|done].
  destruct (@marks_need_update_at mem_gorm sample_dao (db created_state) now2025 created_row
              (mkDst 0 3 "jotify_0" "notification_3")) as [Hf _].
  - vm_compute. reflexivity.
  - reflexivity.
  - exact (Hf _ _ E).
Defined.

(** A row at version 2, and a caller that saw version 1. *)
Definition stale_row : Entity.Notification := Entity.with_status created_row SendStatusSending 1.
Definition stale_memory : memory :=
  mkMemory {[ ("jotify_0"%string, "notification_3"%string, Entity.Id created_row) := stale_row ]} ∅.

Lemma cas_loses_silently_witness :
  match @CompareAndSwapStatus marking_gorm sample_dao stale_memory now2025 created_row with
  | Ret (_, err) => err = None
  | Panic _ => False
  end.
Proof.
  assert (Hr : is_panic (@CompareAndSwapStatus marking_gorm sample_dao stale_memory now2025 created_row) = false)
    by by vm_compute.
  destruct (CompareAndSwapStatus _ _ _ _) as [[s' err]|] eqn:E; [|done].
  destruct (@cas_loses_silently marking_gorm sample_dao stale_memory now2025 created_row
              (mkDst 0 3 "jotify_0" "notification_3") s' err) as [_ [H|(e & H & _)]].
  - vm_compute. reflexivity.
  - simpl. set_solver.
  - exact E.
  - intros m Hm. vm_compute in Hm. injection Hm as <-. vm_compute. congruence.
  - exact H.
  - discriminate H.
Defined.

End Dao.
