(* ===== verification/DaoBatch.v ===== *)
(** * Batches and reads of the sharded data access object

    What internal/repository/dao/notification.go promises of a batch of
    notifications it stored ([batchCreate]) and of those it reads by their ids
    ([GetMapByIds]).  The definitions are in the file Dao. *)
From Stdlib Require Import ZArith Lia List.
From stdpp Require Import prelude strings gmap.
From S2P Require Import Prelude GoLang Errs GoStrings Externals Snowflake Sharding Domain Dao.

Module DaoBatch.

(** ** Rows are added, not lost *)

Section rows.
Context `{Gorm}.

Definition grows (s s' : cluster) : Prop :=
  (forall d t i n, notifs s d t i = Some n -> notifs s' d t i = Some n) /\
  (forall d t i c, cblogs s d t i = Some c -> cblogs s' d t i = Some c).

#[global] Instance grows_preorder : PreOrder grows.
Proof. split; [by split|]. intros s1 s2 s3 [H1 H2] [H3 H4]. split; auto. Qed.

(** The row of an insertion is there. *)
Definition has (d : string) (i : insertion) (s : cluster) : Prop :=
  match i with
  | InsN t n => notifs s d t (Entity.Id n) = Some n
  | InsC t c => cblogs s d t (Entity.NotificationId c) = Some c
  end.

#[global] Instance has_grows d i : Proper (grows ==> impl) (has d i).
Proof. intros s s' [Hn Hc]. destruct i; unfold impl; simpl; auto. Qed.

Lemma inserts_grows d s i s' : inserts notifs cblogs d s i s' -> grows s s' /\ has d i s'.
Proof.
  destruct i as [t n|t c]; simpl; intros (H1 & H2 & H3 & H4); (split; [|done]); split.
  - intros d' t' i m Hm. rewrite H3; [done|]. intros [= -> -> ->]. congruence.
  - by rewrite H4.
  - by rewrite H4.
  - intros d' t' i m Hm. rewrite H3; [done|]. intros [= -> -> ->]. congruence.
Qed.

Lemma inserts_all_grows d s ins s' :
  inserts_all notifs cblogs d s ins s' -> grows s s' /\ forall i, i ∈ ins -> has d i s'.
Proof.
  induction 1 as [s|s i s1 ins s' Hi _ [Hg Hall]]; [split; [done|by intros i ?%elem_of_nil]|].
  apply inserts_grows in Hi as [Hg1 Hi]. split; [by etrans|]. intros j [->|Hj]%elem_of_cons; [|by apply Hall].
  by rewrite <- Hg.
Qed.

Lemma Join_nonempty ws sep : Forall (fun w => w <> ""%string) ws -> ws <> [] -> Join ws sep <> ""%string.
Proof. destruct 1 as [|w [|w' ws] Hw _]; [done|done|]. intros _. simpl. by destruct w. Qed.
End rows.

(** ** Batches *)

Section batch.
Context `{XXHash} `{Gorm}.
Variables (nd : Dao.NotifShardingDAO) (now' : Time) (cb : bool).

Hypothesis wf : Hash.wf (Dao.notifShardingStrategy nd).
Hypothesis divides :
  (Hash.dbSharding (Dao.notifShardingStrategy nd) * Hash.tableSharding (Dao.notifShardingStrategy nd) | 1024).

Abbreviation shard n := (Hash.Shard (Dao.notifShardingStrategy nd) (Entity.BizId n) (Entity.BizKey n)).
Abbreviation cb_shard n := (Hash.Shard (Dao.cbLogShardingStrategy nd) (Entity.BizId n) (Entity.BizKey n)).

(** A notification without its id, which is all an insertion changes. *)
Definition bare (n : Entity.Notification) : Entity.Notification := Entity.with_Id n 0.

Definition fresh_log (id : Z) : Entity.CallbackLog :=
  Entity.mkCb id 0 (UnixMilli now') CallbackStatusInit (UnixMilli now') (UnixMilli now').

(** The insertions of a notification are among those of a batch. *)
Definition planned (ins : list insertion) (n : Entity.Notification) : Prop :=
  exists d, shard n = Ret d /\ Hash.ShardWithId (Dao.notifShardingStrategy nd) (Entity.Id n) = Ret d /\
    InsN (Table d) n ∈ ins /\
    (cb = true -> exists c, cb_shard n = Ret c /\ InsC (Table c) (fresh_log (Entity.Id n)) ∈ ins).

Definition ok_gen (g : Snowflake.Generator) : Prop := in_u 64 (Snowflake.sequence g).

Lemma gen_one_spec g n g' n' stmts :
  ok_gen g -> Dao.gen_one nd now' cb g n = Ret (g', n', stmts) ->
  exists ins, stmts = map DryRun ins /\ ins <> [] /\ ok_gen g' /\ bare n' = bare n /\ planned ins n'.
Proof using wf divides.
  intros Hg. unfold Dao.gen_one. destruct (Snowflake.NextId _ _ _ _) as [g1 id] eqn:Eid.
  assert (Hg1 : ok_gen g1) by (injection Eid as <- _; apply wrap_u_range; lia).
  assert (Hid := Hash.shard_by_id _ _ _ _ _ _ _ wf divides Hg Eid).
  intros (d & Hd & E)%go_bind_ret. simpl in Hd. unfold planned. destruct cb.
  - apply go_bind_ret in E as (c & Hc & [= <- <- <-]). simpl in Hc.
    exists [InsN (Table d) (Entity.with_Id n id); InsC (Table c) (fresh_log id)]. split_and!; [done..|].
    exists d. simpl. rewrite Hid. split_and!; [done|done|by left|]. intros _. exists c. split; [done|]. right. by left.
  - injection E as <- <- <-. exists [InsN (Table d) (Entity.with_Id n id)]. split_and!; [done..|].
    exists d. simpl. rewrite Hid. split_and!; [done|done|by left|done].
Qed.

Lemma planned_weaken ins ins' n : ins ⊆ ins' -> planned ins n -> planned ins' n.
Proof using Type.
  intros Hsub (d & Hd & Hid & Hin & Hc). exists d. split_and!; [done|done|by apply Hsub|].
  intros Hcb. destruct (Hc Hcb) as (c & ? & ?). exists c. auto.
Qed.

(** The heap after the statements of some places were made. *)
Lemma gen_all_spec places : forall g heap g' heap' stmts ids,
  ok_gen g -> Dao.gen_all nd now' cb g heap places = Ret (g', heap', stmts, ids) ->
  exists ins, stmts = map DryRun ins /\ (places <> [] -> ins <> []) /\ ok_gen g' /\
    bare <$> heap' = bare <$> heap /\
    forall i, if decide (i ∈ places) then exists n, heap' !! i = Some n /\ planned ins n else heap' !! i = heap !! i.
Proof using wf divides.
  induction places as [|p places IH]; simpl; intros g heap g' heap' stmts ids Hg.
  - intros [= <- <- <- <-]. exists []. by split_and!.
  - intros (n & Hn & E)%go_bind_ret. apply go_bind_ret in E as ([[g1 n1] st1] & H1 & E).
    apply go_bind_ret in E as ([[[g2 heap2] st2] ids2] & H2 & [= <- <- <- <-]).
    apply gen_one_spec in H1 as (ins1 & -> & Hne & Hg1 & Hb & Hp); [|done].
    apply IH in H2 as (ins2 & -> & _ & Hg2 & Hb2 & Hpl); [|done].
    assert (Hh : heap !! p = Some n).
    { unfold slice_get in Hn. destruct (Z.ltb_spec (Z.of_nat p) 0); [lia|]. rewrite Nat2Z.id in Hn. by destruct (heap !! p); simplify_eq. }
    exists (ins1 ++ ins2). split_and!.
    + by rewrite map_app.
    + intros _ E%app_nil. by destruct E.
    + done.
    + rewrite Hb2, list_fmap_insert, Hb. apply list_insert_id. by rewrite list_lookup_fmap, Hh.
    + intros i. specialize (Hpl i). destruct (decide (i ∈ p :: places)) as [Hi|Hi], (decide (i ∈ places)) as [Hi'|Hi'].
      * destruct Hpl as (m & Hm & Hpm). exists m. split; [done|]. eapply planned_weaken; [|exact Hpm]. set_solver.
      * apply elem_of_cons in Hi as [->|Hi]; [|done]. rewrite Hpl, list_lookup_insert_eq by (by eapply lookup_lt_Some).
        exists n1. split; [done|]. eapply planned_weaken; [|exact Hp]. set_solver.
      * exfalso. apply Hi. by right.
      * rewrite Hpl, list_lookup_insert_ne; [done|]. intros ->. apply Hi. by left.
Qed.

(** The rows of a notification are in the database [name], which is loaded. *)
Definition placed (name : string) (s : cluster) (n : Entity.Notification) : Prop :=
  exists d, shard n = Ret d /\ Hash.ShardWithId (Dao.notifShardingStrategy nd) (Entity.Id n) = Ret d /\
    notifs s name (Table d) (Entity.Id n) = Some n /\
    (cb = true -> exists c, cb_shard n = Ret c /\
       cblogs s name (Table c) (Entity.Id n) = Some (fresh_log (Entity.Id n))).

Lemma planned_placed name ins s n : (forall i, i ∈ ins -> has name i s) -> planned ins n -> placed name s n.
Proof using Type.
  intros Hall (d & Hd & Hid & Hin & Hc). exists d. split_and!; [done..| |].
  - exact (Hall _ Hin).
  - intros Hcb. destruct (Hc Hcb) as (c & Hcs & Hinc). exists c. split; [done|]. exact (Hall _ Hinc).
Qed.

Lemma placed_grows name s s' n : grows s s' -> placed name s n -> placed name s' n.
Proof using Type.
  intros [Hn Hcb] (d & Hd & Hid & Hin & Hc). exists d. split_and!; [done|done|by apply Hn|].
  intros E. destruct (Hc E) as (c & ? & ?). exists c. auto.
Qed.

(** What the insertion of the notifications at [places] leaves. *)
Definition attempted (name : string) (places : list nat) (st st' : Dao.state)
    (heap heap' : list Entity.Notification) (err : option error) : Prop :=
  ok_gen (Dao.gen st') /\ grows (Dao.db st) (Dao.db st') /\ bare <$> heap' = bare <$> heap /\
  (forall i, i ∉ places -> heap' !! i = heap !! i) /\
  (err = None -> forall i, i ∈ places -> exists n, heap' !! i = Some n /\ placed name (Dao.db st') n).

Lemma Exec_planned name s ins s' err :
  Exec s name (Join (map fst (map DryRun ins)) ";") (concat (map snd (map DryRun ins))) = (s', err) ->
  grows s s' /\ (err = None -> forall i, i ∈ ins -> has name i s').
Proof using Type.
  rewrite !map_map. intros (done & _ & Hall & He)%Exec_law. apply inserts_all_grows in Hall as [Hg Hh].
  split; [done|]. intros Hn. by rewrite <- (He Hn).
Qed.

Lemma insert_loop_spec name places : forall fuel st heap st' heap' err,
  ok_gen (Dao.gen st) ->
  Dao.insert_loop nd fuel name now' cb st heap places = Ret (Some (st', heap', err)) ->
  attempted name places st st' heap heap' err.
Proof using wf divides.
  induction fuel as [|fuel IH]; simpl; intros st heap st' heap' err Hg; [done|].
  intros ([[g1 h1] [[sql args] ids]] & Hgen & E)%go_bind_ret. unfold Dao.sqlGenerate in Hgen.
  apply go_bind_ret in Hgen as ([[[g2 h2] stmts] ids2] & Hall & Hsql).
  apply gen_all_spec in Hall as (ins & -> & Hne & Hg1 & Hb & Hpl); [|done].
  assert (Hout : forall i, i ∉ places -> h2 !! i = heap !! i) by (intros i Hi; specialize (Hpl i); by rewrite decide_False in Hpl).
  assert (Hin : forall i, i ∈ places -> exists n, h2 !! i = Some n /\ planned ins n)
    by (intros i Hi; specialize (Hpl i); by rewrite decide_True in Hpl).
  destruct ins as [|i0 ins]; simpl in Hsql; injection Hsql as <- <- <- <- <-.
  - simpl in E. injection E as <- <- <-. split_and!; try done. intros _ i Hi.
    destruct places; [by apply elem_of_nil in Hi|by destruct Hne].
  - rewrite (proj2 (String.eqb_neq _ _)) in E.
    2: { apply (Join_nonempty (map fst (map DryRun (i0 :: ins)))); [|done].
         apply Forall_map, Forall_map, Forall_forall. intros i _. apply DryRun_sql. }
    destruct (Exec _ _ _ _) as [s1 e] eqn:Ex. apply (Exec_planned name _ (i0 :: ins)) in Ex as [Hgr Hhas].
    destruct e as [e|].
    + destruct (_ && _).
      * apply IH in E as (H1 & H2 & H3 & H4 & H5); [|done]. split_and!; [done| | | |done].
        -- by etrans.
        -- by rewrite H3.
        -- intros i Hi. by rewrite H4, Hout.
      * injection E as <- <- <-. by split_and!.
    + injection E as <- <- <-. split_and!; try done. intros _ i Hi. destruct (Hin i Hi) as (n & Hn & Hp).
      exists n. split; [done|]. simpl. eapply planned_placed; [|exact Hp]. by apply Hhas.
Qed.

Lemma bare_lookup (heap heap' : list Entity.Notification) i n :
  bare <$> heap' = bare <$> heap -> heap' !! i = Some n -> exists m, heap !! i = Some m /\ bare n = bare m.
Proof using Type.
  intros Hb Hn. assert (E : (bare <$> heap') !! i = (bare <$> heap) !! i) by by rewrite Hb.
  rewrite !list_lookup_fmap, Hn in E. simpl in E. destruct (heap !! i) as [m|]; [|done]. exists m. split; [done|]. simpl in E. congruence.
Qed.

Lemma bare_fields n m : bare n = bare m -> Entity.BizId n = Entity.BizId m /\ Entity.BizKey n = Entity.BizKey m.
Proof using Type. intros E. by injection E. Qed.

(** Every notification of a group is sharded to the group's database. *)
Definition at_home (groups : list (string * list nat)) (heap : list Entity.Notification) : Prop :=
  forall name places i n, (name, places) ∈ groups -> i ∈ places -> heap !! i = Some n ->
    exists d, shard n = Ret d /\ DB d = name.

Lemma at_home_bare groups heap heap' : bare <$> heap' = bare <$> heap -> at_home groups heap -> at_home groups heap'.
Proof using Type.
  intros Hb Hh name places i n Hg Hi Hn. destruct (bare_lookup _ _ _ _ Hb Hn) as (m & Hm & E).
  apply bare_fields in E as [-> ->]. by eapply Hh.
Qed.

Lemma insert_dbs_spec fuel groups : forall st heap err st' rows err',
  ok_gen (Dao.gen st) -> at_home groups heap ->
  Dao.insert_dbs nd fuel now' cb st heap groups err = Ret (Some (st', (rows, err'))) ->
  grows (Dao.db st) (Dao.db st') /\
  (err' = None -> err = None /\ bare <$> rows = bare <$> heap /\
     (forall i, (forall name places, (name, places) ∈ groups -> i ∉ places) -> rows !! i = heap !! i) /\
     forall name places i, (name, places) ∈ groups -> i ∈ places ->
       name ∈ Dao.dbs nd /\ exists n, rows !! i = Some n /\ placed name (Dao.db st') n).
Proof using wf divides.
  induction groups as [|[name places] groups IH]; simpl; intros st heap err st' rows err' Hg Hh.
  - intros [= <- <- <-]. split; [done|]. intros ->. split_and!; [done..|]. by intros ??? ?%elem_of_nil.
  - case_bool_decide as Hdb; simpl; [|by intros [= <- <- <-]].
    intros ([[[st1 h1] e]|] & Hl & E)%go_bind_ret; [|done].
    apply insert_loop_spec in Hl as (Hg1 & Hgr & Hb & Hout & Hin); [|done].
    assert (Hh1 : at_home groups h1).
    { apply (at_home_bare _ heap); [done|]. intros name' places' i n Hm. apply (Hh name' places'). by right. }
    apply IH in E as [Hgr2 E]; [|done|done]. split; [by etrans|]. intros Hn. destruct (E Hn) as (He & Hb2 & Hout2 & Hin2).
    assert (err = None /\ e = None) as [-> ->] by (destruct err; [done|]; by destruct e). split_and!; [done| | |].
    + by rewrite Hb2.
    + intros i Hi. rewrite Hout2; [apply Hout; eapply Hi; by left|]. intros name' places' Hm. apply (Hi name'). by right.
    + intros name' places' i Hm Hi. apply elem_of_cons in Hm as [[= -> ->]|Hm]; [|by eapply Hin2]. split; [done|].
      destruct (Hin eq_refl i Hi) as (n & Hn1 & Hp).
      destruct (decide (Exists (fun g => i ∈ g.2) groups)) as [Hex|Hno].
      * apply Exists_exists in Hex as ([name2 places2] & Hm2 & Hi2).
        destruct (Hin2 name2 places2 i Hm2 Hi2) as (_ & n2 & Hn2 & Hp2).
        exists n2. split; [done|].
        destruct (Hh1 name2 places2 i n Hm2 Hi2 Hn1) as (d & Hd & HD).
        assert (Hhome : exists d', shard n = Ret d' /\ DB d' = name).
        { apply (at_home_bare ((name, places) :: groups) heap h1 Hb Hh name places i n); [by left|done|done]. }
        destruct Hhome as (d' & Hd' & HD'). assert (name2 = name) as <- by congruence. done.
      * exists n. rewrite Hout2; [by split; [|by eapply placed_grows]|]. intros name2 places2 Hm2 Hi2. apply Hno, Exists_exists.
        by exists (name2, places2).
Qed.

Lemma group_by_db_home ns m : Dao.group_by_db nd ns 0 ∅ = Ret m ->
  forall name places i, m !! name = Some places -> i ∈ places <->
    exists n d, ns !! i = Some n /\ shard n = Ret d /\ DB d = name.
Proof using Type.
  intros E name places i Hm. pose proof (Dao.group_by_db_spec nd ns 0 ∅ m E name i) as Hs.
  rewrite Hm, lookup_empty in Hs. simpl in Hs. rewrite Hs. split.
  - intros [Hi|(k & n & d & -> & Hk & Hd & HD)]; [by apply elem_of_nil in Hi|]. by exists n, d.
  - intros (n & d & Hk & Hd & HD). right. by exists i, n, d.
Qed.

Context `{MapRange}.

(** Every notification is in the group of its database, which is one of the groups. *)
Lemma groups_cover ns m : Dao.group_by_db nd ns 0 ∅ = Ret m ->
  at_home (map_range m) ns /\
  forall i n, ns !! i = Some n -> exists places d, shard n = Ret d /\ (DB d, places) ∈ map_range m /\ i ∈ places.
Proof using wf.
  intros E. split.
  - intros name places i n Hm%map_range_lookup Hi Hn.
    apply (group_by_db_home _ _ E _ _ i Hm) in Hi as (n' & d & Hn' & Hd & HD).
    exists d. rewrite Hn in Hn'. by injection Hn' as ->.
  - intros i n Hn. pose proof (Dao.group_by_db_spec nd ns 0 ∅ m E) as Hs.
    assert (Hd : exists d, shard n = Ret d).
    { destruct (Hash.shard_total (Dao.notifShardingStrategy nd) (Entity.BizId n) (Entity.BizKey n) wf) as (d & Hd & _). by exists d. }
    destruct Hd as [d Hd]. specialize (Hs (DB d) i).
    destruct (m !! DB d) as [places|] eqn:Em; simpl in Hs.
    + exists places, d. split_and!; [done|by apply map_range_lookup|]. apply Hs. right. by exists i, n, d.
    + exfalso. apply (elem_of_nil i), Hs. right. by exists i, n, d.
Qed.

(** What a batch leaves: each notification is stored with a new id in the shard of
    its business key, and read by that id. *)
Definition stored (st' : Dao.state) (stamp : Z) (n row : Entity.Notification) : Prop :=
  row = Entity.with_Id (Entity.stamp n stamp) (Entity.Id row) /\
  exists d, shard n = Ret d /\ notifs (Dao.db st') (DB d) (Table d) (Entity.Id row) = Some row /\
    (cb = true -> exists c, cb_shard n = Ret c /\
       cblogs (Dao.db st') (DB d) (Table c) (Entity.Id row) = Some (fresh_log (Entity.Id row))) /\
    (Dao.GetById nd (Dao.db st') (Entity.Id row) = Ret (row, None) \/
     exists e, Dao.GetById nd (Dao.db st') (Entity.Id row) = Ret (Entity.zero, Some e) /\
               errors_Is e (SCode ErrNotificationNotFound) = false).

Lemma batchCreate_stored fuel now st ns st' rows err :
  ok_gen (Dao.gen st) ->
  Dao.batchCreate nd fuel now now' cb st ns = Ret (Some (st', (rows, err))) ->
  grows (Dao.db st) (Dao.db st') /\
  (err = None -> length rows = length ns /\
     forall i n, ns !! i = Some n -> exists row, rows !! i = Some row /\ stored st' (UnixMilli now) n row).
Proof using wf divides.
  intros Hg. unfold Dao.batchCreate. destruct (Nat.eqb_spec (length ns) 0) as [E0|_].
  { apply nil_length_inv in E0 as ->. by intros [= <- <- <-]. }
  unfold Dao.tryBatchInsert. intros (m & Hm & E)%go_bind_ret.
  apply groups_cover in Hm as [Hhome Hcov]. apply insert_dbs_spec in E as [Hgr E]; [|done|done].
  split; [done|]. intros Hn. destruct (E Hn) as (_ & Hb & _ & Hin). split.
  - apply (f_equal length) in Hb. by rewrite !length_fmap in Hb.
  - intros i n Hi.
    destruct (Hcov i (Entity.stamp n (UnixMilli now))) as (places & d & Hd & Hm & Hip).
    { by rewrite list_lookup_fmap, Hi. }
    destruct (Hin _ _ _ Hm Hip) as (Hdb & row & Hrow & d' & Hd' & Hid & Hstored & Hcb).
    destruct (bare_lookup _ _ _ _ Hb Hrow) as (n' & Hn' & Hbare). rewrite list_lookup_fmap, Hi in Hn'. injection Hn' as <-.
    pose proof (bare_fields _ _ Hbare) as [HB HK]. rewrite HB, HK in *. simpl in Hd, Hd', HB, HK.
    assert (d' = d) as -> by congruence.
    exists row. split; [done|]. split.
    + destruct row. injection Hbare as -> -> -> -> -> -> -> -> -> -> -> -> ->. done.
    + exists d. split_and!; [done|done|done|]. by apply (Dao.GetById_found nd _ _ d).
Qed.

(** C6: A batch that succeeds has stored every notification: the answer has them in
    the order they were given, each with the id under which its row is, in the shard
    of its business key and with its callback log when asked for, and is found by
    that id.  Whether the batch succeeds or not, no row that was there is lost or
    changed; a batch that fails may have stored some of its rows. *)
Theorem batch_create_stores fuel now st ns st' rows err :
  ok_gen (Dao.gen st) ->
  Dao.batchCreate nd fuel now now' cb st ns = Ret (Some (st', (rows, err))) ->
  grows (Dao.db st) (Dao.db st') /\
  (err = None -> length rows = length ns /\
     forall i n, ns !! i = Some n -> exists row, rows !! i = Some row /\ stored st' (UnixMilli now) n row).
Proof using wf divides. apply batchCreate_stored. Qed.

(** ** A batch returns *)

Hypothesis wf_cb : Hash.wf (Dao.cbLogShardingStrategy nd).

Lemma gen_one_total g n : exists r, Dao.gen_one nd now' cb g n = Ret r.
Proof using wf wf_cb.
  unfold Dao.gen_one. destruct (Snowflake.NextId _ _ _ _) as [g1 id]. simpl.
  destruct (Hash.shard_total _ (Entity.BizId n) (Entity.BizKey n) wf) as (d & -> & _). simpl.
  destruct cb; [|by eexists].
  destruct (Hash.shard_total _ (Entity.BizId n) (Entity.BizKey n) wf_cb) as (c & -> & _). by eexists.
Qed.

Lemma gen_all_total places : forall g heap,
  (forall i, i ∈ places -> (i < length heap)%nat) -> exists r, Dao.gen_all nd now' cb g heap places = Ret r.
Proof using wf wf_cb.
  induction places as [|p places IH]; simpl; intros g heap Hp; [by eexists|].
  destruct (lookup_lt_is_Some_2 heap p) as [n Hn]; [apply Hp; by left|].
  rewrite (slice_get_in heap (Z.of_nat p) n); [|lia|by rewrite Nat2Z.id]. simpl.
  destruct (gen_one_total g n) as [[[g1 n1] st1] ->]. simpl.
  destruct (IH g1 (<[p := n1]> heap)) as [[[[g2 h2] st2] ids] ->]; [|by eexists].
  intros i Hi. rewrite length_insert. apply Hp. by right.
Qed.

(** The database is never asked for an id it has. *)
Definition no_duplicates : Prop :=
  forall s name sql args s' e, Exec s name sql args = (s', Some e) -> errors_Is e ErrDuplicatedKey = false.

Lemma insert_loop_total name fuel st heap places :
  no_duplicates -> ok_gen (Dao.gen st) -> (forall i, i ∈ places -> (i < length heap)%nat) ->
  exists r, Dao.insert_loop nd (S fuel) name now' cb st heap places = Ret (Some r).
Proof using wf wf_cb.
  intros Hnd Hg Hp. simpl. unfold Dao.sqlGenerate.
  destruct (gen_all_total places (Dao.gen st) heap Hp) as [[[[g h] stmts] ids] ->]. simpl.
  destruct stmts as [|x stmts]; simpl; [by eexists|]. destruct (String.eqb _ _); [by eexists|].
  destruct (Exec _ _ _ _) as [s [e|]] eqn:Ex; [|by eexists]. rewrite (Hnd _ _ _ _ _ _ Ex). by eexists.
Qed.

Lemma insert_dbs_total fuel groups : forall st heap err,
  no_duplicates -> ok_gen (Dao.gen st) ->
  (forall name places i, (name, places) ∈ groups -> i ∈ places -> (i < length heap)%nat) ->
  exists r, Dao.insert_dbs nd (S fuel) now' cb st heap groups err = Ret (Some r).
Proof using wf wf_cb divides.
  induction groups as [|[name places] groups IH]; intros st heap err Hnd Hg Hp; cbn [Dao.insert_dbs]; [by eexists|].
  case_bool_decide; simpl negb; cbv iota; [|by eexists].
  destruct (insert_loop_total name fuel st heap places Hnd Hg) as [[[st1 h1] e] Hl].
  { intros i. apply (Hp name). by left. }
  rewrite Hl. cbn [go_bind]. apply insert_loop_spec in Hl as (Hg1 & _ & Hb & _); [|done]. apply IH; [done..|].
  intros name' places' i Hm Hi. apply (f_equal length) in Hb. rewrite !length_fmap in Hb. rewrite Hb.
  eapply Hp; [by right|done].
Qed.

Lemma batchCreate_returns fuel now st ns :
  no_duplicates -> ok_gen (Dao.gen st) ->
  exists st' rows err, Dao.batchCreate nd (S fuel) now now' cb st ns = Ret (Some (st', (rows, err))).
Proof using wf wf_cb divides.
  intros Hnd Hg. unfold Dao.batchCreate. destruct (_ =? _)%nat; [by do 3 eexists|]. unfold Dao.tryBatchInsert.
  assert (Hm : forall l i m, exists m', Dao.group_by_db nd l i m = Ret m').
  { induction l as [|n l IH]; intros i m; simpl; [by eexists|].
    destruct (Hash.shard_total _ (Entity.BizId n) (Entity.BizKey n) wf) as (d & -> & _). simpl. apply IH. }
  destruct (Hm (map (fun n => Entity.stamp n (UnixMilli now)) ns) 0%nat ∅) as [m E]. rewrite E. cbn [go_bind].
  destruct (insert_dbs_total fuel (map_range m) st (map (fun n => Entity.stamp n (UnixMilli now)) ns) None)
    as [[st' [rows err]] ->]; [done..| |by do 3 eexists].
  intros name places i Hin%map_range_lookup Hi. apply (group_by_db_home _ _ E _ _ i Hin) in Hi as (n & d & Hn & _).
  by eapply lookup_lt_Some.
Qed.

(** C8: A batch returns: when the database does not report duplicate ids, one attempt
    for each database is enough, whatever else fails. *)
Theorem batch_create_returns fuel now st ns :
  no_duplicates -> ok_gen (Dao.gen st) ->
  exists st' rows err, Dao.batchCreate nd (S fuel) now now' cb st ns = Ret (Some (st', (rows, err))).
Proof using wf wf_cb divides. apply batchCreate_returns. Qed.
End batch.

(** ** Reading by ids *)

Section reads.
Context `{Gorm}.
Variable nd : Dao.NotifShardingDAO.

Abbreviation where_is id := (Hash.ShardWithId (Dao.notifShardingStrategy nd) id).

(** The row of a notification by its id, in the shard the id names. *)
Definition row_of (s : cluster) (id : Z) : option Entity.Notification :=
  match where_is id with Ret d => notifs s (DB d) (Table d) id | Panic _ => None end.

Lemma group_ids_spec ids : forall m m', Dao.group_ids nd ids m = Ret m' ->
  forall k id, id ∈ default [] (m' !! k) <->
    id ∈ default [] (m !! k) \/ id ∈ ids /\ exists d, where_is id = Ret d /\ (DB d, Table d) = k.
Proof using Type.
  induction ids as [|x ids IH]; simpl; intros m m'.
  - intros [= <-] k id. rewrite elem_of_nil. tauto.
  - intros (d & Hd & E)%go_bind_ret k id. rewrite (IH _ _ E k id).
    assert (Hx : forall l, default [] (Some match m !! (DB d, Table d) with Some val => val ++ [x] | None => [x] end) = l ->
              id ∈ l <-> id ∈ default [] (m !! (DB d, Table d)) \/ id = x).
    { intros l <-. simpl. destruct (m !! (DB d, Table d)) as [val|]; simpl; [rewrite elem_of_app, list_elem_of_singleton|rewrite list_elem_of_singleton, elem_of_nil]; tauto. }
    rewrite elem_of_cons. destruct (decide ((DB d, Table d) = k)) as [<-|Hne].
    + rewrite lookup_insert_eq, (Hx _ eq_refl). split.
      * intros [[Hi| ->]|[Hi He]]; [by left|right|by right; split; [right|]]. split; [by left|]. by exists d.
      * intros [Hi|[[->|Hi] He]]; [by left; left|by left; right|by right].
    + rewrite lookup_insert_ne by done. split.
      * intros [Hi|[Hi He]]; [by left|]. right. split; [by right|done].
      * intros [Hi|[[->|Hi] He]]; [by left| |by right]. destruct He as (d' & Hd' & Hk). exfalso. apply Hne. congruence.
Qed.

(** The map of the rows that were found. *)
Lemma foldl_rows ns : forall (m : gmap Z Entity.Notification) id n,
  (forall a b, a ∈ ns -> b ∈ ns -> Entity.Id a = Entity.Id b -> a = b) ->
  foldl (fun m n => <[Entity.Id n := n]> m) m ns !! id = Some n <->
    n ∈ ns /\ Entity.Id n = id \/ m !! id = Some n /\ forall a, a ∈ ns -> Entity.Id a <> id.
Proof using Type.
  induction ns as [|x ns IH]; simpl; intros m id n Hinj.
  - rewrite elem_of_nil. split; [intros Hm; right; split; [done|]; by intros a ?%elem_of_nil|]. by intros [[[] _]|[? _]].
  - rewrite IH by (intros a b Ha Hb; apply Hinj; by right). setoid_rewrite elem_of_cons. split.
    + intros [[Hn Hid]|[Hm Hno]]; [left; by auto|]. apply lookup_insert_Some in Hm as [[Hid <-]|[Hne Hm]]; [left; by auto|].
      right. split; [done|]. intros a [->|Ha]; [done|]. by apply Hno.
    + intros [[[->|Hn] Hid]|[Hm Hno]]; [|by left|].
      * destruct (decide (Entity.Id x ∈ map Entity.Id ns)) as [Hx|Hx].
        -- apply list_elem_of_fmap in Hx as (y & He & Hy). left. split; [|done].
           by rewrite (Hinj x y); [|left|right|].
        -- right. split; [by apply lookup_insert_Some; left|]. intros a Ha He. apply Hx, list_elem_of_fmap. exists a. split; [congruence|done].
      * right. split; [|by auto]. rewrite lookup_insert_ne; [done|]. apply Hno. by left.
Qed.

(** The goroutines without an error found the rows of their groups. *)
Lemma find_groups_spec s groups : forall m err m',
  (forall k ids id, (k, ids) ∈ groups -> id ∈ ids -> exists d, where_is id = Ret d /\ (DB d, Table d) = k) ->
  (forall id n, m !! id = Some n -> row_of s id = Some n) ->
  Dao.find_groups nd s groups m err = (m', None) ->
  err = None /\ forall id n, m' !! id = Some n <->
    m !! id = Some n \/ row_of s id = Some n /\ exists k ids, (k, ids) ∈ groups /\ id ∈ ids.
Proof using Type.
  induction groups as [|[[db tb] ids] groups IH]; simpl; intros m err m' Hk Hm.
  - intros [= <- ->]. split; [done|]. intros id n. split; [by left|]. intros [?|(_ & ? & ? & []%elem_of_nil & _)]. done.
  - assert (Hk' : forall k ids id, (k, ids) ∈ groups -> id ∈ ids -> exists d, where_is id = Ret d /\ (DB d, Table d) = k)
      by (intros k l id Hin; apply Hk; by right).
    case_bool_decide as Hdb; simpl.
    2: { intros E. apply IH in E as [E _]; [|done..]. by destruct err. }
    destruct (Find_n s db tb ids) as [ns e] eqn:Ef. intros E.
    destruct e as [e|].
    { exfalso. assert (Hx : forall groups m err m', Dao.find_groups nd s groups m (Some err) = (m', None) -> False).
      { clear. induction groups as [|[[d t] l] groups IH]; simpl; intros m err m'; [done|].
        destruct (negb _); [apply IH|]. destruct (Find_n _ _ _ _). apply IH. }
      destruct err; by eapply Hx. }
    assert (Hf : forall n, n ∈ ns <-> Entity.Id n ∈ ids /\ notifs s db tb (Entity.Id n) = Some n) by (by apply Find_n_law).
    assert (Hrow : forall id, id ∈ ids -> row_of s id = notifs s db tb id).
    { intros id Hi. destruct (Hk (db, tb) ids id) as (d & Hd & [= <- <-]); [by left|done|]. unfold row_of. by rewrite Hd. }
    assert (Hinj : forall a b, a ∈ ns -> b ∈ ns -> Entity.Id a = Entity.Id b -> a = b).
    { intros a b [_ Ha]%Hf [_ Hb]%Hf Eq. rewrite Eq in Ha. congruence. }
    assert (Hm1 : forall id n, foldl (fun m n => <[Entity.Id n := n]> m) m ns !! id = Some n <->
              m !! id = Some n \/ row_of s id = Some n /\ id ∈ ids).
    { intros id n. rewrite (foldl_rows ns m id n Hinj). split.
      - intros [[Hn <-]|[Hn _]]; [right|by left]. apply Hf in Hn as [Hi Hn]. by rewrite Hrow.
      - intros [Hn|[Hn Hi]].
        + destruct (decide (id ∈ ids)) as [Hi|Hi].
          * left. pose proof (Hm _ _ Hn) as Hr. rewrite Hrow in Hr by done. pose proof (notifs_id _ _ _ _ _ Hr) as <-.
            split; [by apply Hf|done].
          * right. split; [done|]. intros a [Ha _]%Hf <-. done.
        + left. rewrite Hrow in Hn by done. pose proof (notifs_id _ _ _ _ _ Hn) as <-. split; [by apply Hf|done]. }
    assert (Hm1' : forall id n, foldl (fun m n => <[Entity.Id n := n]> m) m ns !! id = Some n -> row_of s id = Some n).
    { intros id n [Hn|[Hn _]]%Hm1; [by apply Hm|done]. }
    assert (He : match err with Some _ => err | None => None end = err) by by destruct err.
    rewrite He in E. apply IH in E as [Hn Hspec]; [|done..]. split; [done|].
    intros id n. rewrite Hspec, Hm1. split.
    + intros [[Hn'|[Hn' Hi]]|(Hn' & k & l & Hin & Hi)]; [by left|right|right].
      * split; [done|]. exists (db, tb), ids. split; [by left|done].
      * split; [done|]. exists k, l. split; [by right|done].
    + intros [Hn'|(Hn' & k & l & [[= -> ->]|Hin]%elem_of_cons & Hi)]; [by left; left|by left; right|].
      right. split; [done|]. by exists k, l.
Qed.

Lemma get_map_rows `{MapRange} s ids m :
  Dao.GetMapByIds nd s ids = Ret (m, None) ->
  forall id n, m !! id = Some n <-> id ∈ ids /\ row_of s id = Some n.
Proof using Type.
  unfold Dao.GetMapByIds. intros (idMap & Hg & E)%go_bind_ret id n. injection E as E.
  assert (Hgroup : forall k l i, (k, l) ∈ map_range idMap ->
            (i ∈ l <-> i ∈ ids /\ exists d, where_is i = Ret d /\ (DB d, Table d) = k)).
  { intros k l i Hin%map_range_lookup. pose proof (group_ids_spec _ _ _ Hg k i) as Hs.
    rewrite Hin, lookup_empty in Hs. simpl in Hs. rewrite Hs, elem_of_nil. tauto. }
  apply find_groups_spec in E as [_ E].
  - rewrite E, lookup_empty. split.
    + intros [?|(Hr & k & l & Hin & Hi)]; [done|]. apply (Hgroup _ _ _ Hin) in Hi as [Hi _]. done.
    + intros [Hi Hr]. right. split; [done|]. unfold row_of in Hr. destruct (where_is id) as [d|] eqn:Ed; [|done].
      pose proof (group_ids_spec _ _ _ Hg (DB d, Table d) id) as Hs. destruct (idMap !! (DB d, Table d)) as [l|] eqn:El.
      * exists (DB d, Table d), l. rewrite map_range_lookup. split; [done|]. apply Hs. right. split; [done|]. by exists d.
      * exfalso. apply (elem_of_nil id), Hs. right. split; [done|]. by exists d.
  - intros k l i Hin Hi. by apply (Hgroup k l i Hin) in Hi as [_ ?].
  - intros i n'. by rewrite lookup_empty.
Qed.

Lemma GetMapByIds_where `{MapRange} s ids r id :
  Dao.GetMapByIds nd s ids = Ret r -> id ∈ ids -> exists d, where_is id = Ret d.
Proof using Type.
  unfold Dao.GetMapByIds. intros (idMap & Hg & _)%go_bind_ret. revert Hg. generalize (∅ : gmap (string * string) (list Z)).
  induction ids as [|x ids IH]; simpl; intros m Hg; [by intros ?%elem_of_nil|].
  apply go_bind_ret in Hg as (d & Hd & Hg). intros [->|Hi]%elem_of_cons; [by exists d|by eapply IH].
Qed.

(** C9: Reading notifications in bulk agrees with reading them one by one: when
    [GetMapByIds] succeeds it has the rows of the ids it was asked for, each from the
    shard the id names: under each of them the notification [GetById] answers, none
    under an id that [GetById] does not find, and nothing under another id. *)
Theorem get_map_by_ids_agrees `{MapRange} s ids m :
  Dao.GetMapByIds nd s ids = Ret (m, None) ->
  (forall id n, m !! id = Some n <-> id ∈ ids /\ row_of s id = Some n) /\
  forall id,
    if decide (id ∈ ids) then
      match Dao.GetById nd s id with
      | Ret (n, None) => m !! id = Some n
      | Ret (_, Some e) => errors_Is e (SCode ErrNotificationNotFound) = true -> m !! id = None
      | Panic _ => False
      end
    else m !! id = None.
Proof using Type.
  intros Hm. split; [by apply get_map_rows|]. intros id.
  pose proof (get_map_rows s ids m Hm id) as Hrow. case_decide as Hi.
  - destruct (GetMapByIds_where _ _ _ _ Hm Hi) as [d Hd]. unfold Dao.GetById. rewrite Hd. simpl.
    unfold row_of in Hrow. rewrite Hd in Hrow. case_bool_decide; simpl; [|done].
    destruct (First_n _ _ _ _) as [n|e] eqn:E.
    + apply First_n_some in E. by apply Hrow.
    + destruct (errors_Is e ErrRecordNotFound) eqn:Er.
      * intros _. apply (First_n_none _ _ _ _ _ E) in Er. destruct (m !! id) as [n|]; [|done].
        destruct (Hrow n) as [[_ Hn] _]; [done|]. congruence.
      * rewrite (First_n_extern _ _ _ _ _ _ E). done.
  - destruct (m !! id) as [n|]; [|done]. by destruct (Hrow n) as [[? _] _].
Qed.
End reads.

(** ** Runs *)

(** A batch of two notifications on an empty database, read back. *)
Definition two_rows : list Entity.Notification :=
  [Dao.sample_row; Entity.mkNotif 0 8 "order-2" "[]" ChannelSMS 3 4 "{}" SendStatusPending 0 0 0 0 0].

Definition run_batch (st : @Dao.state Dao.mem_gorm) :=
  @Dao.batchCreate fnv_hash Dao.mem_gorm Dao.sample_dao key_order 3 now2025 now2025 true st two_rows.

Lemma sample_wf :
  Hash.wf (Dao.notifShardingStrategy Dao.sample_dao) /\ Hash.wf (Dao.cbLogShardingStrategy Dao.sample_dao) /\
  (Hash.dbSharding (Dao.notifShardingStrategy Dao.sample_dao) *
   Hash.tableSharding (Dao.notifShardingStrategy Dao.sample_dao) | 1024) /\ ok_gen (Dao.gen Dao.sample_state).
Proof. split_and!; [vm_compute; intuition congruence..|by exists 128|vm_compute; intuition congruence]. Qed.

Lemma run_batch_ok :
  match run_batch Dao.sample_state with Ret (Some (_, (_, None))) => true | _ => false end = true.
Proof. by vm_compute. Qed.

Lemma batch_create_stores_witness :
  match run_batch Dao.sample_state with
  | Ret (Some (st', (rows, None))) =>
      length rows = 2%nat /\
      exists row d, rows !! 1%nat = Some row /\ Entity.BizKey row = "order-2"%string /\
        @notifs Dao.mem_gorm (Dao.db st') (DB d) (Table d) (Entity.Id row) = Some row
  | _ => False
  end.
Proof.
  destruct sample_wf as (Hwf & _ & Hdiv & Hg). pose proof run_batch_ok as Hrun.
  destruct (run_batch Dao.sample_state) as [[[st' [rows [e|]]]|]|msg] eqn:E; [discriminate Hrun| |discriminate Hrun..].
  destruct (@batch_create_stores fnv_hash Dao.mem_gorm Dao.sample_dao now2025 true Hwf Hdiv key_order 3 now2025
    Dao.sample_state two_rows st' rows None Hg E) as [_ Hok].
  destruct (Hok eq_refl) as [Hl Hrows]. split; [exact Hl|].
  destruct (Hrows 1%nat _ eq_refl) as (row & Hrow & Hst & d & _ & Hn & _).
  exists row, d. split; [exact Hrow|]. split; [by rewrite Hst|exact Hn].
Defined.

(** A memory that reports a taken id as an error of another kind. *)
Definition plain_gorm : Gorm := Dao.mem_gorm_with entity_columns (fun _ => ENew "refused").

Lemma plain_no_duplicates : @no_duplicates plain_gorm.
Proof.
  intros m d sql ins. simpl. revert m. induction ins as [|i ins IH]; intros m m' e; simpl; [done|].
  destruct (match i with InsN t n => _ | InsC t c => _ end) as [m1|e1] eqn:E; [apply IH|]. intros [= _ <-].
  destruct i; [unfold Dao.mem_create_n in E|unfold Dao.mem_create_c in E]; destruct (_ !! _) in E; by simplify_eq.
Qed.

Lemma batch_create_returns_witness :
  exists st' rows err,
    @Dao.batchCreate fnv_hash plain_gorm Dao.sample_dao key_order 1 now2025 now2025 true
      (@Dao.mkState plain_gorm (Dao.mkMemory ∅ ∅) Snowflake.NewGenerator) two_rows = Ret (Some (st', (rows, err))).
Proof.
  destruct sample_wf as (Hwf & Hwf_cb & Hdiv & Hg).
  exact (@batch_create_returns fnv_hash plain_gorm Dao.sample_dao now2025 true Hwf Hdiv key_order Hwf_cb 0 now2025
    (@Dao.mkState plain_gorm (Dao.mkMemory ∅ ∅) Snowflake.NewGenerator) two_rows plain_no_duplicates Hg).
Defined.

Definition read_back :=
  @Dao.GetMapByIds Dao.mem_gorm Dao.sample_dao key_order (Dao.db Dao.created_state) [Entity.Id Dao.created_row; 5].

Lemma get_map_by_ids_agrees_witness :
  match read_back with
  | Ret (m, None) => m !! Entity.Id Dao.created_row = Some Dao.created_row /\ m !! 6 = None
  | _ => False
  end.
Proof.
  assert (Hrun : match read_back with Ret (_, None) => true | _ => false end = true) by (vm_compute; reflexivity).
  destruct read_back as [[m [e|]]|msg] eqn:E; [discriminate Hrun| |discriminate Hrun].
  pose proof (@get_map_by_ids_agrees Dao.mem_gorm Dao.sample_dao key_order _ _ m E) as [_ Hget]. split.
  - specialize (Hget (Entity.Id Dao.created_row)). rewrite decide_True in Hget by (by left).
    assert (Hr : match @Dao.GetById Dao.mem_gorm Dao.sample_dao (Dao.db Dao.created_state) (Entity.Id Dao.created_row) with
                 | Ret (n, None) => Some n | _ => None end = Some Dao.created_row) by (vm_compute; reflexivity).
    destruct (Dao.GetById _ _ _) as [[n [e|]]|]; [discriminate Hr| |discriminate Hr].
    injection Hr as Hr. rewrite Hr in Hget. exact Hget.
  - specialize (Hget 6). rewrite decide_False in Hget; [exact Hget|].
    apply (bool_decide_unpack (6 ∉ _)). vm_compute. exact I.
Defined.

(** ** A batch that is tried twice

    The second id the batch draws is taken: the first notification is inserted
    before the database says so, and once more, under a new id, when the batch is
    tried again. *)
Definition second_id : Z :=
  (@Snowflake.NextId fnv_hash (@Snowflake.NextId fnv_hash Snowflake.NewGenerator 7 "order-1" now2025).1
     7 "order-1" now2025).2.

Definition taken : @Dao.state Dao.mem_gorm :=
  @Dao.mkState Dao.mem_gorm
    (Dao.mkMemory {[ ("jotify_0"%string, "notification_3"%string, second_id) :=
                       Entity.with_Id (Entity.mkNotif 0 9 "other" "[]" ChannelSMS 3 4 "{}" SendStatusPending 0 0 0 0 0) second_id ]} ∅)
    Snowflake.NewGenerator.

Theorem retry_stores_twice :
  match @Dao.batchCreate fnv_hash Dao.mem_gorm Dao.sample_dao key_order 3 now2025 now2025 false taken
          [Dao.sample_row; Dao.sample_row] with
  | Ret (Some (st', (rows, None))) =>
      length rows = 2%nat /\
      length (filter (fun e => Entity.BizKey e.2 = "order-1"%string) (map_to_list (Dao.m_notifs (Dao.db st')))) = 3%nat
  | _ => False
  end.
Proof. vm_compute. by split. Qed.
End DaoBatch.
