(* ===== verification/NotifRepo.v ===== *)
(** * The notification repository: internal/repository/notification.go

    [DefaultNotifRepo] composes the quota cache and the data access object: it
    takes quota before it stores, and gives it back when storing fails.  The
    data access object is an interface, [NotificationDAO], as in the source; the
    sharded implementation of the file Dao is an instance. *)
From Stdlib Require Import ZArith Lia List.
From stdpp Require Import prelude strings gmap.
From S2P Require Import Prelude GoLang Errs GoStrings Externals Snowflake Sharding Domain Quota GoJson Json Dao.

Class NotificationDAO := {
  dstate : Type;
  d_Create : dstate -> Entity.Notification -> go (dstate * (Entity.Notification * option error));
  d_CreateWithCallback : dstate -> Entity.Notification -> go (dstate * (Entity.Notification * option error));
  d_BatchCreate : dstate -> list Entity.Notification -> go (dstate * (list Entity.Notification * option error));
  d_BatchCreateWithCallback : dstate -> list Entity.Notification -> go (dstate * (list Entity.Notification * option error));
  d_BatchUpdateStatus : dstate -> list Entity.Notification -> list Entity.Notification -> go (dstate * option error);
  d_GetById : dstate -> Z -> go (Entity.Notification * option error);
  d_GetByKey : dstate -> Z -> string -> go (Entity.Notification * option error);
  d_GetMapByIds : dstate -> list Z -> go (gmap Z Entity.Notification * option error);
  d_MarkSuccess : dstate -> Entity.Notification -> go (dstate * option error);
  d_MarkFailure : dstate -> Entity.Notification -> go (dstate * option error);
  d_CompareAndSwapStatus : dstate -> Entity.Notification -> go (dstate * option error);
  d_FindReady : dstate -> Z -> Z -> go (list Entity.Notification * option error) }.

(** The interface [NotificationRepo] the services are written against. *)
Class NotificationRepo := {
  rstate : Type;
  r_Create : rstate -> Notif.Notification -> go (rstate * (Notif.Notification * option error));
  r_CreateWithCallback : rstate -> Notif.Notification -> go (rstate * (Notif.Notification * option error));
  r_BatchCreate : rstate -> list Notif.Notification -> go (rstate * (list Notif.Notification * option error));
  r_BatchCreateWithCallback : rstate -> list Notif.Notification -> go (rstate * (list Notif.Notification * option error));
  r_BatchUpdateStatus : rstate -> list Notif.Notification -> list Notif.Notification -> go (rstate * option error);
  r_MarkSuccess : rstate -> Notif.Notification -> go (rstate * option error);
  r_MarkFailure : rstate -> Notif.Notification -> go (rstate * option error);
  r_GetMapByIds : rstate -> list Z -> go (gmap Z Notif.Notification * option error);
  r_GetByKey : rstate -> Z -> string -> go (Notif.Notification * option error);
  r_CompareAndSwapStatus : rstate -> Notif.Notification -> go (rstate * option error);
  r_FindReady : rstate -> Z -> Z -> go (list Notif.Notification * option error) }.

Module Repo.
Section repo.
Context `{NotificationDAO} `{RedisKV} `{MapRange}.

Definition defaultQuota : Z := 1.

(** The two stores behind the repository. *)
Record state := mkState { dao : dstate; quota : store }.

(** *** Entities and domain objects *)

Definition toEntity (n : Notif.Notification) : Entity.Notification :=
  Entity.mkNotif (Notif.Id n) (Notif.BizId n) (Notif.BizKey n) (MarshalList (Notif.Receivers n))
    (Notif.Channel_ n) (Tpl_Id (Notif.Tpl n)) (VersionId (Notif.Tpl n))
    (MarshalMap (Params (Notif.Tpl n))) (Notif.Status n)
    (UnixMilli (Notif.ScheduledStart n)) (UnixMilli (Notif.ScheduledEnd n)) (Notif.Version n) 0 0.

Definition toEntities (ns : list Notif.Notification) : list Entity.Notification := map toEntity ns.

Definition toDomain (e : Entity.Notification) : Notif.Notification :=
  Notif.mkNotification (Entity.Id e) (Entity.BizId e) (Entity.BizKey e)
    (UnmarshalList (Entity.Receivers e)) (Entity.Channel_ e)
    (mkTemplate (Entity.TplId e) (Entity.TplVersionId e) (UnmarshalMap (Entity.TplParams e)))
    (Entity.Status e) (time_UnixMilli (Entity.ScheduleStrat e)) (time_UnixMilli (Entity.ScheduleEnd e))
    (Entity.Version e) SendConf.zero.

(** *** Creation

    [wd] and [wi] are what happens to the calls that take and give back quota. *)

Definition create_with
    (insert : dstate -> Entity.Notification -> go (dstate * (Entity.Notification * option error)))
    (wd wi : net) (st : state) (n : Notif.Notification)
    : go (state * (Notif.Notification * option error)) :=
  let quotaParam := mkParam (Notif.BizId n) defaultQuota (Notif.Channel_ n) in
  match QuotaCache.Decr wd quotaParam (quota st) with
  | (q, Some err) => Ret (mkState (dao st) q, (Notif.zero, Some err))
  | (q, None) =>
      let! '(d, (entity, err)) := insert (dao st) (toEntity n) in
      match err with
      | Some err =>
          let '(q, _) := QuotaCache.Incr wi quotaParam q in
          Ret (mkState d q, (Notif.zero, Some err))
      | None => Ret (mkState d q, (toDomain entity, None))
      end
  end.

Definition Create := create_with d_Create.
Definition CreateWithCallback := create_with d_CreateWithCallback.

(** [fmt.Sprintf("%d:%s", n.BizId, n.Channel.String())]. *)
Definition paramKey (bizId : Z) (channel : Channel) : string := FormatUint bizId +:+ ":" +:+ channel.

Fixpoint buildQuotaParams_loop (ns : list Notif.Notification) (m : gmap string QuotaParam)
    : gmap string QuotaParam :=
  match ns with
  | [] => m
  | n :: ns =>
      let key := paramKey (Notif.BizId n) (Notif.Channel_ n) in
      let param := default (mkParam (Notif.BizId n) 0 (Notif.Channel_ n)) (m !! key) in
      let param := mkParam (BizId param) (i32 (Quota param + 1)) (Quota.Channel_ param) in
      buildQuotaParams_loop ns (<[key := param]> m)
  end.

(** [xmap.Vals] lists the values of a map in the order of one iteration. *)
Definition buildQuotaParams (ns : list Notif.Notification) : list QuotaParam :=
  map snd (map_range (buildQuotaParams_loop ns ∅)).

(** A failure of the data access object gives the quota back and is then
    dropped: what is returned carries no error. *)
Definition batch_create_with
    (insert : dstate -> list Entity.Notification -> go (dstate * (list Entity.Notification * option error)))
    (wd wi : net) (st : state) (ns : list Notif.Notification)
    : go (state * (list Notif.Notification * option error)) :=
  if (length ns =? 0)%nat then Ret (st, ([], None))
  else
    let quotaParams := buildQuotaParams ns in
    match QuotaCache.BatchDecr wd quotaParams (quota st) with
    | (q, Some err) => Ret (mkState (dao st) q, ([], Some err))
    | (q, None) =>
        let! '(d, (entities, err)) := insert (dao st) (toEntities ns) in
        let q := match err with
                 | Some _ => (QuotaCache.BatchIncr wi quotaParams q).1
                 | None => q
                 end in
        Ret (mkState d q, (map toDomain entities, None))
    end.

Definition BatchCreate := batch_create_with d_BatchCreate.
Definition BatchCreateWithCallback := batch_create_with d_BatchCreateWithCallback.

(** *** Status updates *)

Definition BatchUpdateStatus (wi : net) (st : state) (successNs failureNs : list Notif.Notification)
    : go (state * option error) :=
  let! '(d, err) := d_BatchUpdateStatus (dao st) (toEntities successNs) (toEntities failureNs) in
  match err with
  | Some err => Ret (mkState d (quota st), Some err)
  | None =>
      let params := buildQuotaParams failureNs in
      let '(q, _) := QuotaCache.BatchIncr wi params (quota st) in
      Ret (mkState d q, None)
  end.

Definition MarkSuccess (st : state) (n : Notif.Notification) : go (state * option error) :=
  let! '(d, err) := d_MarkSuccess (dao st) (toEntity n) in
  Ret (mkState d (quota st), err).

Definition MarkFailure (wi : net) (st : state) (n : Notif.Notification) : go (state * option error) :=
  let! '(d, err) := d_MarkFailure (dao st) (toEntity n) in
  match err with
  | Some err => Ret (mkState d (quota st), Some err)
  | None =>
      let '(q, err) := QuotaCache.Incr wi (mkParam (Notif.BizId n) defaultQuota (Notif.Channel_ n)) (quota st) in
      Ret (mkState d q, err)
  end.

Definition CompareAndSwapStatus (st : state) (n : Notif.Notification) : go (state * option error) :=
  let! '(d, err) := d_CompareAndSwapStatus (dao st) (toEntity n) in
  Ret (mkState d (quota st), err).

(** *** Reads *)

Definition GetMapByIds (st : state) (ids : list Z) : go (gmap Z Notif.Notification * option error) :=
  let! '(entityMap, err) := d_GetMapByIds (dao st) ids in
  match err with
  | Some err => Ret (∅, Some err)
  | None => Ret (toDomain <$> entityMap, None)
  end.

Definition GetByKey (st : state) (bizId : Z) (bizKey : string) : go (Notif.Notification * option error) :=
  let! '(n, err) := d_GetByKey (dao st) bizId bizKey in
  match err with
  | Some err => Ret (Notif.zero, Some err)
  | None => Ret (toDomain n, None)
  end.

Definition FindReady (st : state) (offset limit : Z) : go (list Notif.Notification * option error) :=
  let! '(ns, err) := d_FindReady (dao st) offset limit in
  Ret (map toDomain ns, err).

(** ** The quota of a batch *)

Lemma redisKey_paramKey b c : QuotaCache.redisKey b c = "quota:" +:+ paramKey b c.
Proof. done. Qed.

Definition nkey (n : Notif.Notification) : string := paramKey (Notif.BizId n) (Notif.Channel_ n).

(** How many notifications of a batch draw on a key. *)
Definition count (ns : list Notif.Notification) (k : string) : Z :=
  sumZ (fun n => if decide (nkey n = k) then 1 else 0) ns.

Lemma count_nonneg ns k : 0 <= count ns k.
Proof. apply sumZ_nonneg. intros n _. by destruct (decide _). Qed.

Lemma count_le_length ns k : count ns k <= Z.of_nat (length ns).
Proof. induction ns as [|n ns IH]; unfold count in *; simpl; [done|]. destruct (decide _); lia. Qed.

Lemma ncount_snoc ns n k : count (ns ++ [n]) k = count ns k + (if decide (nkey n = k) then 1 else 0).
Proof. unfold count. rewrite sumZ_app. simpl. lia. Qed.

(** The map after the notifications [done_]. *)
Definition counts (done_ : list Notif.Notification) (m : gmap string QuotaParam) : Prop :=
  forall k, match m !! k with
            | Some p => paramKey (BizId p) (Quota.Channel_ p) = k /\ Quota p = count done_ k /\ 1 <= Quota p
            | None => count done_ k = 0
            end.

Lemma counts_step done_ m n :
  Z.of_nat (length done_) + 1 < 2 ^ 31 -> counts done_ m ->
  counts (done_ ++ [n]) (buildQuotaParams_loop [n] m).
Proof.
  intros Hlen Hm k. simpl. rewrite ncount_snoc. fold (nkey n).
  specialize (Hm k). pose proof (count_le_length done_ k). pose proof (count_nonneg done_ k).
  destruct (decide (nkey n = k)) as [<-|Hne].
  - rewrite lookup_insert_eq. destruct (m !! nkey n) as [p|]; simpl.
    + destruct Hm as (Hk & Hq & Hq1). rewrite wrap_s_id by (lia || unfold in_s; lia).
      split_and!; [done|lia|lia].
    + rewrite (wrap_s_id 32) by (lia || unfold in_s; lia). split_and!; [done|lia|lia].
  - rewrite lookup_insert_ne by done. destruct (m !! k); [|lia].
    destruct Hm as (Hk & Hq & Hq1). split_and!; [done|lia|done].
Qed.

Lemma counts_loop ns done_ m :
  Z.of_nat (length (done_ ++ ns)) < 2 ^ 31 -> counts done_ m ->
  counts (done_ ++ ns) (buildQuotaParams_loop ns m).
Proof.
  revert done_ m; induction ns as [|n ns IH]; intros done_ m Hlen Hm.
  - by rewrite app_nil_r.
  - rewrite length_app in Hlen. simpl in Hlen.
    change (buildQuotaParams_loop (n :: ns) m) with (buildQuotaParams_loop ns (buildQuotaParams_loop [n] m)).
    rewrite cons_middle, app_assoc. apply IH.
    + rewrite !length_app. simpl. lia.
    + apply counts_step; [lia|done].
Qed.

Lemma params_counts ns :
  Z.of_nat (length ns) < 2 ^ 31 -> counts ns (buildQuotaParams_loop ns ∅).
Proof.
  intros Hlen. apply (counts_loop ns []); [done|]. intros k. by rewrite lookup_empty.
Qed.

(** The parameters of a batch have distinct keys and positive quotas, and ask of
    each key what its notifications need. *)
Lemma buildQuotaParams_spec ns :
  Z.of_nat (length ns) < 2 ^ 31 ->
  QuotaCache.params_ok (buildQuotaParams ns) /\
  Forall (fun p => 0 < Quota p) (buildQuotaParams ns) /\
  forall k, QuotaCache.asked (buildQuotaParams ns) ("quota:" +:+ k) = count ns k.
Proof.
  intros Hlen. pose proof (params_counts ns Hlen) as Hm. unfold buildQuotaParams.
  set (m := buildQuotaParams_loop ns ∅) in *.
  assert (Hkey : forall k p, (k, p) ∈ map_range m -> QuotaCache.pkey p = "quota:" +:+ k /\
                   Quota p = count ns k /\ 1 <= Quota p).
  { intros k p Hin. apply map_range_lookup in Hin. specialize (Hm k). rewrite Hin in Hm.
    destruct Hm as (Hk & Hq & Hq1). unfold QuotaCache.pkey. by rewrite redisKey_paramKey, Hk. }
  assert (Hkeys : map QuotaCache.pkey (map snd (map_range m)) = (fun e => "quota:" +:+ e.1) <$> map_range m).
  { rewrite map_map. apply map_ext_in. intros [k p] Hin. apply list_elem_of_In in Hin. apply Hkey in Hin as [Hin _]. exact Hin. }
  assert (Hnd : NoDup (map QuotaCache.pkey (map snd (map_range m)))).
  { rewrite Hkeys.
    change (fun e : string * QuotaParam => "quota:" +:+ e.1) with (String.append "quota:" ∘ @fst string QuotaParam).
    rewrite list_fmap_compose.
    apply NoDup_fmap_2; [apply _|]. rewrite map_range_perm. apply NoDup_fst_map_to_list. }
  assert (Hpos : Forall (fun p => 0 < Quota p) (map snd (map_range m))).
  { apply Forall_map, Forall_forall. intros [k p] Hin. simpl. apply Hkey in Hin. lia. }
  split; [split; [exact Hnd|eapply Forall_impl; [exact Hpos|simpl; lia]]|]. split; [exact Hpos|].
  intros k. specialize (Hm k). destruct (m !! k) as [p|] eqn:E.
  - destruct Hm as (Hk & Hq & _). rewrite <- Hq.
    assert (Hpk : QuotaCache.pkey p = "quota:" +:+ k) by (apply Hkey; by apply map_range_lookup).
    rewrite <- Hpk. apply QuotaCache.asked_distinct; [exact Hnd|].
    apply list_elem_of_In, in_map_iff. exists (k, p). split; [done|]. apply list_elem_of_In. by apply map_range_lookup.
  - rewrite Hm. apply QuotaCache.asked_absent. rewrite Hkeys. intros Hin.
    apply list_elem_of_fmap in Hin as ([k' p] & Heq & Hin). simpl in Heq.
    apply (inj (String.append "quota:")) in Heq as ->. apply map_range_lookup in Hin. congruence.
Qed.

(** ** Properties *)

Definition quota_param (n : Notif.Notification) : QuotaParam :=
  mkParam (Notif.BizId n) defaultQuota (Notif.Channel_ n).

Lemma quota_param_asked_nonneg n k : 0 <= QuotaCache.asked [quota_param n] k.
Proof. apply QuotaCache.asked_nonneg. by repeat constructor. Qed.

(** What a creation makes of the quota, of the store and of the answer. *)
Lemma create_cases insert wd wi st n st' r err :
  create_with insert wd wi st n = Ret (st', (r, err)) ->
  let left k := QuotaCache.avail (quota st) k in
  let left' k := QuotaCache.avail (quota st') k in
  let one k := QuotaCache.asked [quota_param n] k in
  match err with
  | None =>
      (exists e, insert (dao st) (toEntity n) = Ret (dao st', (e, None)) /\ r = toDomain e) /\
      (forall k, left' k + one k <= left k) /\ (wd = reached -> forall k, left' k = left k - one k)
  | Some e =>
      (dao st' = dao st /\ (forall k, left' k <= left k) /\
       (wd = reached -> e = ECode ErrInsufficientQuota /\ left (QuotaCache.pkey (quota_param n)) < 1 /\
                        forall k, left' k = left k)) \/
      ((exists x, insert (dao st) (toEntity n) = Ret (dao st', (x, Some e))) /\
       (forall k, left' k <= left k + (Z.of_nat (runs wi) - 1) * one k) /\
       (wd = reached -> 1 <= left (QuotaCache.pkey (quota_param n)) /\
                        forall k, left' k = left k + (Z.of_nat (runs wi) - 1) * one k))
  end.
Proof.
  unfold create_with. fold (quota_param n). set (p := quota_param n).
  pose proof (fun k => QuotaCache.Decr_le wd p (quota st) k ltac:(done)) as Hle.
  pose proof (fun k => QuotaCache.Decr_ok wd p (quota st) k ltac:(done)) as Hok.
  pose proof (QuotaCache.Decr_avail p (quota st) eq_refl) as [Ha Hn].
  pose proof (QuotaCache.Decr_any p (quota st) ltac:(done)) as (_ & He & _).
  destruct (QuotaCache.Decr wd p (quota st)) as [q [e|]] eqn:E; cbn [fst snd] in Hle, Hok.
  - intros [= <- <- <-]. cbn [dao quota]. left. split; [done|]. split; [done|]. intros ->. rewrite E in Ha, Hn, He.
    cbn [fst snd] in *. destruct He as [|[= ->]]; [done|]. split; [done|]. split.
    + destruct (decide (1 <= QuotaCache.avail (quota st) (QuotaCache.pkey p))) as [H1'|]; [|lia]. by apply Hn in H1'.
    + intros k. rewrite Ha. simpl. lia.
  - specialize (fun k => Hok k eq_refl) as Hk.
    destruct (insert _ _) as [[d [x [e|]]]|msg] eqn:Ei; cbn [go_bind]; [| |done].
    + pose proof (QuotaCache.Incr_runs wi p q Z.le_0_1) as Hi. destruct (QuotaCache.Incr wi p q) as [q1 e1].
      cbn [fst] in Hi. intros [= <- <- <-]. cbn [dao quota]. right. split; [by exists x|]. split.
      * intros k. rewrite Hi. specialize (Hk k). lia.
      * intros ->. rewrite E in Ha, Hn. cbn [fst snd] in *. split; [by apply Hn|].
        intros k. rewrite Hi, Ha. cbn [QuotaCache.unless]. lia.
    + intros [= <- <- <-]. cbn [dao quota]. split; [by exists x|]. split; [done|].
      intros ->. rewrite E in Ha. exact Ha.
Qed.

(** The quota of a creation, when redis answers. *)
Lemma create_quota insert st n st' r err :
  create_with insert reached reached st n = Ret (st', (r, err)) ->
  (forall k, QuotaCache.avail (quota st') k =
             QuotaCache.avail (quota st) k - QuotaCache.unless err (QuotaCache.asked [quota_param n] k)) /\
  (QuotaCache.avail (quota st) (QuotaCache.pkey (quota_param n)) < 1 ->
     err = Some (ECode ErrInsufficientQuota) /\ dao st' = dao st).
Proof.
  intros E%create_cases. simpl in E. destruct err as [e|]; simpl.
  - destruct E as [(Hd & _ & Hr)|(_ & _ & Hr)]; destruct (Hr eq_refl) as (H1' & H2').
    + destruct H2' as [_ Hk]. split; [intros k; rewrite Hk; lia|]. intros _. by rewrite H1'.
    + split; [|lia]. intros k. rewrite H2'. change (Z.of_nat (runs reached)) with 1. lia.
  - destruct E as (_ & Hle & Hr). split; [by apply Hr|]. intros Hlt.
    specialize (Hle (QuotaCache.pkey (quota_param n))). exfalso. revert Hle Hlt. unfold QuotaCache.asked, QuotaCache.avail. simpl.
    rewrite decide_True by done. unfold defaultQuota. lia.
Qed.


Lemma batch_create_cases insert st ns st' rs err :
  ns <> [] -> Z.of_nat (length ns) < 2 ^ 31 ->
  batch_create_with insert reached reached st ns = Ret (st', (rs, err)) ->
  let left k := QuotaCache.avail (quota st) ("quota:" +:+ k) in
  let left' k := QuotaCache.avail (quota st') ("quota:" +:+ k) in
  ((exists e, err = Some e) /\ dao st' = dao st /\ (forall k, left' k = left k) /\ ~ (forall k, count ns k <= left k)) \/
  (err = None /\ (forall k, count ns k <= left k) /\
   exists es derr, insert (dao st) (toEntities ns) = Ret (dao st', (es, derr)) /\ rs = map toDomain es /\
     forall k, left' k = left k - QuotaCache.unless derr (count ns k)).
Proof.
  intros Hne Hlen. unfold batch_create_with.
  destruct (Nat.eqb_spec (length ns) 0) as [E0|_]; [by apply length_zero_iff_nil in E0|].
  destruct (buildQuotaParams_spec ns Hlen) as (Hok & Hpos & Hask).
  destruct (QuotaCache.BatchDecr_avail _ (quota st) Hok Hpos) as [Hd Hen].
  assert (Hiff : (forall k, QuotaCache.asked (buildQuotaParams ns) k <= QuotaCache.avail (quota st) k) <->
                 (forall k, count ns k <= QuotaCache.avail (quota st) ("quota:" +:+ k))).
  { split; intros Hall k; [rewrite <- Hask; apply Hall|].
    destruct (decide (k ∈ map QuotaCache.pkey (buildQuotaParams ns))) as [Hin|Hout].
    - apply list_elem_of_In, in_map_iff in Hin as (p & <- & Hp). apply list_elem_of_In in Hp.
      unfold QuotaCache.pkey at 1 2. rewrite redisKey_paramKey, Hask. apply Hall.
    - rewrite (QuotaCache.asked_absent _ _ Hout). unfold QuotaCache.avail. lia. }
  rewrite Hiff in Hen.
  destruct (QuotaCache.BatchDecr reached (buildQuotaParams ns) (quota st)) as [q [e|]]; simpl in Hd, Hen.
  - intros [= <- <- <-]. left. simpl. split; [by eexists|]. split; [done|]. split.
    + intros k. rewrite Hd. lia.
    + intros Hall. by apply Hen in Hall.
  - destruct (insert _ _) as [[d [es derr]]|]; simpl; [|done]. intros [= <- <- <-]. right. simpl.
    split; [done|]. split; [by apply Hen|]. exists es, derr. split; [done|]. split; [done|].
    intros k. destruct derr as [e|]; simpl.
    + rewrite QuotaCache.BatchIncr_avail by apply Hok. rewrite Hd, Hask. lia.
    + rewrite Hd, Hask. done.
Qed.

(** Creating a batch takes the quota of all its notifications or none, and
    gives it back when storing fails; but the failure itself is lost: whenever
    the quota sufficed the call reports success, whatever the data access object
    answered. *)
Theorem batch_create_hides_failure insert st ns st' rs err :
  ns <> [] -> Z.of_nat (length ns) < 2 ^ 31 ->
  batch_create_with insert reached reached st ns = Ret (st', (rs, err)) ->
  let left k := QuotaCache.avail (quota st) ("quota:" +:+ k) in
  let left' k := QuotaCache.avail (quota st') ("quota:" +:+ k) in
  ((exists e, err = Some e) /\ dao st' = dao st /\ (forall k, left' k = left k) /\ ~ (forall k, count ns k <= left k)) \/
  (err = None /\ (forall k, count ns k <= left k) /\
   exists es derr, insert (dao st) (toEntities ns) = Ret (dao st', (es, derr)) /\ rs = map toDomain es /\
     forall k, left' k = left k - QuotaCache.unless derr (count ns k)).
Proof. apply batch_create_cases. Qed.

(** C37: a notification read back from its entity is the one that was stored,
    except that its window is cut to milliseconds and its sending strategy is
    not stored at all. *)
Theorem entity_roundtrip n :
  Forall utf8 (Notif.Receivers n) ->
  map_Forall (fun k v => utf8 k /\ utf8 v) (Params (Notif.Tpl n)) ->
  toDomain (toEntity n) =
  Notif.with_Strategy
    (Notif.with_Window n (time_UnixMilli (UnixMilli (Notif.ScheduledStart n)))
                         (time_UnixMilli (UnixMilli (Notif.ScheduledEnd n)))) SendConf.zero.
Proof.
  intros Hr Hp. unfold toDomain, toEntity. simpl.
  rewrite Unmarshal_MarshalList, Unmarshal_MarshalMap by done. by destruct n as [? ? ? ? ? [] ? ? ? ? ?].
Qed.

(** [DefaultNotifRepo] as the interface, when redis is reached. *)
Definition default_repo : NotificationRepo := {|
  rstate := state;
  r_Create := Create reached reached;
  r_CreateWithCallback := CreateWithCallback reached reached;
  r_BatchCreate := BatchCreate reached reached;
  r_BatchCreateWithCallback := BatchCreateWithCallback reached reached;
  r_BatchUpdateStatus := BatchUpdateStatus reached;
  r_MarkSuccess := MarkSuccess;
  r_MarkFailure := MarkFailure reached;
  r_GetMapByIds := GetMapByIds;
  r_GetByKey := GetByKey;
  r_CompareAndSwapStatus := CompareAndSwapStatus;
  r_FindReady := FindReady |}.

End repo.

(** ** The sharded data access object as the interface

    [now] and [now'] are the clock readings of the calls.  A batch insertion that
    does not end within [fuel] attempts has no result. *)
Section sharded.
Context `{XXHash} `{Gorm} `{MapRange}.
Variables (nd : Dao.NotifShardingDAO) (fuel : nat) (now now' : Time).

Definition on_db (st : Dao.state) (m : go (cluster * option error)) : go (Dao.state * option error) :=
  let! '(s, err) := m in Ret (Dao.mkState s (Dao.gen st), err).

Definition sharded : NotificationDAO := {|
  dstate := Dao.state;
  d_Create st n := Dao.Create nd st now now' n;
  d_CreateWithCallback st n := Dao.CreateWithCallback nd st now now' n;
  d_BatchCreate st ns := terminating (Dao.batchCreate nd fuel now now' false st ns);
  d_BatchCreateWithCallback st ns := terminating (Dao.batchCreate nd fuel now now' true st ns);
  d_BatchUpdateStatus st ok ko := on_db st (Dao.BatchUpdateStatus nd (Dao.db st) now ok ko);
  d_GetById st id := Dao.GetById nd (Dao.db st) id;
  d_GetByKey st b k := Dao.GetByKey nd (Dao.db st) b k;
  d_GetMapByIds st ids := Dao.GetMapByIds nd (Dao.db st) ids;
  d_MarkSuccess st n := on_db st (Dao.MarkSuccess nd (Dao.db st) now n);
  d_MarkFailure st n := on_db st (Dao.MarkFailure nd (Dao.db st) now n);
  d_CompareAndSwapStatus st n := on_db st (Dao.CompareAndSwapStatus nd (Dao.db st) now n);
  d_FindReady st offset limit := Dao.FindReady offset limit
|}.
End sharded.

(** ** Runs *)

Definition mem_dao : NotificationDAO :=
  @sharded fnv_hash Dao.mem_gorm key_order Dao.sample_dao 3 now2025 now2025.

Definition two_left : gmap string Z := {[ QuotaCache.redisKey 7 ChannelSMS := 2 ]}.

Definition start : @state mem_dao QuotaCache.map_redis :=
  @mkState mem_dao QuotaCache.map_redis Dao.sample_state two_left.

Definition sample_n : Notif.Notification := sample (sample_conf SendStrategyDelayed).

(** A store in which every id is the id of a notification. *)
Definition any_row (id : Z) : Entity.Notification := Entity.with_Id Entity.zero id.

Definition echo_dao : NotificationDAO := {|
  dstate := unit;
  d_Create s n := Ret (s, (n, None));
  d_CreateWithCallback s n := Ret (s, (n, None));
  d_BatchCreate s ns := Ret (s, (ns, None));
  d_BatchCreateWithCallback s ns := Ret (s, (ns, None));
  d_BatchUpdateStatus s _ _ := Ret (s, None);
  d_GetById _ id := Ret (any_row id, None);
  d_GetByKey _ _ _ := Ret (any_row 1, None);
  d_GetMapByIds _ ids := Ret (list_to_map (map (fun i => (i, any_row i)) ids), None);
  d_MarkSuccess s _ := Ret (s, None);
  d_MarkFailure s _ := Ret (s, None);
  d_CompareAndSwapStatus s _ := Ret (s, None);
  d_FindReady _ _ _ := Panic "implement me" |}.

(** A data access object that refuses everything. *)
Definition refuse {A B} (d : @dstate mem_dao) (_ : A) : go (@dstate mem_dao * (list B * option error)) :=
  Ret (d, ([], Some (ENew "refused"))).

(** An insertion that fails, and a refund that never reaches redis: the unit is lost. *)
Definition refuse_one (d : @dstate mem_dao) (_ : Entity.Notification) : go (@dstate mem_dao * (Entity.Notification * option error)) :=
  Ret (d, (Entity.zero, Some (ENew "refused"))).


Lemma batch_create_hides_failure_witness :
  match @batch_create_with mem_dao QuotaCache.map_redis key_order refuse reached reached start [sample_n] with
  | Ret (_, (_, err)) =>
      err = None \/ ~ (forall k, @count [sample_n] k <= QuotaCache.avail (quota start) ("quota:" +:+ k))
  | Panic _ => False
  end.
Proof.
  assert (Hr : is_panic (@batch_create_with mem_dao QuotaCache.map_redis key_order refuse reached reached start [sample_n]) = false)
    by by vm_compute.
  destruct (batch_create_with _ _ _ _ _) as [[st' [rs err]]|] eqn:E; [|done].
  destruct (@batch_create_hides_failure mem_dao QuotaCache.map_redis key_order refuse start [sample_n] st' rs err)
    as [(_ & _ & _ & H)|(H & _)]; [discriminate|reflexivity|exact E|by right|by left].
Defined.

Lemma entity_roundtrip_witness :
  toDomain (toEntity sample_n) =
  Notif.with_Strategy (Notif.with_Window sample_n (time_UnixMilli (UnixMilli zeroTime)) (time_UnixMilli (UnixMilli zeroTime)))
    SendConf.zero.
Proof.
  apply (entity_roundtrip sample_n).
  - repeat (apply Forall_cons; split; [by apply ascii_utf8|]). by apply Forall_nil.
  - apply map_Forall_singleton. split; by apply ascii_utf8.
Defined.
End Repo.
