(* ===== verification/Reserve.v ===== *)
(** * Concurrent requests on one quota

    internal/repository/notification.go takes quota, stores, and gives quota back in
    separate calls of redis and of the database, and any number of requests, single
    ones and batches, are served at once, on any number of processes.  Each call is one
    step here.  What follows a creation is the strategy's: nothing for most requests;
    the immediate strategy (sendstrategy/immediate.go) sends a notification whose
    creation failed, and the sender (sender/sender.go) then marks it, and gives back a
    unit of quota when the channel failed.

    The sequential [create_with], [batch_create_with] and [MarkFailure] of the file
    NotifRepo are the runs of one request without the others ([create_alone],
    [batch_alone], [mark_failure_alone]). *)
From Stdlib Require Import ZArith Lia List.
From stdpp Require Import prelude strings gmap relations.
From S2P Require Import Prelude GoLang Errs GoStrings Externals Snowflake Sharding Domain Quota GoJson Json Dao NotifRepo.

Module Reserve.

(** A call of [Create] or of [BatchCreate]. *)
Inductive request := One (n : Notif.Notification) | Batch (ns : list Notif.Notification).

(** Where a request is: before it takes quota; between taking quota and storing; with a
    failed insertion, before it gives quota back; stored; with a creation that failed;
    sent by the immediate strategy, with the channel's answer; with a failure marked,
    before it gives quota back; and sent. *)
Inductive pc :=
  | PStart (r : request)
  | PReserved (r : request)
  | PGiveBack (r : request)
  | PStored (r : request)
  | PFailed (r : request)
  | PMark (n : Notif.Notification) (ok : bool)
  | PRefund (n : Notif.Notification)
  | PSent (n : Notif.Notification)
  | PMade (n : Notif.Notification).

Section reserve.
Context `{NotificationDAO} `{RedisKV} `{MapRange}.

(** The quota a request takes and gives back, and the rows it stores. *)
Definition take (w : net) (r : request) (q : store) : store * option error :=
  match r with
  | One n => QuotaCache.Decr w (Repo.quota_param n) q
  | Batch ns => QuotaCache.BatchDecr w (Repo.buildQuotaParams ns) q
  end.

Definition give (w : net) (r : request) (q : store) : store * option error :=
  match r with
  | One n => QuotaCache.Incr w (Repo.quota_param n) q
  | Batch ns => QuotaCache.BatchIncr w (Repo.buildQuotaParams ns) q
  end.

Record state := mkState { repo : Repo.state; procs : list pc }.

(** What the database does with new notifications, and whether calls of redis may
    fail or run several times. *)
Variables
  (insert : dstate -> Entity.Notification -> go (dstate * (Entity.Notification * option error)))
  (insert_all : dstate -> list Entity.Notification -> go (dstate * (list Entity.Notification * option error)))
  (may_fail : bool).

Definition inserted (r : request) (d d' : dstate) (err : option error) : Prop :=
  match r with
  | One n => exists e, insert d (Repo.toEntity n) = Ret (d', (e, err))
  | Batch ns => exists es, insert_all d (Repo.toEntities ns) = Ret (d', (es, err))
  end.

(** An addition that is sent again after its reply was lost runs twice: that alone is
    left out, as it makes quota. *)
Definition net_ok (w : net) : Prop := w = reached \/ may_fail = true.
Definition give_ok (w : net) : Prop := w = reached \/ may_fail = true /\ (runs w <= 1)%nat.

(** One call of request [p]. *)
Inductive step (p : nat) : state -> state -> Prop :=
  | step_take d q ps r w q' err :
      ps !! p = Some (PStart r) -> r <> Batch [] -> net_ok w -> take w r q = (q', err) ->
      step p (mkState (Repo.mkState d q) ps)
        (mkState (Repo.mkState d q') (<[p := match err with Some _ => PFailed r | None => PReserved r end]> ps))
  | step_empty st ps :
      ps !! p = Some (PStart (Batch [])) -> step p (mkState st ps) (mkState st (<[p := PStored (Batch [])]> ps))
  | step_insert d q ps r d' err :
      ps !! p = Some (PReserved r) -> inserted r d d' err ->
      step p (mkState (Repo.mkState d q) ps)
        (mkState (Repo.mkState d' q) (<[p := match err with Some _ => PGiveBack r | None => PStored r end]> ps))
  | step_give_back d q ps r w :
      ps !! p = Some (PGiveBack r) -> give_ok w ->
      step p (mkState (Repo.mkState d q) ps)
        (mkState (Repo.mkState d (give w r q).1) (<[p := PFailed r]> ps))
  | step_channel st ps n ok :
      ps !! p = Some (PFailed (One n)) -> Notif.IsImmediate n = true ->
      step p (mkState st ps) (mkState st (<[p := PMark n ok]> ps))
  | step_success d q ps n d' err :
      ps !! p = Some (PMark n true) ->
      d_MarkSuccess d (Repo.toEntity (Notif.with_Status n SendStatusSuccess)) = Ret (d', err) ->
      step p (mkState (Repo.mkState d q) ps) (mkState (Repo.mkState d' q) (<[p := PSent n]> ps))
  | step_failure d q ps n d' err :
      ps !! p = Some (PMark n false) ->
      d_MarkFailure d (Repo.toEntity (Notif.with_Status n SendStatusFailure)) = Ret (d', err) ->
      step p (mkState (Repo.mkState d q) ps)
        (mkState (Repo.mkState d' q) (<[p := match err with Some _ => PSent n | None => PRefund n end]> ps))
  | step_refund d q ps n w :
      ps !! p = Some (PRefund n) -> give_ok w ->
      step p (mkState (Repo.mkState d q) ps)
        (mkState (Repo.mkState d (QuotaCache.Incr w (Repo.quota_param n) q).1) (<[p := PMade n]> ps)).

(** The requests [rs], none of which has begun. *)
Definition init (st : Repo.state) (rs : list request) : state := mkState st (map PStart rs).

Definition reachable (st : Repo.state) (rs : list request) : state -> Prop :=
  rtc (fun s s' => exists p, step p s s') (init st rs).

(** ** What the requests hold *)

(** A batch whose parameters do not overflow. *)
Definition request_ok (r : request) : Prop :=
  match r with One _ => True | Batch ns => Z.of_nat (length ns) < 2 ^ 31 end.

Definition request_of (x : pc) : request :=
  match x with
  | PStart r | PReserved r | PGiveBack r | PStored r | PFailed r => r
  | PMark n _ | PRefund n | PSent n | PMade n => One n
  end.

(** What a request asks of key [k]. *)
Definition units (k : string) (r : request) : Z :=
  match r with
  | One n => QuotaCache.asked [Repo.quota_param n] k
  | Batch ns => QuotaCache.asked (Repo.buildQuotaParams ns) k
  end.

(** The units a request holds, has stored notifications for, and has made. *)
Definition holds (k : string) (x : pc) : Z :=
  match x with PReserved r | PGiveBack r | PStored r => units k r | _ => 0 end.
Definition stores (k : string) (x : pc) : Z := match x with PStored r => units k r | _ => 0 end.
Definition makes (k : string) (x : pc) : Z := match x with PMade n => units k (One n) | _ => 0 end.

Definition held (k : string) (s : state) : Z := sumZ (holds k) (procs s).
Definition sold (k : string) (s : state) : Z := sumZ (stores k) (procs s).
Definition made (k : string) (s : state) : Z := sumZ (makes k) (procs s).
Definition free (k : string) (s : state) : Z := QuotaCache.avail (Repo.quota (repo s)) k.

Lemma units_batch k ns : Z.of_nat (length ns) < 2 ^ 31 -> units ("quota:" +:+ k) (Batch ns) = Repo.count ns k.
Proof using Type. intros Hl. simpl. by apply Repo.buildQuotaParams_spec. Qed.

Lemma units_nonneg k r : request_ok r -> 0 <= units k r.
Proof using Type.
  destruct r as [n|ns]; intros Hok; [apply Repo.quota_param_asked_nonneg|].
  destruct (Repo.buildQuotaParams_spec ns Hok) as ([_ Hq] & _). by apply QuotaCache.asked_nonneg.
Qed.

(** Taking never adds; a success takes what the request asks for; and when redis
    answers that is all it does. *)
Lemma take_spec w r q k : request_ok r ->
  QuotaCache.avail (take w r q).1 k <= QuotaCache.avail q k /\
  ((take w r q).2 = None -> QuotaCache.avail (take w r q).1 k + units k r <= QuotaCache.avail q k) /\
  (w = reached -> QuotaCache.avail (take w r q).1 k = QuotaCache.avail q k - QuotaCache.unless (take w r q).2 (units k r)).
Proof using Type.
  intros Hok. destruct r as [n|ns]; simpl in *.
  - split; [by apply QuotaCache.Decr_le|]. split; [by apply QuotaCache.Decr_ok|].
    intros ->. by apply QuotaCache.Decr_avail.
  - destruct (Repo.buildQuotaParams_spec ns Hok) as (Hp & Hpos & _).
    split; [by apply QuotaCache.BatchDecr_le, Hp|]. split; [by apply QuotaCache.BatchDecr_ok|].
    intros ->. by apply QuotaCache.BatchDecr_avail.
Qed.

Lemma give_runs w r q k : request_ok r ->
  QuotaCache.avail (give w r q).1 k = QuotaCache.avail q k + Z.of_nat (runs w) * units k r.
Proof using Type.
  intros Hok. destruct r as [n|ns]; simpl in *; [by apply QuotaCache.Incr_runs|].
  destruct (Repo.buildQuotaParams_spec ns Hok) as (Hp & _). apply QuotaCache.BatchIncr_runs, Hp.
Qed.

(** What is given back at most once is at most what was taken. *)
Lemma give_le w r q k : request_ok r -> give_ok w ->
  QuotaCache.avail (give w r q).1 k <= QuotaCache.avail q k + units k r /\
  (may_fail = false -> QuotaCache.avail (give w r q).1 k = QuotaCache.avail q k + units k r).
Proof using Type.
  intros Hok Hw. pose proof (units_nonneg k r Hok). rewrite give_runs by done.
  destruct Hw as [->|[Hm Hr]]; [change (Z.of_nat (runs reached)) with 1; lia|].
  split; [|congruence]. assert (Z.of_nat (runs w) * units k r <= 1 * units k r) by (apply Z.mul_le_mono_nonneg_r; lia). lia.
Qed.

(** What holds at first and is kept by every step holds in every reachable state. *)
Lemma reachable_ind (P : state -> Prop) st rs :
  P (init st rs) -> (forall p s s', P s -> step p s s' -> P s') -> forall s, reachable st rs s -> P s.
Proof using Type.
  intros Hi Hs s Hr. unfold reachable in Hr. revert Hi. induction Hr as [s|s1 s2 s3 [p Hp] _ IH]; [done|].
  intros H1'. apply IH. by eapply Hs.
Qed.

(** A step changes the request that makes it; every request stays the same request. *)
Lemma step_at p s s' :
  step p s s' -> exists x y, procs s !! p = Some x /\ procs s' = <[p := y]> (procs s) /\ request_of y = request_of x.
Proof using Type.
  intros Hs. destruct Hs; do 2 eexists; (split; [eassumption|]); (split; [done|]); by try destruct err.
Qed.

Lemma reachable_requests st rs s : reachable st rs s -> map request_of (procs s) = rs.
Proof using Type.
  revert s. apply reachable_ind; [simpl; rewrite map_map; apply map_id|].
  intros p s s' <- (x & y & Hx & -> & Hy)%step_at.
  rewrite list_fmap_insert, Hy. apply list_insert_id. by rewrite list_lookup_fmap, Hx.
Qed.

(** What the requests hold when one of them moves. *)
Lemma held_insert k r r' ps p x y :
  ps !! p = Some x -> held k (mkState r' (<[p := y]> ps)) = held k (mkState r ps) - holds k x + holds k y.
Proof using Type. intros E. unfold held. simpl. by rewrite (sumZ_insert _ _ _ _ _ E). Qed.
Lemma made_insert k r r' ps p x y :
  ps !! p = Some x -> made k (mkState r' (<[p := y]> ps)) = made k (mkState r ps) - makes k x + makes k y.
Proof using Type. intros E. unfold made. simpl. by rewrite (sumZ_insert _ _ _ _ _ E). Qed.

(** No call creates quota but the last one of the immediate strategy; without faults
    none loses it either. *)
Lemma step_balance p s s' k :
  Forall (fun x => request_ok (request_of x)) (procs s) -> step p s s' ->
  free k s' + held k s' - made k s' <= free k s + held k s - made k s /\
  (may_fail = false -> free k s' + held k s' - made k s' = free k s + held k s - made k s).
Proof using Type.
  intros Hok Hs. assert (Hp : forall x, procs s !! p = Some x -> request_ok (request_of x)).
  { intros x. apply (Forall_lookup_1 (fun x => request_ok (request_of x))). exact Hok. }
  destruct Hs as [d q ps r w q' err E _ Hw Ht|st ps E|d q ps r d' err E _|d q ps r w E Hw
    |st ps n ok E _|d q ps n d' err E _|d q ps n d' err E _|d q ps n w E Hw];
    specialize (Hp _ E); cbn [request_of] in Hp;
    match goal with |- context [held k (mkState ?r2 (<[p := _]> ps))] =>
      match goal with |- context [held k (mkState ?r1 ps)] =>
        rewrite (held_insert k r1 r2 _ _ _ _ E), (made_insert k r1 r2 _ _ _ _ E) end end;
    unfold free; cbn [repo Repo.quota].
  - destruct (take_spec w r q k Hp) as (Hle & Hok' & Hr). rewrite Ht in Hle, Hok', Hr. cbn [fst snd] in *.
    destruct err as [e|]; cbn [holds makes QuotaCache.unless] in *.
    + split; [lia|]. intros Hf. destruct Hw as [->|Hw]; [|congruence]. rewrite Hr by done. lia.
    + specialize (Hok' eq_refl). split; [lia|]. intros Hf. destruct Hw as [->|Hw]; [|congruence]. rewrite Hr by done. lia.
  - cbn [holds makes units]. assert (Hz : QuotaCache.asked (Repo.buildQuotaParams []) k = 0).
    { unfold Repo.buildQuotaParams. simpl. assert (He : map_range (∅ : gmap string QuotaParam) ≡ₚ []) by (rewrite map_range_perm; by rewrite map_to_list_empty).
      apply Permutation_nil_r in He. by rewrite He. }
    rewrite Hz. lia.
  - destruct err; cbn [holds makes]; lia.
  - destruct (give_le w r q k Hp Hw) as [Hg He]. cbn [holds makes].
    split; [lia|]. intros Hf. rewrite He by done. lia.
  - cbn [holds makes]. lia.
  - cbn [holds makes]. lia.
  - destruct err; cbn [holds makes]; lia.
  - destruct (give_le w (One n) q k I Hw) as [Hg He]. cbn [give] in *. cbn [holds makes].
    split; [lia|]. intros Hf. rewrite He by done. lia.
Qed.

Lemma init_sums k st rs : held k (init st rs) = 0 /\ made k (init st rs) = 0.
Proof using Type. unfold held, made, init. simpl. induction rs; simpl; lia. Qed.

Lemma reachable_ok st rs s :
  Forall request_ok rs -> reachable st rs s -> Forall (fun x => request_ok (request_of x)) (procs s).
Proof using Type. intros Hok Hr%reachable_requests. apply Forall_map. by rewrite Hr. Qed.

Lemma reachable_balance st rs s k :
  Forall request_ok rs -> reachable st rs s ->
  free k s + held k s <= QuotaCache.avail (Repo.quota st) k + made k s /\
  (may_fail = false -> free k s + held k s = QuotaCache.avail (Repo.quota st) k + made k s).
Proof using Type.
  intros Hok Hr.
  assert (Hb : Forall (fun x => request_ok (request_of x)) (procs s) /\
    free k s + held k s - made k s <= QuotaCache.avail (Repo.quota st) k /\
    (may_fail = false -> free k s + held k s - made k s = QuotaCache.avail (Repo.quota st) k)).
  { revert s Hr. apply reachable_ind.
    - destruct (init_sums k st rs) as [-> ->]. split; [|unfold free; simpl; lia].
      simpl. apply Forall_map. eapply Forall_impl; [exact Hok|done].
    - intros p s s' (Hall & Hle & Heq) Hs. destruct (step_balance p s s' k Hall Hs) as [Hs1 Hs2]. split; [|split; [lia|]].
      + apply step_at in Hs as (x & y & Hx & -> & Hy). apply Forall_insert; [done|]. rewrite Hy.
        apply (Forall_lookup_1 (fun x => request_ok (request_of x)) _ _ _ Hall Hx).
      + intros Hf. rewrite Hs2, Heq by done. done. }
  destruct Hb as (_ & Hle & Heq). split; [lia|]. intros Hf. specialize (Heq Hf). lia.
Qed.

(** *** Quota that is made *)

(** Only an immediate notification is sent after its creation failed. *)
Definition immediate (r : request) : bool := match r with One n => Notif.IsImmediate n | Batch _ => false end.

Definition sent_ok (x : pc) : Prop :=
  match x with PMark n _ | PRefund n | PSent n | PMade n => Notif.IsImmediate n = true | _ => True end.

Lemma reachable_sent st rs s : reachable st rs s -> Forall sent_ok (procs s).
Proof using Type.
  revert s. apply reachable_ind; [simpl; apply Forall_map, Forall_true; done|].
  intros p s s' Hall Hs.
  assert (Hp : forall x, procs s !! p = Some x -> sent_ok x).
  { intros x. exact (Forall_lookup_1 sent_ok _ _ _ Hall). }
  destruct Hs as [d q ps r w q' err E _ Hw Ht|st' ps E|d q ps r d' err E _|d q ps r w E Hw
    |st' ps n ok E Hi|d q ps n d' err E _|d q ps n d' err E _|d q ps n w E Hw];
    specialize (Hp _ E); apply Forall_insert; try exact Hall; by try destruct err.
Qed.

(** A failed sending gives back a unit that its creation did not keep. *)
Lemma made_immediate st rs s k :
  reachable st rs s -> 0 <= made k s /\ (Forall (fun r => immediate r = false) rs -> made k s = 0).
Proof using Type.
  intros Hr. split.
  - apply sumZ_nonneg. intros x _. destruct x; simpl; try lia. apply Repo.quota_param_asked_nonneg.
  - intros Hno. pose proof (reachable_requests _ _ _ Hr) as Hrq. pose proof (reachable_sent _ _ _ Hr) as Hsent.
    rewrite <- Hrq in Hno. apply Forall_map in Hno. unfold made. clear Hr Hrq.
    induction (procs s) as [|x ps IH]; [done|]. apply Forall_cons in Hno as [Hx Hno]. apply Forall_cons in Hsent as [Hx' Hsent].
    cbn [sumZ map foldr]. change (makes k x + sumZ (makes k) ps = 0). rewrite IH by done.
    destruct x; cbn [immediate request_of sent_ok makes] in *; [done..|congruence].
Qed.

Lemma sold_le_held k s : Forall (fun x => request_ok (request_of x)) (procs s) -> sold k s <= held k s.
Proof using Type.
  unfold sold, held. induction 1 as [|x ps Hx _ IH]; [done|]. pose proof (units_nonneg k (request_of x) Hx).
  cbn [sumZ map foldr]. destruct x; cbn [stores holds request_of] in *; lia.
Qed.

(** The requests that are over. *)
Definition over_pc (x : pc) : bool :=
  match x with PStored _ | PSent _ | PMade _ => true | PFailed r => negb (immediate r) | _ => false end.
Definition over (s : state) : Prop := Forall (fun x => over_pc x = true) (procs s).

Lemma over_held k s : over s -> held k s = sold k s.
Proof using Type.
  unfold over, held, sold. induction 1 as [|x ps Hx _ IH]; [done|]. cbn [sumZ map foldr]. rewrite IH. by destruct x.
Qed.

(** *** Every request ends *)

(** The calls a request has left at most. *)
Definition calls (x : pc) : nat :=
  match x with
  | PStart _ => 6 | PReserved _ => 5 | PGiveBack _ => 4 | PFailed _ => 3 | PMark _ _ => 2 | PRefund _ => 1 | _ => 0
  end.
Definition calls_left (s : state) : nat := sum_list_with calls (procs s).

Lemma calls_insert ps p x y : ps !! p = Some x -> (calls y < calls x)%nat ->
  (sum_list_with calls (<[p := y]> ps) < sum_list_with calls ps)%nat.
Proof using Type.
  revert p. induction ps as [|z ps IH]; intros [|p]; simpl; [done..| |].
  - intros [= ->]. lia.
  - intros Hx Hlt. specialize (IH p Hx Hlt). lia.
Qed.

Lemma step_calls p s s' : step p s s' -> (calls_left s' < calls_left s)%nat.
Proof using Type.
  intros Hs. destruct Hs; unfold calls_left; simpl; (eapply calls_insert; [eassumption|]); try destruct err; simpl; lia.
Qed.

(** *** One request without the others *)

Lemma create_alone wd wi st n st' r err :
  net_ok wd -> give_ok wi -> Repo.create_with insert wd wi st n = Ret (st', (r, err)) ->
  reachable st [One n] (mkState st' [match err with Some _ => PFailed (One n) | None => PStored (One n) end]).
Proof using Type.
  intros Hwd Hwi. destruct st as [d q]. unfold Repo.create_with, reachable, init. simpl. fold (Repo.quota_param n).
  destruct (QuotaCache.Decr wd (Repo.quota_param n) q) as [q1 e1] eqn:Et.
  eassert (H1' : step 0%nat (mkState (Repo.mkState d q) [PStart (One n)]) _) by
    (apply (step_take 0%nat d q [PStart (One n)] (One n) wd q1 e1); [done|discriminate|done|exact Et]).
  destruct e1 as [e1|]; [intros [= <- <- <-]; apply rtc_once; by exists 0%nat|].
  destruct (insert d (Repo.toEntity n)) as [[d' [x err1]]|] eqn:Ei; simpl; [|done].
  eassert (H2' : step 0%nat (mkState (Repo.mkState d q1) [PReserved (One n)]) _) by
    (eapply (step_insert 0%nat d q1 [PReserved (One n)] (One n) d' err1); [done|by exists x]).
  destruct err1 as [e|].
  - destruct (QuotaCache.Incr wi (Repo.quota_param n) q1) as [q2 e2] eqn:Eg. intros [= <- <- <-].
    pose proof (step_give_back 0%nat d' q1 [PGiveBack (One n)] (One n) wi eq_refl Hwi) as H3'. cbn [give] in H3'. rewrite Eg in H3'.
    do 2 (eapply rtc_l; [by exists 0%nat; eassumption|]). apply rtc_once. exists 0%nat. exact H3'.
  - intros [= <- <- <-]. eapply rtc_l; [by exists 0%nat; eassumption|]. apply rtc_once. exists 0%nat. exact H2'.
Qed.

(** A batch hides the failure of its insertion, so the place says what the answer
    does not. *)
Lemma batch_alone wd wi st ns st' rs err :
  net_ok wd -> give_ok wi -> Repo.batch_create_with insert_all wd wi st ns = Ret (st', (rs, err)) ->
  exists x, (x = PStored (Batch ns) \/ x = PFailed (Batch ns)) /\ (err <> None -> x = PFailed (Batch ns)) /\
    reachable st [Batch ns] (mkState st' [x]).
Proof using Type.
  intros Hwd Hwi. destruct st as [d q]. unfold Repo.batch_create_with, reachable, init. cbn [map Repo.dao Repo.quota].
  destruct ns as [|n ns]; cbn [length Nat.eqb].
  { intros [= <- <- <-]. exists (PStored (Batch [])). split; [by left|]. split; [done|].
    apply rtc_once. exists 0%nat. by apply (step_empty 0%nat _ [PStart (Batch [])]). }
  destruct (QuotaCache.BatchDecr wd (Repo.buildQuotaParams (n :: ns)) q) as [q1 e1] eqn:Et.
  eassert (H1' : step 0%nat (mkState (Repo.mkState d q) [PStart (Batch (n :: ns))]) _) by
    (apply (step_take 0%nat d q [PStart (Batch (n :: ns))] (Batch (n :: ns)) wd q1 e1); [done|discriminate|done|exact Et]).
  destruct e1 as [e1|].
  { intros [= <- <- <-]. eexists. split; [by right|]. split; [done|]. apply rtc_once. by exists 0%nat. }
  destruct (insert_all d (Repo.toEntities (n :: ns))) as [[d' [x err1]]|] eqn:Ei; cbn [go_bind]; [|done].
  eassert (H2' : step 0%nat (mkState (Repo.mkState d q1) [PReserved (Batch (n :: ns))]) _) by
    (eapply (step_insert 0%nat d q1 [PReserved (Batch (n :: ns))] (Batch (n :: ns)) d' err1); [done|by exists x]).
  intros [= <- <- <-]. destruct err1 as [e|].
  - eexists. split; [by right|]. split; [done|].
    pose proof (step_give_back 0%nat d' q1 [PGiveBack (Batch (n :: ns))] (Batch (n :: ns)) wi eq_refl Hwi) as H3'.
    do 2 (eapply rtc_l; [by exists 0%nat; eassumption|]). apply rtc_once. exists 0%nat. exact H3'.
  - eexists. split; [by left|]. split; [done|].
    eapply rtc_l; [by exists 0%nat; eassumption|]. apply rtc_once. exists 0%nat. exact H2'.
Qed.

(** The mark of a notification whose channel failed, from the place where a request
    reaches it. *)
Lemma mark_failure_alone wi st n st' err :
  give_ok wi -> Repo.MarkFailure wi st (Notif.with_Status n SendStatusFailure) = Ret (st', err) ->
  exists x, (x = PSent n \/ x = PMade n) /\
    rtc (fun s s' => exists p, step p s s') (mkState st [PMark n false]) (mkState st' [x]).
Proof using Type.
  intros Hwi. destruct st as [d q]. unfold Repo.MarkFailure. simpl.
  destruct (d_MarkFailure _ _) as [[d' err1]|] eqn:Em; simpl; [|done].
  pose proof (step_failure 0%nat d q [PMark n false] n d' err1 eq_refl Em) as H1'.
  destruct err1 as [e|].
  - intros [= <- <-]. eexists. split; [by left|]. apply rtc_once. by exists 0%nat.
  - change (mkParam _ _ _) with (Repo.quota_param n).
    pose proof (step_refund 0%nat d' q [PRefund n] n wi eq_refl Hwi) as H2'.
    destruct (QuotaCache.Incr wi (Repo.quota_param n) q) as [q2 e2]. intros [= <- <-].
    eexists. split; [by right|]. eapply rtc_l; [by exists 0%nat; eassumption|]. apply rtc_once. exists 0%nat. exact H2'.
Qed.

(** ** Properties *)


(** No request waits for another: each ends after at most six calls of its own, in
    every interleaving, and as long as one is not over and the database answers it can
    make its next call. *)
Theorem requests_end st rs :
  (forall n s s', nsteps (fun s s' => exists p, step p s s') n s s' -> (n + calls_left s' <= calls_left s)%nat) /\
  calls_left (init st rs) = (6 * length rs)%nat /\
  (forall s p x, procs s !! p = Some x -> over_pc x = false ->
     (forall d r, exists d' err, inserted r d d' err) ->
     (forall d e, exists d' err, d_MarkSuccess d e = Ret (d', err)) ->
     (forall d e, exists d' err, d_MarkFailure d e = Ret (d', err)) ->
     exists s', step p s s').
Proof using Type.
  split; [|split].
  - intros n s s' Hn. induction Hn as [|n s1 s2 s3 [p Hs] _ IH]; [done|]. apply step_calls in Hs. lia.
  - unfold calls_left, init. simpl. induction rs; simpl in *; lia.
  - intros [[d q] ps] p x Hx Hover Hins Hms Hmf. simpl in Hx. destruct x as [r|r|r|r|r|n ok|n|n|n]; simpl in Hover; try done.
    + assert (Hr : r = Batch [] \/ r <> Batch []) by (destruct r as [n|[|n ns]]; by (left + right)).
      destruct Hr as [->|Hne]; [eexists; by apply step_empty|].
      destruct (take reached r q) as [q' err] eqn:Et. eexists. eapply step_take; [done|done|by left|exact Et].
    + destruct (Hins d r) as (d' & err & Hi). eexists. by eapply step_insert.
    + eexists. eapply (step_give_back p d q ps r reached); [done|by left].
    + destruct r as [n|ns]; simpl in Hover; [|done]. eexists. apply (step_channel p _ _ n true Hx). by destruct (Notif.IsImmediate n).
    + destruct ok.
      * destruct (Hms d (Repo.toEntity (Notif.with_Status n SendStatusSuccess))) as (d' & err & Hi). eexists. by eapply step_success.
      * destruct (Hmf d (Repo.toEntity (Notif.with_Status n SendStatusFailure))) as (d' & err & Hi). eexists. by eapply step_failure.
    + eexists. eapply (step_refund p d q ps n reached); [done|by left].
Qed.
End reserve.

(** ** A run *)

#[local] Instance run_dao : NotificationDAO := Repo.echo_dao.
#[local] Instance run_redis : RedisKV := QuotaCache.map_redis.
#[local] Instance run_order : MapRange := key_order.

Definition urgent : Notif.Notification := Notif.with_Id (sample (sample_conf SendStrategyImmediate)) 2.
Definition one_unit : @Repo.state run_dao run_redis :=
  @Repo.mkState run_dao run_redis tt QuotaCache.one_left.
Definition both : list request := [One Repo.sample_n; One urgent].

Definition counter (z : Z) : @store run_redis := {[ QuotaCache.redisKey 7 ChannelSMS := z ]} : gmap string Z.
Definition at_counter (z : Z) (ps : list pc) : @state run_dao run_redis :=
  mkState (@Repo.mkState run_dao run_redis tt (counter z)) ps.

Definition after_both : @state run_dao run_redis := at_counter 1 [PStored (One Repo.sample_n); PMade urgent].

(** Two requests for one unit: the first takes it; the second is refused, its
    notification is sent all the same, the channel fails, and the failure is marked and
    refunded before the first is stored. *)
Lemma both_run : @reachable run_dao run_redis run_order d_Create d_BatchCreate false one_unit both after_both.
Proof.
  unfold reachable. change (init one_unit both) with (at_counter 1 [PStart (One Repo.sample_n); PStart (One urgent)]).
  assert (Hr : net_ok false reached) by by left.
  assert (Hg : give_ok false reached) by by left.
  eapply (rtc_l _ _ (at_counter 0 [PReserved (One Repo.sample_n); PStart (One urgent)])).
  { exists 0%nat. apply (@step_take run_dao run_redis run_order d_Create d_BatchCreate false 0%nat tt (counter 1)
      [PStart (One Repo.sample_n); PStart (One urgent)] (One Repo.sample_n) reached (counter 0) None);
      [reflexivity|discriminate|exact Hr|vm_compute; reflexivity]. }
  eapply (rtc_l _ _ (at_counter (-1) [PReserved (One Repo.sample_n); PFailed (One urgent)])).
  { exists 1%nat. apply (@step_take run_dao run_redis run_order d_Create d_BatchCreate false 1%nat tt (counter 0)
      [PReserved (One Repo.sample_n); PStart (One urgent)] (One urgent) reached (counter (-1))
      (Some (ECode ErrInsufficientQuota)));
      [reflexivity|discriminate|exact Hr|vm_compute; reflexivity]. }
  eapply (rtc_l _ _ (at_counter (-1) [PReserved (One Repo.sample_n); PMark urgent false])).
  { exists 1%nat. by apply (@step_channel run_dao run_redis run_order d_Create d_BatchCreate false 1%nat _
      [PReserved (One Repo.sample_n); PFailed (One urgent)] urgent false). }
  eapply (rtc_l _ _ (at_counter (-1) [PReserved (One Repo.sample_n); PRefund urgent])).
  { exists 1%nat. by apply (@step_failure run_dao run_redis run_order d_Create d_BatchCreate false 1%nat tt (counter (-1))
      [PReserved (One Repo.sample_n); PMark urgent false] urgent tt None). }
  eapply (rtc_l _ _ (at_counter 1 [PReserved (One Repo.sample_n); PMade urgent])).
  { exists 1%nat. by apply (@step_refund run_dao run_redis run_order d_Create d_BatchCreate false 1%nat tt (counter (-1))
      [PReserved (One Repo.sample_n); PRefund urgent] urgent reached). }
  apply rtc_once. exists 0%nat.
  apply (@step_insert run_dao run_redis run_order d_Create d_BatchCreate false 0%nat tt (counter 1)
    [PReserved (One Repo.sample_n); PMade urgent] (One Repo.sample_n) tt None); [reflexivity|by eexists].
Qed.


(** One unit of quota has become two: one stored notification, and one unit free. *)
Lemma refund_makes_quota :
  let k := QuotaCache.redisKey 7 ChannelSMS in
  free k (init one_unit both) = 1 /\ sold k after_both = 1 /\ free k after_both = 1.
Proof. by vm_compute. Qed.
End Reserve.
