(* ===== verification/Channels.v ===== *)
(** * Channels and the selection of providers

    internal/service/channel (the dispatcher and [baseChannel]),
    internal/service/provider/types.go (the interfaces) and
    internal/service/provider/selector/sequential.go.

    A provider, a selector and a channel are interfaces.  A value of one is the
    function its [Send] or [Next] is: from the state [W] of everything outside
    the process to the state after the call and what it returns, or a panic.  A
    nil provider is [None]; calling it panics. *)
From Stdlib Require Import ZArith Lia List.
From stdpp Require Import prelude strings gmap.
From S2P Require Import Prelude GoLang Errs Domain.

(** ** provider/types.go *)

Definition zeroSendResp : SendResp := mkResp (mkResult 0 "").

(** [Send(ctx, n) (domain.SendResp, error)] of a provider or of a channel. *)
Abbreviation sends W := (W -> Notif.Notification -> go (W * (SendResp * option error))) (only parsing).

(** A builder of selectors: [Build], and the [Next] of the selectors it builds,
    whose state is [sel]. *)
Class SelectorBuilder (W : Type) (B : Type) := {
  sel : Type;
  Build : B -> sel + error;
  Next : sel -> Notif.Notification -> go (sel * (option (sends W) * option error)) }.

(** ** selector/sequential.go *)

Section seq.
Context {W : Type}.

Record SeqSelector := mkSeq { index : nat; seq_providers : list (sends W) }.
Record SeqSelectorBuilder := mkSeqBuilder { providers : list (sends W) }.

Definition NewSeqSelectorBuilder (ps : list (sends W)) : SeqSelectorBuilder := mkSeqBuilder ps.

Definition SeqSelector_Next (ss : SeqSelector) (_ : Notif.Notification)
    : go (SeqSelector * (option (sends W) * option error)) :=
  if (length (seq_providers ss) =? index ss)%nat
  then Ret (ss, (None, Some (code_err ErrNotAvailableProvider "")))
  else
    match seq_providers ss !! index ss with
    | None => Panic "index out of range"
    | Some p => Ret (mkSeq (S (index ss)) (seq_providers ss), (Some p, None))
    end.

Definition SeqSelectorBuilder_Build (ssb : SeqSelectorBuilder) : SeqSelector + error :=
  inl (mkSeq 0 (providers ssb)).

#[global] Instance seq_builder : SelectorBuilder W SeqSelectorBuilder := {
  sel := SeqSelector;
  Build := SeqSelectorBuilder_Build;
  Next := SeqSelector_Next }.
End seq.
Arguments SeqSelector W : clear implicits.
Arguments SeqSelectorBuilder W : clear implicits.

(** ** channel/sms.go *)

Section base.
Context `{SelectorBuilder W B}.

(** The loop of [baseChannel.Send] after a [Build] that succeeded: the variable
    [err] it tests is the one of [Build], nil here, so the branch that returns is
    never taken and the error [selectErr] of [Next] is dropped.  [None] is a loop
    that goes on for more than [fuel] rounds. *)
Fixpoint baseChannel_loop (fuel : nat) (err : option error) (selector : sel) (w : W)
    (n : Notif.Notification) : go (option (W * (SendResp * option error))) :=
  match fuel with
  | O => Ret None
  | S fuel =>
      let! '(selector, (p, selectErr)) := Next selector n in
      match err with
      | Some _ => Ret (Some (w, (zeroSendResp,
                    Some (Errorf_ww (ECode ErrFailedToSendNotification) ": "
                            (default (ENew "%!w(<nil>)") selectErr)))))
      | None =>
          match p with
          | None => Panic "invalid memory address or nil pointer dereference"
          | Some send =>
              let! '(w, (resp, sendErr)) := send w n in
              match sendErr with
              | Some _ => baseChannel_loop fuel err selector w n
              | None => Ret (Some (w, (resp, None)))
              end
          end
      end
  end.

Definition baseChannel_Send (fuel : nat) (sb : B) (w : W) (n : Notif.Notification)
    : go (option (W * (SendResp * option error))) :=
  match Build sb with
  | inr err => Ret (Some (w, (zeroSendResp,
                 Some (Errorf_ww (ECode ErrFailedToSendNotification) ": " err))))
  | inl selector => baseChannel_loop fuel None selector w n
  end.
End base.

(** [SmsChannel] embeds [baseChannel]. *)
Record SmsChannel (B : Type) := mkSms { sms_sb : B }.
Arguments mkSms {B}.
Arguments sms_sb {B}.
Definition NewSmsChannel {B} (sb : B) : SmsChannel B := mkSms sb.

(** ** channel/types.go *)

Section dispatcher.
Context {W : Type}.

Record Dispatcher := mkDispatcher { channels : gmap string (sends W) }.

Definition NewDispatcher (channels : gmap string (sends W)) : Dispatcher := mkDispatcher channels.

Definition Dispatcher_Send (d : Dispatcher) : sends W := fun w n =>
  match channels d !! Notif.Channel_ n with
  | Some channel => channel w n
  | None => Ret (w, (zeroSendResp, Some (code_err ErrInvalidChannel "")))
  end.

(** [ioc.InitChannelMap]: only short messages have a channel. *)
Definition InitChannelMap (sms : sends W) : gmap string (sends W) := {[ ChannelSMS := sms ]}.
End dispatcher.
Arguments Dispatcher W : clear implicits.

(** ** What a channel with sequential selection does *)

(** The providers in turn: the first that sends without an error answers; when
    none is left, the next one is nil. *)
Fixpoint first_to_send {W} (ps : list (sends W)) (w : W) (n : Notif.Notification)
    : go (W * (SendResp * option error)) :=
  match ps with
  | [] => Panic "invalid memory address or nil pointer dereference"
  | send :: ps =>
      let! '(w, (resp, err)) := send w n in
      match err with
      | Some _ => first_to_send ps w n
      | None => Ret (w, (resp, None))
      end
  end.

Definition some {A} (m : go A) : go (option A) := let! a := m in Ret (Some a).

Section seq_channel.
Context {W : Type}.

Lemma seq_loop (ps : list (sends W)) done_ w n fuel :
  (length ps < fuel)%nat ->
  baseChannel_loop (B := SeqSelectorBuilder W) fuel None (mkSeq (length done_) (done_ ++ ps)) w n =
  some (first_to_send ps w n).
Proof.
  revert done_ w fuel; induction ps as [|send ps IH]; intros done_ w [|fuel] Hf; simpl in Hf; [lia| |lia|].
  - simpl. unfold SeqSelector_Next; simpl. by rewrite app_nil_r, Nat.eqb_refl.
  - simpl. unfold SeqSelector_Next; simpl. rewrite length_app; simpl.
    destruct (Nat.eqb_spec (length done_ + S (length ps)) (length done_)); [lia|].
    rewrite list_lookup_middle by done. simpl.
    destruct (send w n) as [[w' [resp [e|]]]|]; simpl; [|done..].
    specialize (IH (done_ ++ [send]) w' fuel ltac:(lia)).
    by rewrite length_app, Nat.add_1_r, <- app_assoc in IH.
Qed.

(** With sequential selection a channel ends within one more round than it has
    providers. *)
Lemma seq_channel_Send (ps : list (sends W)) w n fuel :
  (length ps < fuel)%nat ->
  baseChannel_Send fuel (NewSeqSelectorBuilder ps) w n = some (first_to_send ps w n).
Proof. apply (seq_loop ps []). Qed.

Lemma first_to_send_ret (ps : list (sends W)) w n w' resp err :
  first_to_send ps w n = Ret (w', (resp, err)) -> err = None /\ ps <> [].
Proof.
  revert w; induction ps as [|send ps IH]; intros w; simpl; [done|].
  destruct (send w n) as [[w1 [r [e|]]]|]; simpl; [|by intros [= -> -> <-]|done].
  intros E. by destruct (IH _ E).
Qed.

(** [calls ps w n w' rs]: the providers are called in order from [w] to [w'] and
    all return errors. *)
Fixpoint all_fail (ps : list (sends W)) (w : W) (n : Notif.Notification) (w' : W) : Prop :=
  match ps with
  | [] => w = w'
  | send :: ps => exists w1 r e, send w n = Ret (w1, (r, Some e)) /\ all_fail ps w1 n w'
  end.

Lemma first_to_send_skip failing ps w n w' :
  all_fail failing w n w' -> first_to_send (failing ++ ps) w n = first_to_send ps w' n.
Proof.
  revert w; induction failing as [|send failing IH]; intros w; simpl; [by intros ->|].
  intros (w1 & r & e & -> & Hf). simpl. by apply IH.
Qed.

(** A channel with sequential selection sends through the first provider that
    does not fail, in the order of the list, and ends; when every provider fails
    it does not return their error but calls a nil provider and panics; it never
    returns an error. *)
Theorem seq_channel_first_success failing send ps w n w1 w2 resp fuel :
  (length (failing ++ send :: ps) < fuel)%nat ->
  all_fail failing w n w1 -> send w1 n = Ret (w2, (resp, None)) ->
  baseChannel_Send fuel (NewSeqSelectorBuilder (failing ++ send :: ps)) w n = Ret (Some (w2, (resp, None))) /\
  (forall fuel, (length failing < fuel)%nat ->
     baseChannel_Send fuel (NewSeqSelectorBuilder failing) w n =
     Panic "invalid memory address or nil pointer dereference").
Proof.
  intros Hfuel Hf Hs. split.
  - rewrite seq_channel_Send by done. rewrite (first_to_send_skip _ _ _ _ _ Hf). simpl. by rewrite Hs.
  - intros f Hlt. rewrite seq_channel_Send by done.
    rewrite <- (app_nil_r failing), (first_to_send_skip _ _ _ _ _ Hf). done.
Qed.
End seq_channel.

(** A provider that counts its calls and fails, and one that sends. *)
Definition broken : sends nat := fun w n => Ret (S w, (zeroSendResp, Some (ENew "timeout"))).
Definition working : sends nat := fun w n => Ret (S w, (mkResp (mkResult (Notif.Id n) SendStatusSuccess), None)).

Lemma seq_channel_first_success_witness :
  baseChannel_Send 4 (NewSeqSelectorBuilder [broken; broken; working]) 0%nat (sample SendConf.zero) =
    Ret (Some (3%nat, (mkResp (mkResult 1 SendStatusSuccess), None))) /\
  (forall fuel, (2 < fuel)%nat ->
     baseChannel_Send fuel (NewSeqSelectorBuilder [broken; broken]) 0%nat (sample SendConf.zero) =
     Panic "invalid memory address or nil pointer dereference").
Proof.
  apply (seq_channel_first_success [broken; broken] working [] 0%nat (sample SendConf.zero) 2%nat 3%nat _ 4).
  - simpl. lia.
  - exists 1%nat, zeroSendResp, (ENew "timeout"). split; [done|].
    exists 2%nat, zeroSendResp, (ENew "timeout"). by split.
  - reflexivity.
Defined.

