(* ===== verification/Templates.v ===== *)
(** * Templates, providers and their repositories

    internal/repository/dao/template.go and provider.go, and
    internal/repository/template.go and provider.go: read-only queries of the
    base database and the conversion of their rows to domain objects.

    The database is gorm over MySQL, a class: the queries the code issues, with
    what a row it returns satisfies. *)
From Stdlib Require Import ZArith Lia List.
From stdpp Require Import prelude strings gmap.
From S2P Require Import Prelude GoLang Errs Domain Dao.

(** ** The rows *)

Module Rows.

Record ChannelTpl := mkTpl {
  Id : Z; OwnerId : Z; OwnerType_ : string; Name : string; Description : string;
  Channel_ : string; BizType_ : string; ActivatedVersionId : Z; CreatedAt : Z; UpdatedAt : Z }.

Record ChannelTplVersion := mkVersion {
  v_Id : Z; ChannelTplId : Z; v_Name : string; Signature : string; Content : string;
  Remark : string; AuditId : Z; AuditorId : Z; AuditAt : Z; v_AuditStatus : string;
  v_RejectReason : string; v_LastReviewAt : Z; v_CreatedAt : Z; v_UpdatedAt : Z }.

Record ChannelTplProvider := mkTplProvider {
  p_Id : Z; TplId : Z; TplVersionId : Z; ProviderId : Z; ProviderName : string;
  ProviderChannel : string; RequestId : string; ProviderTplId : string;
  p_AuditStatus : string; p_RejectReason : string; p_LastReviewAt : Z;
  p_CreatedAt : Z; p_UpdatedAt : Z }.

(** A row of the table provider; no query of the program reads it. *)
Record Provider := mkProvider {
  pr_Id : Z; pr_Name : string; pr_Channel : string; Endpoint : string; RegionId : string; AppId : string;
  ApiKey : string; ApiSecret : string; Weight : Z; QpsLimit : Z; DailyLimit : Z; CallbackUrl : string;
  pr_Status : string; pr_CreatedAt : Z; pr_UpdatedAt : Z }.

Definition zeroTpl : ChannelTpl := mkTpl 0 0 "" "" "" "" "" 0 0 0.
Definition zeroVersion : ChannelTplVersion := mkVersion 0 0 "" "" "" "" 0 0 0 "" "" 0 0 0.

Definition tpl_TableName : string := "channel_tpl".
Definition version_TableName : string := "channel_tpl_version".
Definition tplProvider_TableName : string := "channel_tpl_provider".
Definition provider_TableName : string := "provider".

End Rows.

(** The queries on the base database.  The condition of [Find_providers] names a
    column [tpl_channel]; what it selects by it is left open. *)
Class BaseDB := {
  base : Type;
  First_tpl : base -> Z -> Rows.ChannelTpl + error;
  First_version : base -> Z -> Rows.ChannelTplVersion + error;
  Find_versions : base -> list Z -> list Rows.ChannelTplVersion * option error;
  Find_providers : base -> string -> Z -> Z -> string -> list Rows.ChannelTplProvider * option error;
  First_tpl_id b id t : First_tpl b id = inl t -> Rows.Id t = id;
  First_version_id b id v : First_version b id = inl v -> Rows.v_Id v = id;
  Find_versions_tpl b ids vs : Find_versions b ids = (vs, None) ->
    Forall (fun v => Rows.ChannelTplId v ∈ ids) vs;
  Find_providers_match b name tplId versionId channel ps :
    Find_providers b name tplId versionId channel = (ps, None) ->
    Forall (fun p => Rows.ProviderName p = name /\ Rows.TplId p = tplId /\ Rows.TplVersionId p = versionId) ps;
  First_tpl_extern b id e c : First_tpl b id = inr e -> errors_Is e (SCode c) = false }.

(** ** dao/template.go, dao/provider.go *)

Module TplDAO.
Section dao.
Context `{BaseDB}.

Definition GetById (b : base) (id : Z) : Rows.ChannelTpl * option error :=
  match First_tpl b id with
  | inr err =>
      if errors_Is err ErrRecordNotFound
      then (Rows.zeroTpl, Some (code_err ErrChannelTplNotFound ""))
      else (Rows.zeroTpl, Some err)
  | inl tpl => (tpl, None)
  end.

Definition GetVersionsById (b : base) (versionId : Z) : Rows.ChannelTplVersion * option error :=
  match First_version b versionId with
  | inr err =>
      if errors_Is err ErrRecordNotFound
      then (Rows.zeroVersion, Some (code_err ErrChannelTplVersionNotFound ""))
      else (Rows.zeroVersion, Some err)
  | inl version => (version, None)
  end.

(** The ids are compared with the template id of the rows. *)
Definition GetVersionsByIds (b : base) (versionIds : list Z) : list Rows.ChannelTplVersion * option error :=
  if (length versionIds =? 0)%nat then ([], None)
  else
    match Find_versions b versionIds with
    | (_, Some err) => ([], Some err)
    | (versions, None) => (versions, None)
    end.

Definition GetByNameAndTplInfo (b : base) (name : string) (tplId tplVersionId : Z) (tplChannel : string)
    : list Rows.ChannelTplProvider * option error :=
  Find_providers b name tplId tplVersionId tplChannel.
End dao.
End TplDAO.

(** ** The repositories

    Both are interfaces; their values are records of functions, and
    [DefaultChannelTplRepo] and [DefaultProviderRepo] are the records below. *)

Record ChannelTplRepo := mkTplRepo {
  GetById : Z -> ChannelTpl.ChannelTpl * option error;
  GetVersionByVersionId : Z -> ChannelTplVersion * option error }.

Record ProviderRepo := mkProviderRepo {
  GetByNameAndTplInfo : string -> Z -> Z -> string -> list ChannelTplProvider * option error }.

Definition zeroTpl : ChannelTpl.ChannelTpl := ChannelTpl.mkTpl 0 0 "" "" "" "" "" 0 0 0 [].
Definition zeroVersion : ChannelTplVersion := mkVersion 0 0 "" "" "" "" 0 0 0 "" "" 0 0 0 [].

Definition toDomainTemplate (e : Rows.ChannelTpl) : ChannelTpl.ChannelTpl :=
  ChannelTpl.mkTpl (Rows.Id e) (Rows.OwnerId e) (Rows.OwnerType_ e) (Rows.Name e) (Rows.Description e)
    (Rows.Channel_ e) (Rows.BizType_ e) (Rows.ActivatedVersionId e) (Rows.CreatedAt e) (Rows.UpdatedAt e) [].

Definition toDomainVersion (e : Rows.ChannelTplVersion) : ChannelTplVersion :=
  mkVersion (Rows.v_Id e) (Rows.ChannelTplId e) (Rows.v_Name e) (Rows.Signature e) (Rows.Content e)
    (Rows.Remark e) (Rows.AuditId e) (Rows.AuditorId e) (Rows.AuditAt e) (Rows.v_AuditStatus e)
    (Rows.v_RejectReason e) (Rows.v_LastReviewAt e) (Rows.v_CreatedAt e) (Rows.v_UpdatedAt e) [].

Definition toDomainChannelTplProvider (e : Rows.ChannelTplProvider) : ChannelTplProvider :=
  mkTplProvider (Rows.p_Id e) (Rows.TplId e) (Rows.TplVersionId e) (Rows.ProviderId e) (Rows.ProviderName e)
    (Rows.ProviderChannel e) (Rows.RequestId e) (Rows.ProviderTplId e) (Rows.p_AuditStatus e)
    (Rows.p_RejectReason e) (Rows.p_LastReviewAt e) (Rows.p_CreatedAt e) (Rows.p_UpdatedAt e).

Module TplRepo.
Section repo.
Context `{BaseDB}.
Variable b : base.

Definition DefaultChannelTplRepo_GetById (id : Z) : ChannelTpl.ChannelTpl * option error :=
  match TplDAO.GetById b id with
  | (_, Some err) => (zeroTpl, Some err)
  | (entity, None) => (toDomainTemplate entity, None)
  end.

Definition DefaultChannelTplRepo_GetVersionByVersionId (versionId : Z) : ChannelTplVersion * option error :=
  match TplDAO.GetVersionsById b versionId with
  | (_, Some err) => (zeroVersion, Some err)
  | (version, None) => (toDomainVersion version, None)
  end.

Definition DefaultProviderRepo_GetByNameAndTplInfo (name : string) (tplId tplVersionId : Z) (tplChannel : string)
    : list ChannelTplProvider * option error :=
  match TplDAO.GetByNameAndTplInfo b name tplId tplVersionId tplChannel with
  | (_, Some err) => ([], Some err)
  | (providers, None) => (map toDomainChannelTplProvider providers, None)
  end.

Definition NewDefaultChannelTplRepo : ChannelTplRepo :=
  mkTplRepo DefaultChannelTplRepo_GetById DefaultChannelTplRepo_GetVersionByVersionId.

Definition NewDefaultProviderRepo : ProviderRepo :=
  mkProviderRepo DefaultProviderRepo_GetByNameAndTplInfo.

(** The version a template activates is the one that is read for it. *)
Lemma activated_version_id tpl id v :
  GetById NewDefaultChannelTplRepo id = (tpl, None) ->
  GetVersionByVersionId NewDefaultChannelTplRepo (ChannelTpl.ActivatedVersionId tpl) = (v, None) ->
  ver_Id v = ChannelTpl.ActivatedVersionId tpl.
Proof using Type.
  simpl. unfold DefaultChannelTplRepo_GetVersionByVersionId, TplDAO.GetVersionsById. intros _.
  destruct (First_version b _) as [e|e] eqn:E; [|by destruct (errors_Is e _)].
  intros [= <-]. simpl. by apply First_version_id in E.
Qed.

Lemma tpl_GetById_found tpl id :
  GetById NewDefaultChannelTplRepo id = (tpl, None) -> ChannelTpl.Id tpl = id.
Proof using Type.
  simpl. unfold DefaultChannelTplRepo_GetById, TplDAO.GetById.
  destruct (First_tpl b id) as [e|e] eqn:E; [|by destruct (errors_Is e _)].
  intros [= <-]. simpl. by apply First_tpl_id in E.
Qed.

(** A template that does not exist is reported as [ErrChannelTplNotFound], and
    only such a template is. *)
Lemma tpl_GetById_not_found tpl id err :
  GetById NewDefaultChannelTplRepo id = (tpl, Some err) ->
  errors_Is err (SCode ErrChannelTplNotFound) = true <->
  exists e, First_tpl b id = inr e /\ errors_Is e ErrRecordNotFound = true.
Proof using Type.
  simpl. unfold DefaultChannelTplRepo_GetById, TplDAO.GetById.
  destruct (First_tpl b id) as [t|e] eqn:E; [done|].
  destruct (errors_Is e ErrRecordNotFound) eqn:Er; intros [= _ <-].
  - rewrite errors_Is_code_err. split; [intros _; by exists e|done].
  - rewrite (First_tpl_extern _ _ _ _ E). split; [done|]. intros (e' & [= <-] & ?). congruence.
Qed.
End repo.
End TplRepo.

(** ** A base database in memory *)

Definition find_id {A} (id_of : A -> Z) (l : list A) (id : Z) : A + error :=
  match List.find (fun x => id_of x =? id) l with
  | Some x => inl x
  | None => inr (ESentinel ErrRecordNotFound "record not found")
  end.

Lemma find_id_inl {A} (id_of : A -> Z) l id x : find_id id_of l id = inl x -> id_of x = id.
Proof.
  unfold find_id. destruct (List.find _ l) as [y|] eqn:E; [|done]. intros [= ->].
  apply List.find_some in E as [_ E]. by apply Z.eqb_eq.
Qed.

#[global] Program Instance mem_base : BaseDB := {|
  base := list Rows.ChannelTpl * list Rows.ChannelTplVersion * list Rows.ChannelTplProvider;
  First_tpl b := find_id Rows.Id b.1.1;
  First_version b := find_id Rows.v_Id b.1.2;
  Find_versions b ids := (filter (fun v => Rows.ChannelTplId v ∈ ids) b.1.2, None);
  Find_providers b name tplId versionId channel :=
    (filter (fun p => Rows.ProviderName p = name /\ Rows.TplId p = tplId /\ Rows.TplVersionId p = versionId) b.2, None)
|}.
Next Obligation. intros b id t. apply find_id_inl. Qed.
Next Obligation. intros b id t. apply find_id_inl. Qed.
Next Obligation.
  intros b ids vs [= <-]. apply Forall_forall. intros v Hv. by apply list_elem_of_filter in Hv as [Hv _].
Qed.
Next Obligation.
  intros b name tplId versionId channel ps [= <-]. apply Forall_forall. intros v Hv.
  by apply list_elem_of_filter in Hv as [Hv _].
Qed.
Next Obligation.
  intros b id e c. unfold find_id. simpl. destruct (List.find _ _); [done|]. intros [= <-]. done.
Qed.
