(* ===== verification/SmsProvider.v ===== *)
(** * The SMS provider and the Tencent client

    internal/service/provider/sms/client (types.go, tencent.go) and
    internal/service/provider/sms/sms_provider.go.

    The client of Tencent's SDK is code outside the repository: its [SendSms] is
    an argument, a function from the state [W] of the outside world and a request
    to the state after it and a response.  The pointers of its request and
    response types are options; reading a nil one panics. *)
From Stdlib Require Import ZArith Lia List Ascii.
From stdpp Require Import prelude strings gmap.
From S2P Require Import Prelude GoLang Errs GoStrings Externals Domain Channels Templates.

Definition nil_dereference : string := "invalid memory address or nil pointer dereference".

(** Reading through a pointer. *)
Definition deref {A} (p : option A) : go A :=
  match p with Some a => Ret a | None => Panic nil_dereference end.

(** ** client/types.go *)

Definition ErrFailedToSendSms : error := ESentinel (SVar "ErrFailedToSendSms") "[jotify] failed to send sms".

Record SendReq := mkReq {
  PhoneNumbers : list string; SignName : string; TemplateId : string;
  TemplateParams : gmap string string }.

Record SendRespStatus := mkStatus { Code : string; Message : string }.

Record SmsResp := mkSmsResp { RequestId : string; resp_PhoneNumbers : gmap string SendRespStatus }.
Definition zeroSmsResp : SmsResp := mkSmsResp "" ∅.

Record CreateTplReq := mkCreateTplReq { TplType : Z; TplName : string; TplContent : string; tpl_Remark : string }.
Record CreateTplResp := mkCreateTplResp { tpl_RequestId : string; tpl_TemplateId : string }.

(** The interface [SmsClient]. *)
Record SmsClient (W : Type) := mkClient {
  cl_Send : W -> SendReq -> go (W * (SmsResp * option error));
  cl_CreateTemplate : W -> CreateTplReq -> go (W * (CreateTplResp * option error)) }.
Arguments mkClient {W}.
Arguments cl_Send {W}.
Arguments cl_CreateTemplate {W}.

(** ** client/tencent.go *)

Module Tencent.

(** The parts of the SDK's types the code writes and reads. *)
Record SendSmsRequest := mkRequest {
  PhoneNumberSet : list (option string); SmsSdkAppId : option string; req_TemplateId : option string;
  req_SignName : option string; TemplateParamSet : list (option string) }.

Record SendStatus := mkSendStatus {
  PhoneNumber : option string; st_Code : option string; st_Message : option string }.

Record SendSmsResponse := mkResponse { res_RequestId : option string; SendStatusSet : list SendStatus }.

Section tencent.
Context {W : Type} `{MapRange}.
Variable SendSms : W -> SendSmsRequest -> W * (SendSmsResponse + error).

Record TencentSmsClient := mkTencent { appId : string }.

Definition fullPhoneNum (phoneNumber : string) : string :=
  if negb (HasPrefix phoneNumber "+") then "+86" +:+ phoneNumber else phoneNumber.

(** [make([]*string, n)] followed by [n] appends: [n] nil pointers come first.
    The parameters of the template are sent in the order of one iteration over
    their map.  An empty map and a nil map are not told apart: the code sends an
    empty set for the one and none for the other. *)
Definition build_request (tc : TencentSmsClient) (req : SendReq) : SendSmsRequest :=
  let phoneNumberSet :=
    replicate (length (PhoneNumbers req)) None ++ map (fun p => Some (fullPhoneNum p)) (PhoneNumbers req) in
  let templateParamSet :=
    replicate (size (TemplateParams req)) None ++ map (fun e => Some e.2) (map_range (TemplateParams req)) in
  mkRequest phoneNumberSet (Some (appId tc)) (Some (TemplateId req)) (Some (SignName req)) templateParamSet.

Fixpoint read_statuses (statuses : list SendStatus) (m : gmap string SendRespStatus)
    : go (gmap string SendRespStatus) :=
  match statuses with
  | [] => Ret m
  | status :: statuses =>
      let! num := deref (PhoneNumber status) in
      let! code := deref (st_Code status) in
      let! message := deref (st_Message status) in
      read_statuses statuses (<[TrimPrefix num "+86" := mkStatus code message]> m)
  end.

Definition Send (tc : TencentSmsClient) (w : W) (req : SendReq) : go (W * (SmsResp * option error)) :=
  if (length (PhoneNumbers req) =? 0)%nat
  then Ret (w, (zeroSmsResp, Some (code_err ErrInvalidParam ": phone number should not be empty")))
  else
    let '(w, res) := SendSms w (build_request tc req) in
    match res with
    | inr err => Ret (w, (zeroSmsResp, Some (Errorf_ww ErrFailedToSendSms ": " err)))
    | inl response =>
        if (length (SendStatusSet response) =? 0)%nat
        then Ret (w, (zeroSmsResp, Some (Errorf_w ErrFailedToSendSms ": no response from tencent")))
        else
          let! requestId := deref (res_RequestId response) in
          let! phoneNumbers := read_statuses (SendStatusSet response) ∅ in
          Ret (w, (mkSmsResp requestId phoneNumbers, None))
    end.

Definition CreateTemplate (tc : TencentSmsClient) (w : W) (req : CreateTplReq)
    : go (W * (CreateTplResp * option error)) := Panic "implement me".

Definition client (tc : TencentSmsClient) : SmsClient W := mkClient (Send tc) (CreateTemplate tc).
End tencent.

(** [NewTencentSmsClient(regionId, secretId, secretKey, appId)]: the credentials
    go to the SDK. *)
Record credentials := mkCredentials { cred_region : string; cred_secretId : string; cred_secretKey : string }.

Definition NewTencentSmsClient (regionId secretId secretKey appId : string) : credentials * TencentSmsClient :=
  (mkCredentials regionId secretId secretKey, mkTencent appId).

(** ioc/service.go, [InitTencentSmsClient]: the configuration's fields are passed
    as (region, app, secret id, secret key). *)
Record config := mkConfig { cfg_RegionId : string; cfg_AppId : string; cfg_SecretId : string; cfg_SecretKey : string }.

Definition InitTencentSmsClient (cfg : config) : credentials * TencentSmsClient :=
  NewTencentSmsClient (cfg_RegionId cfg) (cfg_AppId cfg) (cfg_SecretId cfg) (cfg_SecretKey cfg).

(** What the SDK is asked to send: as many nil pointers as there are receivers,
    then each receiver's number; as many nil pointers as there are parameters,
    then their values in some order. *)
Lemma request_sets `{MapRange} tc req :
  PhoneNumberSet (build_request tc req) =
    replicate (length (PhoneNumbers req)) None ++ map (fun p => Some (fullPhoneNum p)) (PhoneNumbers req) /\
  exists vs, TemplateParamSet (build_request tc req) =
    replicate (size (TemplateParams req)) None ++ map Some vs /\
    vs ≡ₚ map snd (map_to_list (TemplateParams req)).
Proof.
  split; [done|]. exists (map snd (map_range (TemplateParams req))). split.
  - simpl. by rewrite map_map.
  - by rewrite map_range_perm.
Qed.

(** The statuses are filed under the numbers the caller gave, when these have no
    country prefix. *)
Lemma trim_full p : HasPrefix p "+" = false -> TrimPrefix (fullPhoneNum p) "+86" = p.
Proof. intros Hp. unfold fullPhoneNum. rewrite Hp. apply TrimPrefix_append. Qed.

End Tencent.

(** ** sms_provider.go *)

Module Sms.
Section sms.
Context {W : Type} `{MapRange}.

(** A nil interface value is [None]; only the provider repository can be one. *)
Record Provider := mkProvider {
  name : string; client : SmsClient W; tplRepo : ChannelTplRepo; providerRepo : option ProviderRepo }.

(** [NewProvider] does not set [providerRepo]. *)
Definition NewProvider (name : string) (client : SmsClient W) (tplRepo : ChannelTplRepo)
    (_ : ProviderRepo) : Provider := mkProvider name client tplRepo None.

Definition with_versions (tpl : ChannelTpl.ChannelTpl) (vs : list ChannelTplVersion) : ChannelTpl.ChannelTpl :=
  ChannelTpl.mkTpl (ChannelTpl.Id tpl) (ChannelTpl.OwnerId tpl) (ChannelTpl.OwnerType_ tpl) (ChannelTpl.Name tpl)
    (ChannelTpl.Description tpl) (ChannelTpl.Channel_ tpl) (ChannelTpl.BizType_ tpl)
    (ChannelTpl.ActivatedVersionId tpl) (ChannelTpl.CreateAt tpl) (ChannelTpl.UpdateAt tpl) vs.

Definition with_providers (v : ChannelTplVersion) (ps : list ChannelTplProvider) : ChannelTplVersion :=
  mkVersion (ver_Id v) (ChannelTplId v) (ver_Name v) (Signature v) (Content v) (Remark v) (AuditId v)
    (AuditorId v) (AuditAt v) (ver_AuditStatus v) (ver_RejectReason v) (ver_LastReviewAt v)
    (ver_CreateAt v) (ver_UpdateAt v) ps.

Definition getTemplate (p : Provider) (templateId : Z) : go (ChannelTpl.ChannelTpl * option error) :=
  match GetById (tplRepo p) templateId with
  | (_, Some err) => Ret (zeroTpl, Some err)
  | (tpl, None) =>
      if ChannelTpl.Id tpl =? 0
      then Ret (zeroTpl, Some (code_err ErrChannelTplNotFound
                  (": template id = " +:+ FormatUint (ChannelTpl.Id tpl))))
      else
        match GetVersionByVersionId (tplRepo p) (ChannelTpl.ActivatedVersionId tpl) with
        | (_, Some err) => Ret (zeroTpl, Some err)
        | (version, None) =>
            if negb (String.eqb (ver_AuditStatus version) AuditStatusApproved)
            then Ret (zeroTpl, Some (code_err ErrNotApprovedTplVersion
                        (": template version id = " +:+ FormatUint (ver_Id version))))
            else
              let! repo := deref (providerRepo p) in
              match GetByNameAndTplInfo repo (name p) (ChannelTpl.Id tpl) (ver_Id version) ChannelSMS with
              | (_, Some err) => Ret (zeroTpl, Some err)
              | (providers, None) =>
                  if (length providers =? 0)%nat
                  then Ret (zeroTpl, Some (code_err ErrNotAvailableProvider
                              (": template id = " +:+ FormatUint (ChannelTpl.Id tpl) +:+
                               ", version id = " +:+ FormatUint (ver_Id version))))
                  else Ret (with_versions tpl [with_providers version providers], None)
              end
        end
  end.

(** The first status, in the order of one iteration, that is not OK. *)
Fixpoint first_refused (statuses : list (string * SendRespStatus)) : option SendRespStatus :=
  match statuses with
  | [] => None
  | (_, status) :: statuses =>
      if negb (EqualFold (Code status) "OK") then Some status else first_refused statuses
  end.

Definition failed (e : error) : option error :=
  Some (Errorf_ww (ECode ErrFailedToSendNotification) ": " e).

(** The request for a notification. *)
Definition sms_request (v : ChannelTplVersion) (providerTplId : string) (n : Notif.Notification) : SendReq :=
  mkReq (Notif.Receivers n) (Signature v) providerTplId (Params (Notif.Tpl n)).

Definition Send (p : Provider) : sends W := fun w n =>
  let! '(channelTpl, err) := getTemplate p (Tpl_Id (Notif.Tpl n)) in
  match err with
  | Some err => Ret (w, (zeroSendResp, failed err))
  | None =>
      match ChannelTpl.ActivatedVersion channelTpl with
      | None => Ret (w, (zeroSendResp,
                  Some (code_err ErrFailedToSendNotification ": no published templates found")))
      | Some activatedVersion =>
          let! provider := slice_get (Providers activatedVersion) 0 in
          let! '(w, (resp, err)) :=
            cl_Send (client p) w (sms_request activatedVersion (ProviderTplId provider) n) in
          match err with
          | Some err => Ret (w, (zeroSendResp, failed err))
          | None =>
              match first_refused (map_range (resp_PhoneNumbers resp)) with
              | Some status => Ret (w, (zeroSendResp, Some (code_err ErrFailedToSendNotification
                    (": Response Code = " +:+ Code status +:+ ", Response Message = " +:+ Message status))))
              | None => Ret (w, (mkResp (mkResult (Notif.Id n) SendStatusSuccess), None))
              end
          end
      end
  end.

(** [ioc.InitTencentSmsProvider]. *)
Definition InitTencentSmsProvider (client : SmsClient W) (tplRepo : ChannelTplRepo)
    (providerRepo : ProviderRepo) : Provider :=
  NewProvider "tencent_sms_provider" client tplRepo providerRepo.

(** *** What a provider with a repository does *)

(** The template, the version it activates and the providers of that version are
    as the provider requires. *)
Record ready (p : Provider) (repo : ProviderRepo) (id : Z) (tpl : ChannelTpl.ChannelTpl)
    (version : ChannelTplVersion) (pr : ChannelTplProvider) (prs : list ChannelTplProvider) : Prop := {
  ready_tpl : GetById (tplRepo p) id = (tpl, None);
  ready_id : ChannelTpl.Id tpl <> 0;
  ready_version : GetVersionByVersionId (tplRepo p) (ChannelTpl.ActivatedVersionId tpl) = (version, None);
  ready_approved : ver_AuditStatus version = AuditStatusApproved;
  ready_providers : GetByNameAndTplInfo repo (name p) (ChannelTpl.Id tpl) (ver_Id version) ChannelSMS = (pr :: prs, None) }.

Lemma getTemplate_ready p repo id tpl :
  providerRepo p = Some repo ->
  getTemplate p id = Ret (tpl, None) <->
  exists tpl0 version pr prs, ready p repo id tpl0 version pr prs /\
    tpl = with_versions tpl0 [with_providers version (pr :: prs)].
Proof.
  intros Hrepo. unfold getTemplate. split.
  - destruct (GetById (tplRepo p) id) as [tpl0 [e|]] eqn:Et; [done|].
    destruct (Z.eqb_spec (ChannelTpl.Id tpl0) 0) as [|Hid]; [done|].
    destruct (GetVersionByVersionId _ _) as [version [e|]] eqn:Ev; [done|].
    destruct (String.eqb_spec (ver_AuditStatus version) AuditStatusApproved) as [Ha|]; [|done].
    rewrite Hrepo. simpl. destruct (GetByNameAndTplInfo _ _ _ _ _) as [prs [e|]] eqn:Ep; [done|].
    destruct prs as [|pr prs]; [done|]. intros [= <-].
    exists tpl0, version, pr, prs. by split.
  - intros (tpl0 & version & pr & prs & [Ht Hid Hv Ha Hp] & ->).
    rewrite Ht. destruct (Z.eqb_spec (ChannelTpl.Id tpl0) 0) as [|_]; [done|].
    rewrite Hv, Ha. simpl. rewrite Hrepo. simpl. by rewrite Hp.
Qed.

Lemma first_refused_none l :
  first_refused l = None <-> Forall (fun e => EqualFold (Code e.2) "OK" = true) l.
Proof.
  induction l as [|[k s] l IH]; simpl; [split; [by constructor|done]|].
  rewrite Forall_cons. simpl. destruct (EqualFold (Code s) "OK"); simpl; [rewrite IH; naive_solver|].
  split; [done|]. by intros [? _].
Qed.

Lemma all_accepted (m : gmap string SendRespStatus) :
  first_refused (map_range m) = None <-> map_Forall (fun _ s => EqualFold (Code s) "OK" = true) m.
Proof.
  rewrite first_refused_none, map_range_perm, map_Forall_to_list.
  split; intros Hm; (eapply Forall_impl; [exact Hm|]); by intros [].
Qed.

Lemma Send_no_repo p w n w' resp : providerRepo p = None -> Send p w n <> Ret (w', (resp, None)).
Proof.
  intros Hrepo. unfold Send, getTemplate.
  destruct (GetById _ _) as [tpl [e|]]; simpl; [done|].
  destruct (ChannelTpl.Id tpl =? 0); simpl; [done|].
  destruct (GetVersionByVersionId _ _) as [v [e|]]; simpl; [done|].
  destruct (String.eqb _ _); simpl; [|done]. by rewrite Hrepo.
Qed.

Lemma Send_success p w n w' resp :
  Send p w n = Ret (w', (resp, None)) <->
     resp = mkResp (mkResult (Notif.Id n) SendStatusSuccess) /\
     exists repo tpl version pr prs r, providerRepo p = Some repo /\
       ready p repo (Tpl_Id (Notif.Tpl n)) tpl version pr prs /\
       0 < ChannelTpl.ActivatedVersionId tpl /\ ver_Id version = ChannelTpl.ActivatedVersionId tpl /\
       cl_Send (client p) w (sms_request version (ProviderTplId pr) n) = Ret (w', (r, None)) /\
       map_Forall (fun _ s => EqualFold (Code s) "OK" = true) (resp_PhoneNumbers r).
Proof.
  split.
  - destruct (providerRepo p) as [repo|] eqn:Hrepo; [|by intros E%Send_no_repo].
    unfold Send. destruct (getTemplate p _) as [[tpl [e|]]|] eqn:Et; simpl; [done| |done].
    apply (getTemplate_ready _ _ _ _ Hrepo) in Et as (tpl0 & version & pr & prs & Hr & ->).
    unfold ChannelTpl.ActivatedVersion. simpl.
    destruct (Z.leb_spec (ChannelTpl.ActivatedVersionId tpl0) 0); [done|]. simpl.
    destruct (Z.eqb_spec (ver_Id version) (ChannelTpl.ActivatedVersionId tpl0)) as [Hid|]; [|done].
    cbn [slice_get go_bind Providers with_providers]. simpl.
    destruct (cl_Send _ _ _) as [[w1 [r [e|]]]|] eqn:Ec; simpl; [done| |done].
    destruct (first_refused _) eqn:Ef; [done|]. intros [= <- <-].
    split; [done|]. exists repo, tpl0, version, pr, prs, r. by rewrite <- all_accepted.
  - intros (-> & repo & tpl0 & version & pr & prs & r & Hrepo & Hr & Hpos & Hid & Hc & Hok). unfold Send.
    rewrite (proj2 (getTemplate_ready _ _ _ _ Hrepo)) by (by exists tpl0, version, pr, prs). simpl.
    unfold ChannelTpl.ActivatedVersion. simpl.
    destruct (Z.leb_spec (ChannelTpl.ActivatedVersionId tpl0) 0); [lia|]. simpl.
    rewrite Hid, Z.eqb_refl. simpl. unfold sms_request in *. simpl. rewrite Hc. simpl.
    by rewrite (proj2 (all_accepted _) Hok).
Qed.

Lemma Send_errors p w n w' resp e :
  Send p w n = Ret (w', (resp, Some e)) -> errors_Is e (SCode ErrFailedToSendNotification) = true.
Proof.
  unfold Send, failed.
  destruct (getTemplate p _) as [[tpl [e1|]]|]; simpl; [by intros E; simplify_eq/=| |done].
  destruct (ChannelTpl.ActivatedVersion tpl) as [v|]; [|by intros E; simplify_eq/=].
  destruct (slice_get _ _); simpl; [|done].
  destruct (cl_Send _ _ _) as [[w1 [r [e1|]]]|]; simpl; [by intros E; simplify_eq/=| |done].
  destruct (first_refused _); [|done]. by intros E; simplify_eq/=.
Qed.


(** *** What the provider the program builds does *)

(** A provider built with [NewProvider] never sends: it has no provider
    repository, so once the template and its approved version are found it
    panics, and before that it returns an error; the client is never called. *)
Theorem new_provider_never_sends nm cl tr pr w n :
  (exists e, Send (NewProvider nm cl tr pr) w n = Ret (w, (zeroSendResp, Some e)) /\
             errors_Is e (SCode ErrFailedToSendNotification) = true) \/
  Send (NewProvider nm cl tr pr) w n = Panic nil_dereference.
Proof.
  unfold Send, getTemplate. simpl.
  destruct (GetById tr _) as [tpl [e|]]; simpl; [left; by eexists|].
  destruct (ChannelTpl.Id tpl =? 0); simpl; [left; by eexists|].
  destruct (GetVersionByVersionId tr _) as [v [e|]]; simpl; [left; by eexists|].
  destruct (String.eqb _ _); simpl; [by right|left; by eexists].
Qed.

(** With the channels and providers the program wires together, every SMS ends
    in a panic, and every other notification in [ErrInvalidChannel]: nothing is
    ever sent. *)
Theorem shipped_channels_never_send cl tr pr fuel w n :
  (1 < fuel)%nat ->
  let sms : sends W := fun w n =>
    terminating (baseChannel_Send fuel
      (NewSeqSelectorBuilder [Send (InitTencentSmsProvider cl tr pr)]) w n) in
  let d := NewDispatcher (InitChannelMap sms) in
  if String.eqb (Notif.Channel_ n) ChannelSMS
  then Dispatcher_Send d w n = Panic nil_dereference
  else exists e, Dispatcher_Send d w n = Ret (w, (zeroSendResp, Some e)) /\
                 errors_Is e (SCode ErrInvalidChannel) = true.
Proof.
  intros Hf sms d. unfold Dispatcher_Send, d, InitChannelMap. simpl.
  destruct (String.eqb_spec (Notif.Channel_ n) ChannelSMS) as [->|Hne].
  - rewrite lookup_singleton_eq. unfold sms. rewrite seq_channel_Send by done. simpl.
    destruct (new_provider_never_sends "tencent_sms_provider" cl tr pr w n) as [(e & He & _)|He];
      unfold InitTencentSmsProvider; by rewrite He.
  - rewrite lookup_singleton_ne by done. eexists; split; [done|]. apply errors_Is_code_err.
Qed.
End sms.
Arguments Provider W : clear implicits.

(** A template with one approved version and one provider, and a client that logs
    its requests and accepts them. *)
Definition sample_base : @base mem_base :=
  ([Rows.mkTpl 3 1 "person" "code" "login code" ChannelSMS "verify_code" 4 0 0],
   [Rows.mkVersion 4 3 "v1" "jotify" "your code is {1}" "" 0 0 0 AuditStatusApproved "" 0 0 0],
   [Rows.mkTplProvider 5 3 4 1 "tencent_sms_provider" ChannelSMS "" "SMS_1" AuditStatusApproved "" 0 0 0]).

Definition logging : SmsClient (list SendReq) :=
  mkClient (fun w req => Ret (w ++ [req], (mkSmsResp "r" {[ "13800000000"%string := mkStatus "Ok" "" ]}, None)))
    (fun w _ => Panic "implement me").

Definition sample_provider : Provider (list SendReq) :=
  mkProvider "tencent_sms_provider" logging (TplRepo.NewDefaultChannelTplRepo sample_base)
    (Some (TplRepo.NewDefaultProviderRepo sample_base)).


Lemma shipped_channels_never_send_witness :
  let sms : sends (list SendReq) := fun w n =>
    terminating (baseChannel_Send 2
      (NewSeqSelectorBuilder [@Send _ key_order (InitTencentSmsProvider logging
         (TplRepo.NewDefaultChannelTplRepo sample_base) (TplRepo.NewDefaultProviderRepo sample_base))]) w n) in
  Dispatcher_Send (NewDispatcher (InitChannelMap sms)) [] (sample SendConf.zero) = Panic nil_dereference.
Proof.
  refine (@shipped_channels_never_send _ key_order logging (TplRepo.NewDefaultChannelTplRepo sample_base)
           (TplRepo.NewDefaultProviderRepo sample_base) 2 [] (sample SendConf.zero) _). lia.
Defined.
End Sms.
