(* ===== verification/BizConf.v ===== *)
(** * Business configurations and their caches

    internal/repository/dao/biz_conf.go, internal/repository/cache/biz_conf.go
    with its local and redis implementations, and internal/repository/biz_conf.go,
    which reads through the local cache, then redis, then the database, and fills
    the caches on the way back.

    Code outside the repository: the in-process cache (go-cache), the two redis
    commands, and the query of the database.  The JSON of a configuration is in the
    file ConfJson.
    The clock reading of a call is the argument [now]. *)
From Stdlib Require Import ZArith Lia List.
From stdpp Require Import prelude strings gmap.
From S2P Require Import Prelude GoLang Errs GoStrings GoJson GoCodec Domain ConfJson Json.
Import ConfJson.

(** ** dao/biz_conf.go *)

Module ConfRow.

Record BizConf := mkRow {
  Id : Z; OwnerId : Z; OwnerType_ : string; ChannelConf_ : JsonColumn ChannelConf;
  TxNotifConf_ : JsonColumn TxNotifConf; RateLimit_ : Z; QuotaConf_ : JsonColumn QuotaConf;
  CallbackConf_ : JsonColumn CallbackConf; CreatedAt : Z; UpdatedAt : Z }.

Definition zero : BizConf :=
  mkRow 0 0 "" (mkColumn (mkChannelConf [] None) false) (mkColumn (mkTxConf "" 0 None) false) 0
    (mkColumn (mkQuotaConf None None) false) (mkColumn (mkCbConf "" None) false) 0 0.

Definition TableName : string := "biz_conf".
End ConfRow.

Class ConfDB := {
  confdb : Type;
  First_conf : confdb -> Z -> ConfRow.BizConf + error }.

Definition BizConfDAO_GetById `{ConfDB} (b : confdb) (id : Z) : ConfRow.BizConf * option error :=
  match First_conf b id with
  | inr err => (ConfRow.zero, Some err)
  | inl bizConf => (bizConf, None)
  end.

(** ** The caches *)

Definition BizConfPrefix : string := "biz_conf".
Definition DefaultExpires : Duration := 15 * Minute.
Definition ErrBizConfCacheKeyNotFound : error :=
  ESentinel (SVar "ErrBizConfCacheKeyNotFound") "[jotify] biz conf cache key not found".
Definition ErrWrongTypeOfBizConfCache : error :=
  ESentinel (SVar "ErrWrongTypeOfBizConfCache") "[jotify] wrong type of biz conf cache".

Definition BizConfCacheKey (bizId : Z) : string := BizConfPrefix +:+ ":" +:+ FormatUint bizId.

(** github.com/patrickmn/go-cache: values of any type, found until they expire. *)
Inductive cached := CConf (c : BizConf) | COther.

Class GoCache := {
  gcache : Type;
  gc_Get : gcache -> Time -> string -> option cached;
  gc_Set : gcache -> Time -> string -> cached -> Duration -> gcache;
  gc_Get_Set g now k v d now' k' x : gc_Get (gc_Set g now k v d) now' k' = Some x ->
    k' = k /\ x = v \/ k' <> k /\ gc_Get g now' k' = Some x;
  gc_Get_fresh g now k v d now' : 0 < d -> After now' (Add now d) = false ->
    gc_Get (gc_Set g now k v d) now' k = Some v }.

(** The string commands of redis; a missing key is reported as [redis.Nil]. *)
Class RedisStr := {
  rstore : Type;
  rs_Get : rstore -> Time -> string -> string + error;
  rs_Set : rstore -> Time -> string -> string -> Duration -> rstore * option error;
  rs_Get_Set s now k v d now' k' x : rs_Get (rs_Set s now k v d).1 now' k' = inl x ->
    k' = k /\ x = v \/ rs_Get s now' k' = inl x }.

(** What both caches implement: [Get] at a time, and [Set] at a time. *)
Class BizConfCache (C : Type) := {
  cache_Get : C -> Time -> Z -> BizConf * option error;
  cache_Set : C -> Time -> Z -> BizConf -> C * option error }.

(** What a cache promises: it answers only with what was set for that id. *)
Class CacheLaws (C : Type) `{!BizConfCache C} (ok : BizConf -> Prop) : Prop := {
  cache_Get_Set c now id x now' id' y : ok x ->
    cache_Get (cache_Set c now id x).1 now' id' = (y, None) ->
    id' = id /\ y = x \/ cache_Get c now' id' = (y, None) }.

Lemma BizConfCacheKey_inj i j : BizConfCacheKey i = BizConfCacheKey j -> i = j.
Proof.
  unfold BizConfCacheKey. intros E. apply (inj (String.append BizConfPrefix)) in E.
  apply (inj (String.append ":")) in E. by apply FormatUint_inj.
Qed.

(** cache/local/biz_conf.go *)
Module Local.
Section local.
Context `{GoCache}.

Definition Set_ (gc : gcache) (now : Time) (id : Z) (conf : BizConf) : gcache * option error :=
  (gc_Set gc now (BizConfCacheKey id) (CConf conf) DefaultExpires, None).

Definition Get (gc : gcache) (now : Time) (id : Z) : BizConf * option error :=
  match gc_Get gc now (BizConfCacheKey id) with
  | None => (zeroConf, Some ErrBizConfCacheKeyNotFound)
  | Some (CConf bizConf) => (bizConf, None)
  | Some COther => (zeroConf, Some ErrWrongTypeOfBizConfCache)
  end.

#[global] Instance local_cache : BizConfCache gcache := { cache_Get := Get; cache_Set := Set_ }.

#[global] Instance local_laws ok : CacheLaws gcache ok.
Proof.
  constructor. intros gc now id x now' id' y _. simpl. unfold Get.
  destruct (gc_Get (gc_Set _ _ _ _ _) _ _) as [[c|]|] eqn:E; [|done..]. intros [= ->].
  apply gc_Get_Set in E as [[Hk [= ->]]|[_ ->]]; [left|by right].
  by apply BizConfCacheKey_inj in Hk.
Qed.

(** What is set is found until it expires. *)
Lemma Get_Set_fresh gc now id conf now' :
  After now' (GoLang.Add now DefaultExpires) = false ->
  Get (Set_ gc now id conf).1 now' id = (conf, None).
Proof. intros Hf. unfold Get. simpl. by rewrite gc_Get_fresh. Qed.
End local.
End Local.

(** cache/redis/biz_conf.go *)
Module Redis.
Section redis.
Context `{RedisStr}.

Definition Set_ (s : rstore) (now : Time) (id : Z) (conf : BizConf) : rstore * option error :=
  match Marshal conf with
  | inr err => (s, Some (Errorf_pw "[jotify] marshal biz conf error: " err))
  | inl data =>
      match rs_Set s now (BizConfCacheKey id) data DefaultExpires with
      | (s, Some err) => (s, Some (Errorf_pw "[jotify] set biz conf to redis error: " err))
      | (s, None) => (s, None)
      end
  end.

Definition Get (s : rstore) (now : Time) (id : Z) : BizConf * option error :=
  match rs_Get s now (BizConfCacheKey id) with
  | inr err =>
      if errors_Is err (SExtern redis_Nil) then (zeroConf, Some ErrBizConfCacheKeyNotFound)
      else (zeroConf, Some (Errorf_pw "[jotify] get biz conf from redis error: " err))
  | inl val =>
      match Unmarshal val zeroConf with
      | inr err => (zeroConf, Some (Errorf_pw "[jotify] unmarshal biz conf error: " err))
      | inl bizConf => (bizConf, None)
      end
  end.

#[global] Instance redis_cache : BizConfCache rstore := { cache_Get := Get; cache_Set := Set_ }.

#[global] Instance redis_laws : CacheLaws rstore conf_ok.
Proof.
  constructor. intros s now id x now' id' y Hx. simpl. unfold Get, Set_.
  destruct (Marshal x) as [data|e] eqn:Em; [|by right].
  pose proof (rs_Get_Set s now (BizConfCacheKey id) data DefaultExpires now' (BizConfCacheKey id')) as Hl.
  destruct (rs_Set _ _ _ _ _) as [s1 e1]; simpl in Hl.
  replace (match e1 with Some err => (s1, Some (Errorf_pw _ err)) | None => (s1, None) end).1 with s1
    by (by destruct e1).
  destruct (rs_Get s1 now' _) as [val|e] eqn:E; [|by destruct (errors_Is e _)].
  destruct (Hl val eq_refl) as [[Hk ->]| ->]; [|by right].
  rewrite (Unmarshal_Marshal x zeroConf _ Hx Em). intros [= ->]. left.
  by apply BizConfCacheKey_inj in Hk.
Qed.
End redis.
End Redis.

(** ** repository/biz_conf.go *)

Module BizConfRepo.

Definition column {T} (c : JsonColumn T) : option T := if Valid c then Some (Val c) else None.

Definition toDomain (e : ConfRow.BizConf) : BizConf :=
  mkBizConf (ConfRow.Id e) (ConfRow.OwnerId e) (ConfRow.OwnerType_ e)
    (column (ConfRow.ChannelConf_ e)) (column (ConfRow.TxNotifConf_ e)) (ConfRow.RateLimit_ e)
    (column (ConfRow.QuotaConf_ e)) (column (ConfRow.CallbackConf_ e))
    (ConfRow.CreatedAt e) (ConfRow.UpdatedAt e).

Section repo.
Context `{ConfDB} {L R : Type} `{!BizConfCache L} `{!BizConfCache R}.

(** The two caches in front of the database. *)
Record state := mkState { localCache : L; redisCache : R }.

Definition GetById (b : confdb) (st : state) (now : Time) (id : Z) : state * (BizConf * option error) :=
  match cache_Get (localCache st) now id with
  | (bizConf, None) => (st, (bizConf, None))
  | (_, Some _) =>
      match cache_Get (redisCache st) now id with
      | (bizConf, None) =>
          let '(l, _) := cache_Set (localCache st) now id bizConf in
          (mkState l (redisCache st), (bizConf, None))
      | (_, Some _) =>
          match BizConfDAO_GetById b id with
          | (_, Some err) => (st, (zeroConf, Some err))
          | (bcEntity, None) =>
              let bizConf := toDomain bcEntity in
              let '(l, _) := cache_Set (localCache st) now id bizConf in
              let '(r, _) := cache_Set (redisCache st) now id bizConf in
              (mkState l r, (bizConf, None))
          end
      end
  end.

(** *** Reading without caches *)

Definition direct (b : confdb) (id : Z) : BizConf * option error :=
  match First_conf b id with
  | inl e => (toDomain e, None)
  | inr err => (zeroConf, Some err)
  end.

(** The caches hold only what the database holds. *)
Definition coherent (b : confdb) (st : state) : Prop :=
  forall now id c,
    cache_Get (localCache st) now id = (c, None) \/ cache_Get (redisCache st) now id = (c, None) ->
    direct b id = (c, None).

Section laws.
Context {ok : BizConf -> Prop} `{!CacheLaws L ok} `{!CacheLaws R ok}.

Lemma coherent_set_local b st now id c :
  coherent b st -> direct b id = (c, None) -> ok c ->
  coherent b (mkState (cache_Set (localCache st) now id c).1 (redisCache st)).
Proof using All.
  intros Hc Hd Hok now' id' y [Hy|Hy]; simpl in Hy; [|by eapply Hc; right].
  apply cache_Get_Set in Hy as [[-> ->]|Hy]; [done| |done]. by eapply Hc; left.
Qed.

Lemma coherent_set_redis b st now id c :
  coherent b st -> direct b id = (c, None) -> ok c ->
  coherent b (mkState (localCache st) (cache_Set (redisCache st) now id c).1).
Proof using All.
  intros Hc Hd Hok now' id' y [Hy|Hy]; simpl in Hy; [by eapply Hc; left|].
  apply cache_Get_Set in Hy as [[-> ->]|Hy]; [done| |done]. by eapply Hc; right.
Qed.

Lemma GetById_coherent b st now id :
  (forall c, direct b id = (c, None) -> ok c) -> coherent b st ->
  let '(st', r) := GetById b st now id in r = direct b id /\ coherent b st'.
Proof using All.
  intros Hok Hc. unfold GetById.
  destruct (cache_Get (localCache st) now id) as [c [e|]] eqn:El.
  2: { split; [|done]. symmetry. eapply Hc. by left. }
  destruct (cache_Get (redisCache st) now id) as [c' [e'|]] eqn:Er.
  - unfold BizConfDAO_GetById, direct. destruct (First_conf b id) as [row|err] eqn:Ed; [|done].
    assert (Hd : direct b id = (toDomain row, None)) by (unfold direct; by rewrite Ed).
    pose proof (coherent_set_redis b _ now id _ (coherent_set_local b st now id _ Hc Hd (Hok _ Hd)) Hd (Hok _ Hd)) as Hc2.
    simpl in Hc2. destruct (cache_Set (localCache st) _ _ _) as [l ?], (cache_Set (redisCache st) _ _ _) as [r ?].
    by split.
  - assert (Hd : direct b id = (c', None)) by (eapply Hc; by right).
    pose proof (coherent_set_local b st now id c' Hc Hd (Hok _ Hd)) as Hc2.
    destruct (cache_Set (localCache st) _ _ _) as [l ?]. by split.
Qed.

(** Reads at the given times and ids, one after the other. *)
Fixpoint GetAll (b : confdb) (st : state) (reads : list (Time * Z)) : state * list (BizConf * option error) :=
  match reads with
  | [] => (st, [])
  | (now, id) :: reads =>
      let '(st, r) := GetById b st now id in
      let '(st, rs) := GetAll b st reads in
      (st, r :: rs)
  end.

(** C20: from caches that hold nothing but what the database holds, and while the
    database does not change, every sequence of reads at any times answers what
    reading the database would, errors included, and keeps the caches so. *)
Theorem conf_caches_transparent b st reads :
  (forall id c, direct b id = (c, None) -> ok c) -> coherent b st ->
  (GetAll b st reads).2 = map (fun e => direct b e.2) reads /\ coherent b (GetAll b st reads).1.
Proof using All.
  intros Hok. revert st; induction reads as [|[now id] reads IH]; intros st Hc; simpl; [done|].
  pose proof (GetById_coherent b st now id (Hok id) Hc) as Hg.
  destruct (GetById b st now id) as [st1 r]. destruct Hg as [-> Hc1].
  destruct (IH st1 Hc1) as [Hr Hc2]. destruct (GetAll b st1 reads) as [st2 rs]; simpl in *.
  by rewrite Hr.
Qed.
End laws.
End repo.
Arguments mkState {L R}.
Arguments localCache {L R}.
Arguments redisCache {L R}.
Arguments state : clear implicits.

(** The interface [BizConfRepo] of the services: a repository with the state [C]. *)
Class Repository (C : Type) := {
  conf_GetById : C -> Time -> Z -> C * (BizConf * option error) }.

(** [NewDefaultBizConfRepo] over a database. *)
Definition NewDefaultBizConfRepo `{ConfDB} {L R} `{!BizConfCache L} `{!BizConfCache R} (b : confdb)
    : Repository (state L R) := {| conf_GetById := GetById b |}.

(** A configuration that had to be read from redis or the database is served
    from memory for fifteen minutes, whatever happens to the database in the
    meantime. *)
Theorem conf_served_until_expiry `{ConfDB} `{GoCache} {R} `{!BizConfCache R}
    b b' (st st' : state gcache R) now now' id c e0 :
  cache_Get (localCache st) now id = (zeroConf, Some e0) ->
  GetById b st now id = (st', (c, None)) ->
  After now' (GoLang.Add now DefaultExpires) = false ->
  GetById b' st' now' id = (st', (c, None)).
Proof.
  intros Hmiss Hget Hfresh. unfold GetById in Hget. rewrite Hmiss in Hget.
  assert (Hl : exists l r, st' = mkState l r /\ l = (Local.Set_ (localCache st) now id c).1).
  { destruct (cache_Get (redisCache st) now id) as [c1 [e1|]].
    - destruct (BizConfDAO_GetById b id) as [row [e2|]]; [done|].
      simpl in Hget. destruct (cache_Set (redisCache st) _ _ _) as [r ?]. simplify_eq. by eauto.
    - simpl in Hget. simplify_eq. by eauto. }
  destruct Hl as (l & r & -> & ->). unfold GetById. simpl.
  pose proof (Local.Get_Set_fresh (localCache st) now id c now' Hfresh) as E. simpl in E. by rewrite E.
Qed.
End BizConfRepo.

(** ** Runs *)

(** Values with the time they expire at. *)
Definition ttl_get {A} (m : gmap string (A * Time)) (now : Time) (k : string) : option A :=
  match m !! k with
  | Some (v, exp) => if After now exp then None else Some v
  | None => None
  end.

Definition ttl_set {A} (m : gmap string (A * Time)) (now : Time) (k : string) (v : A) (d : Duration)
    : gmap string (A * Time) := <[k := (v, GoLang.Add now d)]> m.

Lemma ttl_get_set {A} (m : gmap string (A * Time)) now k v d now' k' x :
  ttl_get (ttl_set m now k v d) now' k' = Some x -> k' = k /\ x = v \/ k' <> k /\ ttl_get m now' k' = Some x.
Proof.
  unfold ttl_get, ttl_set. destruct (decide (k' = k)) as [->|Hne].
  - rewrite lookup_insert_eq. destruct (After _ _); [done|]. intros [= ->]. by left.
  - rewrite lookup_insert_ne by done. intros Hx. by right.
Qed.

#[global] Program Instance mem_gocache : GoCache := {|
  gcache := gmap string (cached * Time); gc_Get := ttl_get; gc_Set := ttl_set |}.
Next Obligation. intros *. apply ttl_get_set. Qed.
Next Obligation. intros g now k v d now' _ Hf. unfold ttl_get, ttl_set. by rewrite lookup_insert_eq, Hf. Qed.

Definition redis_get (m : gmap string (string * Time)) (now : Time) (k : string) : string + error :=
  match ttl_get m now k with Some v => inl v | None => inr (ESentinel (SExtern redis_Nil) "redis: nil") end.

#[global] Program Instance mem_redis : RedisStr := {|
  rstore := gmap string (string * Time); rs_Get := redis_get;
  rs_Set m now k v d := (ttl_set m now k v d, None) |}.
Next Obligation.
  intros s now k v d now' k' x. unfold redis_get. simpl.
  destruct (ttl_get (ttl_set s now k v d) now' k') as [y|] eqn:E; [|done]. intros [= ->].
  apply ttl_get_set in E as [?|[_ E]]; [by left|right]. by rewrite E.
Qed.

(** Configurations that consist of an id and a callback to one service. *)
Definition basic_conf (id : Z) : BizConf :=
  mkBizConf id 0 "" None None 0 None (Some (mkCbConf "svc" None)) 0 0.

Lemma basic_conf_ok id : in_u 64 id -> conf_ok (basic_conf id).
Proof.
  intros Hid. unfold conf_ok, basic_conf, callback_ok, in_s. simpl.
  split; [exact Hid|]. split; [by vm_compute|]. split_and!; first [done|by apply ascii_utf8|by vm_compute].
Qed.

Definition basic_row (id : Z) : ConfRow.BizConf :=
  ConfRow.mkRow id 0 "" (mkColumn (mkChannelConf [] None) false) (mkColumn (mkTxConf "" 0 None) false) 0
    (mkColumn (mkQuotaConf None None) false) (mkColumn (mkCbConf "svc" None) true) 0 0.

(** A database with the configurations of the ids 7 and 8, or with none. *)
Definition two_confs : ConfDB := {|
  confdb := bool;
  First_conf b id := if b && ((id =? 7) || (id =? 8)) then inl (basic_row id)
                     else inr (ESentinel (SExtern gorm_ErrRecordNotFound) "record not found") |}.

Definition cold : BizConfRepo.state gcache rstore := BizConfRepo.mkState ∅ ∅.

Lemma conf_caches_transparent_witness :
  let read := @BizConfRepo.direct two_confs true in
  (BizConfRepo.GetAll (H := two_confs) true cold [(now2025, 7); (now2025, 9); (GoLang.Add now2025 Minute, 7)]).2 =
    [read 7; read 9; read 7].
Proof.
  apply (BizConfRepo.conf_caches_transparent (H := two_confs) (L := gcache) (R := rstore) (ok := conf_ok) true cold
           [(now2025, 7); (now2025, 9); (GoLang.Add now2025 Minute, 7)]).
  - intros id c. unfold BizConfRepo.direct. simpl.
    destruct (Z.eqb_spec id 7) as [->|]; [intros [= <-]; apply (basic_conf_ok 7); by vm_compute|].
    destruct (Z.eqb_spec id 8) as [->|]; [intros [= <-]; apply (basic_conf_ok 8); by vm_compute|done].
  - intros now id c [Hc|Hc]; simpl in Hc.
    + unfold Local.Get in Hc. simpl in Hc. unfold ttl_get, cold in Hc. simpl in Hc. by rewrite lookup_empty in Hc.
    + unfold Redis.Get in Hc. simpl in Hc. unfold redis_get, ttl_get, cold in Hc. simpl in Hc. by rewrite lookup_empty in Hc.
Defined.

Lemma conf_served_until_expiry_witness :
  let st := (BizConfRepo.GetById (H := two_confs) true cold now2025 7).1 in
  BizConfRepo.GetById (H := two_confs) false st (GoLang.Add now2025 Minute) 7 = (st, (basic_conf 7, None)).
Proof.
  intros st.
  apply (@BizConfRepo.conf_served_until_expiry two_confs mem_gocache rstore _ true false cold st now2025
           (GoLang.Add now2025 Minute) 7 (basic_conf 7) ErrBizConfCacheKeyNotFound).
  - reflexivity.
  - reflexivity.
  - vm_compute. reflexivity.
Defined.
