(* ===== verification/GrpcClients.v ===== *)
(** * gRPC clients and the interceptor chain

    internal/pkg/grpc/clients.go: one client per service, dialled at first use;
    internal/ioc/grpc.go: [InterceptorOf]. *)
From Stdlib Require Import ZArith Lia List Ascii.
From stdpp Require Import prelude strings gmap.
From S2P Require Import Prelude GoLang Errs GoStrings GoJson Domain.

(** The options of a dial: [WithNoProxy], transport credentials, and the default
    service configuration. *)
Record DialOptions := mkOpts { no_proxy : bool; insecure_creds : bool; service_config : option string }.

(** google.golang.org/grpc: [NewClient] refuses a target without transport
    security. *)
Class GrpcDial := {
  ClientConn : Type;
  NewClient : string -> DialOptions -> ClientConn + error;
  NewClient_no_security addr o : insecure_creds o = false -> exists e, NewClient addr o = inr e }.

Definition quote : string := String dquote "".

(** [fmt]'s [%q] on a name of plain characters. *)
Definition quoted (s : string) : string := quote +:+ s +:+ quote.

Module Clients.
Section clients.
Context `{GrpcDial} {T : Type}.

(** [bb] is the name of the balancer; the resolver is the same for all dials. *)
Record Clients := mkClients {
  clientMap : gmap string T; bb : option string; insecure : bool; creator : ClientConn -> T }.

(** [NewClients] leaves [insecure] false. *)
Definition NewClients (bb : option string) (creator : ClientConn -> T) : Clients :=
  mkClients ∅ bb false creator.

(** [fmt.Sprintf] of the default service configuration: the quotes of the policy's
    name are inside those of the key. *)
Definition service_config_of (name : string) : string :=
  "{" +:+ quote +:+ "loadBalancingPolicy: " +:+ quoted name +:+ quote +:+ "}".

(** The options of [dial], but for the resolver. *)
Definition dial_options (c : Clients) : DialOptions :=
  mkOpts true (insecure c)
    (match bb c with
     | Some name => Some (service_config_of name)
     | None => None
     end).

Definition dial (c : Clients) (serviceName : string) : ClientConn + error :=
  NewClient ("registry:///" +:+ serviceName) (dial_options c).

Definition Get (c : Clients) (serviceName : string) : go (Clients * T) :=
  match clientMap c !! serviceName with
  | Some client => Ret (c, client)
  | None =>
      match dial c serviceName with
      | inr err => Panic ("failed to create grpc client for service " +:+ serviceName +:+ ": " +:+ Error err)
      | inl conn =>
          let client := creator c conn in
          Ret (mkClients (<[serviceName := client]> (clientMap c)) (bb c) (insecure c) (creator c), client)
      end
  end.

(** The default service configuration is no JSON, unless the name of the balancer
    begins with a colon. *)
Theorem service_config_no_json name :
  (forall s, skip name <> String ":"%char s) -> parse (service_config_of name) = None.
Proof using Type.
  intros Hname. unfold parse.
  assert (E : service_config_of name =
    String "{"%char (print_string "loadBalancingPolicy: " +:+ (name +:+ String dquote (String dquote "}")))).
  { unfold service_config_of, quoted. by rewrite !append_assoc. }
  set (rest := name +:+ String dquote (String dquote "}")) in E.
  assert (Hk : read_key (print_string "loadBalancingPolicy: " +:+ rest) = None).
  { rewrite read_key_string by by apply ascii_utf8.
    assert (Hs : exists c s, skip rest = String c s /\ c <> ":"%char).
    { subst rest. clear E. induction name as [|c name IH]; [by exists dquote, (String dquote "}")|].
      rewrite append_cons. cbn [skip] in *. destruct (_ || _); [by apply IH|].
      exists c, (name +:+ String dquote (String dquote "}")). split; [done|]. intros ->. by apply (Hname name). }
    destruct Hs as (c & s & -> & Hc). destruct (Z.eqb_spec (code c) 58) as [Ec|]; [|done].
    exfalso. apply Hc. rewrite <- (ascii_N_embedding c), <- (ascii_N_embedding ":"). f_equal. unfold code in Ec. simpl. lia. }
  rewrite E, Nat.add_comm. generalize (2 * String.length (String "{" (print_string "loadBalancingPolicy: " +:+ rest)))%nat.
  intros n. change (2 + n)%nat with (S (S n)). cbn [read_value]. simpl skip. cbv iota. change (code "{") with 123.
  simpl Z.eqb. cbv iota. rewrite list_of_starts by (done || by right). cbn [read_members]. by rewrite Hk.
Qed.

(** A client is dialled once: later calls return it, and calls for other services
    do not disturb it. *)
Lemma Get_again c name c' client :
  Get c name = Ret (c', client) ->
  Get c' name = Ret (c', client) /\
  forall name', name' <> name -> clientMap c' !! name' = clientMap c !! name'.
Proof.
  unfold Get. destruct (clientMap c !! name) as [x|] eqn:E.
  - intros [= -> ->]. by rewrite E.
  - destruct (dial c name); [|done]. intros [= <- <-]. simpl. rewrite lookup_insert_eq.
    split; [done|]. intros. by rewrite lookup_insert_ne.
Qed.

(** Clients made by [NewClients] cannot dial. *)
Lemma NewClients_Get bb creator name : is_panic (Get (NewClients bb creator) name) = true.
Proof.
  unfold Get, dial. simpl. rewrite lookup_empty.
  destruct (NewClient_no_security ("registry:///" +:+ name) (dial_options (NewClients bb creator)) eq_refl)
    as [e ->]. done.
Qed.
End clients.
Arguments Clients {_} T.
End Clients.

(** ** InterceptorOf *)

Module Interceptor.
Section chain.
Context {S Ctx Req Info Resp : Type}.

(** A handler acts on the state [S] of the server and may panic; an interceptor
    is given the handler that comes after it. *)
Abbreviation UnaryHandler := (S -> Ctx -> Req -> go (S * (Resp * option error))) (only parsing).
Abbreviation UnaryServerInterceptor :=
  (S -> Ctx -> Req -> Info -> UnaryHandler -> go (S * (Resp * option error))) (only parsing).

(** The loop runs from the last interceptor to the first: [todo] are the
    interceptors it has not wrapped yet, last one first. *)
Fixpoint wrap (todo : list UnaryServerInterceptor) (info : Info) (chainedHandler : UnaryHandler) : UnaryHandler :=
  match todo with
  | [] => chainedHandler
  | thisInterceptor :: todo =>
      let next := chainedHandler in
      wrap todo info (fun s ctx req => thisInterceptor s ctx req info next)
  end.

Definition InterceptorOf (interceptors : list UnaryServerInterceptor) : UnaryServerInterceptor :=
  fun s ctx req info handler => wrap (rev interceptors) info handler s ctx req.

Lemma wrap_app l k info h : wrap (l ++ k) info h = wrap k info (wrap l info h).
Proof. revert h; induction l as [|j l IH]; intros h; simpl; [done|]. apply IH. Qed.

(** The chain is nested in the order of the list: chaining two lists is chaining
    the second inside the first; the first interceptor is the outermost and the
    handler the innermost. *)
Lemma InterceptorOf_app is1 is2 s ctx req info handler :
  InterceptorOf (is1 ++ is2) s ctx req info handler =
  InterceptorOf is1 s ctx req info (fun s ctx req => InterceptorOf is2 s ctx req info handler).
Proof. unfold InterceptorOf. by rewrite rev_app_distr, wrap_app. Qed.

Lemma InterceptorOf_nests i is_ s ctx req info handler :
  InterceptorOf (i :: is_) s ctx req info handler =
    i s ctx req info (fun s ctx req => InterceptorOf is_ s ctx req info handler).
Proof. apply (InterceptorOf_app [i]). Qed.
End chain.
End Interceptor.
