(* ===== verification/CallbackLogs.v ===== *)
(** * Callback logs: internal/repository/dao/callback_log.go and
    internal/repository/callback_log.go

    The logs of the base database, read page by page and written back, and the
    repository that joins them with their notifications.

    The database is a class: [rows] are its rows with the values of the column
    [id] the code selects and orders by, which is no field of the entity.  The entity
    has no primary key either, so that the update of callback_log.go, which names its
    log in [Model] and has no [Where], is an update without conditions, and gorm refuses
    those ([gorm_refuses]).  The law of the class leaves open what it does with a table
    whose key gorm knows: then it updates the log of that notification. *)
From Stdlib Require Import ZArith Lia List.
From stdpp Require Import prelude strings gmap.
From S2P Require Import Prelude GoLang Errs Domain Json Dao NotifRepo.

(** What [Updates] writes. *)
Definition set_log (l : Entity.CallbackLog) (retried next : Z) (status : string) (updateAt : Z) : Entity.CallbackLog :=
  Entity.mkCb (Entity.NotificationId l) retried next status (Entity.cb_CreatedAt l) updateAt.

(** [Where("next_retry_at <= ?").Where("status = ?").Where("id > ?")]. *)
Definition due (startTime : Z) (status : string) (startId : Z) (row : Z * Entity.CallbackLog) : bool :=
  (Entity.NextRetryAt row.2 <=? startTime) && String.eqb (Entity.cb_Status row.2) status && (startId <? row.1).

Class LogDB := {
  logdb : Type;
  rows : logdb -> list (Z * Entity.CallbackLog);
  Find_logs : logdb -> Z -> string -> Z -> Z -> list Entity.CallbackLog * option error;
  Find_in : logdb -> list Z -> list Entity.CallbackLog * option error;
  (** [Model(&CallbackLog{NotificationId: id}).Updates(...)] *)
  Updates_log : logdb -> Z -> Z -> Z -> string -> Z -> logdb + error;
  Commit_log : logdb -> logdb -> option error;
  Find_logs_law s startTime status startId limit ls :
    0 < limit -> Find_logs s startTime status startId limit = (ls, None) ->
    ls = map snd (take (Z.to_nat limit) (List.filter (due startTime status startId) (rows s)));
  Find_in_law s ids ls : Find_in s ids = (ls, None) ->
    ls = filter (fun l => Entity.NotificationId l ∈ ids) (map snd (rows s));
  Updates_log_law s nid retried next status updateAt s' :
    Updates_log s nid retried next status updateAt = inl s' ->
    rows s' = map (fun row => (row.1, if Entity.NotificationId row.2 =? nid
                                      then set_log row.2 retried next status updateAt else row.2)) (rows s) }.

(** gorm's [ErrMissingWhereClause]. *)
Definition ErrMissingWhereClause : error := ENew "WHERE conditions required".

(** gorm refuses every update of the entity as it is. *)
Definition gorm_refuses `{LogDB} : Prop :=
  forall s nid retried next status updateAt,
    Updates_log s nid retried next status updateAt = inr ErrMissingWhereClause.

(** ** dao/callback_log.go *)

Module LogDAO.
Section dao.
Context `{LogDB}.

(** The next page is to start after the last log's notification id, which is
    compared with the column [id]. *)
Definition Find (s : logdb) (startTime startId batchSize : Z)
    : list Entity.CallbackLog * (Z * option error) :=
  match Find_logs s startTime CallbackStatusPending startId batchSize with
  | (_, Some err) => ([], (0, Some err))
  | (logs, None) =>
      (logs, (match last logs with Some l => Entity.NotificationId l | None => 0 end, None))
  end.

Fixpoint update_all (updateAt : Z) (s : logdb) (logs : list Entity.CallbackLog) : logdb * option error :=
  match logs with
  | [] => (s, None)
  | log :: logs =>
      match Updates_log s (Entity.NotificationId log) (Entity.RetriedTimes log) (Entity.NextRetryAt log)
              (Entity.cb_Status log) updateAt with
      | inr err => (s, Some err)
      | inl s => update_all updateAt s logs
      end
  end.

(** One transaction: rolled back when a statement or the commit fails. *)
Definition Update (s : logdb) (now : Time) (logs : list Entity.CallbackLog) : logdb * option error :=
  if (length logs =? 0)%nat then (s, None)
  else
    match update_all (UnixMilli now) s logs with
    | (_, Some err) => (s, Some err)
    | (s', None) =>
        match Commit_log s s' with
        | Some err => (s, Some err)
        | None => (s', None)
        end
    end.

Definition FindByNotificationIds (s : logdb) (notificationIds : list Z) : list Entity.CallbackLog * option error :=
  Find_in s notificationIds.

(** Then nothing is ever written, and the first log ends the transaction. *)
Theorem update_refused s now logs :
  gorm_refuses -> logs <> [] -> Update s now logs = (s, Some ErrMissingWhereClause).
Proof. intros Hr. destruct logs as [|l logs]; [done|]. intros _. unfold Update. simpl. by rewrite Hr. Qed.

(** *** Writing back what was read *)

(** A row without the time of its last update. *)
Definition strip (row : Z * Entity.CallbackLog) : Z * Entity.CallbackLog :=
  (row.1, set_log row.2 (Entity.RetriedTimes row.2) (Entity.NextRetryAt row.2) (Entity.cb_Status row.2) 0).

Definition content (s : logdb) : list (Z * Entity.CallbackLog) := map strip (rows s).

(** What an update with the log [log] writes is what its rows already hold. *)
Definition agrees (log : Entity.CallbackLog) (row : Z * Entity.CallbackLog) : Prop :=
  Entity.NotificationId row.2 = Entity.NotificationId log ->
  Entity.RetriedTimes row.2 = Entity.RetriedTimes log /\ Entity.NextRetryAt row.2 = Entity.NextRetryAt log /\
  Entity.cb_Status row.2 = Entity.cb_Status log.

Lemma agrees_strip log row : agrees log (strip row) <-> agrees log row.
Proof. done. Qed.

Lemma agrees_content log s s' :
  content s = content s' -> Forall (agrees log) (rows s) -> Forall (agrees log) (rows s').
Proof.
  intros Heq Hs.
  assert (Hc : forall s, Forall (agrees log) (content s) <-> Forall (agrees log) (rows s)).
  { intros s1. unfold content. rewrite Forall_map. by apply Forall_iff. }
  rewrite <- Hc, <- Heq. by apply Hc.
Qed.

Lemma Updates_same s log updateAt s' :
  Forall (agrees log) (rows s) ->
  Updates_log s (Entity.NotificationId log) (Entity.RetriedTimes log) (Entity.NextRetryAt log)
    (Entity.cb_Status log) updateAt = inl s' ->
  content s' = content s.
Proof.
  intros Ha Hu. unfold content. rewrite (Updates_log_law _ _ _ _ _ _ _ Hu), map_map.
  apply map_ext_in. intros row Hrow. rewrite Forall_forall in Ha.
  apply list_elem_of_In, Ha in Hrow. unfold strip. simpl.
  destruct (Z.eqb_spec (Entity.NotificationId row.2) (Entity.NotificationId log)) as [He|]; [|done].
  destruct (Hrow He) as (-> & -> & ->). done.
Qed.

Lemma update_all_same updateAt logs s s' err :
  (forall log, log ∈ logs -> Forall (agrees log) (rows s)) ->
  update_all updateAt s logs = (s', err) -> content s' = content s.
Proof.
  revert s; induction logs as [|log logs IH]; intros s Ha; simpl; [by intros [= <- _]|].
  destruct (Updates_log _ _ _ _ _ _) as [s1|e] eqn:Hu; [|by intros [= <- _]].
  assert (Hc : content s1 = content s) by (eapply Updates_same; [apply Ha, elem_of_cons; by left|exact Hu]).
  intros E. apply IH in E; [congruence|].
  intros l Hl. apply (agrees_content l s); [done|]. apply Ha, elem_of_cons. by right.
Qed.

Lemma Update_same now logs s s' err :
  (forall log, log ∈ logs -> Forall (agrees log) (rows s)) ->
  Update s now logs = (s', err) -> content s' = content s.
Proof.
  intros Ha. unfold Update. destruct (length logs =? 0)%nat; [by intros [= <- _]|].
  destruct (update_all _ _ _) as [s1 [e|]] eqn:E; [by intros [= <- _]|].
  destruct (Commit_log s s1); intros [= <- _]; [done|]. by eapply update_all_same.
Qed.

(** The rows a query selects depend on the content only. *)
Lemma due_strip t st i row : due t st i (strip row) = due t st i row.
Proof. done. Qed.

Lemma due_content t st i s :
  map strip (List.filter (due t st i) (rows s)) = List.filter (due t st i) (content s).
Proof.
  unfold content. induction (rows s) as [|row rs IH]; simpl; [done|].
  rewrite due_strip. destruct (due t st i row); simpl; by rewrite IH.
Qed.

Lemma due_count t st i s s' :
  content s = content s' ->
  length (List.filter (due t st i) (rows s)) = length (List.filter (due t st i) (rows s')).
Proof. intros Hc. by rewrite <- (length_map strip), due_content, Hc, <- due_content, length_map. Qed.
End dao.
End LogDAO.

(** ** repository/callback_log.go *)

Module LogRepo.
Section repo.
Context `{NotificationDAO} `{LogDB}.

(** The notifications' store is only read here. *)
Variable d : dstate.

Definition toDomainNotif (e : Entity.Notification) : Notif.Notification :=
  Notif.mkNotification (Entity.Id e) (Entity.BizId e) (Entity.BizKey e)
    (UnmarshalList (Entity.Receivers e)) (Entity.Channel_ e)
    (mkTemplate (Entity.TplId e) (Entity.TplVersionId e) (UnmarshalMap (Entity.TplParams e)))
    (Entity.Status e) (time_UnixMilli (Entity.ScheduleStrat e)) (time_UnixMilli (Entity.ScheduleEnd e))
    (Entity.Version e) SendConf.zero.

Definition toDomain (cl : Entity.CallbackLog) (n : Entity.Notification) : CbLog.CallbackLog :=
  CbLog.mkLog (toDomainNotif n) (Entity.RetriedTimes cl) (Entity.NextRetryAt cl) (Entity.cb_Status cl).

Definition toEntity (cl : CbLog.CallbackLog) : Entity.CallbackLog :=
  Entity.mkCb (Notif.Id (CbLog.Notification cl)) (CbLog.RetriedTimes cl) (CbLog.NextRetryAt cl)
    (CbLog.Status cl) 0 0.

(** The error of [GetById] is ignored. *)
Definition join (src : Entity.CallbackLog) : go CbLog.CallbackLog :=
  let! '(n, _) := d_GetById d (Entity.NotificationId src) in
  Ret (toDomain src n).

(** A page that is not full starts the next one from the beginning. *)
Definition Find (s : logdb) (startTime startId batchSize : Z)
    : go (list CbLog.CallbackLog * (Z * option error)) :=
  match LogDAO.Find s startTime startId batchSize with
  | (_, (_, Some err)) => Ret ([], (0, Some err))
  | (entities, (nextStartId, None)) =>
      let nextStartId := if Z.of_nat (length entities) <? batchSize then 0 else nextStartId in
      let! logs := go_mapM join entities in
      Ret (logs, (nextStartId, None))
  end.

Definition FindByNotificationIds (s : logdb) (notificationIds : list Z)
    : go (list CbLog.CallbackLog * option error) :=
  match LogDAO.FindByNotificationIds s notificationIds with
  | (_, Some err) => Ret ([], Some err)
  | (logs, None) =>
      let! '(ns, err) := d_GetMapByIds d notificationIds in
      match err with
      | Some err => Ret ([], Some err)
      | None =>
          Ret (map (fun src => toDomain src (default Entity.zero (ns !! Entity.NotificationId src))) logs, None)
      end
  end.

Definition Update (s : logdb) (now : Time) (logs : list CbLog.CallbackLog) : logdb * option error :=
  LogDAO.Update s now (map toEntity logs).

(** A log read and written back has the content it had. *)
Lemma toEntity_toDomain cl n :
  Entity.Id n = Entity.NotificationId cl ->
  toEntity (toDomain cl n) = set_log (Entity.mkCb (Entity.NotificationId cl) 0 0 "" 0 0)
    (Entity.RetriedTimes cl) (Entity.NextRetryAt cl) (Entity.cb_Status cl) 0.
Proof. intros E. unfold toEntity, toDomain. simpl. by rewrite E. Qed.
End repo.
End LogRepo.
