(* ===== verification/Callback.v ===== *)
(** * The callback service: internal/service/notification/callback/callback.go

    [DefaultService] reports the results of notifications to the businesses that
    asked for it and records the attempts in their callback logs.  Its state is
    the outside world, the gRPC clients, the configurations it has loaded, the
    configuration repository and the logs; the notifications are only read. *)
From Stdlib Require Import ZArith Lia List.
From stdpp Require Import prelude strings gmap.
From S2P Require Import Prelude GoLang Errs GoStrings Externals Sharding Retry Domain ConfJson Json Dao DaoBatch NotifRepo BizConf GrpcClients CallbackLogs.

(** ** The messages of the API *)

Inductive ApiChannel := CHANNEL_UNSPECIFIED | CHANNEL_SMS | CHANNEL_EMAIL | CHANNEL_IN_APP.

Inductive ApiStatus :=
  STATUS_UNSPECIFIED | STATUS_PREPARE | STATUS_CANCEL | STATUS_PENDING | STATUS_SUCCESS | STATUS_FAILURE.

Record ApiNotification := mkApiNotif {
  api_BizKey : string; api_Receivers : list string; api_Channel : ApiChannel; api_TplId : string;
  api_TplParams : gmap string string }.

Record SendResultNotifyRequest := mkNotifyReq {
  req_NotificationId : Z; OriRequest : ApiNotification; res_NotificationId : Z; res_Status : ApiStatus }.

Definition getChannel (n : Notif.Notification) : ApiChannel :=
  let c := Notif.Channel_ n in
  if String.eqb c ChannelSMS then CHANNEL_SMS
  else if String.eqb c ChannelEmail then CHANNEL_EMAIL
  else if String.eqb c ChannelApp then CHANNEL_IN_APP
  else CHANNEL_UNSPECIFIED.

Definition getStatus (n : Notif.Notification) : ApiStatus :=
  let s := Notif.Status n in
  if String.eqb s SendStatusSuccess then STATUS_SUCCESS
  else if String.eqb s SendStatusFailure then STATUS_FAILURE
  else if String.eqb s SendStatusPrepare then STATUS_PREPARE
  else if String.eqb s SendStatusPending then STATUS_PENDING
  else if String.eqb s SendStatusCancel then STATUS_CANCEL
  else STATUS_UNSPECIFIED.

Definition buildNotifyReq (n : Notif.Notification) : SendResultNotifyRequest :=
  mkNotifyReq (Notif.Id n)
    (mkApiNotif (Notif.BizKey n) (Notif.Receivers n) (getChannel n) (FormatUint (Tpl_Id (Notif.Tpl n)))
       (Params (Notif.Tpl n)))
    (Notif.Id n) (getStatus n).

(** A callback service client: the generated [SendResultNotify] on the world [W];
    its answer is the field [Success]. *)
Definition CallbackServiceClient (W : Type) : Type :=
  W -> SendResultNotifyRequest -> W * (bool + error).

Module Callback.
Section callback.
Context `{GrpcDial} `{RetryKit} `{NotificationDAO} `{LogDB} `{MapRange}.
Context {W C : Type} `{!BizConfRepo.Repository C}.

Record state := mkState {
  world : W;
  clients : Clients.Clients (CallbackServiceClient W);
  confMap : gmap Z CallbackConf;
  bizConfRepo : C;
  logs : logdb }.

Variables (d : dstate) (now : Time).

Definition with_world (st : state) w cs := mkState w cs (confMap st) (bizConfRepo st) (logs st).
Definition with_confs (st : state) m c := mkState (world st) (clients st) m c (logs st).
Definition with_logs (st : state) l := mkState (world st) (clients st) (confMap st) (bizConfRepo st) l.

(** A business without a callback configuration has a nil one, which is not kept. *)
Definition getConf (st : state) (bizId : Z) : state * (option CallbackConf * option error) :=
  match confMap st !! bizId with
  | Some conf => (st, (Some conf, None))
  | None =>
      match BizConfRepo.conf_GetById (bizConfRepo st) now bizId with
      | (c, (_, Some err)) => (with_confs st (confMap st) c, (None, Some err))
      | (c, (bizConf, None)) =>
          match CallbackConf_ bizConf with
          | Some conf => (with_confs st (<[bizId := conf]> (confMap st)) c, (Some conf, None))
          | None => (with_confs st (confMap st) c, (None, None))
          end
      end
  end.

(** [inl ok] is a response with [Success = ok]. *)
Definition sendCallback (st : state) (n : Notif.Notification) : go (state * (bool + error)) :=
  match getConf st (Notif.BizId n) with
  | (st, (_, Some err)) => Ret (st, inr err)
  | (st, (None, None)) => Ret (st, inr (code_err ErrBizConfNotFound ""))
  | (st, (Some conf, None)) =>
      let! '(cs, client) := Clients.Get (clients st) (cb_ServiceName conf) in
      let '(w, resp) := client (world st) (buildNotifyReq n) in
      Ret (with_world st w cs, resp)
  end.

Definition log_with (log : CbLog.CallbackLog) retried next status : CbLog.CallbackLog :=
  CbLog.mkLog (CbLog.Notification log) retried next status.

Definition nil_conf : string := "invalid memory address or nil pointer dereference".

(** The parameter [log] is a copy of the caller's log; what the call makes of the
    copy is the first component of its result, which the program does not
    return. *)
Definition sendAndSetChangeFields (st : state) (log : CbLog.CallbackLog)
    : go (state * (CbLog.CallbackLog * (bool * option error))) :=
  let! '(st, resp) := sendCallback st (CbLog.Notification log) in
  match resp with
  | inr err => Ret (st, (log, (false, Some err)))
  | inl true =>
      Ret (st, (log_with log (CbLog.RetriedTimes log) (CbLog.NextRetryAt log) CallbackStatusSuccess, (true, None)))
  | inl false =>
      match getConf st (Notif.BizId (CbLog.Notification log)) with
      | (st, (_, Some err)) => Ret (st, (log, (false, Some err)))
      | (st, (None, None)) => Panic nil_conf
      | (st, (Some conf, None)) =>
          match cb_RetryPolicy conf with
          | None => Panic nil_conf
          | Some policy =>
              let! strategy := NewRetryStrategy policy in
              match strategy with
              | inr err => Ret (st, (log, (false, Some err)))
              | inl strategy =>
                  let '(interval, ok) := NextWithRetried strategy (CbLog.RetriedTimes log) in
                  if (ok : bool)
                  then Ret (st, (log_with log (i32 (CbLog.RetriedTimes log + 1)) (Unix (Add now interval))
                                   (CbLog.Status log), (true, None)))
                  else Ret (st, (log_with log (CbLog.RetriedTimes log) (CbLog.NextRetryAt log)
                                   CallbackStatusFailure, (true, None)))
              end
          end
      end
  end.

(** The loop of [sendAndUpdateLogs]; [logs[i]] is what is appended. *)
Fixpoint send_logs (st : state) (ls : list CbLog.CallbackLog) (updateParams : list CbLog.CallbackLog)
    : go (state * list CbLog.CallbackLog) :=
  match ls with
  | [] => Ret (st, updateParams)
  | log :: ls =>
      let! '(st, (_, (changed, err))) := sendAndSetChangeFields st log in
      match err with
      | Some _ => send_logs st ls updateParams
      | None => send_logs st ls (if (changed : bool) then updateParams ++ [log] else updateParams)
      end
  end.

Definition sendAndUpdateLogs (st : state) (ls : list CbLog.CallbackLog) : go (state * option error) :=
  let! '(st, updateParams) := send_logs st ls [] in
  let '(l, err) := LogRepo.Update (logs st) now updateParams in
  Ret (with_logs st l, err).

(** The loop of [Send]; [None] when it goes on after [fuel] pages. *)
Fixpoint Send_loop (fuel : nat) (st : state) (startTime nextStartId batchSize : Z)
    : go (option (state * option error)) :=
  match fuel with
  | O => Ret None
  | S fuel =>
      let! '(ls, (newId, err)) := LogRepo.Find d (logs st) startTime nextStartId batchSize in
      match err with
      | Some err => Ret (Some (st, Some err))
      | None =>
          if (length ls =? 0)%nat then Ret (Some (st, None))
          else
            let! '(st, err) := sendAndUpdateLogs st ls in
            match err with
            | Some err => Ret (Some (st, Some err))
            | None => Send_loop fuel st startTime newId batchSize
            end
      end
  end.

Definition Send (fuel : nat) (st : state) (startTime batchSize : Z) : go (option (state * option error)) :=
  Send_loop fuel st startTime 0 batchSize.

Definition SendByNotification (st : state) (n : Notif.Notification) : go (state * option error) :=
  let! '(ls, err) := LogRepo.FindByNotificationIds d (logs st) [Notif.Id n] in
  match err with
  | Some err => Ret (st, Some err)
  | None => sendAndUpdateLogs st ls
  end.

(** The last loop of [SendByNotifications], over the map in one iteration order;
    the error of the last call stays. *)
Fixpoint send_rest (st : state) (rest : list Notif.Notification) (err : option error)
    : go (state * option error) :=
  match rest with
  | [] => Ret (st, err)
  | n :: rest =>
      let! '(st, resp) := sendCallback st n in
      send_rest st rest (match resp with inr e => Some e | inl _ => None end)
  end.

Definition SendByNotifications (st : state) (ns : list Notif.Notification) : go (state * option error) :=
  let nIds := map Notif.Id ns in
  let m := foldl (fun m n => <[Notif.Id n := n]> m) (∅ : gmap Z Notif.Notification) ns in
  let! '(ls, err) := LogRepo.FindByNotificationIds d (logs st) nIds in
  match err with
  | Some err => Ret (st, Some err)
  | None =>
      if (length ls =? length ns)%nat then sendAndUpdateLogs st ls
      else
        let m := foldl (fun m n => delete (Notif.Id n) m) m ns in
        let '(st, err) :=
          if negb (length ls =? 0)%nat
          then let '(l, err) := LogRepo.Update (logs st) now ls in (with_logs st l, err)
          else (st, None) in
        send_rest st (map snd (map_range m)) err
  end.

(** [NewDefaultService] starts without configurations. *)
Definition NewDefaultService (w : W) (cs : Clients.Clients (CallbackServiceClient W)) (c : C) (l : logdb) : state :=
  mkState w cs ∅ c l.

(** *** What is kept of the attempts *)

Lemma getConf_logs st b st' r : getConf st b = (st', r) -> logs st' = logs st /\ world st' = world st.
Proof using Type.
  unfold getConf. destruct (confMap st !! b); [by intros [= <- _]|].
  destruct (BizConfRepo.conf_GetById _ _ _) as [c [bc [e|]]]; [by intros [= <- _]|].
  destruct (CallbackConf_ bc); by intros [= <- _].
Qed.

Lemma sendCallback_logs st n st' r : sendCallback st n = Ret (st', r) -> logs st' = logs st.
Proof using Type.
  unfold sendCallback. destruct (getConf st _) as [st1 [conf err]] eqn:E. apply getConf_logs in E as [E _].
  destruct conf as [conf|], err as [e|]; try by intros [= <- _].
  destruct (Clients.Get _ _) as [[cs client]|]; simpl; [|done].
  destruct (client _ _) as [w resp]. by intros [= <- _].
Qed.

Lemma sendAndSet_logs st log st' r : sendAndSetChangeFields st log = Ret (st', r) -> logs st' = logs st.
Proof using Type.
  unfold sendAndSetChangeFields. destruct (sendCallback st _) as [[st1 resp]|] eqn:E; simpl; [|done].
  apply sendCallback_logs in E. destruct resp as [[|]|e]; [by intros [= <- _]| |by intros [= <- _]].
  destruct (getConf st1 _) as [st2 [conf err]] eqn:E2. apply getConf_logs in E2 as [E2 _].
  destruct conf as [conf|], err as [e|]; [intros [= <- _]; congruence| |intros [= <- _]; congruence|done].
  destruct (cb_RetryPolicy conf); [|done].
  destruct (NewRetryStrategy _) as [[strategy|e]|]; simpl; [|intros [= <- _]; congruence|done].
  destruct (NextWithRetried _ _) as [interval ok]. destruct ok; intros [= <- _]; congruence.
Qed.

(** Only logs that were passed in are written back, as they were passed in. *)
Lemma send_logs_spec st ls acc st' ups :
  send_logs st ls acc = Ret (st', ups) ->
  logs st' = logs st /\ forall log, log ∈ ups -> log ∈ acc \/ log ∈ ls.
Proof using Type.
  revert st acc; induction ls as [|log ls IH]; intros st acc; simpl; [intros [= <- <-]; by auto|].
  destruct (sendAndSetChangeFields st log) as [[st1 [log' [changed err]]]|] eqn:E; simpl; [|done].
  apply sendAndSet_logs in E.
  assert (Hcase : forall acc', (forall l, l ∈ acc' -> l ∈ acc \/ l = log) ->
    send_logs st1 ls acc' = Ret (st', ups) ->
    logs st' = logs st /\ forall l, l ∈ ups -> l ∈ acc \/ l ∈ log :: ls).
  { intros acc' Hacc Hr. apply IH in Hr as [Hl Hu]. split; [congruence|]. intros l Hin.
    rewrite elem_of_cons. destruct (Hu l Hin) as [Hin'|Hin']; [|by auto]. destruct (Hacc l Hin'); by auto. }
  destruct err as [e|]; [apply Hcase; by auto|]. apply Hcase. intros l.
  destruct changed; [|by auto]. rewrite elem_of_app, elem_of_cons, elem_of_nil. tauto.
Qed.

(** A log that came from the store: it carries the columns of a row, and the id
    of its notification, or the id 0 when that was not found. *)
Definition read_from (s : logdb) (log : CbLog.CallbackLog) : Prop :=
  Notif.Id (CbLog.Notification log) = 0 \/
  exists row, row ∈ rows s /\ Entity.NotificationId row.2 = Notif.Id (CbLog.Notification log) /\
    Entity.RetriedTimes row.2 = CbLog.RetriedTimes log /\ Entity.NextRetryAt row.2 = CbLog.NextRetryAt log /\
    Entity.cb_Status row.2 = CbLog.Status log.

(** One log per notification, and no notification 0. *)
Definition logs_wf (s : logdb) : Prop :=
  NoDup (map (fun row => Entity.NotificationId row.2) (rows s)) /\
  Forall (fun row => Entity.NotificationId row.2 <> 0) (rows s).

(** Reading a notification by its id answers with that id, or with the zero
    notification that goes with an error. *)
Definition reads_by_id : Prop :=
  (forall id n e, d_GetById d id = Ret (n, e) -> Entity.Id n = id \/ Entity.Id n = 0) /\
  (forall ids m id n, d_GetMapByIds d ids = Ret (m, None) -> m !! id = Some n -> Entity.Id n = id).

Lemma read_from_agrees s log :
  logs_wf s -> read_from s log -> Forall (LogDAO.agrees (LogRepo.toEntity log)) (rows s).
Proof using Type.
  intros [Hnd Hnz] Hr. apply Forall_forall. intros row Hrow. unfold LogDAO.agrees. simpl. intros Heq.
  destruct Hr as [Hz|(row' & Hrow' & Hid & Hre & Hne & Hst)].
  - rewrite Forall_forall in Hnz. apply Hnz in Hrow. congruence.
  - apply list_elem_of_lookup in Hrow as [i Hi]. apply list_elem_of_lookup in Hrow' as [j Hj].
    assert (i = j) as ->.
    { eapply NoDup_lookup; [exact Hnd|..]; rewrite list_lookup_fmap.
      - by rewrite Hi.
      - rewrite Hj. simpl. by rewrite Hid, Heq. }
    rewrite Hi in Hj. simplify_eq. by rewrite Hre, Hne, Hst.
Qed.

Lemma logs_wf_content s s' : LogDAO.content s = LogDAO.content s' -> logs_wf s -> logs_wf s'.
Proof using Type.
  intros Hc. unfold logs_wf.
  assert (Hm : forall s, map (fun row => Entity.NotificationId row.2) (LogDAO.content s) =
                         map (fun row => Entity.NotificationId row.2) (rows s)).
  { intros s1. unfold LogDAO.content. by rewrite map_map. }
  assert (Hf : forall s, Forall (fun row => Entity.NotificationId row.2 <> 0) (LogDAO.content s) <->
                         Forall (fun row => Entity.NotificationId row.2 <> 0) (rows s)).
  { intros s1. unfold LogDAO.content. by rewrite Forall_map. }
  rewrite <- (Hm s), <- (Hm s'), <- (Hf s), <- (Hf s'), Hc. done.
Qed.

Lemma sendAndUpdateLogs_content st ls st' err :
  logs_wf (logs st) -> Forall (read_from (logs st)) ls ->
  sendAndUpdateLogs st ls = Ret (st', err) -> LogDAO.content (logs st') = LogDAO.content (logs st).
Proof using Type.
  intros Hwf Hr. unfold sendAndUpdateLogs.
  destruct (send_logs st ls []) as [[st1 ups]|] eqn:E; simpl; [|done].
  apply send_logs_spec in E as [El Hu]. rewrite <- El in *.
  destruct (LogRepo.Update (logs st1) now ups) as [l e] eqn:Eu. intros [= <- _]. simpl.
  apply LogDAO.Update_same in Eu; [done|].
  intros log Hin. apply list_elem_of_fmap in Hin as (cl & -> & Hin).
  apply read_from_agrees; [done|]. rewrite Forall_forall in Hr.
  destruct (Hu cl Hin) as [Hn|Hn]; [by apply elem_of_nil in Hn|by apply Hr].
Qed.

Lemma join_read_from s cl log row :
  reads_by_id -> row ∈ rows s -> row.2 = cl -> LogRepo.join d cl = Ret log -> read_from s log.
Proof using Type.
  intros [Hg _] Hrow <- Hj. unfold LogRepo.join in Hj.
  destruct (d_GetById d _) as [[n e]|] eqn:E; simpl in Hj; [|done]. injection Hj as <-.
  apply Hg in E as [E|E]; [right|by left]. exists row. by split_and!.
Qed.

Lemma Find_read_from s startTime startId batchSize ls nid :
  reads_by_id -> 0 < batchSize ->
  LogRepo.Find d s startTime startId batchSize = Ret (ls, (nid, None)) ->
  Forall (read_from s) ls /\
  exists es, es = take (Z.to_nat batchSize) (List.filter (due startTime CallbackStatusPending startId) (rows s)) /\
    length ls = length es /\ (Z.of_nat (length es) < batchSize -> nid = 0).
Proof using Type.
  intros Hg Hb. unfold LogRepo.Find, LogDAO.Find.
  destruct (Find_logs s _ _ _ _) as [cls [e|]] eqn:E; [done|].
  apply Find_logs_law in E; [|done].
  destruct (go_mapM _ cls) as [ls'|] eqn:Em; simpl; [|done]. intros [= <- <-].
  apply go_mapM_Forall2 in Em.
  assert (Hcls : forall cl, cl ∈ cls -> exists row, row ∈ rows s /\ row.2 = cl).
  { intros cl Hin. rewrite E in Hin. apply list_elem_of_fmap in Hin as (row & -> & Hin). exists row.
    split; [|done]. apply elem_of_take in Hin as (i & Hi & _). apply list_elem_of_lookup_2 in Hi.
    apply list_elem_of_In, List.filter_In in Hi as [Hi _]. by apply list_elem_of_In. }
  split.
  - apply Forall_forall. intros log Hin. apply list_elem_of_lookup in Hin as [i Hi].
    apply (Forall2_lookup_r _ _ _ _ _ Em) in Hi as (cl & Hcl & Hj).
    apply list_elem_of_lookup_2 in Hcl. destruct (Hcls _ Hcl) as (row & Hrow & Heq).
    by eapply join_read_from.
  - eexists. split; [reflexivity|]. rewrite <- (Forall2_length _ _ _ Em).
    rewrite E, length_map. split; [done|]. intros Hlt. by rewrite (proj2 (Z.ltb_lt _ _) Hlt).
Qed.

Lemma Send_loop_content fuel st startTime startId batchSize st' err :
  reads_by_id -> 0 < batchSize -> logs_wf (logs st) ->
  Send_loop fuel st startTime startId batchSize = Ret (Some (st', err)) ->
  LogDAO.content (logs st') = LogDAO.content (logs st).
Proof using Type.
  intros Hg Hb. revert st startId; induction fuel as [|fuel IH]; intros st startId Hwf; simpl; [done|].
  destruct (LogRepo.Find d _ _ _ _) as [[ls [nid [e|]]]|] eqn:Ef; simpl; [by intros [= <- _]| |done].
  destruct (length ls =? 0)%nat; [by intros [= <- _]|].
  apply Find_read_from in Ef as [Hr _]; [|done..].
  destruct (sendAndUpdateLogs st ls) as [[st1 e1]|] eqn:Es; simpl; [|done].
  apply sendAndUpdateLogs_content in Es; [|done..].
  destruct e1 as [e|]; [by intros [= <- _]|]. intros Hrec. apply IH in Hrec; [congruence|].
  by eapply logs_wf_content.
Qed.

Lemma FindBy_read_from s ids ls :
  reads_by_id -> LogRepo.FindByNotificationIds d s ids = Ret (ls, None) -> Forall (read_from s) ls.
Proof using Type.
  intros [_ Hg]. unfold LogRepo.FindByNotificationIds, LogDAO.FindByNotificationIds.
  destruct (Find_in s ids) as [cls [e|]] eqn:E; [done|]. apply Find_in_law in E as ->.
  destruct (d_GetMapByIds d ids) as [[m [e|]]|] eqn:Em; simpl; [done| |done]. intros [= <-].
  apply Forall_forall. intros log Hin. apply list_elem_of_fmap in Hin as (cl & -> & Hin).
  apply list_elem_of_filter in Hin as [_ Hin]. apply list_elem_of_fmap in Hin as (row & -> & Hrow).
  destruct (m !! Entity.NotificationId row.2) as [n|] eqn:En; [right|by left].
  apply (Hg _ _ _ _ Em) in En. exists row. unfold LogRepo.toDomain. simpl. by split_and!.
Qed.

(** All keys that were put into the map are deleted again. *)
Lemma all_deleted (ns : list Notif.Notification) :
  foldl (fun m n => delete (Notif.Id n) m)
    (foldl (fun m n => <[Notif.Id n := n]> m) (∅ : gmap Z Notif.Notification) ns) ns = ∅.
Proof using Type.
  assert (Hin : forall ns (m : gmap Z Notif.Notification) i,
    foldl (fun m n => <[Notif.Id n := n]> m) m ns !! i <> None -> m !! i <> None \/ i ∈ map Notif.Id ns).
  { intros l; induction l as [|n l IH]; intros m i Hi; simpl in *; [by left|].
    apply IH in Hi as [Hi|Hi]; [|right; by apply elem_of_cons; right].
    destruct (decide (i = Notif.Id n)) as [->|Hne]; [right; by apply elem_of_cons; left|].
    rewrite lookup_insert_ne in Hi by done. by left. }
  assert (Hdel : forall ns (m : gmap Z Notif.Notification) i,
    foldl (fun m n => delete (Notif.Id n) m) m ns !! i <> None -> m !! i <> None /\ i ∉ map Notif.Id ns).
  { intros l; induction l as [|n l IH]; intros m i Hi; simpl in *; [split; [done|apply not_elem_of_nil]|].
    apply IH in Hi as [Hi Hni]. destruct (decide (i = Notif.Id n)) as [->|Hne].
    { by rewrite lookup_delete_eq in Hi. }
    rewrite lookup_delete_ne in Hi by done. by rewrite not_elem_of_cons. }
  apply map_eq. intros i. rewrite lookup_empty.
  destruct (foldl (fun m n => delete (Notif.Id n) m) _ ns !! i) eqn:E; [|done]. exfalso.
  destruct (Hdel ns (foldl (fun m n => <[Notif.Id n := n]> m) ∅ ns) i) as [Hi Hn]; [by rewrite E|].
  apply Hin in Hi as [Hi|Hi]; [by rewrite lookup_empty in Hi|done].
Qed.

(** C31: sending callbacks changes nothing in the logs but the time of their last
    update: whatever the clients answer, each log keeps its count of retries, its
    next retry and its status, for the loop over the due logs and for the
    callbacks of one notification or of several. *)
Theorem callback_progress_lost st :
  reads_by_id -> logs_wf (logs st) ->
  (forall fuel startTime batchSize st' err, 0 < batchSize ->
     Send fuel st startTime batchSize = Ret (Some (st', err)) ->
     LogDAO.content (logs st') = LogDAO.content (logs st)) /\
  (forall n st' err, SendByNotification st n = Ret (st', err) ->
     LogDAO.content (logs st') = LogDAO.content (logs st)) /\
  (forall ns st' err, SendByNotifications st ns = Ret (st', err) ->
     LogDAO.content (logs st') = LogDAO.content (logs st)).
Proof using Type.
  intros Hg Hwf. split_and!.
  - intros fuel startTime batchSize st' err Hb. by apply Send_loop_content.
  - intros n st' err. unfold SendByNotification.
    destruct (LogRepo.FindByNotificationIds _ _ _) as [[ls [e|]]|] eqn:E; simpl; [by intros [= <- _]| |done].
    apply sendAndUpdateLogs_content; [done|]. by eapply FindBy_read_from.
  - intros ns st' err. unfold SendByNotifications.
    destruct (LogRepo.FindByNotificationIds _ _ _) as [[ls [e|]]|] eqn:E; simpl; [by intros [= <- _]| |done].
    apply FindBy_read_from in E; [|done].
    destruct (length ls =? length ns)%nat; [by apply sendAndUpdateLogs_content|].
    rewrite all_deleted. rewrite map_range_empty. simpl.
    destruct (length ls =? 0)%nat; simpl; [by intros [= <- _]|].
    destruct (LogRepo.Update _ _ _) as [l e] eqn:Eu. intros [= <- _]. simpl.
    eapply LogDAO.Update_same; [|exact Eu].
    intros log Hin. apply list_elem_of_fmap in Hin as (cl & -> & Hin).
    apply read_from_agrees; [done|]. rewrite Forall_forall in E. by apply E.
Qed.

(** A page of logs whose businesses have no callback configuration: each callback ends
    in an error, and nothing is written. *)
Definition no_conf : Prop :=
  forall c b, match (BizConfRepo.conf_GetById c now b).2 with
              | (bc, None) => CallbackConf_ bc = None
              | (_, Some _) => True
              end.

Lemma sendCallback_no_conf st n :
  no_conf -> confMap st = ∅ ->
  exists st' e, sendCallback st n = Ret (st', inr e) /\ confMap st' = ∅ /\ logs st' = logs st.
Proof using Type.
  intros Hno Hm. unfold sendCallback, getConf. rewrite Hm, lookup_empty.
  specialize (Hno (bizConfRepo st) (Notif.BizId n)).
  destruct (BizConfRepo.conf_GetById _ _ _) as [c [bc [e|]]]; simpl in Hno; [by do 2 eexists|].
  rewrite Hno. by do 2 eexists.
Qed.

Lemma send_logs_no_conf st ls :
  no_conf -> confMap st = ∅ ->
  exists st', send_logs st ls [] = Ret (st', []) /\ confMap st' = ∅ /\ logs st' = logs st.
Proof using Type.
  intros Hno. revert st; induction ls as [|log ls IH]; intros st Hm; simpl; [by eexists|].
  destruct (sendCallback_no_conf st (CbLog.Notification log) Hno Hm) as (st1 & e & Hs & Hm1 & Hl).
  unfold sendAndSetChangeFields. rewrite Hs. simpl. destruct (IH st1 Hm1) as (st2 & -> & Hm2 & Hl2).
  exists st2. by rewrite Hl2.
Qed.

(** The database answers every query of logs, and of notifications. *)
Definition queries_answer : Prop :=
  (forall s startTime status startId limit, (Find_logs s startTime status startId limit).2 = None) /\
  (forall id, exists n e, d_GetById d id = Ret (n, e)).

Lemma Find_answers s startTime startId batchSize :
  queries_answer -> exists ls nid, LogRepo.Find d s startTime startId batchSize = Ret (ls, (nid, None)).
Proof using Type.
  intros [Hf Hg]. unfold LogRepo.Find, LogDAO.Find.
  specialize (Hf s startTime CallbackStatusPending startId batchSize).
  destruct (Find_logs _ _ _ _ _) as [es err]. simpl in Hf. subst err.
  assert (Hm : forall es, exists ls, go_mapM (LogRepo.join d) es = Ret ls).
  { intros l; induction l as [|e l [ls IH]]; [by eexists|]. simpl. unfold LogRepo.join at 1.
    destruct (Hg (Entity.NotificationId e)) as (n & er & ->). simpl. rewrite IH. by eexists. }
  destruct (Hm es) as [ls ->]. by do 2 eexists.
Qed.

(** C32: in a table with one log for each notification, when some logs are due, but fewer than
    a batch, [Send] never ends well,
    whatever the businesses answer: a page that is not full starts the next one at 0, so
    that no page is empty, and nothing records that callbacks were made.  It can only go
    on, fail on a query or an update, or panic; and it does go on for ever, reading the
    same page, when the queries are answered and the businesses have no callback
    configuration any more. *)
Theorem callback_send_never_finishes st startTime batchSize :
  reads_by_id -> logs_wf (logs st) ->
  0 < Z.of_nat (length (List.filter (due startTime CallbackStatusPending 0) (rows (logs st)))) < batchSize ->
  (forall fuel st', Send fuel st startTime batchSize <> Ret (Some (st', None))) /\
  (queries_answer -> no_conf -> confMap st = ∅ -> forall fuel, Send fuel st startTime batchSize = Ret None).
Proof using Type.
  intros Hg Hwf Hdue. unfold Send. split.
  - intros fuel st'. revert st Hwf Hdue; induction fuel as [|fuel IH]; intros st Hwf Hdue; simpl; [done|].
    destruct (LogRepo.Find d _ _ _ _) as [[ls [nid [e|]]]|] eqn:Ef; simpl; [done| |done].
    apply Find_read_from in Ef as [Hr (es & Hes & Hlen & Hnid)]; [|done|lia].
    assert (Hl : length es = length (List.filter (due startTime CallbackStatusPending 0) (rows (logs st)))).
    { subst es. rewrite length_take. lia. }
    destruct (Nat.eqb_spec (length ls) 0) as [|_]; [lia|].
    destruct (sendAndUpdateLogs st ls) as [[st1 e1]|] eqn:Es; simpl; [|done].
    apply sendAndUpdateLogs_content in Es; [|done..].
    destruct e1 as [e|]; [done|]. rewrite Hnid by lia. apply IH.
    + by eapply logs_wf_content.
    + by rewrite (LogDAO.due_count _ _ _ _ _ Es).
  - intros Hq Hno Hm fuel. revert st Hwf Hdue Hm; induction fuel as [|fuel IH]; intros st Hwf Hdue Hm; simpl; [done|].
    destruct (Find_answers (logs st) startTime 0 batchSize Hq) as (ls & nid & Ef). rewrite Ef. simpl.
    apply Find_read_from in Ef as [Hr (es & Hes & Hlen & Hnid)]; [|done|lia].
    assert (Hl : length es = length (List.filter (due startTime CallbackStatusPending 0) (rows (logs st)))).
    { subst es. rewrite length_take. lia. }
    destruct (Nat.eqb_spec (length ls) 0) as [|_]; [lia|].
    unfold sendAndUpdateLogs. destruct (send_logs_no_conf st ls Hno Hm) as (st1 & -> & Hm1 & Hl1). simpl.
    rewrite Hnid by lia. apply IH; simpl; rewrite ?Hl1; done.
Qed.

(** Unless every notification of a batch has a callback log, no callback is
    sent for any of them: the map of those still to report is emptied of all. *)
Theorem partial_batch_sends_nothing st ns ls :
  LogRepo.FindByNotificationIds d (logs st) (map Notif.Id ns) = Ret (ls, None) ->
  length ls <> length ns ->
  exists l err, SendByNotifications st ns = Ret (with_logs st l, err) /\
    (ls = [] -> l = logs st /\ err = None).
Proof using Type.
  intros Hf Hne. unfold SendByNotifications. rewrite Hf. simpl.
  rewrite (proj2 (Nat.eqb_neq _ _) Hne), all_deleted, map_range_empty. simpl.
  destruct (Nat.eqb_spec (length ls) 0) as [Hz|Hz]; simpl.
  - exists (logs st), None. split; [by destruct st|done].
  - destruct (LogRepo.Update _ _ _) as [l err]. exists l, err. split; [done|]. intros ->. done.
Qed.
End callback.
Arguments state {_ _} W C.

(** ** Runs *)

(** Logs in a list, for what an update does. *)
#[program] Definition list_logs (update : Z -> (Entity.CallbackLog -> Entity.CallbackLog) ->
    list (Z * Entity.CallbackLog) -> list (Z * Entity.CallbackLog) + error)
  (Hupdate : forall nid f s s', update nid f s = inl s' ->
     s' = map (fun row => (row.1, if Entity.NotificationId row.2 =? nid then f row.2 else row.2)) s) : LogDB := {|
  logdb := list (Z * Entity.CallbackLog);
  rows s := s;
  Find_logs s t st i limit := (map snd (take (Z.to_nat limit) (List.filter (due t st i) s)), None);
  Find_in s ids := (filter (fun l => Entity.NotificationId l ∈ ids) (map snd s), None);
  Updates_log s nid retried next status updateAt := update nid (fun l => set_log l retried next status updateAt) s;
  Commit_log _ _ := None |}.
Next Obligation. intros _ _ s t st i limit ls _ [= <-]. done. Qed.
Next Obligation. intros _ _ s ids ls [= <-]. done. Qed.
Next Obligation. intros update Hupdate s nid retried next status updateAt s' E. by apply Hupdate in E. Qed.

(** gorm as it is, and a table whose key gorm knows. *)
#[global] Instance mem_logs : LogDB := list_logs (fun _ _ _ => inr ErrMissingWhereClause) ltac:(done).
Definition keyed_logs : LogDB := list_logs
  (fun nid f s => inl (map (fun row => (row.1, if Entity.NotificationId row.2 =? nid then f row.2 else row.2)) s))
  ltac:(by intros nid f s s' [= <-]).

Lemma mem_logs_refuses : @gorm_refuses mem_logs.
Proof. done. Qed.

(** A dial that asks for credentials. *)
#[global] Program Instance strict_dial : GrpcDial := {|
  ClientConn := string;
  NewClient addr o := if insecure_creds o then inl addr else inr (ENew "grpc: no transport security set") |}.
Next Obligation. intros addr o Ho. simpl. rewrite Ho. by eexists. Qed.

(** The sharded data access object keeps the promise. *)
Lemma sharded_reads `{XXHash} `{Gorm} `{MapRange} nd fuel now now' st :
  @reads_by_id (Repo.sharded nd fuel now now') st.
Proof.
  split; simpl.
  - intros id n e. unfold Dao.GetById. destruct (Hash.ShardWithId _ _) as [d|]; [|done]. simpl.
    case_bool_decide; simpl; [|intros [= <- _]; by right].
    destruct (First_n _ _ _ _) as [m|err] eqn:E.
    + intros [= <- _]. left. by eapply notifs_id, First_n_some.
    + destruct (errors_Is _ _); intros [= <- _]; by right.
  - intros ids m id n Hm Hn. apply (DaoBatch.get_map_rows nd _ _ _ Hm) in Hn as [_ Hn].
    unfold DaoBatch.row_of in Hn. destruct (Hash.ShardWithId _ _); [|done]. by eapply notifs_id.
Qed.

Lemma echo_reads : @reads_by_id Repo.echo_dao tt.
Proof.
  split; [intros id n e [= <- _]; by left|]. intros ids m id n [= <-] Hl.
  apply elem_of_list_to_map_2 in Hl. apply list_elem_of_fmap in Hl as (i & [= -> ->] & _). done.
Qed.

#[global] Instance one_conf : BizConfRepo.Repository unit := {|
  BizConfRepo.conf_GetById c _ id := (c, (basic_conf id, None)) |}.

(** A client that counts the callbacks it gets and accepts them. *)
Definition counting : CallbackServiceClient nat := fun w _ => (S w, inl true).

Definition two_logs : list (Z * Entity.CallbackLog) :=
  [(1, Entity.mkCb 11 0 50 CallbackStatusPending 0 0); (2, Entity.mkCb 12 1 60 CallbackStatusPending 0 0)].

Definition cb_start : @state strict_dial mem_logs nat unit :=
  @mkState strict_dial mem_logs nat unit 0%nat
    (Clients.mkClients {[ "svc"%string := counting ]} None false (fun _ => counting)) ∅ tt two_logs.

Lemma two_logs_wf : @logs_wf mem_logs two_logs.
Proof.
  split; [|repeat constructor; discriminate].
  change (NoDup [11; 12]). apply NoDup_cons; split; [by rewrite elem_of_cons, elem_of_nil; intros [|]|].
  apply NoDup_singleton.
Qed.

Definition notif_of (id : Z) : Notif.Notification := Notif.with_Id (sample SendConf.zero) id.

(** The same over a table whose updates succeed. *)
Definition keyed_start : @state strict_dial keyed_logs nat unit :=
  @mkState strict_dial keyed_logs nat unit 0%nat
    (Clients.mkClients {[ "svc"%string := counting ]} None false (fun _ => counting)) ∅ tt two_logs.

Lemma callback_progress_lost_witness :
  match @SendByNotification strict_dial fixed_kit Repo.echo_dao keyed_logs nat unit one_conf tt now2025 keyed_start (notif_of 11) with
  | Ret (st', _) => @LogDAO.content keyed_logs (logs st') = LogDAO.content two_logs
  | Panic _ => False
  end.
Proof.
  assert (Hr : is_panic (@SendByNotification strict_dial fixed_kit Repo.echo_dao keyed_logs nat unit one_conf tt
                           now2025 keyed_start (notif_of 11)) = false) by by vm_compute.
  destruct (SendByNotification _ _ _ _) as [[st' err]|msg] eqn:E; [|discriminate].
  destruct (@callback_progress_lost strict_dial fixed_kit Repo.echo_dao keyed_logs key_order nat unit one_conf tt
              now2025 keyed_start echo_reads two_logs_wf) as (_ & H & _).
  exact (H _ _ _ E).
Defined.

(** Businesses that have dropped their callbacks. *)
Definition dropped_conf : BizConfRepo.Repository unit := {|
  BizConfRepo.conf_GetById c _ id := (c, (ConfJson.zeroConf, None)) |}.

Lemma callback_send_never_finishes_witness :
  @Send strict_dial fixed_kit Repo.echo_dao mem_logs nat unit dropped_conf tt now2025 20 cb_start 100 10 = Ret None.
Proof.
  apply (@callback_send_never_finishes strict_dial fixed_kit Repo.echo_dao mem_logs nat unit dropped_conf tt
           now2025 cb_start 100 10 echo_reads two_logs_wf).
  - split; reflexivity.
  - split; [reflexivity|]. intros id. by do 2 eexists.
  - intros c b. reflexivity.
  - reflexivity.
Defined.

Lemma partial_batch_sends_nothing_witness :
  match @SendByNotifications strict_dial fixed_kit Repo.echo_dao mem_logs key_order nat unit one_conf tt now2025
          cb_start [notif_of 11; notif_of 99] with
  | Ret (st', _) => world st' = 0%nat
  | Panic _ => False
  end.
Proof.
  destruct (@partial_batch_sends_nothing strict_dial fixed_kit Repo.echo_dao mem_logs key_order nat unit one_conf
              tt now2025 cb_start [notif_of 11; notif_of 99]
              [LogRepo.toDomain (Entity.mkCb 11 0 50 CallbackStatusPending 0 0) (Repo.any_row 11)])
    as (l & err & E & _).
  - vm_compute. reflexivity.
  - discriminate.
  - rewrite E. reflexivity.
Defined.
End Callback.
