(* ===== verification/Sender.v ===== *)
(** * The sender: internal/service/sender/sender.go

    [DefaultSender] sends notifications through a channel, records the result and
    reports it to the business.  The channel, the notification repository and the
    callback service are interfaces. *)
From Stdlib Require Import ZArith Lia List.
From stdpp Require Import prelude strings gmap.
From S2P Require Import Prelude GoLang Errs Externals Domain Quota Json Dao NotifRepo Channels.

(** The order in which goroutines that do not wait for one another act. *)
Class Schedule := {
  order {A} : list A -> list A;
  order_perm {A} (l : list A) : order l ≡ₚ l }.

(** The two calls of [callback.Service] a sender makes, on the service's state. *)
Record CallbackService (K : Type) := mkCallback {
  SendByNotification : K -> Notif.Notification -> go (K * option error);
  SendByNotifications : K -> list Notif.Notification -> go (K * option error) }.
Arguments mkCallback {K}.
Arguments SendByNotification {K}.
Arguments SendByNotifications {K}.

(** The interface [Sender], on a state [S]. *)
Record Sender_ (S : Type) := mkSender {
  s_Send : S -> Notif.Notification -> go (S * (SendResp * option error));
  s_BatchSend : S -> list Notif.Notification -> go (S * (BatchSendResp * option error)) }.
Arguments mkSender {S}.
Arguments s_Send {S}.
Arguments s_BatchSend {S}.

Module Sender.
Section sender.
Context `{NotificationRepo} `{Schedule} {W K : Type}.
Variables (channel : sends W) (callbackSvc : CallbackService K).

(** What the calls act on: the world behind the channel, the repository's stores
    and the callback service. *)
Record state := mkState { chan : W; repo : rstate; cb : K }.

Definition Send (st : state) (n : Notif.Notification) : go (state * (SendResp * option error)) :=
  let! '(w, (_, err)) := channel (chan st) n in
  let status := match err with Some _ => SendStatusFailure | None => SendStatusSuccess end in
  let n := Notif.with_Status n status in
  let! '(r, err) :=
    match err with Some _ => r_MarkFailure (repo st) n | None => r_MarkSuccess (repo st) n end in
  match err with
  | Some err => Ret (mkState w r (cb st), (zeroSendResp, Some err))
  | None =>
      let! '(k, _) := SendByNotification callbackSvc (cb st) n in
      Ret (mkState w r k, (mkResp (mkResult (Notif.Id n) status), None))
  end.

(** The goroutines, one call after the other, with whether each succeeded. *)
Fixpoint send_each (w : W) (ns : list Notif.Notification) : go (W * list (Notif.Notification * bool)) :=
  match ns with
  | [] => Ret (w, [])
  | n :: ns =>
      let! '(w, (_, err)) := channel w n in
      let! '(w, outs) := send_each w ns in
      Ret (w, (n, match err with Some _ => false | None => true end) :: outs)
  end.

Definition result_of (out : Notif.Notification * bool) : SendResult :=
  mkResult (Notif.Id out.1) (if out.2 then SendStatusSuccess else SendStatusFailure).

Definition getNsWithStatus (results : list SendResult) (nMap : gmap Z Notif.Notification)
    : list Notif.Notification :=
  omap (fun res => match nMap !! NotificationId res with
                   | Some n => Some (Notif.with_Status n (Result_Status res))
                   | None => None
                   end) results.

(** Both branches of the source are empty. *)
Definition batchUpdateStatus (r : rstate) (successNs failureNs : list Notif.Notification) : rstate * option error :=
  if (0 <? length successNs)%nat || (0 <? length failureNs)%nat then (r, None) else (r, None).

(** The appends of the two lists happen in orders of their own. *)
Definition BatchSend (st : state) (ns : list Notif.Notification) : go (state * (BatchSendResp * option error)) :=
  if (length ns =? 0)%nat then Ret (st, (mkBatchResp [], None))
  else
    let! '(w, outs) := send_each (chan st) (order ns) in
    let success := map result_of (order (List.filter (fun o => o.2) outs)) in
    let failure := map result_of (order (List.filter (fun o => negb o.2) outs)) in
    let allIds := map NotificationId success ++ map NotificationId failure in
    let! '(m, err) := r_GetMapByIds (repo st) allIds in
    match err with
    | Some err => Ret (mkState w (repo st) (cb st), (mkBatchResp [],
                    Some (Errorf_pw "[jotify] failed to batch get notifications: " err)))
    | None =>
        let successNs := getNsWithStatus success m in
        let failureNs := getNsWithStatus failure m in
        match batchUpdateStatus (repo st) successNs failureNs with
        | (r, Some err) => Ret (mkState w r (cb st), (mkBatchResp [],
                             Some (Errorf_pw "[jotify] failed to batch update notification status: " err)))
        | (r, None) =>
            let! '(k, _) := SendByNotifications callbackSvc (cb st) (successNs ++ failureNs) in
            Ret (mkState w r k, (mkBatchResp (success ++ failure), None))
        end
    end.

Definition sender : Sender_ state := mkSender Send BatchSend.

(** ** Properties *)

Lemma send_each_fst w ns w' outs : send_each w ns = Ret (w', outs) -> map fst outs = ns.
Proof using Type.
  revert w outs; induction ns as [|n ns IH]; intros w outs; simpl; [by intros [= _ <-]|].
  destruct (channel w n) as [[w1 [r err]]|]; simpl; [|done].
  destruct (send_each w1 ns) as [[w2 outs']|] eqn:E; simpl; [|done]. intros [= <- <-]. simpl.
  by rewrite (IH _ _ E).
Qed.

Lemma filter_split {A} (p : A -> bool) (l : list A) :
  List.filter p l ++ List.filter (fun x => negb (p x)) l ≡ₚ l.
Proof using Type.
  induction l as [|x l IH]; simpl; [done|]. destruct (p x); simpl; [by rewrite IH|].
  by rewrite <- Permutation_middle, IH.
Qed.

Lemma batchUpdateStatus_noop r ok ko : batchUpdateStatus r ok ko = (r, None).
Proof using Type. unfold batchUpdateStatus. by destruct (_ || _). Qed.

(** A batch that is sent calls the channel once for each notification and
    reports for each whether its call failed, in some order; none of the results
    is recorded: the stores of the repository are left as they were, whatever was
    sent. *)
Theorem batch_send_reports_never_records st ns st' resp :
  ns <> [] -> BatchSend st ns = Ret (st', (resp, None)) ->
  exists outs, send_each (chan st) (order ns) = Ret (chan st', outs) /\
    map fst outs ≡ₚ ns /\ Results resp ≡ₚ map result_of outs /\ repo st' = repo st.
Proof using Type.
  intros Hne. unfold BatchSend.
  destruct (Nat.eqb_spec (length ns) 0) as [Hz|_]; [by apply length_zero_iff_nil in Hz|].
  destruct (send_each _ _) as [[w outs]|] eqn:E; simpl; [|done].
  destruct (r_GetMapByIds _ _) as [[m [e|]]|]; simpl; [done| |done].
  rewrite batchUpdateStatus_noop.
  destruct (SendByNotifications _ _ _) as [[k e]|]; simpl; [|done]. intros [= <- <-].
  exists outs. simpl. split; [done|]. split; [by rewrite (send_each_fst _ _ _ _ E), order_perm|].
  split; [|done]. rewrite <- map_app, !order_perm, filter_split. done.
Qed.
End sender.
Arguments mkState {_ W K}.
Arguments chan {_ W K}.
Arguments repo {_ W K}.
Arguments cb {_ W K}.
Arguments state {_} W K.

(** The quota a failed sending gives back: with the repository over redis. *)
Section quota.
Context `{NotificationDAO} `{RedisKV} `{MapRange} `{Schedule} {W K : Type}.
Variables (channel : sends W) (callbackSvc : CallbackService K).

#[local] Existing Instance Repo.default_repo.

(** How a sending that is recorded settles its quota. *)
Lemma Send_settles (st st' : state W K) n res :
  Send channel callbackSvc st n = Ret (st', (mkResp res, None)) ->
  NotificationId res = Notif.Id n /\
  ((Result_Status res = SendStatusFailure /\
    exists d, d_MarkFailure (Repo.dao (repo st)) (Repo.toEntity (Notif.with_Status n SendStatusFailure)) = Ret (d, None) /\
      Repo.dao (repo st') = d /\
      forall k, QuotaCache.avail (Repo.quota (repo st')) k =
                QuotaCache.avail (Repo.quota (repo st)) k + QuotaCache.asked [Repo.quota_param n] k) \/
   (Result_Status res = SendStatusSuccess /\
    exists d, d_MarkSuccess (Repo.dao (repo st)) (Repo.toEntity (Notif.with_Status n SendStatusSuccess)) = Ret (d, None) /\
      Repo.dao (repo st') = d /\ Repo.quota (repo st') = Repo.quota (repo st))).
Proof using Type.
  unfold Send. destruct (channel (chan st) n) as [[w [r [e|]]]|]; simpl; [| |done].
  - unfold Repo.MarkFailure. destruct (d_MarkFailure _ _) as [[d [e2|]]|] eqn:E; simpl; [done| |done].
    destruct (SendByNotification _ _ _) as [[k e3]|]; simpl; [|done]. intros [= <- <-]. simpl.
    split; [done|]. left. split; [done|]. exists d. split; [done|]. split; [done|].
    intros k'. apply (QuotaCache.Incr_avail (Repo.quota_param n)). done.
  - unfold Repo.MarkSuccess. destruct (d_MarkSuccess _ _) as [[d [e2|]]|] eqn:E; simpl; [done| |done].
    destruct (SendByNotification _ _ _) as [[k e3]|]; simpl; [|done]. intros [= <- <-]. simpl.
    split; [done|]. right. split; [done|]. by exists d.
Qed.

(** Sending a notification that was created and is recorded without an error
    settles its quota: a sending that fails gives one unit back, one that succeeds
    gives none; the answer and the record carry the same status. *)
Theorem send_settles_quota (st st' : state W K) n res :
  Send channel callbackSvc st n = Ret (st', (mkResp res, None)) ->
  NotificationId res = Notif.Id n /\
  ((Result_Status res = SendStatusFailure /\
    exists d, d_MarkFailure (Repo.dao (repo st)) (Repo.toEntity (Notif.with_Status n SendStatusFailure)) = Ret (d, None) /\
      Repo.dao (repo st') = d /\
      forall k, QuotaCache.avail (Repo.quota (repo st')) k =
                QuotaCache.avail (Repo.quota (repo st)) k + QuotaCache.asked [Repo.quota_param n] k) \/
   (Result_Status res = SendStatusSuccess /\
    exists d, d_MarkSuccess (Repo.dao (repo st)) (Repo.toEntity (Notif.with_Status n SendStatusSuccess)) = Ret (d, None) /\
      Repo.dao (repo st') = d /\ Repo.quota (repo st') = Repo.quota (repo st))).
Proof using Type. apply Send_settles. Qed.
End quota.

(** ** Runs *)

Definition in_turn : Schedule := {| order A l := l; order_perm A l := reflexivity l |}.

Definition no_callback : CallbackService unit :=
  mkCallback (fun k _ => Ret (k, None)) (fun k _ => Ret (k, None)).

(** The second call fails. *)
Definition flaky : sends nat := fun w n =>
  Ret (S w, (zeroSendResp, if (w =? 1)%nat then Some (ENew "timeout") else None)).

#[local] Instance run_repo : NotificationRepo :=
  @Repo.default_repo Repo.echo_dao QuotaCache.map_redis key_order.

Definition run_start : @state run_repo nat unit :=
  @mkState run_repo nat unit 0%nat
    (@Repo.mkState Repo.echo_dao QuotaCache.map_redis tt Repo.two_left) tt.

Definition three : list Notif.Notification :=
  map (Notif.with_Id (sample SendConf.zero)) [11; 12; 13].

Lemma batch_send_reports_never_records_witness :
  match @BatchSend run_repo in_turn nat unit flaky no_callback run_start three with
  | Ret (st', (resp, _)) => map Result_Status (Results resp) ≡ₚ [SendStatusSuccess; SendStatusFailure; SendStatusSuccess]
                           /\ repo st' = repo run_start
  | Panic _ => False
  end.
Proof.
  assert (Hr : is_panic (@BatchSend run_repo in_turn nat unit flaky no_callback run_start three) = false) by reflexivity.
  destruct (BatchSend _ _ _ _) as [[st' [resp err]]|msg] eqn:E; [|discriminate].
  assert (Herr : exists r, (resp, err) = (r, None)) by (eexists; apply (answer_ret _ _ _ _ E); reflexivity).
  destruct Herr as [r [= -> ->]].
  apply (@batch_send_reports_never_records run_repo in_turn nat unit) in E as (outs & Ho & _ & Hr' & Hrepo);
    [|discriminate].
  split; [|exact Hrepo]. rewrite Hr'.   change (send_each flaky 0%nat three = Ret (chan st', outs)) in Ho. vm_compute in Ho.
  injection Ho as _ <-. reflexivity.
Defined.

Lemma send_settles_quota_witness :
  match @Send run_repo nat unit broken no_callback run_start (sample SendConf.zero) with
  | Ret (st', _) =>
      QuotaCache.avail (Repo.quota (repo st')) (QuotaCache.redisKey 7 ChannelSMS) = 3
  | Panic _ => False
  end.
Proof.
  destruct (@Send run_repo nat unit broken no_callback run_start (sample SendConf.zero))
    as [[st' [[res] err]]|msg] eqn:E; [|discriminate].
  assert (Herr : (mkResp res, err) = (mkResp (mkResult 1 SendStatusFailure), None))
    by (apply (answer_ret _ _ _ _ E); vm_compute; reflexivity).
  injection Herr as -> ->.
  destruct (@send_settles_quota Repo.echo_dao QuotaCache.map_redis key_order nat unit broken no_callback
              run_start st' (sample SendConf.zero) (mkResult 1 SendStatusFailure) E)
    as (_ & [(_ & d & _ & _ & Hq)|(Hs & _)]); [|discriminate].
  rewrite Hq. vm_compute. reflexivity.
Defined.
End Sender.
