(* ===== verification/Strategies.v ===== *)
(** * Sending strategies: internal/service/sendstrategy

    [Default] stores a notification for a scheduler, [Immediate] stores it and
    sends it at once, and the [Dispatcher] chooses by the strategy's type.  All
    act on the sender's state, whose repository they share, and on the state of
    the configuration repository.  [now] is the clock reading of the call. *)
From Stdlib Require Import ZArith Lia List.
From stdpp Require Import prelude strings gmap.
From S2P Require Import Prelude GoLang Errs Externals Domain NotifRepo Channels BizConf Sender.

Module Strategy.

(** The interface [SendStrategy], on a state [S]. *)
Record SendStrategy (S : Type) := mkStrategy {
  st_Send : S -> Time -> Notif.Notification -> go (S * (SendResp * option error));
  st_BatchSend : S -> Time -> list Notif.Notification -> go (S * (BatchSendResp * option error)) }.
Arguments mkStrategy {S}.
Arguments st_Send {S}.
Arguments st_BatchSend {S}.

Section strategy.
Context `{NotificationRepo} {W K C : Type} `{!BizConfRepo.Repository C}.
Variable sender : Sender_ (Sender.state W K).

Record state := mkState { base : Sender.state W K; conf : C }.

Definition with_repo (st : state) (r : rstate) : state :=
  mkState (Sender.mkState (Sender.chan (base st)) r (Sender.cb (base st))) (conf st).

Definition repo (st : state) : rstate := Sender.repo (base st).

(** A call of the repository. *)
Definition on_repo {A} (st : state) (m : go (rstate * A)) : go (state * A) :=
  let! '(r, a) := m in Ret (with_repo st r, a).

(** A call of the sender. *)
Definition on_sender {A} (st : state) (m : go (Sender.state W K * A)) : go (state * A) :=
  let! '(s, a) := m in Ret (mkState s (conf st), a).

(** ** default.go *)

Definition needCallbackLog (st : state) (now : Time) (n : Notif.Notification) : state * bool :=
  match BizConfRepo.conf_GetById (conf st) now (Notif.BizId n) with
  | (c, (_, Some _)) => (mkState (base st) c, false)
  | (c, (bizConf, None)) =>
      (mkState (base st) c, match CallbackConf_ bizConf with Some _ => true | None => false end)
  end.

Definition create (st : state) (now : Time) (n : Notif.Notification)
    : go (state * (Notif.Notification * option error)) :=
  let '(st, need) := needCallbackLog st now n in
  if (need : bool) then on_repo st (r_CreateWithCallback (repo st) n) else on_repo st (r_Create (repo st) n).

Definition Default_Send (st : state) (now : Time) (n : Notif.Notification)
    : go (state * (SendResp * option error)) :=
  let n := Notif.SetSendTime now n in
  let! '(st, (created, err)) := create st now n in
  match err with
  | Some err => Ret (st, (zeroSendResp, Some (Errorf_pw "[jotify] create delayed notification error: " err)))
  | None => Ret (st, (mkResp (mkResult (Notif.Id created) (Notif.Status created)), None))
  end.

(** Indexing the first notification panics on an empty batch. *)
Definition batchCreate (st : state) (now : Time) (ns : list Notif.Notification)
    : go (state * (list Notif.Notification * option error)) :=
  let! first := slice_get ns 0 in
  let '(st, need) := needCallbackLog st now first in
  if (need : bool) then on_repo st (r_BatchCreateWithCallback (repo st) ns)
  else on_repo st (r_BatchCreate (repo st) ns).

(** Unlike [Send], it does not compute the sending windows. *)
Definition Default_BatchSend (st : state) (now : Time) (ns : list Notif.Notification)
    : go (state * (BatchSendResp * option error)) :=
  if (length ns =? 0)%nat
  then Ret (st, (mkBatchResp [], Some (code_err ErrInvalidParam ": notifications should not be empty")))
  else
    let! '(st, (createdNs, err)) := batchCreate st now ns in
    match err with
    | Some err => Ret (st, (mkBatchResp [], Some (Errorf_pw "[jotify] create delayed notifications error: " err)))
    | None => Ret (st, (mkBatchResp (map (fun n => mkResult (Notif.Id n) (Notif.Status n)) createdNs), None))
    end.

Definition DefaultSendStrategy : SendStrategy state := mkStrategy Default_Send Default_BatchSend.

(** ** immediate.go *)

(** The branches are those of the source: a creation that fails is sent, one that
    succeeds is an error, as [errors.Is] is false of a nil error; what follows
    would handle a notification that exists already. *)
Definition Immediate_Send (st : state) (now : Time) (n : Notif.Notification)
    : go (state * (SendResp * option error)) :=
  let n := Notif.SetSendTime now n in
  let! '(st, (created, err)) := on_repo st (r_Create (repo st) n) in
  match err with
  | Some _ => on_sender st (s_Send sender (base st) n)
  | None =>
      if negb (errors_Is_opt err (SCode ErrDuplicateNotificationId))
      then Ret (st, (zeroSendResp, Some (Errorf_w_opt err ": failed to create notification")))
      else
        let! '(found, err) := r_GetByKey (repo st) (Notif.BizId created) (Notif.BizKey created) in
        match err with
        | Some err => Ret (st, (zeroSendResp, Some (Errorf_w err ": failed to get notification")))
        | None =>
            if String.eqb (Notif.Status found) SendStatusSuccess
            then Ret (st, (mkResp (mkResult (Notif.Id found) (Notif.Status found)), None))
            else if negb (String.eqb (Notif.Status found) SendStatusSending)
            then Ret (st, (zeroSendResp, Some (code_err ErrFailedToSendNotification "")))
            else
              let found := Notif.with_Status found SendStatusSending in
              let! '(st, err) := on_repo st (r_CompareAndSwapStatus (repo st) found) in
              match err with
              | Some err => Ret (st, (zeroSendResp, Some (Errorf_w err "")))
              | None =>
                  let found := Notif.with_Version found (i32 (Notif.Version found + 1)) in
                  on_sender st (s_Send sender (base st) found)
              end
        end
  end.

(** [ns[i].SetSendTime()] changes the caller's slice, which no caller reads again. *)
Definition Immediate_BatchSend (st : state) (now : Time) (ns : list Notif.Notification)
    : go (state * (BatchSendResp * option error)) :=
  if (length ns =? 0)%nat
  then Ret (st, (mkBatchResp [], Some (code_err ErrInvalidParam ": empty notification list")))
  else
    let! '(st, (createdNs, err)) := on_repo st (r_BatchCreate (repo st) (map (Notif.SetSendTime now) ns)) in
    match err with
    | Some err => Ret (st, (mkBatchResp [], Some (Errorf_w err ": failed to create notifications")))
    | None => on_sender st (s_BatchSend sender (base st) createdNs)
    end.

Definition ImmediateSendStrategy : SendStrategy state := mkStrategy Immediate_Send Immediate_BatchSend.
End strategy.
Arguments mkState {_ W K C}.
Arguments base {_ W K C}.
Arguments conf {_ W K C}.
Arguments state {_} W K C.

(** ** types.go *)

Section dispatcher.
Context {S : Type}.

Record Dispatcher := mkDispatcher { defaultStrategy : SendStrategy S; immediateStrategy : SendStrategy S }.

Definition NewDispatcher (defaultStrategy immediateStrategy : SendStrategy S) : Dispatcher :=
  mkDispatcher defaultStrategy immediateStrategy.

Definition chooseStrategy (d : Dispatcher) (n : Notif.Notification) : SendStrategy S :=
  if String.eqb (SendConf.Type_ (Notif.StrategyConfig n)) SendStrategyImmediate
  then immediateStrategy d else defaultStrategy d.

Definition Dispatcher_Send (d : Dispatcher) (st : S) (now : Time) (n : Notif.Notification) :=
  st_Send (chooseStrategy d n) st now n.

Definition Dispatcher_BatchSend (d : Dispatcher) (st : S) (now : Time) (ns : list Notif.Notification)
    : go (S * (BatchSendResp * option error)) :=
  if (length ns =? 0)%nat
  then Ret (st, (mkBatchResp [], Some (code_err ErrInvalidParam ": no notifications to send")))
  else
    let! first := slice_get ns 0 in
    st_BatchSend (chooseStrategy d first) st now ns.

Definition dispatcher (d : Dispatcher) : SendStrategy S :=
  mkStrategy (Dispatcher_Send d) (Dispatcher_BatchSend d).
End dispatcher.
Arguments Dispatcher S : clear implicits.

(** ** Properties *)

Section properties.
Context `{NotificationRepo} {W K C : Type} `{!BizConfRepo.Repository C}.
Variable sender : Sender_ (Sender.state W K).

(** The immediate strategy has the result of the creation the wrong way round:
    a notification that was stored is not sent but answered with an error that
    wraps nothing, and one that could not be stored is sent. *)
Theorem immediate_send_inverted (st : state W K C) now n r created err :
  r_Create (repo st) (Notif.SetSendTime now n) = Ret (r, (created, err)) ->
  match err with
  | None => exists e, Immediate_Send sender st now n = Ret (with_repo st r, (zeroSendResp, Some e)) /\
              forall s, errors_Is e s = false
  | Some _ => Immediate_Send sender st now n =
              on_sender (with_repo st r) (s_Send sender (base (with_repo st r)) (Notif.SetSendTime now n))
  end.
Proof using Type.
  intros E. unfold Immediate_Send, on_repo. rewrite E. simpl. destruct err as [e|]; simpl; [done|].
  eexists. split; [done|]. done.
Qed.

(** The default strategy sends nothing. *)
Lemma create_base (st st' : state W K C) now n r :
  create st now n = Ret (st', r) ->
  Sender.chan (base st') = Sender.chan (base st) /\ Sender.cb (base st') = Sender.cb (base st).
Proof using Type.
  unfold create, needCallbackLog.
  destruct (BizConfRepo.conf_GetById _ _ _) as [c [bc [e|]]]; [|destruct (CallbackConf_ bc)];
    unfold on_repo; intros E; apply go_bind_ret in E as ([r1 a] & _ & E); by injection E as <- _.
Qed.

Lemma batchCreate_base (st st' : state W K C) now ns r :
  batchCreate st now ns = Ret (st', r) ->
  Sender.chan (base st') = Sender.chan (base st) /\ Sender.cb (base st') = Sender.cb (base st).
Proof using Type.
  unfold batchCreate, needCallbackLog. destruct (slice_get ns 0) as [first|]; simpl; [|done].
  destruct (BizConfRepo.conf_GetById _ _ _) as [c [bc [e|]]]; [|destruct (CallbackConf_ bc)];
    unfold on_repo; intros E; apply go_bind_ret in E as ([r1 a] & _ & E); by injection E as <- _.
Qed.

(** The default strategy only stores: it never calls the channel or the
    callback service, and answers with the id and the status the repository gave
    the notification, or gave each of a batch. *)
Theorem default_strategy_only_stores (st st' : state W K C) now :
  (forall n resp err, Default_Send st now n = Ret (st', (resp, err)) ->
     Sender.chan (base st') = Sender.chan (base st) /\ Sender.cb (base st') = Sender.cb (base st) /\
     (err = None -> exists created, create st now (Notif.SetSendTime now n) = Ret (st', (created, None)) /\
        resp = mkResp (mkResult (Notif.Id created) (Notif.Status created)))) /\
  (forall ns resp err, Default_BatchSend st now ns = Ret (st', (resp, err)) ->
     Sender.chan (base st') = Sender.chan (base st) /\ Sender.cb (base st') = Sender.cb (base st) /\
     (err = None -> ns <> [] /\ exists created, batchCreate st now ns = Ret (st', (created, None)) /\
        Results resp = map (fun n => mkResult (Notif.Id n) (Notif.Status n)) created)).
Proof using Type.
  split.
  - intros n resp err. unfold Default_Send.
    destruct (create st now _) as [[st1 [created e]]|] eqn:E; simpl; [|done].
    pose proof (create_base _ _ _ _ _ E) as [Hc Hk].
    destruct e as [e|]; intros [= <- <- <-]; split_and!; try done. intros _. by exists created.
  - intros ns resp err. unfold Default_BatchSend.
    destruct (Nat.eqb_spec (length ns) 0) as [|Hne]; [by intros [= <- _ <-]|].
    destruct (batchCreate st now ns) as [[st1 [created e]]|] eqn:E; simpl; [|done].
    pose proof (batchCreate_base _ _ _ _ _ E) as [Hc Hk].
    destruct e as [e|]; intros [= <- <- <-]; split_and!; try done. intros _. split; [by intros ->|]. by exists created.
Qed.
End properties.

(** ** Runs *)

#[local] Existing Instance Sender.run_repo.

(** A configuration repository that knows every business, with a callback. *)
#[global] Instance known : BizConfRepo.Repository unit := {|
  BizConfRepo.conf_GetById c _ id := (c, (basic_conf id, None)) |}.

Lemma immediate_send_inverted_witness :
  match @r_Create Sender.run_repo (Sender.repo Sender.run_start) (Notif.SetSendTime now2025 (sample SendConf.zero)) with
  | Ret (r, (_, None)) =>
      exists e, Immediate_Send (Sender.sender (H0 := Sender.in_turn) working Sender.no_callback)
        (mkState Sender.run_start tt) now2025 (sample SendConf.zero) =
        Ret (with_repo (mkState Sender.run_start tt) r, (zeroSendResp, Some e)) /\ forall s, errors_Is e s = false
  | _ => False
  end.
Proof.
  assert (Ha : is_panic (@r_Create Sender.run_repo (Sender.repo Sender.run_start)
                 (Notif.SetSendTime now2025 (sample SendConf.zero))) = false) by reflexivity.
  destruct (r_Create _ _) as [[r [created err]]|msg] eqn:E; [|discriminate].
  assert (Herr : exists c, (created, err) = (c, None)) by (eexists; apply (answer_ret _ _ _ _ E); reflexivity).
  destruct Herr as [c [= -> ->]].
  exact (immediate_send_inverted (Sender.sender (H0 := Sender.in_turn) working Sender.no_callback)
           (mkState Sender.run_start tt) now2025 (sample SendConf.zero) r c None E).
Defined.

Lemma default_strategy_only_stores_witness :
  match Default_Send (mkState Sender.run_start tt) now2025 (sample SendConf.zero) with
  | Ret (st', _) => Sender.chan (base st') = 0%nat
  | Panic _ => False
  end.
Proof.
  destruct (Default_Send _ _ _) as [[st' [resp err]]|msg] eqn:E.
  - exact (proj1 (proj1 (default_strategy_only_stores (mkState Sender.run_start tt) st' now2025) _ _ _ E)).
  - assert (Hp : is_panic (Default_Send (mkState Sender.run_start tt) now2025 (sample SendConf.zero)) = false)
      by reflexivity.
    rewrite E in Hp. discriminate.
Defined.
End Strategy.
