(* ===== verification/SendService.v ===== *)
(** * The sending service: internal/service/notification/notification_send.go

    [DefaultSendService] validates notifications, draws their ids and passes them
    to a sending strategy.  Its state is the id generator and the state [S] the
    strategy acts on.  A clock is a function from the index of a notification in
    the call to a time: [clock] is read to validate and to prepare, [clock'] to
    draw the id. *)
From Stdlib Require Import ZArith Lia List.
From stdpp Require Import prelude strings gmap.
From S2P Require Import Prelude GoLang Errs Externals Snowflake Sharding Domain Channels Sender Strategies.

Module SendService.
Section service.
Context `{XXHash} `{MapRange} {S : Type}.
Variables (sendStrategy : Strategy.SendStrategy S) (clock clock' : nat -> Time).

Record state := mkState { idGenerator : Snowflake.Generator; env : S }.

Definition failed (err : error) : error :=
  Errorf_ww (ECode ErrFailedSendNotification) ": cause of: " err.

(** [n.Validate()] and [d.idGenerator.NextId(n.BizId, n.BizKey)]. *)
Definition prepare (g : Snowflake.Generator) (i : nat) (n : Notif.Notification)
    : (Snowflake.Generator * Z) + error :=
  match Notif.Validate (clock i) n with
  | Some err => inr err
  | None => inl (Snowflake.NextId g (Notif.BizId n) (Notif.BizKey n) (clock' i))
  end.

Definition Send (st : state) (n : Notif.Notification) : go (state * (SendResp * option error)) :=
  let resp := mkResp (mkResult 0 SendStatusFailure) in
  match prepare (idGenerator st) 0 n with
  | inr err => Ret (st, (resp, Some err))
  | inl (g, id) =>
      let! '(s, (sendResp, err)) := Strategy.st_Send sendStrategy (env st) (clock 0%nat) (Notif.with_Id n id) in
      match err with
      | Some err => Ret (mkState g s, (resp, Some (failed err)))
      | None => Ret (mkState g s, (sendResp, None))
      end
  end.

Definition AsyncSend (st : state) (n : Notif.Notification) : go (state * (SendResp * option error)) :=
  match prepare (idGenerator st) 0 n with
  | inr err => Ret (st, (zeroSendResp, Some err))
  | inl (g, id) =>
      let n := Notif.ReplaceAsyncImmediate (clock 0%nat) (Notif.with_Id n id) in
      let! '(s, r) := Strategy.st_Send sendStrategy (env st) (clock 0%nat) n in
      Ret (mkState g s, r)
  end.

(** The loop of the batch methods.  Its variable [n] is a copy of the element:
    the id assigned to it, and the strategy replaced in it, do not reach the
    slice.  The ids are collected. *)
Fixpoint draw_ids (g : Snowflake.Generator) (i : nat) (ns : list Notif.Notification)
    : Snowflake.Generator * (list Z * option error) :=
  match ns with
  | [] => (g, ([], None))
  | n :: ns =>
      match prepare g i n with
      | inr err => (g, ([], Some err))
      | inl (g, id) =>
          let '(g, (ids, err)) := draw_ids g (Datatypes.S i) ns in
          (g, (id :: ids, err))
      end
  end.

Definition BatchSend (st : state) (ns : list Notif.Notification) : go (state * (BatchSendResp * option error)) :=
  if (length ns =? 0)%nat
  then Ret (st, (mkBatchResp [], Some (code_err ErrInvalidParam ": no notifications to send")))
  else
    match draw_ids (idGenerator st) 0 ns with
    | (g, (_, Some err)) => Ret (mkState g (env st), (mkBatchResp [], Some err))
    | (g, (_, None)) =>
        let! '(s, (sendResp, err)) := Strategy.st_BatchSend sendStrategy (env st) (clock 0%nat) ns in
        match err with
        | Some err => Ret (mkState g s, (mkBatchResp [], Some (failed err)))
        | None => Ret (mkState g s, (mkBatchResp (Results sendResp), None))
        end
    end.

(** [strategyGroup], by the type of the strategy. *)
Definition strategy_of (n : Notif.Notification) : string := SendConf.Type_ (Notif.StrategyConfig n).

Fixpoint group_by (ns : list Notif.Notification) (m : gmap string (list Notif.Notification))
    : gmap string (list Notif.Notification) :=
  match ns with
  | [] => m
  | n :: ns => group_by ns (<[strategy_of n := default [] (m !! strategy_of n) ++ [n]]> m)
  end.

(** The goroutines, one group after the other; the first error is kept.  The
    cancellation of the context that goes with it is not modelled. *)
Fixpoint send_groups (s : S) (groups : list (list Notif.Notification)) (err : option error)
    : go (S * option error) :=
  match groups with
  | [] => Ret (s, err)
  | notifications :: groups =>
      let! '(s, (_, e)) := Strategy.st_BatchSend sendStrategy s (clock 0%nat) notifications in
      send_groups s groups
        (match err, e with
         | Some _, _ => err
         | None, Some e => Some (failed e)
         | None, None => None
         end)
  end.

Definition BatchAsyncSend (st : state) (ns : list Notif.Notification)
    : go (state * (BatchAsyncSendResp * option error)) :=
  if (length ns =? 0)%nat
  then Ret (st, (mkAsyncResp [], Some (code_err ErrInvalidParam ": no notifications to send")))
  else
    match draw_ids (idGenerator st) 0 ns with
    | (g, (_, Some err)) => Ret (mkState g (env st), (mkAsyncResp [], Some err))
    | (g, (ids, None)) =>
        let! '(s, err) := send_groups (env st) (map snd (map_range (group_by ns ∅))) None in
        match err with
        | Some err => Ret (mkState g s, (mkAsyncResp [], Some err))
        | None => Ret (mkState g s, (mkAsyncResp ids, None))
        end
    end.

(** ** Properties *)

(** The draws of a batch. *)
Fixpoint draws (i : nat) (ns : list Notif.Notification) : list (Z * string * Time) :=
  match ns with
  | [] => []
  | n :: ns => (Notif.BizId n, Notif.BizKey n, clock' i) :: draws (Datatypes.S i) ns
  end.

Lemma draw_ids_ok g i ns g' ids :
  draw_ids g i ns = (g', (ids, None)) ->
  Snowflake.NextIds g (draws i ns) = (g', ids) /\
  forall j n, ns !! j = Some n -> Notif.valid (clock (i + j)) n.
Proof using Type.
  revert g i ids; induction ns as [|n ns IH]; intros g i ids; cbn [draw_ids draws Snowflake.NextIds];
    [by intros [= <- <-]|].
  unfold prepare. destruct (Notif.Validate (clock i) n) eqn:Ev; [done|].
  destruct (Snowflake.NextId g _ _ _) as [g1 id] eqn:En.
  destruct (draw_ids g1 (Datatypes.S i) ns) as [g2 [ids' err]] eqn:Ed. intros [= <- <- ->].
  destruct (IH _ _ _ Ed) as [-> Hv]. split; [done|].
  intros [|j] m; simpl.
  - intros [= <-]. rewrite Nat.add_0_r. by apply Notif_Validate_ok.
  - intros Hj. apply Hv in Hj. by rewrite Nat.add_succ_r.
Qed.

(** Every notification that is valid at its reading of the clock gets an id. *)
Lemma draw_ids_valid g i ns :
  (forall j n, ns !! j = Some n -> Notif.valid (clock (i + j)) n) ->
  exists g' ids, draw_ids g i ns = (g', (ids, None)).
Proof using Type.
  revert g i; induction ns as [|n ns IH]; intros g i Hv; cbn [draw_ids]; [by do 2 eexists|].
  unfold prepare. rewrite (proj2 (Notif_Validate_ok (clock i) n)).
  - destruct (Snowflake.NextId g _ _ _) as [g1 id]. destruct (IH g1 (Datatypes.S i)) as (g2 & ids & ->); [|by do 2 eexists].
    intros j m Hj. rewrite Nat.add_succ_l, <- Nat.add_succ_r. by apply (Hv (Datatypes.S j)).
  - rewrite <- (Nat.add_0_r i). by apply (Hv 0%nat).
Qed.

Lemma draw_ids_err g i ns g' ids err :
  draw_ids g i ns = (g', (ids, Some err)) -> errors_Is err (SCode ErrInvalidParam) = true.
Proof using Type.
  revert g i ids; induction ns as [|n ns IH]; intros g i ids; cbn [draw_ids]; [done|].
  unfold prepare. destruct (Notif.Validate (clock i) n) eqn:Ev.
  - intros [= _ _ <-]. by eapply Notif_Validate_err.
  - destruct (Snowflake.NextId g _ _ _) as [g1 id].
    destruct (draw_ids g1 (Datatypes.S i) ns) as [g2 [ids2 err2]] eqn:Ed. intros [= -> _ ->]. exact (IH _ _ _ Ed).
Qed.

(** The groups partition the batch by strategy. *)
Lemma group_by_spec ns m :
  (forall k g, m !! k = Some g -> g <> [] /\ Forall (fun n => strategy_of n = k) g) ->
  (forall k g, group_by ns m !! k = Some g -> g <> [] /\ Forall (fun n => strategy_of n = k) g) /\
  concat (map snd (map_to_list (group_by ns m))) ≡ₚ concat (map snd (map_to_list m)) ++ ns.
Proof using Type.
  revert m; induction ns as [|n ns IH]; intros m Hm; simpl; [by rewrite app_nil_r|].
  set (m1 := <[strategy_of n := default [] (m !! strategy_of n) ++ [n]]> m).
  destruct (IH m1) as [Hg Hp].
  { intros k g. unfold m1. destruct (decide (strategy_of n = k)) as [<-|Hne].
    - rewrite lookup_insert_eq. intros [= <-]. split; [by intros [_ ?]%app_nil|].
      apply Forall_app. split; [|by constructor].
      destruct (m !! strategy_of n) eqn:E; [by apply Hm in E as [_ ?]|constructor].
    - rewrite lookup_insert_ne by done. apply Hm. }
  split; [exact Hg|]. rewrite Hp. unfold m1.
  destruct (m !! strategy_of n) as [g|] eqn:E; simpl.
  - rewrite <- insert_delete_eq. rewrite map_to_list_insert by apply lookup_delete_eq. simpl.
    rewrite <- (insert_delete_id m _ _ E) at 2. rewrite map_to_list_insert by apply lookup_delete_eq. simpl.
    rewrite <- !app_assoc. apply Permutation_app_head. simpl. by rewrite Permutation_middle.
  - rewrite map_to_list_insert by done. simpl. by rewrite Permutation_middle.
Qed.
Lemma groups_spec ns :
  let groups := map snd (map_range (group_by ns ∅)) in
  concat groups ≡ₚ ns /\
  Forall (fun g => g <> [] /\ exists k, Forall (fun n => strategy_of n = k) g) groups.
Proof using Type.
  destruct (group_by_spec ns ∅) as [Hg Hp]; [intros k g; by rewrite lookup_empty|]. split.
  - rewrite map_range_perm, Hp. by rewrite map_to_list_empty.
  - apply Forall_forall. intros g Hin. apply list_elem_of_fmap in Hin as ([k g'] & -> & Hin).
    apply map_range_lookup, Hg in Hin as [Hne Hk]. simpl. split; [done|by exists k].
Qed.

(** C33: an asynchronous batch that succeeds answers with freshly drawn ids, one per
    notification, but hands the notifications to the strategies as it got them,
    grouped by strategy: neither the ids it answers with nor the replacement of
    the immediate strategy reach them. *)
Theorem batch_async_ids_detached st ns st' resp :
  BatchAsyncSend st ns = Ret (st', (resp, None)) ->
  Snowflake.NextIds (idGenerator st) (draws 0 ns) = (idGenerator st', NotificationIds resp) /\
  (forall j n, ns !! j = Some n -> Notif.valid (clock j) n) /\
  exists groups, concat groups ≡ₚ ns /\
    Forall (fun g => g <> [] /\ exists k, Forall (fun n => strategy_of n = k) g) groups /\
    send_groups (env st) groups None = Ret (env st', None).
Proof using Type.
  unfold BatchAsyncSend. destruct (length ns =? 0)%nat; [done|].
  destruct (draw_ids (idGenerator st) 0 ns) as [g [ids [e|]]] eqn:E; [done|].
  destruct (send_groups _ _ _) as [[s [e|]]|] eqn:Es; simpl; [done| |done]. intros [= <- <-].
  destruct (draw_ids_ok _ _ _ _ _ E) as [Hn Hv]. split; [done|]. split; [done|].
  destruct (groups_spec ns) as [Hp Hg]. by eexists.
Qed.

(** A call with an invalid notification, or an empty batch, is refused with
    [ErrInvalidParam] by every method, before any strategy is called. *)
Theorem service_refuses_invalid st :
  (forall n, ~ Notif.valid (clock 0%nat) n ->
     (exists r e, Send st n = Ret (st, (r, Some e)) /\ errors_Is e (SCode ErrInvalidParam) = true) /\
     (exists r e, AsyncSend st n = Ret (st, (r, Some e)) /\ errors_Is e (SCode ErrInvalidParam) = true)) /\
  (forall ns, ns = [] \/ (exists j n, ns !! j = Some n /\ ~ Notif.valid (clock j) n) ->
     (exists g r e, BatchSend st ns = Ret (mkState g (env st), (r, Some e)) /\
                    errors_Is e (SCode ErrInvalidParam) = true) /\
     (exists g r e, BatchAsyncSend st ns = Ret (mkState g (env st), (r, Some e)) /\
                    errors_Is e (SCode ErrInvalidParam) = true)).
Proof using Type.
  split.
  - intros n Hn. unfold Send, AsyncSend, prepare.
    destruct (Notif.Validate (clock 0%nat) n) as [e|] eqn:E; [|by apply Notif_Validate_ok in E].
    apply Notif_Validate_err in E. split; by do 2 eexists.
  - intros ns Hns. unfold BatchSend, BatchAsyncSend.
    destruct (Nat.eqb_spec (length ns) 0) as [|Hz].
    { split; (exists (idGenerator st); do 2 eexists; split; [by destruct st|apply errors_Is_code_err]). }
    destruct Hns as [->|(j & n & Hj & Hn)]; [done|].
    destruct (draw_ids (idGenerator st) 0 ns) as [g [ids [e|]]] eqn:E.
    + apply draw_ids_err in E. split; by do 3 eexists.
    + apply draw_ids_ok in E as [_ Hv]. by apply Hv in Hj.
Qed.
End service.
Arguments mkState {S}.
Arguments idGenerator {S}.
Arguments env {S}.
Arguments state : clear implicits.

(** An asynchronous notification is never sent at once: through the dispatcher,
    [AsyncSend] does what it does with the default strategy alone. *)
Theorem async_send_uses_default `{XXHash} {S} (dflt imm : Strategy.SendStrategy S) clock clock' st n :
  AsyncSend (Strategy.dispatcher (Strategy.NewDispatcher dflt imm)) clock clock' st n =
  AsyncSend dflt clock clock' st n.
Proof.
  unfold AsyncSend. destruct (prepare _ _ _ _ _) as [[g id]|e]; [|done].
  cbn [Strategy.st_Send Strategy.dispatcher]. unfold Strategy.Dispatcher_Send, Strategy.chooseStrategy.
  unfold Notif.ReplaceAsyncImmediate, Notif.IsImmediate.
  destruct (String.eqb (SendConf.Type_ (Notif.StrategyConfig (Notif.with_Id n id))) SendStrategyImmediate) eqn:E;
    [done|]. by rewrite E.
Qed.

(** C34: with the strategies the program has, a valid immediate notification that is
    stored is answered with [ErrFailedSendNotification] and the status failure,
    and is not sent: neither the channel nor the callback service is called. *)
Theorem immediate_stored_not_sent `{XXHash} `{NotifRepo.NotificationRepo} {W K C : Type}
    (dflt : Strategy.SendStrategy (Strategy.state W K C)) (sender : Sender_ (Sender.state W K))
    (clock clock' : nat -> Time) (st : state (Strategy.state W K C)) n g id r created :
  Notif.valid (clock 0%nat) n -> Notif.IsImmediate n = true ->
  Snowflake.NextId (idGenerator st) (Notif.BizId n) (Notif.BizKey n) (clock' 0%nat) = (g, id) ->
  NotifRepo.r_Create (Strategy.repo (env st)) (Notif.SetSendTime (clock 0%nat) (Notif.with_Id n id)) =
    Ret (r, (created, None)) ->
  exists e, Send (Strategy.dispatcher (Strategy.NewDispatcher dflt (Strategy.ImmediateSendStrategy sender)))
              clock clock' st n =
            Ret (mkState g (Strategy.with_repo (env st) r), (mkResp (mkResult 0 SendStatusFailure), Some e)) /\
            errors_Is e (SCode ErrFailedSendNotification) = true.
Proof.
  intros Hv Hi Hid Hc. apply Notif_Validate_ok in Hv. unfold Send, prepare. rewrite Hv, Hid.
  cbn [Strategy.st_Send Strategy.dispatcher]. unfold Strategy.Dispatcher_Send, Strategy.chooseStrategy.
  change (String.eqb (SendConf.Type_ (Notif.StrategyConfig (Notif.with_Id n id))) SendStrategyImmediate)
    with (Notif.IsImmediate n). rewrite Hi. simpl.
  unfold Strategy.Immediate_Send, Strategy.on_repo. rewrite Hc. simpl. eexists. split; [done|]. done.
Qed.

(** ** Runs *)

(** A strategy that keeps the ids of the batches it is given. *)
Definition recording : Strategy.SendStrategy (list (list Z)) :=
  Strategy.mkStrategy
    (fun s _ n => Ret (s ++ [[Notif.Id n]], (zeroSendResp, None)))
    (fun s _ ns => Ret (s ++ [map Notif.Id ns], (mkBatchResp [], None))).

Definition steady : nat -> Time := fun _ => now2025.

Definition two_ns : list Notif.Notification :=
  [sample (sample_conf SendStrategyImmediate); sample (sample_conf SendStrategyDelayed)].

Definition service_start : state (list (list Z)) := mkState Snowflake.NewGenerator [].

Lemma batch_async_ids_detached_witness :
  match @BatchAsyncSend fnv_hash key_order _ recording steady steady service_start two_ns with
  | Ret (st', (resp, None)) =>
      (@Snowflake.NextIds fnv_hash Snowflake.NewGenerator (draws steady 0 two_ns)).2 = NotificationIds resp
  | _ => False
  end.
Proof.
  destruct (@BatchAsyncSend fnv_hash key_order _ recording steady steady service_start two_ns)
    as [[st' [resp [e|]]]|msg] eqn:E.
  - assert (Hx : exists r, (resp, Some e) = (r, None)) by (eexists; apply (answer_ret _ _ _ _ E); vm_compute; reflexivity).
    destruct Hx as [r Hx]. discriminate Hx.
  - destruct (@batch_async_ids_detached fnv_hash key_order _ recording steady steady service_start two_ns st' resp E)
      as [H _].
    change (idGenerator service_start) with Snowflake.NewGenerator in H. rewrite H. reflexivity.
  - assert (Hp : is_panic (@BatchAsyncSend fnv_hash key_order _ recording steady steady service_start two_ns) = false)
      by (vm_compute; reflexivity).
    rewrite E in Hp. discriminate Hp.
Defined.

Lemma service_refuses_invalid_witness :
  exists r e, @Send fnv_hash _ recording steady steady service_start Notif.zero = Ret (service_start, (r, Some e)) /\
              errors_Is e (SCode ErrInvalidParam) = true.
Proof.
  apply (@service_refuses_invalid fnv_hash key_order _ recording steady steady service_start).
  intros (H & _). by vm_compute in H.
Defined.

Lemma immediate_stored_not_sent_witness :
  let n := sample (sample_conf SendStrategyImmediate) in
  let sender := Sender.sender (H0 := Sender.in_turn) working Sender.no_callback in
  let st := mkState Snowflake.NewGenerator (@Strategy.mkState Sender.run_repo nat unit unit Sender.run_start tt) in
  match @Snowflake.NextId fnv_hash Snowflake.NewGenerator (Notif.BizId n) (Notif.BizKey n) now2025 with
  | (g, id) =>
      match @NotifRepo.r_Create Sender.run_repo (Sender.repo Sender.run_start) (Notif.SetSendTime now2025 (Notif.with_Id n id)) with
      | Ret (r, (_, None)) =>
          exists e, @Send fnv_hash _ (Strategy.dispatcher (Strategy.NewDispatcher
                       (Strategy.DefaultSendStrategy (C := unit)) (Strategy.ImmediateSendStrategy sender))) steady steady st n =
                    Ret (mkState g (Strategy.with_repo (env st) r), (mkResp (mkResult 0 SendStatusFailure), Some e)) /\
                    errors_Is e (SCode ErrFailedSendNotification) = true
      | _ => False
      end
  end.
Proof.
  intros n sender st. destruct (Snowflake.NextId _ _ _ _) as [g id] eqn:Eg.
  assert (Hp : is_panic (@NotifRepo.r_Create Sender.run_repo (Sender.repo Sender.run_start)
                 (Notif.SetSendTime now2025 (Notif.with_Id n id))) = false) by reflexivity.
  destruct (NotifRepo.r_Create _ _) as [[r [created err]]|msg] eqn:E; [|discriminate Hp].
  assert (Herr : exists c, (created, err) = (c, None)) by (eexists; apply (answer_ret _ _ _ _ E); reflexivity).
  destruct Herr as [c Herr]. injection Herr as -> ->.
  refine (immediate_stored_not_sent (Strategy.DefaultSendStrategy (C := unit)) sender steady steady st n g id r c _ _ Eg E).
  - apply Notif_Validate_ok. vm_compute. reflexivity.
  - reflexivity.
Defined.
End SendService.
