(* ===== verification/Flow.v ===== *)
(** * From a call of the sending service to the database

    The default strategy, the notification repository, the quota cache and the
    sharded data access object composed as internal/ioc means them to be
    (sendstrategy/default.go, repository/notification.go, cache/redis/quota.go,
    dao/notification.go), under the service of
    service/notification/notification_send.go. *)
From Stdlib Require Import ZArith Lia List.
From stdpp Require Import prelude strings gmap.
From S2P Require Import Prelude GoLang Errs Externals Snowflake Sharding Domain Quota Json Dao NotifRepo Channels BizConf Sender Strategies SendService.

Module Flow.
Section flow.
Context `{XXHash} `{Gorm} `{MapRange} `{RedisKV} {W K C : Type} `{!BizConfRepo.Repository C}.

(** [dnow] and [dnow'] are the clock readings of the data access object. *)
Variables (nd : Dao.NotifShardingDAO) (fuel : nat) (dnow dnow' : Time).

#[local] Instance stored_dao : NotificationDAO := Repo.sharded nd fuel dnow dnow'.
#[local] Instance stored_repo : NotificationRepo := Repo.default_repo.

Abbreviation env := (Strategy.state W K C).

Definition store (s : env) : Dao.state := Repo.dao (Strategy.repo s).
Definition left (s : env) (k : string) : Z := QuotaCache.avail (Repo.quota (Strategy.repo s)) k.

(** The row a call that succeeds leaves. *)
Definition row (now : Time) (n : Notif.Notification) (id : Z) : Entity.Notification :=
  Entity.with_Id (Entity.stamp (Repo.toEntity (Notif.SetSendTime now n)) (UnixMilli dnow)) id.

Definition wants_callback (s : env) (now : Time) (n : Notif.Notification) : bool :=
  match (BizConfRepo.conf_GetById (Strategy.conf s) now (Notif.BizId n)).2 with
  | (c, None) => match CallbackConf_ c with Some _ => true | None => false end
  | (_, Some _) => false
  end.

(** What a call may do: on success one row is new, in the shard of the business
    key, under the id the response gives; one unit of quota is used; the callback
    log exists when the business has a callback; and the row is found by its id.
    On failure nothing was stored or used. *)
Definition outcome (s s' : env) (now : Time) (n : Notif.Notification) (id : Z) (err : option error) : Prop :=
  match err with
  | Some _ => Dao.db (store s') = Dao.db (store s) /\ forall k, left s' k = left s k
  | None =>
      exists d c, Hash.Shard (Dao.notifShardingStrategy nd) (Notif.BizId n) (Notif.BizKey n) = Ret d /\
        Hash.Shard (Dao.cbLogShardingStrategy nd) (Notif.BizId n) (Notif.BizKey n) = Ret c /\
        (exists g, Snowflake.NextId (Dao.gen (store s)) (Notif.BizId n) (Notif.BizKey n) dnow' = (g, id)) /\
        notifs (Dao.db (store s)) (DB d) (Table d) id = None /\
        notifs (Dao.db (store s')) (DB d) (Table d) id = Some (row now n id) /\
        (forall d' t i, (d', t, i) <> (DB d, Table d, id) ->
           notifs (Dao.db (store s')) d' t i = notifs (Dao.db (store s)) d' t i) /\
        (wants_callback s now n = true -> exists l, cblogs (Dao.db (store s')) (DB d) (Table c) id = Some l /\
                                                    Entity.cb_Status l = CallbackStatusInit) /\
        (Dao.GetById nd (Dao.db (store s')) id = Ret (row now n id, None) \/
         exists e, Dao.GetById nd (Dao.db (store s')) id = Ret (Entity.zero, Some e) /\
                   errors_Is e (SCode ErrNotificationNotFound) = false) /\
        forall k, left s' k = left s k - QuotaCache.asked [Repo.quota_param n] k
  end.

Hypothesis wf : Hash.wf (Dao.notifShardingStrategy nd).
Hypothesis wf_cb : Hash.wf (Dao.cbLogShardingStrategy nd).
Hypothesis divides :
  (Hash.dbSharding (Dao.notifShardingStrategy nd) * Hash.tableSharding (Dao.notifShardingStrategy nd) | 1024).

(** The data access object always answers. *)
Lemma create_returns st now now' n cb : exists st' n' err, Dao.create nd st now now' n cb = Ret (st', (n', err)).
Proof using wf wf_cb.
  unfold Dao.create. cbn [Entity.BizId Entity.BizKey Entity.stamp].
  destruct (Snowflake.NextId _ _ _ _) as [g id].
  destruct (Hash.shard_total _ (Entity.BizId n) (Entity.BizKey n) wf) as (d & -> & _).
  destruct (Hash.shard_total _ (Entity.BizId n) (Entity.BizKey n) wf_cb) as (c & -> & _). simpl.
  case_bool_decide; simpl; [|by do 3 eexists].
  destruct (Transaction _ _) as [[s a] e]. by do 3 eexists.
Qed.

(** What the data access object leaves, for an entity. *)
Lemma dao_create_outcome st n cb st' n' err :
  in_u 64 (Snowflake.sequence (Dao.gen st)) ->
  Dao.create nd st dnow dnow' n cb = Ret (st', (n', err)) ->
  match err with
  | Some _ => Dao.db st' = Dao.db st
  | None =>
      exists d c, Hash.Shard (Dao.notifShardingStrategy nd) (Entity.BizId n) (Entity.BizKey n) = Ret d /\
        Hash.Shard (Dao.cbLogShardingStrategy nd) (Entity.BizId n) (Entity.BizKey n) = Ret c /\
        n' = Entity.with_Id (Entity.stamp n (UnixMilli dnow)) (Entity.Id n') /\
        (exists g, Snowflake.NextId (Dao.gen st) (Entity.BizId n) (Entity.BizKey n) dnow' = (g, Entity.Id n')) /\
        notifs (Dao.db st) (DB d) (Table d) (Entity.Id n') = None /\
        notifs (Dao.db st') (DB d) (Table d) (Entity.Id n') = Some n' /\
        (forall d' t i, (d', t, i) <> (DB d, Table d, Entity.Id n') -> notifs (Dao.db st') d' t i = notifs (Dao.db st) d' t i) /\
        (cb = true -> exists l, cblogs (Dao.db st') (DB d) (Table c) (Entity.Id n') = Some l /\
                                Entity.cb_Status l = CallbackStatusInit) /\
        (Dao.GetById nd (Dao.db st') (Entity.Id n') = Ret (n', None) \/
         exists e, Dao.GetById nd (Dao.db st') (Entity.Id n') = Ret (Entity.zero, Some e) /\
                   errors_Is e (SCode ErrNotificationNotFound) = false)
  end.
Proof using wf divides.
  intros Hseq Hcr. destruct err as [e|]; [by eapply Dao.create_err|].
  apply Dao.create_ok in Hcr as (d & c & id & Hd & Hc & Hdb & Hid & Hn & Htx).
  apply Dao.create_tx_ok in Htx as (H1' & H2' & H3' & H4').
  assert (Ei : Entity.Id n' = id) by by rewrite Hn.
  exists d, c. split_and!; try done; [by rewrite Ei|by rewrite Ei; eexists|by intros ->; eexists|].
  apply (Dao.GetById_found _ _ _ d); [|done|done].
  rewrite Ei. by rewrite (Hash.shard_by_id _ _ _ _ _ _ _ wf divides Hseq Hid).
Qed.

(** The insertion the repository makes, with or without a callback log. *)
Definition insert (cb : bool) (d : dstate) (e : Entity.Notification)
    : go (dstate * (Entity.Notification * option error)) := Dao.create nd d dnow dnow' e cb.

Lemma repo_create_outcome (st : Repo.state) n cb :
  in_u 64 (Snowflake.sequence (Dao.gen (Repo.dao st))) ->
  exists st' r err, Repo.create_with (insert cb) reached reached st n = Ret (st', (r, err)) /\
    (forall k, QuotaCache.avail (Repo.quota st') k =
               QuotaCache.avail (Repo.quota st) k - QuotaCache.unless err (QuotaCache.asked [Repo.quota_param n] k)) /\
    match err with
    | Some _ => Dao.db (Repo.dao st') = Dao.db (Repo.dao st)
    | None => exists e, Dao.create nd (Repo.dao st) dnow dnow' (Repo.toEntity n) cb = Ret (Repo.dao st', (e, None)) /\
                Notif.Id r = Entity.Id e
    end.
Proof using wf wf_cb.
  intros Hseq.
  assert (Hr : exists st' r err, Repo.create_with (insert cb) reached reached st n = Ret (st', (r, err)) /\
    match err with
    | Some _ => Dao.db (Repo.dao st') = Dao.db (Repo.dao st)
    | None => exists e, Dao.create nd (Repo.dao st) dnow dnow' (Repo.toEntity n) cb = Ret (Repo.dao st', (e, None)) /\
                Notif.Id r = Entity.Id e
    end).
  { unfold Repo.create_with. destruct (QuotaCache.Decr _ _ _) as [q [e|]]; [by do 3 eexists|].
    destruct (create_returns (Repo.dao st) dnow dnow' (Repo.toEntity n) cb) as (d' & e & err & Hc).
    unfold insert. rewrite Hc. simpl. destruct err as [err|].
    - destruct (QuotaCache.Incr reached (mkParam (Notif.BizId n) Repo.defaultQuota (Notif.Channel_ n)) q). do 3 eexists. split; [done|]. simpl. by eapply Dao.create_err.
    - do 3 eexists. split; [done|]. by exists e. }
  destruct Hr as (st' & r & err & E & Hm). exists st', r, err. split; [done|]. split; [|done].
  by apply (Repo.create_quota (insert cb) st n st' r err E).
Qed.


(** The sending window is all that [SetSendTime] changes. *)
Lemma SetSendTime_same now n :
  Notif.BizId (Notif.SetSendTime now n) = Notif.BizId n /\
  Notif.BizKey (Notif.SetSendTime now n) = Notif.BizKey n /\
  Repo.quota_param (Notif.SetSendTime now n) = Repo.quota_param n.
Proof using Type. unfold Notif.SetSendTime. by destruct (SendConf.CalcTimeWindow now (Notif.StrategyConfig n)). Qed.

(** The creation the default strategy asks for. *)
Lemma strategy_create (s : env) now n :
  exists c, Strategy.create s now n =
    Strategy.on_repo (Strategy.mkState (Strategy.base s) c)
      (Repo.create_with (insert (wants_callback s now n)) reached reached (Strategy.repo s) n).
Proof using Type.
  unfold Strategy.create, Strategy.needCallbackLog, wants_callback.
  destruct (BizConfRepo.conf_GetById _ _ _) as [c [bc [e|]]]; simpl; exists c; [done|]. by destruct (CallbackConf_ bc).
Qed.

(** The default strategy always answers, and stores or leaves everything alone. *)
Lemma default_send_outcome (s : env) now n :
  in_u 64 (Snowflake.sequence (Dao.gen (store s))) ->
  exists s' resp err, Strategy.Default_Send s now n = Ret (s', (resp, err)) /\
    outcome s s' now n (NotificationId (Result resp)) err.
Proof using wf wf_cb divides.
  intros Hseq. unfold Strategy.Default_Send.
  destruct (SetSendTime_same now n) as (Hb & Hk & Hq). set (n1 := Notif.SetSendTime now n) in *.
  destruct (strategy_create s now n1) as [c ->].
  destruct (repo_create_outcome (Strategy.repo s) n1 (wants_callback s now n1) Hseq) as (r' & r & err & Hc & Hquota & Hm).
  unfold Strategy.on_repo. rewrite Hc. simpl. destruct err as [e|]; simpl; do 3 eexists; (split; [done|]); simpl.
  - split; [done|]. intros k. unfold left. simpl. rewrite Hquota. simpl. lia.
  - destruct Hm as (e & Hcr & Hid).
    destruct (dao_create_outcome _ _ _ _ _ _ Hseq Hcr) as (d & cd & H1' & H2' & H3' & Hg & H4' & H5' & H6' & H7' & H8').
    change (Entity.BizId (Repo.toEntity n1)) with (Notif.BizId n1) in *.
    change (Entity.BizKey (Repo.toEntity n1)) with (Notif.BizKey n1) in *.
    assert (Hrow : row now n (Entity.Id e) = e) by by rewrite H3' at 2.
    assert (Hwc : wants_callback s now n1 = wants_callback s now n) by (unfold wants_callback; by rewrite Hb).
    rewrite Hid, Hrow. exists d, cd. rewrite <- Hb, <- Hk, <- Hq, <- Hwc. by split_and!.
Qed.

(** The id the service draws is not the one the notification gets. *)
Lemma outcome_with_Id (s s' : env) now n i id err : outcome s s' now (Notif.with_Id n i) id err -> outcome s s' now n id err.
Proof using Type.
  assert (Hrow : row now (Notif.with_Id n i) id = row now n id).
  { unfold row, Notif.SetSendTime. change (Notif.StrategyConfig (Notif.with_Id n i)) with (Notif.StrategyConfig n).
    by destruct (SendConf.CalcTimeWindow now (Notif.StrategyConfig n)). }
  unfold outcome. by rewrite Hrow.
Qed.

(** ** Properties *)

Variables (imm : Strategy.SendStrategy env) (clock clock' : nat -> Time).

Definition service : Strategy.SendStrategy env :=
  Strategy.dispatcher (Strategy.NewDispatcher Strategy.DefaultSendStrategy imm).

Lemma service_default st now n :
  Notif.IsImmediate n = false -> Strategy.st_Send service st now n = Strategy.Default_Send st now n.
Proof using Type.
  intros Hi. unfold service. cbn [Strategy.st_Send Strategy.dispatcher].
  unfold Strategy.Dispatcher_Send, Strategy.chooseStrategy. unfold Notif.IsImmediate in Hi. by rewrite Hi.
Qed.

(** A call of the service answers, and stores or leaves everything alone. *)
Lemma send_stored st n :
  Notif.valid (clock 0%nat) n -> Notif.IsImmediate n = false ->
  in_u 64 (Snowflake.sequence (Dao.gen (store (SendService.env st)))) ->
  exists st' resp err, SendService.Send service clock clock' st n = Ret (st', (resp, err)) /\
    outcome (SendService.env st) (SendService.env st') (clock 0%nat) n (NotificationId (Result resp)) err.
Proof using wf wf_cb divides.
  intros Hv Hi Hseq. unfold SendService.Send, SendService.prepare.
  rewrite (proj2 (Notif_Validate_ok _ _) Hv).
  destruct (Snowflake.NextId (SendService.idGenerator st) _ _ _) as [g id].
  rewrite service_default by done.
  destruct (default_send_outcome (SendService.env st) (clock 0%nat) (Notif.with_Id n id) Hseq)
    as (s' & resp & err & -> & Ho%outcome_with_Id). simpl.
  by destruct err; do 3 eexists.
Qed.

(** C3: When redis answers, a valid notification that is not an immediate one, given to
    [Send], is stored exactly once or not at all: the call returns; on success the response has the id
    of a new row that [GetById] finds, in the shard of the notification's business
    key, with its callback log if the business has a callback, and one unit of quota
    is used; on failure the database and the quotas are as they were. *)
Theorem send_stores_or_nothing st n :
  Notif.valid (clock 0%nat) n -> Notif.IsImmediate n = false ->
  in_u 64 (Snowflake.sequence (Dao.gen (store (SendService.env st)))) ->
  exists st' resp err, SendService.Send service clock clock' st n = Ret (st', (resp, err)) /\
    outcome (SendService.env st) (SendService.env st') (clock 0%nat) n (NotificationId (Result resp)) err.
Proof using wf wf_cb divides. apply send_stored. Qed.

(** [AsyncSend] stores every valid notification exactly once or not at all, one
    with the immediate strategy as the deadline notification it is replaced by. *)
Theorem async_send_stores_or_nothing st n :
  Notif.valid (clock 0%nat) n -> in_u 64 (Snowflake.sequence (Dao.gen (store (SendService.env st)))) ->
  exists st' resp err, SendService.AsyncSend service clock clock' st n = Ret (st', (resp, err)) /\
    outcome (SendService.env st) (SendService.env st') (clock 0%nat) (Notif.ReplaceAsyncImmediate (clock 0%nat) n)
      (NotificationId (Result resp)) err.
Proof using wf wf_cb divides.
  intros Hv Hseq. unfold SendService.AsyncSend, SendService.prepare.
  rewrite (proj2 (Notif_Validate_ok _ _) Hv).
  destruct (Snowflake.NextId (SendService.idGenerator st) _ _ _) as [g id].
  assert (Hr : Notif.ReplaceAsyncImmediate (clock 0%nat) (Notif.with_Id n id) =
               Notif.with_Id (Notif.ReplaceAsyncImmediate (clock 0%nat) n) id).
  { unfold Notif.ReplaceAsyncImmediate. change (Notif.IsImmediate (Notif.with_Id n id)) with (Notif.IsImmediate n).
    by destruct (Notif.IsImmediate n). }
  rewrite Hr, service_default.
  2: { unfold Notif.ReplaceAsyncImmediate. by destruct (Notif.IsImmediate n) eqn:E. }
  destruct (default_send_outcome (SendService.env st) (clock 0%nat)
    (Notif.with_Id (Notif.ReplaceAsyncImmediate (clock 0%nat) n) id) Hseq)
    as (s' & resp & err & -> & Ho%outcome_with_Id). simpl. by do 3 eexists.
Qed.
End flow.

(** ** A run *)

#[local] Instance mem_repo : NotificationRepo := @Repo.default_repo Repo.mem_dao QuotaCache.map_redis key_order.

Definition flow_start : SendService.state (@Strategy.state mem_repo nat unit unit) :=
  SendService.mkState Snowflake.NewGenerator
    (@Strategy.mkState mem_repo nat unit unit (@Sender.mkState mem_repo nat unit 0%nat Repo.start tt) tt).

Definition delayed : Notif.Notification := sample (sample_conf SendStrategyDelayed).

Definition no_immediate : Strategy.SendStrategy (@Strategy.state mem_repo nat unit unit) :=
  Strategy.mkStrategy (fun s _ _ => Ret (s, (zeroSendResp, None))) (fun s _ _ => Ret (s, (mkBatchResp [], None))).

Lemma flow_start_seq : in_u 64 (Snowflake.sequence (Dao.gen Dao.sample_state)).
Proof. vm_compute. intuition congruence. Qed.

Lemma delayed_valid : Notif.valid now2025 delayed.
Proof. apply Notif_Validate_ok. by vm_compute. Qed.

Lemma strategy_wf : Hash.wf Hash.InitNotifShardingStrategy /\ Hash.wf Hash.InitCbLogShardingStrategy.
Proof. split; vm_compute; intuition congruence. Qed.

Lemma send_stores_or_nothing_witness :
  exists st' resp err,
    @SendService.Send fnv_hash _ (@service fnv_hash Dao.mem_gorm key_order QuotaCache.map_redis nat unit unit _
      Dao.sample_dao 3 now2025 now2025 no_immediate) SendService.steady SendService.steady flow_start delayed =
      Ret (st', (resp, err)) /\
    @outcome fnv_hash Dao.mem_gorm key_order QuotaCache.map_redis nat unit unit _ Dao.sample_dao 3 now2025 now2025
      (SendService.env flow_start) (SendService.env st') now2025 delayed (NotificationId (Result resp)) err.
Proof.
  apply (@send_stores_or_nothing fnv_hash Dao.mem_gorm key_order QuotaCache.map_redis nat unit unit _
    Dao.sample_dao 3 now2025 now2025 (proj1 strategy_wf) (proj2 strategy_wf) ltac:(exists 128; reflexivity)
    no_immediate SendService.steady SendService.steady flow_start delayed delayed_valid eq_refl flow_start_seq).
Defined.

Lemma async_send_stores_or_nothing_witness :
  exists st' resp err,
    @SendService.AsyncSend fnv_hash _ (@service fnv_hash Dao.mem_gorm key_order QuotaCache.map_redis nat unit unit _
      Dao.sample_dao 3 now2025 now2025 no_immediate) SendService.steady SendService.steady flow_start delayed =
      Ret (st', (resp, err)) /\
    @outcome fnv_hash Dao.mem_gorm key_order QuotaCache.map_redis nat unit unit _ Dao.sample_dao 3 now2025 now2025
      (SendService.env flow_start) (SendService.env st') now2025 delayed (NotificationId (Result resp)) err.
Proof.
  apply (@async_send_stores_or_nothing fnv_hash Dao.mem_gorm key_order QuotaCache.map_redis nat unit unit _
    Dao.sample_dao 3 now2025 now2025 (proj1 strategy_wf) (proj2 strategy_wf) ltac:(exists 128; reflexivity)
    no_immediate SendService.steady SendService.steady flow_start delayed delayed_valid flow_start_seq).
Defined.

(** The run does store: the second unit of quota is left, and the row is there. *)
Example flow_stores :
  match @SendService.Send fnv_hash _ (@service fnv_hash Dao.mem_gorm key_order QuotaCache.map_redis nat unit unit _
      Dao.sample_dao 3 now2025 now2025 no_immediate) SendService.steady SendService.steady flow_start delayed with
  | Ret (st', (resp, None)) =>
      QuotaCache.avail (H := QuotaCache.map_redis) (Repo.quota (Strategy.repo (SendService.env st'))) (QuotaCache.redisKey 7 ChannelSMS) = 1 /\
      negb (NotificationId (Result resp) =? 0) = true
  | _ => False
  end.
Proof. vm_compute. by split. Qed.
End Flow.
