(* ===== verification/Immediate.v ===== *)
(** * An immediate notification that could not be created

    The immediate strategy (service/sendstrategy/immediate.go) has the result of the
    creation the wrong way round.  What becomes of a notification whose creation failed,
    from the call of the service, through the sender (service/sender/sender.go), to the
    shards and the quotas: it is sent, although nothing was stored, and the sender then
    marks a row that is not there. *)
From Stdlib Require Import ZArith Lia List.
From stdpp Require Import prelude strings gmap.
From S2P Require Import Prelude GoLang Errs Externals Snowflake Sharding Domain Quota Json Dao NotifRepo Channels BizConf Sender Strategies SendService Flow.

Module Immediate.
Section immediate.
Context `{XXHash} `{Gorm} `{MapRange} `{RedisKV} `{Schedule} {W K C : Type} `{!BizConfRepo.Repository C}.

(** [dnow] and [dnow'] are the clock readings of the data access object. *)
Variables (nd : Dao.NotifShardingDAO) (fuel : nat) (dnow dnow' : Time).

#[local] Instance stored_dao : NotificationDAO := Repo.sharded nd fuel dnow dnow'.
#[local] Instance stored_repo : NotificationRepo := Repo.default_repo.

Abbreviation env := (Strategy.state W K C).

Definition rows (s : env) : cluster := Dao.db (Repo.dao (Strategy.repo s)).
Definition left (s : env) (k : string) : Z := QuotaCache.avail (Repo.quota (Strategy.repo s)) k.

Hypothesis wf : Hash.wf (Dao.notifShardingStrategy nd).
Hypothesis wf_cb : Hash.wf (Dao.cbLogShardingStrategy nd).

(** A channel and a callback service that answer. *)
Variables (channel : sends W) (callbackSvc : CallbackService K).
Hypothesis channel_returns : forall w n, exists w' resp err, channel w n = Ret (w', (resp, err)).
Hypothesis callback_returns : forall k n, exists k' err, SendByNotification callbackSvc k n = Ret (k', err).

(** A mark answers; when it succeeds, it left every row but the one of the id alone,
    and the table has a column [update_at]. *)
Definition mark (ok : bool) : cluster -> Time -> Entity.Notification -> go (cluster * option error) :=
  if ok then Dao.MarkSuccess nd else Dao.MarkFailure nd.

Lemma mark_returns ok s now n :
  exists d s' err,
    Hash.ShardWithId (Dao.notifShardingStrategy nd) (Entity.Id n) = Ret d /\ mark ok s now n = Ret (s', err) /\
    (forall d' t i, (d', t, i) <> (DB d, Table d, Entity.Id n) -> notifs s' d' t i = notifs s d' t i) /\
    (notifs s (DB d) (Table d) (Entity.Id n) = None -> notifs s' (DB d) (Table d) (Entity.Id n) = None) /\
    (has_column (DB d) (Table d) "update_at" = false -> is_Some err).
Proof using wf wf_cb.
  pose proof (Snowflake.ExtractHash_range (Entity.Id n)) as Hr.
  assert (Hd : exists d, Hash.ShardWithId (Dao.notifShardingStrategy nd) (Entity.Id n) = Ret d).
  { unfold Hash.ShardWithId. rewrite Hash.shard_hash_ok by (done || lia). by eexists. }
  assert (Hc : exists c, Hash.ShardWithId (Dao.cbLogShardingStrategy nd) (Entity.Id n) = Ret c).
  { unfold Hash.ShardWithId. rewrite Hash.shard_hash_ok by (done || lia). by eexists. }
  destruct Hd as [d Hd], Hc as [c Hc]. exists d.
  assert (Hm : exists s' err, mark ok s now n = Ret (s', err)).
  { unfold mark. destruct ok; unfold Dao.MarkSuccess, Dao.MarkFailure; rewrite Hd, ?Hc; simpl; case_bool_decide; simpl;
      (by do 2 eexists) || (destruct (Transaction _ _) as [[s1 []] e]; by do 2 eexists). }
  destruct Hm as (s' & err & Hm). exists s', err. split; [done|]. split; [done|]. destruct err as [e|].
  - assert (s' = s) as ->.
    { unfold mark in Hm. destruct ok; unfold Dao.MarkSuccess, Dao.MarkFailure in Hm; rewrite Hd, ?Hc in Hm; simpl in Hm;
        case_bool_decide; simpl in Hm; simplify_eq; try done;
        destruct (Transaction _ _) as [[s1 []] e'] eqn:E; simplify_eq; by apply Dao.Transaction_err in E. }
    by split_and!.
  - assert (Hok : has_column (DB d) (Table d) "update_at" = true /\ Dao.marked s s' d (Entity.Id n) (Entity.Status n)).
    { unfold mark in Hm. destruct ok.
      - by apply (Dao.MarkSuccess_ok nd s now n s' d c) in Hm as (? & _ & ? & _).
      - by apply (Dao.MarkFailure_ok nd s now n s' d) in Hm as (? & ? & _). }
    destruct Hok as (Hcol & Hother & updated & Hrow). split; [done|]. split; [|congruence].
    intros Hn. by rewrite Hrow, Hn.
Qed.

(** What the sender makes of a notification: one call of the channel, and the mark. *)
Lemma sender_settles (st : Sender.state W K) n :
  exists d w resp cherr st' r err,
    Hash.ShardWithId (Dao.notifShardingStrategy nd) (Notif.Id n) = Ret d /\
    channel (Sender.chan st) n = Ret (w, (resp, cherr)) /\
    Sender.Send channel callbackSvc st n = Ret (st', (r, err)) /\ Sender.chan st' = w /\
    let before := Dao.db (Repo.dao (Sender.repo st)) in
    let after := Dao.db (Repo.dao (Sender.repo st')) in
    (forall d' t i, (d', t, i) <> (DB d, Table d, Notif.Id n) -> notifs after d' t i = notifs before d' t i) /\
    (notifs before (DB d) (Table d) (Notif.Id n) = None -> notifs after (DB d) (Table d) (Notif.Id n) = None) /\
    (has_column (DB d) (Table d) "update_at" = false -> is_Some err) /\
    (err = None -> NotificationId (Result r) = Notif.Id n) /\
    forall k, QuotaCache.avail (Repo.quota (Sender.repo st')) k =
      QuotaCache.avail (Repo.quota (Sender.repo st)) k +
      match cherr, err with Some _, None => QuotaCache.asked [Repo.quota_param n] k | _, _ => 0 end.
Proof using wf wf_cb channel_returns callback_returns.
  destruct (channel_returns (Sender.chan st) n) as (w & resp & cherr & Hch).
  set (status := match cherr with Some _ => SendStatusFailure | None => SendStatusSuccess end).
  destruct (mark_returns (match cherr with Some _ => false | None => true end) (Dao.db (Repo.dao (Sender.repo st))) dnow
    (Repo.toEntity (Notif.with_Status n status))) as (d & s' & err & Hd & Hm & Hother & Hnone & Hcol).
  change (Entity.Id (Repo.toEntity (Notif.with_Status n status))) with (Notif.Id n) in *.
  destruct (callback_returns (Sender.cb st) (Notif.with_Status n status)) as (k' & kerr & Hk).
  exists d, w, resp, cherr. unfold Sender.Send. rewrite Hch. cbn [go_bind]. fold status.
  destruct cherr as [ce|]; cbn [mark] in Hm; cbn [r_MarkFailure r_MarkSuccess stored_repo Repo.default_repo].
  - unfold Repo.MarkFailure. cbn [d_MarkFailure stored_dao Repo.sharded]. unfold Repo.on_db. rewrite Hm. cbn [go_bind].
    pose proof (QuotaCache.Incr_avail (Repo.quota_param n) (Repo.quota (Sender.repo st)) Z.le_0_1) as Hq.
    destruct err as [e|]; cbn [go_bind].
    + do 3 eexists. split; [done|]. split; [done|]. split; [done|]. split; [done|]. simpl. split_and!; try done. intros k. lia.
    + change (mkParam (Notif.BizId (Notif.with_Status n status)) Repo.defaultQuota (Notif.Channel_ (Notif.with_Status n status)))
        with (Repo.quota_param n).
      cbn [QuotaCache.Incr on_net reached lost failed Nat.iter] in *. cbn [go_bind]. rewrite Hk. cbn [go_bind].
      do 3 eexists. split; [done|]. split; [done|]. split; [done|]. split; [done|]. simpl. by split_and!.
  - unfold Repo.MarkSuccess. cbn [d_MarkSuccess stored_dao Repo.sharded]. unfold Repo.on_db. rewrite Hm. cbn [go_bind].
    destruct err as [e|]; cbn [go_bind].
    + do 3 eexists. split; [done|]. split; [done|]. split; [done|]. split; [done|]. simpl. split_and!; try done. intros k. lia.
    + rewrite Hk. cbn [go_bind].
      do 3 eexists. split; [done|]. split; [done|]. split; [done|]. split; [done|]. simpl. split_and!; try done. intros k. lia.
Qed.
(** A creation that fails leaves the rows and the quotas as they were. *)
Lemma create_failed (r0 r : Repo.state) n x e :
  Repo.Create reached reached r0 n = Ret (r, (x, Some e)) ->
  Dao.db (Repo.dao r) = Dao.db (Repo.dao r0) /\
  forall k, QuotaCache.avail (Repo.quota r) k = QuotaCache.avail (Repo.quota r0) k.
Proof using Type.
  intros E. split.
  - apply Repo.create_cases in E. simpl in E. destruct E as [(-> & _)|((y & Hi) & _)]; [done|].
    by eapply Dao.create_err.
  - intros k. apply Repo.create_quota in E as [Hq _]. rewrite Hq. simpl. lia.
Qed.

(** ** Properties *)

Variables (dflt : Strategy.SendStrategy (Strategy.state W K C)) (clock clock' : nat -> Time).

Definition service : Strategy.SendStrategy env :=
  Strategy.dispatcher (Strategy.NewDispatcher dflt
    (Strategy.ImmediateSendStrategy (Sender.sender channel callbackSvc))).

End immediate.

(** ** Runs: no quota is left *)

#[local] Existing Instance Sender.in_turn.

Abbreviation run_repo g := (@stored_repo fnv_hash g key_order QuotaCache.map_redis Dao.sample_dao 3 now2025 now2025).

Definition run_start (g : Gorm) (m : @cluster g) : SendService.state (@Strategy.state (run_repo g) nat unit unit) :=
  SendService.mkState Snowflake.NewGenerator
    (@Strategy.mkState (run_repo g) nat unit unit
      (@Sender.mkState (run_repo g) nat unit 0%nat
        (@Repo.mkState (@stored_dao fnv_hash g key_order Dao.sample_dao 3 now2025 now2025) QuotaCache.map_redis
          (@Dao.mkState g m Snowflake.NewGenerator) (∅ : gmap string Z)) tt) tt).

Definition urgent : Notif.Notification := sample (sample_conf SendStrategyImmediate).

Definition run (g : Gorm) (m : @cluster g) (ch : sends nat) :=
  @SendService.Send fnv_hash _ (@service fnv_hash g key_order QuotaCache.map_redis Sender.in_turn nat unit unit
    Dao.sample_dao 3 now2025 now2025 ch Sender.no_callback
    (@Strategy.DefaultSendStrategy (run_repo g) nat unit unit _))
    SendService.steady SendService.steady (run_start g m) urgent.

Definition run_left (g : Gorm) (s : @Strategy.state (run_repo g) nat unit unit) : Z :=
  @left fnv_hash g key_order QuotaCache.map_redis nat unit unit Dao.sample_dao 3 now2025 now2025 s
    (QuotaCache.redisKey 7 ChannelSMS).

(** Over tables with the column, a channel that fails leaves a unit of quota where there
    was none; over tables made from the entities, the answer is an error. *)
Lemma runs_of_urgent :
  match run Dao.marking_gorm (Dao.mkMemory ∅ ∅) broken, run Dao.mem_gorm (Dao.mkMemory ∅ ∅) broken with
  | Ret (s1, (_, None)), Ret (s2, (_, Some _)) =>
      run_left Dao.marking_gorm (SendService.env s1) = 1 /\ run_left Dao.mem_gorm (SendService.env s2) = 0
  | _, _ => False
  end.
Proof. vm_compute. by split. Qed.
(** The creation that is refused. *)
Definition refused :=
  @r_Create (run_repo Dao.marking_gorm)
    (Strategy.repo (SendService.env (run_start Dao.marking_gorm (Dao.mkMemory ∅ ∅))))
    (Notif.SetSendTime now2025
      (Notif.with_Id urgent (@Snowflake.NextId fnv_hash Snowflake.NewGenerator 7 "order-1" now2025).2)).
Definition is_refused {A B} (m : go (A * (B * option error))) : bool :=
  match m with Ret (_, (_, Some _)) => true | _ => false end.

End Immediate.
