(* ===== verification/BatchFlow.v ===== *)
(** * From a batch to the database

    [BatchSend] of the service over the default strategy, the repository, the quota
    cache and the sharded data access object (the path of the file Flow, for a
    batch): what is in the shards and in the quotas when the call is over, and what
    the answer says of it. *)
From Stdlib Require Import ZArith Lia List.
From stdpp Require Import prelude strings gmap.
From S2P Require Import Prelude GoLang Errs Externals Snowflake Sharding Domain Quota Json Dao DaoBatch NotifRepo Channels BizConf Sender Strategies SendService Flow.

Module BatchFlow.
Section flow.
Context `{XXHash} `{Gorm} `{MapRange} `{RedisKV} {W K C : Type} `{!BizConfRepo.Repository C}.

(** [dnow] and [dnow'] are the clock readings of the data access object, which tries
    each database at most [S fuel] times. *)
Variables (nd : Dao.NotifShardingDAO) (fuel : nat) (dnow dnow' : Time).

#[local] Hint Extern 0 NotificationDAO => exact (Flow.stored_dao nd (S fuel) dnow dnow') : typeclass_instances.
#[local] Hint Extern 0 NotificationRepo => exact (Flow.stored_repo nd (S fuel) dnow dnow') : typeclass_instances.

Abbreviation env := (Strategy.state W K C).
Abbreviation store := (Flow.store nd (S fuel) dnow dnow').
Abbreviation wants_callback := (Flow.wants_callback nd (S fuel) dnow dnow').

(** What is left of the quota of a business and channel. *)
Definition left (s : env) (k : string) : Z := Flow.left nd (S fuel) dnow dnow' s ("quota:" +:+ k).

Hypothesis wf : Hash.wf (Dao.notifShardingStrategy nd).
Hypothesis wf_cb : Hash.wf (Dao.cbLogShardingStrategy nd).
Hypothesis divides :
  (Hash.dbSharding (Dao.notifShardingStrategy nd) * Hash.tableSharding (Dao.notifShardingStrategy nd) | 1024).

Definition batch_insert (cb : bool) (d : Dao.state) (es : list Entity.Notification)
    : go (Dao.state * (list Entity.Notification * option error)) :=
  terminating (Dao.batchCreate nd (S fuel) dnow dnow' cb d es).

(** What a call leaves: the answer [results] and [err], and the rows. *)
Definition outcome (s s' : env) (now : Time) (n0 : Notif.Notification) (ns : list Notif.Notification)
    (results : list SendResult) (err : option error) : Prop :=
  DaoBatch.grows (Dao.db (store s)) (Dao.db (store s')) /\
  match err with
  | Some _ =>
      Dao.db (store s') = Dao.db (store s) /\ (forall k, left s' k = left s k) /\ ~ (forall k, Repo.count ns k <= left s k)
  | None =>
      (forall k, Repo.count ns k <= left s k) /\
      exists rows derr,
        Dao.batchCreate nd (S fuel) dnow dnow' (wants_callback s now n0) (store s) (Repo.toEntities ns) =
          Ret (Some (store s', (rows, derr))) /\
        results = map (fun row => mkResult (Entity.Id row) (Entity.Status row)) rows /\
        (forall k, left s' k = left s k - QuotaCache.unless derr (Repo.count ns k)) /\
        (derr = None -> length rows = length ns /\
           forall i n, ns !! i = Some n -> exists row, rows !! i = Some row /\
             DaoBatch.stored nd dnow' (wants_callback s now n0) (store s') (UnixMilli dnow) (Repo.toEntity n) row)
  end.

(** The repository over the sharded database. *)
Lemma repo_batch_outcome (st : Repo.state) cb ns :
  ns <> [] -> Z.of_nat (length ns) < 2 ^ 31 -> DaoBatch.no_duplicates -> DaoBatch.ok_gen (Dao.gen (Repo.dao st)) ->
  exists st' rs err, Repo.batch_create_with (batch_insert cb) reached reached st ns = Ret (st', (rs, err)).
Proof using wf wf_cb divides.
  intros Hne Hlen Hnd Hg. unfold Repo.batch_create_with.
  destruct (length ns =? 0)%nat; [by do 3 eexists|].
  destruct (QuotaCache.BatchDecr _ _ _) as [q [e|]]; [by do 3 eexists|].
  destruct (DaoBatch.batchCreate_returns nd dnow' cb wf divides wf_cb fuel dnow (Repo.dao st) (Repo.toEntities ns) Hnd Hg)
    as (st' & rows & derr & E).
  unfold batch_insert. rewrite E. simpl. by do 3 eexists.
Qed.

(** The creation the default strategy asks for. *)
Lemma strategy_batch (s : env) now n0 ns :
  ns !! 0%nat = Some n0 ->
  exists c, Strategy.batchCreate s now ns =
    Strategy.on_repo (Strategy.mkState (Strategy.base s) c)
      (Repo.batch_create_with (batch_insert (wants_callback s now n0)) reached reached (Strategy.repo s) ns).
Proof using Type.
  intros Hfst. unfold Strategy.batchCreate, Strategy.needCallbackLog, Flow.wants_callback.
  rewrite (slice_get_in ns 0 n0) by (done || lia). cbn [go_bind].
  destruct (BizConfRepo.conf_GetById _ _ _) as [c [bc [e|]]]; exists c; [done|]. simpl. by destruct (CallbackConf_ bc).
Qed.

(** The default strategy answers a batch, and accounts for it. *)
Lemma default_batch_outcome (s : env) now n0 ns :
  ns !! 0%nat = Some n0 -> Z.of_nat (length ns) < 2 ^ 31 -> DaoBatch.no_duplicates -> DaoBatch.ok_gen (Dao.gen (store s)) ->
  exists s' resp err, Strategy.Default_BatchSend s now ns = Ret (s', (resp, err)) /\
    outcome s s' now n0 ns (Results resp) err.
Proof using wf wf_cb divides.
  intros Hfst Hlen Hnd Hg. assert (Hne : ns <> []) by by destruct ns.
  unfold Strategy.Default_BatchSend. destruct (Nat.eqb_spec (length ns) 0) as [E0|_]; [by apply length_zero_iff_nil in E0|].
  destruct (strategy_batch s now n0 ns Hfst) as [c ->]. set (cb := wants_callback s now n0).
  destruct (repo_batch_outcome (Strategy.repo s) cb ns Hne Hlen Hnd Hg) as (r' & rs & err & E).
  unfold Strategy.on_repo. rewrite E. cbn [go_bind].
  apply Repo.batch_create_cases in E as [((e & ->) & Hd & Hq & Hn)|(-> & Hen & rows & derr & Hins & -> & Hq)]; [| |done..].
  - do 3 eexists. split; [done|]. unfold outcome.
    assert (Hdb : Dao.db (store (Strategy.with_repo (Strategy.mkState (Strategy.base s) c) r')) = Dao.db (store s))
      by exact (f_equal Dao.db Hd).
    rewrite Hdb. split_and!; [done..|exact Hq|exact Hn].
  - unfold batch_insert in Hins. apply go_bind_ret in Hins as ([[d' [rows' derr']]|] & Hb & Hret); [|done].
    injection Hret as Hd <- <-. subst d'.
    destruct (DaoBatch.batchCreate_stored nd dnow' cb wf divides _ _ _ _ _ _ _ Hg Hb) as [Hgr Hs].
    do 3 eexists. split; [done|]. split; [exact Hgr|]. split; [exact Hen|].
    exists rows', derr'. split; [exact Hb|]. split; [simpl; by rewrite map_map|]. split; [exact Hq|].
    intros ->. destruct (Hs eq_refl) as [Hl Hr]. unfold Repo.toEntities in *. rewrite length_map in Hl.
    split; [done|]. intros i n Hi. apply Hr. by rewrite list_lookup_fmap, Hi.
Qed.

(** ** Properties *)

Variables (imm : Strategy.SendStrategy env) (clock clock' : nat -> Time).

Abbreviation service := (Flow.service nd (S fuel) dnow dnow' imm).

(** C5: when redis answers and the database refuses no id as a duplicate, a batch of
    fewer than 2^31 valid notifications whose first is not an immediate one, given to
    [BatchSend], is accounted for: the call returns, and no row that was there is lost
    or changed.  An error is a quota that does not suffice, and nothing was stored or
    used.  Otherwise the answer is what the data access object made of the batch: when
    that did not fail, each result has the id of a row that [GetById] finds, in the
    shard of the notification's business key, and the quota of every notification is
    used; when it failed, the quota is given back, and the answer is a success all the
    same. *)
Theorem batch_send_accounts st n0 ns :
  ns !! 0%nat = Some n0 -> Notif.IsImmediate n0 = false -> Z.of_nat (length ns) < 2 ^ 31 ->
  (forall j n, ns !! j = Some n -> Notif.valid (clock j) n) ->
  DaoBatch.no_duplicates -> DaoBatch.ok_gen (Dao.gen (store (SendService.env st))) ->
  exists st' resp err, SendService.BatchSend service clock clock' st ns = Ret (st', (resp, err)) /\
    (forall e, err = Some e -> errors_Is e (SCode ErrFailedSendNotification) = true) /\
    outcome (SendService.env st) (SendService.env st') (clock 0%nat) n0 ns (Results resp) err.
Proof using wf wf_cb divides.
  intros Hfst Hi Hlen Hv Hnd Hg. unfold SendService.BatchSend.
  assert (Hne : (length ns =? 0)%nat = false) by by destruct ns. rewrite Hne.
  destruct (SendService.draw_ids_valid clock clock' (SendService.idGenerator st) 0 ns Hv) as (g & ids & ->).
  assert (Hst : Strategy.st_BatchSend service (SendService.env st) (clock 0%nat) ns =
                Strategy.Default_BatchSend (SendService.env st) (clock 0%nat) ns).
  { unfold Flow.service. cbn [Strategy.st_BatchSend Strategy.dispatcher]. unfold Strategy.Dispatcher_BatchSend.
    rewrite Hne, (slice_get_in ns 0 n0) by (done || lia). cbn [go_bind]. unfold Strategy.chooseStrategy.
    unfold Notif.IsImmediate in Hi. by rewrite Hi. }
  rewrite Hst.
  destruct (default_batch_outcome (SendService.env st) (clock 0%nat) n0 ns Hfst Hlen Hnd Hg) as (s' & resp & err & -> & Ho).
  cbn [go_bind]. destruct err as [e|]; do 3 eexists; (split; [done|]); (split; [|exact Ho]); [by intros ? [= <-]|done].
Qed.
End flow.

(** ** A run: two notifications, for which the quota just suffices *)

Abbreviation run_dao := (@Flow.stored_dao fnv_hash DaoBatch.plain_gorm key_order Dao.sample_dao 3 now2025 now2025).
Abbreviation run_repo :=
  (@Flow.stored_repo fnv_hash DaoBatch.plain_gorm key_order QuotaCache.map_redis Dao.sample_dao 3 now2025 now2025).

Definition run_no_immediate : Strategy.SendStrategy (@Strategy.state run_repo nat unit unit) :=
  Strategy.mkStrategy (fun s _ _ => Ret (s, (zeroSendResp, None))) (fun s _ _ => Ret (s, (mkBatchResp [], None))).

Definition batch_start : SendService.state (@Strategy.state run_repo nat unit unit) :=
  SendService.mkState Snowflake.NewGenerator
    (@Strategy.mkState run_repo nat unit unit
      (@Sender.mkState run_repo nat unit 0%nat
        (@Repo.mkState run_dao QuotaCache.map_redis
          (@Dao.mkState DaoBatch.plain_gorm (Dao.mkMemory ∅ ∅) Snowflake.NewGenerator) Repo.two_left) tt) tt).

Definition two : list Notif.Notification := [Flow.delayed; Flow.delayed].

Definition run_batch_send :=
  @SendService.BatchSend fnv_hash _ (@Flow.service fnv_hash DaoBatch.plain_gorm key_order QuotaCache.map_redis nat unit unit _
    Dao.sample_dao 3 now2025 now2025 run_no_immediate) SendService.steady SendService.steady batch_start two.

Definition run_left (s : @Strategy.state run_repo nat unit unit) : Z :=
  @left fnv_hash DaoBatch.plain_gorm key_order QuotaCache.map_redis nat unit unit Dao.sample_dao 2 now2025 now2025 s
    (Repo.paramKey 7 ChannelSMS).

Lemma run_batch_send_ok :
  match run_batch_send with
  | Ret (st', (resp, None)) => length (Results resp) = 2%nat /\ run_left (SendService.env st') = 0
  | _ => False
  end.
Proof. vm_compute. by split. Qed.

Lemma batch_send_accounts_witness :
  run_left (SendService.env batch_start) = 2 /\
  exists st' resp err, run_batch_send = Ret (st', (resp, err)) /\
    @outcome fnv_hash DaoBatch.plain_gorm key_order QuotaCache.map_redis nat unit unit _ Dao.sample_dao 2 now2025 now2025
      (SendService.env batch_start) (SendService.env st') now2025 Flow.delayed two (Results resp) err.
Proof.
  split; [by vm_compute|].
  destruct (@batch_send_accounts fnv_hash DaoBatch.plain_gorm key_order QuotaCache.map_redis nat unit unit _ Dao.sample_dao
    2 now2025 now2025 (proj1 Flow.strategy_wf) (proj2 Flow.strategy_wf) ltac:(exists 128; reflexivity)
    run_no_immediate SendService.steady SendService.steady batch_start Flow.delayed two eq_refl eq_refl)
    as (st' & resp & err & E & _ & Ho).
  - reflexivity.
  - intros j n Hj. assert (Hn : n = Flow.delayed) by (destruct j as [|[|j]]; [by injection Hj..|by destruct j]).
    rewrite Hn. exact Flow.delayed_valid.
  - exact DaoBatch.plain_no_duplicates.
  - exact Flow.flow_start_seq.
  - exists st', resp, err. split; [exact E|exact Ho].
Defined.
End BatchFlow.
