(* ===== verification/Scheduler.v ===== *)
(** * The scheduler: internal/service/schedule/sharding/sharding_scheduler.go

    [loop] is the business function the sharded loop job (file Job) runs while it
    holds a table: it fetches a batch of notifications that are ready, sends it,
    records whether that failed in the bit ring, and lets the adjuster choose the
    size of the next batch.  It uses the bit ring of the file BitRing and any
    adjuster with the interface of the file Batch.  The scheduler's state belongs to
    one loop here; a process runs one loop for each table it has locked, over one ring,
    one adjuster and one batch size: their interleavings are in the file SharedLoops.

    Time enters as ticks: the clock readings of one round.  Deadlines of contexts
    and the waiting between rounds have no effect on the state and are left out. *)
From Stdlib Require Import ZArith Lia List SpecFloat.
From stdpp Require Import prelude strings gmap.
From S2P Require Import Prelude GoLang GoFloat Errs Externals RingBuffer BitRing Batch Snowflake Sharding Domain Quota Json Dao NotifRepo Channels Sender.

(** [start], the reading [time.Since] makes, and those of the adjuster. *)
Record tick := mkTick { t_start : Time; t_end : Time; t_adj1 : Time; t_adj2 : Time }.

Module Scheduler.
Section scheduler.
Context `{NotificationRepo} {W K A : Type} `{!Batch.Adjuster A}.
Variable notifSender : Sender_ (Sender.state W K).

Record NotifShardingScheduler := mkScheduler {
  env : Sender.state W K; batchSize : Z; batchAdjuster : A; errEvents : BitRing.BitRing }.

Definition NewNotifShardingScheduler (env : Sender.state W K) (batchSize : Z) (batchAdjuster : A)
    (errEvents : BitRing.BitRing) : NotifShardingScheduler :=
  mkScheduler env batchSize batchAdjuster errEvents.

(** The batch size goes through [int]. *)
Definition batchSend (ss : NotifShardingScheduler) : go (Sender.state W K * (Z * option error)) :=
  let! '(notifications, err) := r_FindReady (Sender.repo (env ss)) 0 (i64 (batchSize ss)) in
  match err with
  | Some err => Ret (env ss, (0, Some err))
  | None =>
      if (length notifications =? 0)%nat then Ret (env ss, (0, None))
      else
        let! '(e, (_, err)) := s_BatchSend notifSender (env ss) notifications in
        Ret (e, (Z.of_nat (length notifications), err))
  end.

(** One round: the state after it, and the error that ends the loop. *)
Definition round (t : tick) (ss : NotifShardingScheduler) : go (NotifShardingScheduler * option error) :=
  let! '(e, (_, sendErr)) := batchSend ss in
  let respTime := Sub (t_end t) (t_start t) in
  let! ring := BitRing.Add (errEvents ss) (match sendErr with Some _ => true | None => false end) in
  let! exceeded := BitRing.ThresholdTriggering ring in
  if exceeded
  then Ret (mkScheduler e (batchSize ss) (batchAdjuster ss) ring, Some (ECode ErrEventThresholdExceeded))
  else
    let! '(a, (newBatchSize, adjustErr)) := Batch.Adjust (batchAdjuster ss) respTime (t_adj1 t) (t_adj2 t) in
    let size := match adjustErr with Some _ => batchSize ss | None => newBatchSize end in
    Ret (mkScheduler e size a ring, None).

(** The rounds at the given ticks; no error means that the loop still runs. *)
Fixpoint loop (ts : list tick) (ss : NotifShardingScheduler) : go (NotifShardingScheduler * option error) :=
  match ts with
  | [] => Ret (ss, None)
  | t :: ts =>
      let! '(ss, err) := round t ss in
      match err with Some err => Ret (ss, Some err) | None => loop ts ss end
  end.

(** ** What ends the loop *)

(** Whether each round failed, until the loop ends. *)
Fixpoint failures (ts : list tick) (ss : NotifShardingScheduler) : list bool :=
  match ts with
  | [] => []
  | t :: ts =>
      match batchSend ss, round t ss with
      | Ret (_, (_, sendErr)), Ret (ss', err) =>
          (match sendErr with Some _ => true | None => false end) ::
          match err with Some _ => [] | None => failures ts ss' end
      | _, _ => []
      end
  end.

(** A round acts on the world through its batch only. *)
Lemma round_env t ss e cnt sendErr ss' err :
  batchSend ss = Ret (e, (cnt, sendErr)) -> round t ss = Ret (ss', err) -> env ss' = e.
Proof using Type.
  intros Hb. unfold round. rewrite Hb. simpl.
  destruct (BitRing.Add _ _) as [ring|]; simpl; [|done].
  destruct (BitRing.ThresholdTriggering ring) as [[|]|]; simpl; [by intros [= <- _]| |done].
  destruct (Batch.Adjust _ _ _ _) as [[a [n ?]]|]; simpl; [by intros [= <- _]|done].
Qed.

Section spec.
Context {ok : A -> Prop} `{!BoundedAdjuster A ok}.

Definition triggers (br : BitRing.BitRing) (h : list bool) : bool :=
  BitRing.triggering_spec (BitRing.windowSize br) (BitRing.consecutiveThreshold br) (BitRing.eventRateThreshold br) h.

(** One round on a ring that records the history [h]. *)
Lemma round_spec t ss h ss' err :
  BitRing.repr (errEvents ss) h -> ok (batchAdjuster ss) -> round t ss = Ret (ss', err) ->
  exists e cnt sendErr, batchSend ss = Ret (e, (cnt, sendErr)) /\
    let h' := h ++ [match sendErr with Some _ => true | None => false end] in
    BitRing.repr (errEvents ss') h' /\ ok (batchAdjuster ss') /\
    (forall l, triggers (errEvents ss') l = triggers (errEvents ss) l) /\
    boundsOf (batchAdjuster ss') = boundsOf (batchAdjuster ss) /\
    if triggers (errEvents ss) h'
    then err = Some (ECode ErrEventThresholdExceeded) /\ batchSize ss' = batchSize ss
    else err = None /\ (boundsOf (batchAdjuster ss)).1 <= batchSize ss' <= (boundsOf (batchAdjuster ss)).2.
Proof using All.
  intros Hr Ha. unfold round.
  destruct (batchSend ss) as [[e [cnt sendErr]]|] eqn:Eb; simpl; [|done].
  set (ev := match sendErr with Some _ => true | None => false end).
  destruct (BitRing.Add_repr _ _ Hr ev) as (br & -> & Hbr & Hs & Hc & Ht). simpl.
  rewrite (BitRing.ThresholdTriggering_repr _ _ Hbr). simpl. rewrite Hs, Hc, Ht.
  fold (triggers (errEvents ss) (h ++ [ev])).
  assert (Hl : forall l, triggers br l = triggers (errEvents ss) l) by (intros l; unfold triggers; by rewrite Hs, Hc, Ht).
  intros Hres. exists e, cnt, sendErr. split; [done|]. fold ev. simpl.
  destruct (triggers (errEvents ss) (h ++ [ev])) eqn:Et.
  - injection Hres as <- <-. simpl. by split_and!.
  - destruct (adjust_bounded (batchAdjuster ss) (Sub (t_end t) (t_start t)) (t_adj1 t) (t_adj2 t) Ha)
      as (a & E & Ha' & Hb & Hb1 & Hb2).
    rewrite E in Hres. simpl in Hres. injection Hres as <- <-. simpl. by split_and!.
Qed.

(** The history of failed rounds and what the loop makes of it. *)
Lemma loop_spec ts ss h ss' err :
  BitRing.repr (errEvents ss) h -> ok (batchAdjuster ss) -> loop ts ss = Ret (ss', err) ->
  let es := failures ts ss in
  (forall k, (0 < k < length es)%nat -> triggers (errEvents ss) (h ++ take k es) = false) /\
  match err with
  | Some e => e = ECode ErrEventThresholdExceeded /\ triggers (errEvents ss) (h ++ es) = true
  | None => length es = length ts /\ (ts <> [] -> triggers (errEvents ss) (h ++ es) = false)
  end /\
  (batchSize ss' = batchSize ss \/
   (boundsOf (batchAdjuster ss)).1 <= batchSize ss' <= (boundsOf (batchAdjuster ss)).2).
Proof using All.
  revert ss h; induction ts as [|t ts IH]; intros ss h Hr Ha; cbn [loop failures].
  { intros [= <- <-]. simpl. split; [intros; lia|]. by split_and!; auto. }
  destruct (round t ss) as [[ss1 e1]|] eqn:E; simpl; [|done].
  destruct (round_spec _ _ _ _ _ Hr Ha E) as (e & cnt & sendErr & -> & Hr1 & Ha1 & Hl & Hb & Hcase).
  set (ev := match sendErr with Some _ => true | None => false end) in *.
  destruct (triggers (errEvents ss) (h ++ [ev])) eqn:Et; destruct Hcase as [-> Hsz].
  - intros [= <- <-]. simpl. split; [intros; lia|]. split; [done|by left].
  - intros Hloop. destruct (IH _ _ Hr1 Ha1 Hloop) as (Hpre & Hend & Hsize).
    assert (Htr : forall l, triggers (errEvents ss1) ((h ++ [ev]) ++ l) = triggers (errEvents ss) (h ++ ev :: l)).
    { intros l. by rewrite Hl, <- app_assoc. }
    split; [|split].
    + intros [|[|k]] Hk; simpl in Hk; [lia|by rewrite firstn_cons, take_0|].
      rewrite firstn_cons, <- Htr. apply Hpre. lia.
    + destruct err as [e'|]; rewrite Htr in Hend; [done|]. destruct Hend as [Hlen Hnt].
      split; [simpl; by rewrite Hlen|]. intros _. destruct ts; [by simpl in *|by apply Hnt].
    + right. rewrite Hb in Hsize. destruct Hsize as [->|Hs]; [exact Hsz|exact Hs].
Qed.
(** C18: the loop of one table, alone on its scheduler (for the loops of several tables,
    which share it, see the file SharedLoops), ends with [ErrEventThresholdExceeded], at the first round after
    which the history of failed rounds meets the threshold of the bit ring, and
    with nothing else; every batch size it moves to is within the bounds of the
    adjuster. *)
Theorem loop_ends_at_threshold ts ss h ss' err :
  BitRing.repr (errEvents ss) h -> ok (batchAdjuster ss) -> loop ts ss = Ret (ss', err) ->
  let es := failures ts ss in
  (forall k, (0 < k < length es)%nat -> triggers (errEvents ss) (h ++ take k es) = false) /\
  match err with
  | Some e => e = ECode ErrEventThresholdExceeded /\ triggers (errEvents ss) (h ++ es) = true
  | None => length es = length ts /\ (ts <> [] -> triggers (errEvents ss) (h ++ es) = false)
  end /\
  (batchSize ss' = batchSize ss \/
   (boundsOf (batchAdjuster ss)).1 <= batchSize ss' <= (boundsOf (batchAdjuster ss)).2).
Proof using All. apply loop_spec. Qed.
End spec.
End scheduler.
Arguments mkScheduler {_ W K A}.
Arguments NotifShardingScheduler {_} W K A.

(** Over the sharded data access object, whose [FindReady] is not implemented,
    the first round of every scheduler panics. *)
Theorem sharded_scheduler_panics `{XXHash} `{Gorm} `{MapRange} `{RedisKV} {W K A} `{!Batch.Adjuster A}
    nd fuel now now' sender t ts (ss : @NotifShardingScheduler
      (@Repo.default_repo (Repo.sharded nd fuel now now') _ _) W K A) :
  is_panic (loop sender (t :: ts) ss) = true.
Proof. done. Qed.

(** ** A run *)

(** A store that always has one notification ready. *)
#[local] Instance busy_repo : NotificationRepo := {|
  rstate := unit;
  r_Create s n := Ret (s, (n, None));
  r_CreateWithCallback s n := Ret (s, (n, None));
  r_BatchCreate s ns := Ret (s, (ns, None));
  r_BatchCreateWithCallback s ns := Ret (s, (ns, None));
  r_BatchUpdateStatus s _ _ := Ret (s, None);
  r_MarkSuccess s _ := Ret (s, None);
  r_MarkFailure s _ := Ret (s, None);
  r_GetMapByIds _ _ := Ret (∅, None);
  r_GetByKey _ _ _ := Ret (Notif.zero, None);
  r_CompareAndSwapStatus s _ := Ret (s, None);
  r_FindReady _ _ _ := Ret ([sample SendConf.zero], None) |}.

(** A sender whose batches fail from the third on. *)
Definition tiring : Sender_ (Sender.state nat unit) :=
  mkSender (fun s _ => Ret (s, (zeroSendResp, None)))
    (fun s _ => Ret (Sender.mkState (S (Sender.chan s)) (Sender.repo s) (Sender.cb s),
                     (mkBatchResp [], if (Sender.chan s <? 2)%nat then None else Some (ENew "down")))).

Definition tick0 : tick := mkTick now2025 (Add now2025 Second) now2025 now2025.

Definition scheduler0 : NotifShardingScheduler nat unit Fixed.Adjuster :=
  NewNotifShardingScheduler (Sender.mkState 0%nat tt tt) 10
    (Fixed.NewAdjuster 10 4 20 5 0 100 200) (BitRing.NewBitRing 8 2 (float64 1)).

Lemma loop_ends_at_threshold_witness :
  match loop tiring (replicate 9 tick0) scheduler0 with
  | Ret (ss, err) => err = Some (ECode ErrEventThresholdExceeded) /\ failures tiring (replicate 9 tick0) scheduler0 = [false; false; true; true]
      /\ (batchSize ss = 10 \/ 4 <= batchSize ss <= 20)
  | Panic _ => False
  end.
Proof.
  destruct (loop tiring (replicate 9 tick0) scheduler0) as [[ss err]|msg] eqn:E.
  - assert (Herr : err = Some (ECode ErrEventThresholdExceeded)) by (apply (answer_ret _ _ _ _ E); vm_compute; reflexivity).
    split; [exact Herr|]. split; [vm_compute; reflexivity|].
    destruct (loop_ends_at_threshold (ok := Fixed.ok) tiring (replicate 9 tick0) scheduler0 [] ss err)
      as (_ & _ & Hs); [| |exact E|exact Hs].
    + apply (BitRing.New_repr 8 2 (float64 1)). lia.
    + apply Fixed.fixed_New_ok. split_and!; vm_compute; congruence.
  - assert (Hp : is_panic (loop tiring (replicate 9 tick0) scheduler0) = false) by (vm_compute; reflexivity).
    rewrite E in Hp. discriminate Hp.
Defined.
End Scheduler.
