(* ===== verification/SharedLoops.v ===== *)
(** * The scheduler's loops, one for each table

    internal/service/schedule/sharding/sharding_scheduler.go makes one scheduler, and its
    job runs the method [loop] in a goroutine for every table the process has locked
    (file Job): all of them share the scheduler's [errEvents], [batchAdjuster] and
    [batchSize], each of which has a lock of its own or is atomic.  Here each call on
    one of the three is a step, and the loops interleave in any order.

    A round of [Scheduler.loop] is the run of one table without the others
    ([round_alone]).  What a batch finds and sends is not part of the state: it may end
    with or without an error, at any time. *)
From Stdlib Require Import ZArith Lia List SpecFloat.
From stdpp Require Import prelude strings gmap relations.
From S2P Require Import Prelude GoLang GoFloat Errs Externals RingBuffer BitRing Batch Domain NotifRepo Channels Sender Scheduler.

Module Shared.
Section shared.
Context {A : Type} `{!Batch.Adjuster A}.

(** Where a loop is: before its batch; before it records whether the batch, of the
    given limit, failed; before it tests the threshold; before it calls the adjuster;
    before it stores the new size; and ended by the threshold. *)
Inductive loop_at :=
  | AtBatch
  | AtAdd (limit : Z) (failed : bool)
  | AtTest
  | AtAdjust
  | AtStore (size : Z)
  | AtEnd.

(** The shared part of the scheduler, the loops by table, and the outcomes of rounds in
    the order in which they were recorded, with their tables. *)
Record state := mkState {
  batchSize : Z; batchAdjuster : A; errEvents : BitRing.BitRing;
  loops : gmap nat loop_at; history : list (nat * bool) }.

Inductive step (i : nat) : state -> state -> Prop :=
  | step_start n a r ls h :
      ls !! i = None -> step i (mkState n a r ls h) (mkState n a r (<[i := AtBatch]> ls) h)
  | step_batch n a r ls h failed :
      ls !! i = Some AtBatch ->
      step i (mkState n a r ls h) (mkState n a r (<[i := AtAdd (i64 n) failed]> ls) h)
  | step_add n a r ls h limit failed r' :
      ls !! i = Some (AtAdd limit failed) -> BitRing.Add r failed = Ret r' ->
      step i (mkState n a r ls h) (mkState n a r' (<[i := AtTest]> ls) (h ++ [(i, failed)]))
  | step_test n a r ls h exceeded :
      ls !! i = Some AtTest -> BitRing.ThresholdTriggering r = Ret exceeded ->
      step i (mkState n a r ls h) (mkState n a r (<[i := if exceeded then AtEnd else AtAdjust]> ls) h)
  | step_adjust n a r ls h respTime now1 now2 a' size err :
      ls !! i = Some AtAdjust -> Batch.Adjust a respTime now1 now2 = Ret (a', (size, err)) ->
      step i (mkState n a r ls h)
        (mkState n a' r (<[i := match err with Some _ => AtBatch | None => AtStore size end]> ls) h)
  | step_store n a r ls h size :
      ls !! i = Some (AtStore size) -> step i (mkState n a r ls h) (mkState size a r (<[i := AtBatch]> ls) h)
  (** The job refreshes the table's lock and calls the loop again, or gives it up. *)
  | step_again n a r ls h :
      ls !! i = Some AtEnd -> step i (mkState n a r ls h) (mkState n a r (<[i := AtBatch]> ls) h)
  | step_leave n a r ls h :
      ls !! i = Some AtEnd -> step i (mkState n a r ls h) (mkState n a r (delete i ls) h).

(** What a scheduler with the given parts reaches. *)
Definition reachable (n : Z) (a : A) (r : BitRing.BitRing) : state -> Prop :=
  rtc (fun s s' => exists i, step i s s') (mkState n a r ∅ []).

Lemma shared_ind (P : state -> Prop) n a r :
  P (mkState n a r ∅ []) -> (forall i s s', P s -> step i s s' -> P s') -> forall s, reachable n a r s -> P s.
Proof using Type.
  intros Hi Hs s Hr. unfold reachable in Hr. revert Hi. induction Hr as [s|s1 s2 s3 [p Hp] _ IH]; [done|].
  intros H1'. apply IH. by eapply Hs.
Qed.

(** The outcomes the ring has seen. *)
Definition outcomes (s : state) : list bool := map snd (history s).

Section spec.
Context {ok : A -> Prop} `{!BoundedAdjuster A ok}.
Variables (n0 : Z) (a0 : A) (r0 : BitRing.BitRing).

(** A size the scheduler may use: the first one, or one within the bounds. *)
Definition allowed (n : Z) : Prop := n = n0 \/ (boundsOf a0).1 <= n <= (boundsOf a0).2.

Definition triggers (h : list bool) : bool :=
  BitRing.triggering_spec (BitRing.windowSize r0) (BitRing.consecutiveThreshold r0) (BitRing.eventRateThreshold r0) h.

Definition at_ok (q : loop_at) : Prop :=
  match q with
  | AtAdd limit _ => exists n, allowed n /\ limit = i64 n
  | AtStore n => (boundsOf a0).1 <= n <= (boundsOf a0).2
  | _ => True
  end.

Record inv (s : state) : Prop := {
  inv_ring : BitRing.repr (errEvents s) (outcomes s);
  inv_same : BitRing.windowSize (errEvents s) = BitRing.windowSize r0 /\
             BitRing.consecutiveThreshold (errEvents s) = BitRing.consecutiveThreshold r0 /\
             BitRing.eventRateThreshold (errEvents s) = BitRing.eventRateThreshold r0;
  inv_adj : ok (batchAdjuster s) /\ boundsOf (batchAdjuster s) = boundsOf a0;
  inv_size : allowed (batchSize s);
  inv_at : map_Forall (fun _ q => at_ok q) (loops s) }.

Lemma inv_start : BitRing.repr r0 [] -> ok a0 -> inv (mkState n0 a0 r0 ∅ []).
Proof using Type. intros Hr Ha. by constructor; [exact Hr|split_and!|split|left|apply map_Forall_empty]. Qed.

Lemma shared_step_inv i s s' : step i s s' -> inv s -> inv s'.
Proof using All.
  intros Hs [Hr Hsame Ha Hn Hat]. destruct Hs; simpl in *;
    try (constructor; simpl; [exact Hr|exact Hsame|exact Ha|exact Hn|by apply map_Forall_insert_2]).
  - constructor; simpl; [exact Hr|exact Hsame|exact Ha|exact Hn|]. apply map_Forall_insert_2; [|exact Hat]. by exists n.
  - match goal with E : BitRing.Add _ _ = _ |- _ => rename E into Hadd end.
    destruct (BitRing.Add_repr r _ Hr failed) as (r1 & E & Hr1 & Hs1 & Hc1 & Ht1). rewrite Hadd in E. injection E as <-.
    constructor; simpl; [|by rewrite Hs1, Hc1, Ht1|exact Ha|exact Hn|by apply map_Forall_insert_2].
    unfold outcomes. simpl. by rewrite map_app.
  - constructor; simpl; [exact Hr|exact Hsame|exact Ha|exact Hn|]. apply map_Forall_insert_2; [|exact Hat]. by destruct exceeded.
  - match goal with E : Batch.Adjust _ _ _ _ = _ |- _ => rename E into Hadj end. destruct Ha as [Ha Hb].
    destruct (adjust_bounded a respTime now1 now2 Ha) as (a1 & E & Ha1 & Hb1 & Hlo & Hhi). rewrite Hadj in E.
    injection E as <- -> ->. rewrite Hb in *. constructor; simpl; [exact Hr|exact Hsame|by split|exact Hn|].
    apply map_Forall_insert_2; [|exact Hat]. by split.
  - constructor; simpl; [exact Hr|exact Hsame|exact Ha| |by apply map_Forall_insert_2].
    right. match goal with E : ls !! i = Some _ |- _ => exact (map_Forall_lookup_1 _ _ _ _ Hat E) end.
  - constructor; simpl; [exact Hr|exact Hsame|exact Ha|exact Hn|by apply map_Forall_delete].
Qed.

Lemma shared_inv s : BitRing.repr r0 [] -> ok a0 -> reachable n0 a0 r0 s -> inv s.
Proof using All. intros Hr Ha. revert s. apply shared_ind; [by apply inv_start|]. intros i s s' Hi Hs. by eapply shared_step_inv. Qed.

(** What every interleaving of the loops does. *)
Lemma loops_common s :
  BitRing.repr r0 [] -> ok a0 -> reachable n0 a0 r0 s ->
  allowed (batchSize s) /\
  (forall i limit failed, loops s !! i = Some (AtAdd limit failed) -> exists n, allowed n /\ limit = i64 n) /\
  (forall i s', loops s !! i = Some AtTest -> step i s s' ->
     loops s' !! i = Some (if triggers (outcomes s) then AtEnd else AtAdjust)) /\
  (forall i, exists s', step i s s').
Proof using All.
  intros Hr Ha Hs. destruct (shared_inv s Hr Ha Hs) as [Hring (Hw & Hc & He) [Hok Hb] Hn Hat].
  assert (Ht : BitRing.ThresholdTriggering (errEvents s) = Ret (triggers (outcomes s))).
  { rewrite (BitRing.ThresholdTriggering_repr _ _ Hring). unfold triggers. by rewrite Hw, Hc, He. }
  split; [done|]. split; [|split].
  - intros i limit failed E. exact (map_Forall_lookup_1 _ _ _ _ Hat E).
  - intros i s' E Hst. destruct Hst; simpl in *; try congruence. rewrite lookup_insert_eq.
    match goal with E1 : BitRing.ThresholdTriggering r = Ret exceeded |- _ => rewrite Ht in E1; by injection E1 as -> end.
  - intros i. destruct s as [n a r ls h]. simpl in *. destruct (ls !! i) as [q|] eqn:E; [|eexists; by apply step_start].
    destruct q.
    + eexists. by apply (step_batch i n a r ls h false).
    + destruct (BitRing.Add_repr r _ Hring failed) as (r1 & Hadd & _). eexists. by eapply step_add.
    + eexists. by eapply step_test.
    + destruct (adjust_bounded a 0 zeroTime zeroTime Hok) as (a1 & Hadj & _). eexists. by eapply step_adjust.
    + eexists. by eapply step_store.
    + eexists. by apply step_again.
Qed.

(** ** Properties *)

(** The loops of all tables a process works on share one ring, one adjuster and one
    batch size.  In every interleaving of their calls no call panics or waits for
    another loop; a loop that tests the threshold goes on or ends by the outcomes of the
    rounds of all tables, in the order in which they were recorded, so that failures of
    one table end the loops of the others; and every batch is asked for with the first
    size, which nothing clamps, or with one within the adjuster's bounds. *)
Theorem loops_share_threshold s :
  BitRing.repr r0 [] -> ok a0 -> reachable n0 a0 r0 s ->
  allowed (batchSize s) /\
  (forall i limit failed, loops s !! i = Some (AtAdd limit failed) -> exists n, allowed n /\ limit = i64 n) /\
  (forall i s', loops s !! i = Some AtTest -> step i s s' ->
     loops s' !! i = Some (if triggers (outcomes s) then AtEnd else AtAdjust)) /\
  (forall i, exists s', step i s s').
Proof using All. apply loops_common. Qed.
End spec.
End shared.
Arguments mkState {A}.
Arguments state A : clear implicits.

(** A round of one table without the others. *)
Lemma round_alone `{NotificationRepo} {W K A : Type} `{!Batch.Adjuster A} (sender : Sender_ (Sender.state W K)) t
    (ss ss' : Scheduler.NotifShardingScheduler W K A) err h i :
  Scheduler.round sender t ss = Ret (ss', err) ->
  exists h', rtc (fun s s' => exists j, step j s s')
    (mkState (Scheduler.batchSize ss) (Scheduler.batchAdjuster ss) (Scheduler.errEvents ss) {[ i := AtBatch ]} h)
    (mkState (Scheduler.batchSize ss') (Scheduler.batchAdjuster ss') (Scheduler.errEvents ss')
       {[ i := match err with Some _ => AtEnd | None => AtBatch end ]} h').
Proof.
  destruct ss as [e n a r]. unfold Scheduler.round. simpl.
  destruct (Scheduler.batchSend sender _) as [[e1 [cnt sendErr]]|]; simpl; [|done].
  set (failed := match sendErr with Some _ => true | None => false end).
  destruct (BitRing.Add r failed) as [r1|] eqn:Eadd; simpl; [|done].
  destruct (BitRing.ThresholdTriggering r1) as [exceeded|] eqn:Et; simpl; [|done]. intros E.
  pose proof (step_batch i n a r {[ i := AtBatch ]} h failed (lookup_singleton_eq _ _)) as S1.
  rewrite insert_singleton_eq in S1.
  pose proof (step_add i n a r {[ i := AtAdd (i64 n) failed ]} h (i64 n) failed r1 (lookup_singleton_eq _ _) Eadd) as S2.
  rewrite insert_singleton_eq in S2.
  pose proof (step_test i n a r1 {[ i := AtTest ]} (h ++ [(i, failed)]) exceeded (lookup_singleton_eq _ _) Et) as S3.
  rewrite insert_singleton_eq in S3. exists (h ++ [(i, failed)]).
  do 2 (eapply rtc_l; [by exists i; eassumption|]). eapply rtc_l; [exists i; exact S3|]. clear S1 S2 S3.
  destruct exceeded; [injection E as <- <-; reflexivity|].
  destruct (Batch.Adjust a _ _ _) as [[a1 [size aerr]]|] eqn:Ea; simpl in E; [|done]. injection E as <- <-. simpl.
  pose proof (step_adjust i n a r1 {[ i := AtAdjust ]} (h ++ [(i, failed)]) _ _ _ a1 size aerr (lookup_singleton_eq _ _) Ea) as S4.
  rewrite insert_singleton_eq in S4. destruct aerr as [ae|]; [apply rtc_once; by exists i|].
  eapply rtc_l; [exists i; exact S4|]. apply rtc_once. exists i.
  pose proof (step_store i n a1 r1 {[ i := AtStore size ]} (h ++ [(i, failed)]) size (lookup_singleton_eq _ _)) as S5.
  by rewrite insert_singleton_eq in S5.
Qed.

(** ** A run: two tables, of which only one has failures *)

Definition run_adjuster : Fixed.Adjuster := Fixed.NewAdjuster 10 4 20 5 0 100 200.
Definition run_ring : BitRing.BitRing := BitRing.NewBitRing 8 2 (float64 1).

Abbreviation run_state := (state Fixed.Adjuster).

(** The ring after the outcomes. *)
Definition ring_after (es : list bool) : BitRing.BitRing :=
  match BitRing.add_all run_ring es with Ret r => r | _ => run_ring end.

(** Table 0 has had one round, without a failure, and table 1 two rounds that failed. *)
Definition neighbours (q : loop_at) : run_state :=
  mkState 10 run_adjuster (ring_after [false; true; true]) (<[0%nat := q]> {[ 0%nat := AtTest; 1%nat := AtTest ]})
    [(0%nat, false); (1%nat, true); (1%nat, true)].

Lemma reach_neighbours : reachable 10 run_adjuster run_ring (neighbours AtTest).
Proof.
  unfold reachable.
  eapply rtc_l; [exists 0%nat; by apply step_start|].
  eapply rtc_l; [exists 1%nat; by apply step_start|].
  eapply rtc_l; [exists 0%nat; by apply step_batch with (failed := false)|].
  eapply rtc_l; [exists 1%nat; by apply step_batch with (failed := true)|].
  eapply rtc_l; [exists 0%nat; eapply step_add; [reflexivity|vm_compute; reflexivity]|].
  eapply rtc_l; [exists 1%nat; eapply step_add; [reflexivity|vm_compute; reflexivity]|].
  eapply rtc_l; [exists 1%nat; eapply (step_test 1 _ _ _ _ _ false); [reflexivity|vm_compute; reflexivity]|].
  eapply rtc_l; [exists 1%nat; eapply (step_adjust 1 _ _ _ _ _ 150 zeroTime zeroTime); [reflexivity|vm_compute; reflexivity]|].
  eapply rtc_l; [exists 1%nat; by eapply step_store|].
  eapply rtc_l; [exists 1%nat; by apply step_batch with (failed := true)|].
  match goal with |- rtc _ ?s _ => assert (Hs : exists x, step 1 s x /\ x = neighbours AtTest) end.
  { eexists. split; [eapply step_add; [reflexivity|vm_compute; reflexivity]|]. vm_compute. reflexivity. }
  destruct Hs as (x & Hs & <-). apply rtc_once. by exists 1%nat.
Qed.

Lemma neighbours_test : step 0 (neighbours AtTest) (neighbours AtEnd).
Proof.
  replace (neighbours AtEnd) with (mkState 10 run_adjuster (ring_after [false; true; true])
    (<[0%nat := AtEnd]> (loops (neighbours AtTest))) (history (neighbours AtTest))) by (vm_compute; reflexivity).
  apply (step_test 0 10 run_adjuster (ring_after [false; true; true]) _ _ true); [reflexivity|vm_compute; reflexivity].
Qed.

Lemma run_ring_repr : BitRing.repr run_ring [].
Proof. apply (BitRing.New_repr 8 2 (float64 1)). lia. Qed.

Lemma run_adjuster_ok : Fixed.ok run_adjuster.
Proof. apply Fixed.fixed_New_ok. split_and!; vm_compute; congruence. Qed.

(** The loop of table 0 is ended by the failures of table 1. *)
Lemma loops_share_threshold_witness :
  loops (neighbours AtEnd) !! 0%nat = Some AtEnd /\ forall b, (0%nat, b) ∈ history (neighbours AtEnd) -> b = false.
Proof.
  destruct (loops_share_threshold (ok := Fixed.ok) 10 run_adjuster run_ring (neighbours AtTest)) as (_ & _ & Ht & _).
  - exact run_ring_repr.
  - exact run_adjuster_ok.
  - exact reach_neighbours.
  - split.
    + rewrite (Ht 0%nat (neighbours AtEnd) eq_refl neighbours_test). vm_compute. reflexivity.
    + intros b Hb. change (history (neighbours AtEnd)) with [(0%nat, false); (1%nat, true); (1%nat, true)] in Hb.
      set_solver.
Defined.
End Shared.
