(* ===== verification/Idempotent.v ===== *)
(** * Idempotency: internal/pkg/idempotent/redis/redis_idempotent.go

    A key exists once it has been asked for: [Exists] sets a marker with SETNX and
    reports whether it was there.  redis is a class: its SETNX on a state [marks],
    which says which keys are marked at a time.  What the network makes of a command is
    an argument of each call, as in the file Quota: it may run several times without a
    reply before its last attempt, and that attempt may be answered or not. *)
From Stdlib Require Import ZArith Lia List Sorted.
From stdpp Require Import prelude strings gmap.
From S2P Require Import Prelude GoLang Errs Domain Quota.

Class RedisNX := {
  marks : Type;
  marked : marks -> Time -> string -> bool;
  (** [SETNX key 1 EX expires]: the state after it, and whether the key was set. *)
  SETNX : marks -> Time -> string -> Duration -> marks * bool;
  SETNX_law s now k d s' b : SETNX s now k d = (s', b) ->
    b = negb (marked s now k) /\
    (forall k', k' <> k -> forall t, marked s' t k' = marked s t k') /\
    (marked s now k = true -> forall t, marked s' t k = marked s t k) /\
    (marked s now k = false -> 0 < d -> forall t, Before t now = false -> marked s' t k = Before t (Add now d)) }.

Module Idempotent.
Section idempotent.
Context `{RedisNX}.
Variable expires : Duration.

Definition redisKey (bizKey : string) : string := "idempotent:" +:+ bizKey.

(** The call of the client, for the state after it and the reply or the error. *)
Definition SetNX (w : net) (s : marks) (now : Time) (key : string) : marks * (bool + error) :=
  on_net w (fun s => SETNX s now key expires) s.

Definition Exists (w : net) (s : marks) (now : Time) (key : string) : marks * (bool * option error) :=
  match SetNX w s now (redisKey key) with
  | (s, inr err) => (s, (false, Some err))
  | (s, inl res) => (s, (negb res, None))
  end.

(** The commands of the pipeline, one after the other, with their results; [ws i] is
    what happens to the one at place [i]. *)
Fixpoint exec (ws : nat -> net) (i : nat) (s : marks) (now : Time) (keys : list string)
    : marks * list (bool + error) :=
  match keys with
  | [] => (s, [])
  | key :: keys =>
      let '(s, r) := SetNX (ws i) s now (redisKey key) in
      let '(s, rs) := exec ws (S i) s now keys in
      (s, r :: rs)
  end.

(** The results, in the order of the keys, into the map; [res[keys[i]]] is
    assigned again for a key that is listed again. *)
Fixpoint collect (keys : list string) (commands : list (bool + error)) (res : gmap string bool)
    : gmap string bool * option error :=
  match keys, commands with
  | key :: keys, cmd :: commands =>
      match cmd with
      | inr err => (∅, Some err)
      | inl cmdRes => collect keys commands (<[key := negb cmdRes]> res)
      end
  | _, _ => (res, None)
  end.

(** [pipeline.Exec] returns the first error of a command, or one of its own, [er]. *)
Definition first_error (er : option error) (rs : list (bool + error)) : option error :=
  match er with
  | Some e => Some e
  | None => head (omap (fun r => match r with inr e => Some e | inl _ => None end) rs)
  end.

Definition MultiExists (er : option error) (ws : nat -> net) (s : marks) (now : Time) (keys : list string)
    : marks * (gmap string bool * option error) :=
  let '(s, commands) := exec ws 0 s now keys in
  match first_error er commands with
  | Some er => (s, (∅, Some er))
  | None => (s, collect keys commands ∅)
  end.

(** ** Properties *)

Lemma idem_redisKey_inj k k' : redisKey k = redisKey k' -> k = k'.
Proof using Type. apply (inj (String.append "idempotent:")). Qed.

Definition seen (s : marks) (t : Time) (key : string) : bool := marked s t (redisKey key).

(** A command that is answered in its first attempt. *)
Lemma SetNX_seen s now key s' r :
  0 < expires -> Before now (Add now expires) = true ->
  SetNX reached s now (redisKey key) = (s', r) ->
  r = inl (negb (seen s now key)) /\ seen s' now key = true /\
  forall key', key' <> key -> seen s' now key' = seen s now key'.
Proof using Type.
  intros Hpos He. unfold SetNX, on_net. simpl.
  destruct (SETNX s now (redisKey key) expires) as [s1 b] eqn:E. intros [= <- <-].
  destruct (SETNX_law _ _ _ _ _ _ E) as (-> & Ho & Ht & Hf). split; [done|]. unfold seen. split.
  - destruct (marked s now (redisKey key)) eqn:Em; [by rewrite Ht|]. rewrite Hf; [done..|].
    unfold Before. by rewrite !Z.ltb_irrefl, andb_false_r.
  - intros key' Hne. apply Ho. intros Heq. by apply idem_redisKey_inj in Heq.
Qed.

(** Times within the lifetime of a mark set at [now]. *)
Definition within (now t : Time) : Prop := Before t now = false /\ Before t (Add now expires) = true.

(** However often the command runs, the key is marked from then on, and the last run
    reports it as unset only if it is the first. *)
Lemma runs_mark s now key n :
  0 < expires -> within now now ->
  let s' := Nat.iter n (fun s => (SETNX s now (redisKey key) expires).1) s in
  (forall k t, k <> key -> seen s' t k = seen s t k) /\
  (forall t, within now t -> seen s now key = true -> seen s t key = true -> seen s' t key = true) /\
  (forall t, within now t -> seen s now key = false -> (0 < n)%nat -> seen s' t key = true) /\
  seen s' now key = seen s now key || (0 <? n)%nat.
Proof using Type.
  intros Hpos Hnow. induction n as [|n IH]; cbn [Nat.iter].
  - simpl. split_and!; [done|done|by intros; lia|by rewrite orb_false_r].
  - cbn zeta in IH. set (s1 := Nat.iter n _ s) in *. destruct IH as (Hother & Hold & Hnew & Hn).
    rewrite Nat.iter_succ. fold s1. destruct (SETNX s1 now (redisKey key) expires) as [s2 b] eqn:E. cbn [fst].
    destruct (SETNX_law _ _ _ _ _ _ E) as (_ & Ho & Ht & Hf).
    assert (Hsame : forall k t, k <> key -> seen s2 t k = seen s1 t k).
    { intros k t Hne. unfold seen. apply Ho. intros Heq. by apply idem_redisKey_inj in Heq. }
    assert (Hset : forall t, within now t -> seen s1 now key = false -> seen s2 t key = true).
    { intros t [Hb1 Hb2] Hs1. unfold seen in *. by rewrite Hf. }
    assert (Hkeep : seen s1 now key = true -> forall t, seen s2 t key = seen s1 t key).
    { intros Hs1 t. unfold seen in *. by apply Ht. }
    split_and!.
    + intros k t Hne. by rewrite Hsame, Hother.
    + intros t Hw H1 H2. rewrite Hkeep; [by apply Hold|]. by rewrite Hn, H1.
    + intros t Hw H1 _. rewrite H1 in Hn. simpl in Hn. destruct n as [|n]; [by apply Hset|].
      rewrite Hkeep; [|by rewrite Hn]. apply Hnew; [done|done|lia].
    + change (0 <? S n)%nat with true. rewrite orb_true_r.
      destruct (seen s1 now key) eqn:E1; [by rewrite Hkeep|by apply Hset].
Qed.

(** Requests with keys at times, one after the other: each answer, or an error. *)
Fixpoint run (s : marks) (calls : list (net * Time * string)) : marks * list (bool * option error) :=
  match calls with
  | [] => (s, [])
  | (w, now, key) :: calls =>
      let '(s, r) := Exists w s now key in
      let '(s, rs) := run s calls in
      (s, r :: rs)
  end.

(** The answers: a request that is answered reports that the key was marked before, or
    by a run of its own command whose reply was lost; one that is not answered is an
    error, and has marked the key if the command ran. *)
Fixpoint answers (seen_keys : gset string) (calls : list (net * Time * string)) (rs : list (bool * option error)) : Prop :=
  match calls, rs with
  | [], [] => True
  | (w, _, key) :: calls, r :: rs =>
      r = match failed w with
          | Some e => (false, Some e)
          | None => (bool_decide (key ∈ seen_keys) || (0 <? lost w)%nat, None)
          end /\
      answers (if (0 <? runs w)%nat then {[key]} ∪ seen_keys else seen_keys) calls rs
  | _, _ => False
  end.

(** How often a key is reported as new. *)
Definition news (key : string) (calls : list (net * Time * string)) (rs : list (bool * option error)) : nat :=
  length (List.filter (fun c => String.eqb c.1.2 key && negb c.2.1 && match c.2.2 with None => true | Some _ => false end)
    (combine calls rs)).

Lemma answers_news key seen_keys calls rs :
  answers seen_keys calls rs ->
  (news key calls rs <= if decide (key ∈ seen_keys) then 0 else 1)%nat /\
  (key ∉ seen_keys -> (exists t, (reached, t, key) ∈ calls) -> Forall (fun c => c.2 = key -> c.1.1 = reached) calls ->
     news key calls rs = 1%nat).
Proof using Type.
  revert seen_keys rs. induction calls as [|[[w now] k] calls IH]; intros ks [|r rs]; simpl; try done.
  { intros _. split; [unfold news; simpl; destruct (decide _); lia|]. intros _ [t Ht]. by apply elem_of_nil in Ht. }
  intros [-> Hrest]. destruct (IH _ _ Hrest) as [Hle Hone].
  unfold news in *. cbn [combine List.filter fst snd].
  destruct (String.eqb_spec k key) as [->|Hne]; cbn [andb].
  - split.
    + destruct (failed w) as [e|] eqn:Ef.
      * cbn [negb andb fst snd]. destruct (0 <? runs w)%nat.
        -- rewrite decide_True in Hle by set_solver. destruct (decide (key ∈ ks)); lia.
        -- exact Hle.
      * assert (Hr : (0 <? runs w)%nat = true) by (apply Nat.ltb_lt; unfold runs; rewrite Ef; lia).
        rewrite Hr, decide_True in Hle by set_solver.
        destruct (decide (key ∈ ks)) as [Hin|Hni].
        -- rewrite bool_decide_true by done. simpl. lia.
        -- rewrite bool_decide_false by done. simpl. destruct (0 <? lost w)%nat; simpl; lia.
    + intros Hni Hex Hall. apply Forall_cons in Hall as [Hw Hall]. simpl in Hw. rewrite (Hw eq_refl) in *.
      cbn [failed reached lost runs]. rewrite bool_decide_false by done. simpl.
      change (0 <? runs reached)%nat with true in Hle. cbn [Nat.ltb] in Hle. rewrite decide_True in Hle by set_solver. lia.
  - split.
    + destruct (0 <? runs w)%nat; [|exact Hle].
      destruct (decide (key ∈ ks)); [rewrite decide_True in Hle by set_solver|rewrite decide_False in Hle by set_solver]; exact Hle.
    + intros Hni [t Ht] Hall. apply Forall_cons in Hall as [_ Hall]. apply Hone; [|..|exact Hall].
      * destruct (0 <? runs w)%nat; set_solver.
      * exists t. apply elem_of_cons in Ht as [[= _ _ ->]|Ht]; done.
Qed.

(** The answers of a history within the lifetime of the marks. *)
Lemma run_answers s calls keys0 t0 :
  0 < expires -> (forall w t key, (w, t, key) ∈ calls -> within t0 t) ->
  StronglySorted (fun c d => within c.1.2 d.1.2) calls -> (forall c, c ∈ calls -> within c.1.2 c.1.2) ->
  (forall key t, within t0 t -> seen s t key = bool_decide (key ∈ keys0)) ->
  answers keys0 calls (run s calls).2.
Proof using Type.
  intros Hpos Hin Hs Hself Hk.
  assert (Hcover : forall key c, c ∈ calls -> seen s c.1.2 key = bool_decide (key ∈ keys0)).
  { intros key [[w t] k] Hc. apply Hk. by eapply Hin. }
  clear Hin Hk t0. revert s keys0 Hcover. induction Hs as [|[[w now] key] calls Hs IH Hall]; intros s keys0 Hcover; [done|].
  cbn [run answers]. unfold Exists, SetNX, on_net.
  assert (Hnow : within now now) by (apply (Hself (w, now, key)), elem_of_cons; by left).
  assert (Hs0 : seen s now key = bool_decide (key ∈ keys0)) by (apply (Hcover key (w, now, key)), elem_of_cons; by left).
  assert (Hself' : forall c, c ∈ calls -> within c.1.2 c.1.2) by (intros c Hc; apply Hself, elem_of_cons; by right).
  (* the marks after [n] runs *)
  assert (Hafter : forall n c k, c ∈ calls ->
    seen (Nat.iter n (fun s => (SETNX s now (redisKey key) expires).1) s) c.1.2 k =
    bool_decide (k ∈ if (0 <? n)%nat then {[key]} ∪ keys0 else keys0)).
  { intros n c k Hc. destruct (runs_mark s now key n Hpos Hnow) as (Hother & Hold & Hnew & _).
    rewrite Forall_forall in Hall. pose proof (Hall c Hc) as Hw.
    assert (Hck : seen s c.1.2 k = bool_decide (k ∈ keys0)) by (apply Hcover, elem_of_cons; by right).
    destruct n as [|n]; [exact Hck|]. change (0 <? S n)%nat with true. cbn [Nat.ltb].
    destruct (decide (k = key)) as [->|Hne].
    - rewrite bool_decide_true by set_solver. destruct (seen s now key) eqn:E1; [|by apply Hnew; [..|lia]].
      apply Hold; [done..|]. by rewrite Hck, <- Hs0.
    - rewrite Hother, Hck by done. apply bool_decide_ext. set_solver. }
  destruct (runs_mark s now key (lost w) Hpos Hnow) as (_ & _ & _ & Hlost).
  set (s1 := Nat.iter (lost w) _ s) in *. unfold runs. destruct (failed w) as [e|].
  - specialize (IH Hself' s1 _ (fun k c Hc => Hafter (lost w) c k Hc)). rewrite Nat.add_0_r.
    destruct (run s1 calls) as [s2 rs]. by split.
  - destruct (SETNX s1 now (redisKey key) expires) as [s2 b] eqn:E.
    pose proof (SETNX_law _ _ _ _ _ _ E) as (Hb & _).
    assert (Hs2 : s2 = Nat.iter (S (lost w)) (fun s => (SETNX s now (redisKey key) expires).1) s).
    { rewrite Nat.iter_succ. fold s1. by rewrite E. }
    specialize (IH Hself' s2 ({[key]} ∪ keys0)).
    assert (Hr : (0 <? lost w + 1)%nat = true) by (apply Nat.ltb_lt; lia). rewrite Hr.
    destruct (run s2 calls) as [s3 rs]. cbn [fst snd] in *. split.
    + rewrite Hb, negb_involutive. change (marked s1 now (redisKey key)) with (seen s1 now key). by rewrite Hlost, Hs0.
    + apply IH. intros k c Hc. rewrite Hs2. by rewrite Hafter.
Qed.

(** C24: requests within the lifetime of the marks, from marks that hold the keys
    [keys0], whatever the network does.  A request that is answered reports the key as
    existing exactly if an earlier request marked it, or its own command ran before
    without its reply; one that is not answered is an error, and marks the key if its
    command ran.  So a key is reported as new at most once, and exactly once when it was
    not marked and all requests for it are answered at their first attempt. *)
Theorem exists_once s calls keys0 t0 :
  0 < expires -> (forall w t key, (w, t, key) ∈ calls -> within t0 t) ->
  StronglySorted (fun c d => within c.1.2 d.1.2) calls -> (forall c, c ∈ calls -> within c.1.2 c.1.2) ->
  (forall key t, within t0 t -> seen s t key = bool_decide (key ∈ keys0)) ->
  let rs := (run s calls).2 in
  answers keys0 calls rs /\
  forall key, (news key calls rs <= if decide (key ∈ keys0) then 0 else 1)%nat /\
    (key ∉ keys0 -> (exists t, (reached, t, key) ∈ calls) -> Forall (fun c => c.2 = key -> c.1.1 = reached) calls ->
       news key calls rs = 1%nat).
Proof using Type.
  intros Hpos Hin Hs Hself Hk rs.
  pose proof (run_answers s calls keys0 t0 Hpos Hin Hs Hself Hk) as Ha. split; [exact Ha|]. intros key. by apply answers_news.
Qed.

(** [MultiExists] of distinct keys answers for each what [Exists] would; a key
    listed twice is reported as existing even when neither request for it had
    been made before, so that no caller takes it as new. *)
Theorem multi_exists_spec s now keys s' m :
  0 < expires -> Before now (Add now expires) = true ->
  MultiExists None (fun _ => reached) s now keys = (s', (m, None)) ->
  forall key, key ∈ keys ->
    (NoDup keys -> m !! key = Some (seen s now key)) /\
    (forall l1 l2 l3, keys = l1 ++ key :: l2 ++ key :: l3 -> m !! key = Some true).
Proof using Type.
  intros Hpos He. unfold MultiExists. destruct (exec _ 0 s now keys) as [s1 commands] eqn:Ee.
  destruct (first_error None commands) eqn:Ef; [done|]. intros [= <- Hc].
  (* the last request for a key decides *)
  assert (Hgen : forall keys i s s1 commands res m,
    exec (fun _ => reached) i s now keys = (s1, commands) -> first_error None commands = None -> collect keys commands res = (m, None) ->
    forall key, (key ∉ keys -> m !! key = res !! key) /\
      (forall l1 l3, keys = l1 ++ key :: l3 -> key ∉ l3 ->
         m !! key = Some (bool_decide (key ∈ l1) || seen s now key))).
  { clear s keys s1 commands Ee Ef m Hc. intros keys; induction keys as [|k keys IH];
      intros i s s1 commands res m Ee Ef Hc key; simpl in Ee.
    - injection Ee as <- <-. injection Hc as <-. split; [done|]. by intros [|??].
    - destruct (SetNX reached s now (redisKey k)) as [s2 r] eqn:En.
      destruct (exec _ (S i) s2 now keys) as [s3 rs] eqn:Ee'. injection Ee as <- <-.
      destruct (SetNX_seen _ _ _ _ _ Hpos He En) as (-> & Hk & Hother). simpl in Hc. rewrite negb_involutive in Hc.
      destruct (IH _ _ _ _ _ _ Ee' Ef Hc key) as [H1 H2]. split.
      + rewrite not_elem_of_cons. intros [Hne Hni]. rewrite H1 by done. by rewrite lookup_insert_ne.
      + intros [|k' l1] l3; intros [= -> ->] Hni.
        * rewrite H1 by done. by rewrite lookup_insert_eq.
        * rewrite (H2 _ _ eq_refl Hni). f_equal. destruct (decide (key = k')) as [->|Hne].
          -- rewrite Hk, orb_true_r. symmetry. rewrite bool_decide_true; [done|]. apply elem_of_cons. by left.
          -- rewrite Hother by done. f_equal. apply bool_decide_ext. rewrite elem_of_cons. naive_solver. }
  intros key Hin. split.
  - intros Hnd. apply last_occurrence in Hin as (l1 & l3 & -> & Hni).
    apply NoDup_app in Hnd as (_ & Hd & _).
    rewrite (proj2 (Hgen _ _ _ _ _ _ _ Ee Ef Hc key) _ _ eq_refl Hni).
    rewrite bool_decide_false; [done|]. intros Hl. apply (Hd key Hl), elem_of_cons. by left.
  - intros l1 l2 l3 ->. destruct (last_occurrence key (l2 ++ key :: l3)) as (a & b & Heq & Hnb).
    { rewrite elem_of_app, elem_of_cons. tauto. }
    rewrite (proj2 (Hgen _ _ _ _ _ _ _ Ee Ef Hc key) (l1 ++ key :: a) b); [|by rewrite Heq, <- app_assoc|done].
    rewrite bool_decide_true; [done|]. rewrite elem_of_app, elem_of_cons. tauto.
Qed.
End idempotent.

(** ** Runs *)

Definition nx_marked (m : gmap string Time) (t : Time) (k : string) : bool :=
  match m !! k with Some exp => Before t exp | None => false end.

#[global] Program Instance mem_nx : RedisNX := {|
  marks := gmap string Time;
  marked := nx_marked;
  SETNX m now k d := if nx_marked m now k then (m, false) else (<[k := Add now d]> m, true) |}.
Next Obligation.
  intros s now k d s' b. simpl. destruct (nx_marked s now k) eqn:E; intros [= <- <-]; split_and!; try done.
  - intros k' Hne t. unfold nx_marked. by rewrite lookup_insert_ne.
  - intros _ _ t _. unfold nx_marked. by rewrite lookup_insert_eq.
Qed.

Definition later (n : Z) : Time := Add now2025 (n * Second).

(** The second request for [b] comes after one that ran and was given up; the third for
    [a] is never sent. *)
Definition some_calls : list (net * Time * string) :=
  [(reached, later 1, "a"); (mkNet 1 (Some (ENew "timeout")), later 2, "b"); (reached, later 3, "a");
   (reached, later 4, "b"); (mkNet 0 (Some (ENew "timeout")), later 5, "a")]%string.

Lemma exists_once_witness :
  let rs := (@run mem_nx Minute ∅ some_calls).2 in
  @answers ∅ some_calls rs /\ (news "b" some_calls rs <= 1)%nat.
Proof.
  destruct (@exists_once mem_nx Minute ∅ some_calls ∅ now2025) as [Ha Hn].
  - reflexivity.
  - intros w t key Hin. unfold some_calls in Hin. rewrite !elem_of_cons, elem_of_nil in Hin.
    destruct Hin as [[= _ -> _]|[[= _ -> _]|[[= _ -> _]|[[= _ -> _]|[[= _ -> _]|[]]]]]]; vm_compute; split; reflexivity.
  - unfold some_calls. repeat constructor; vm_compute; try reflexivity; split; reflexivity.
  - intros c Hin. unfold some_calls in Hin. rewrite !elem_of_cons, elem_of_nil in Hin.
    destruct Hin as [->|[->|[->|[->|[->|[]]]]]]; vm_compute; split; reflexivity.
  - intros key t _. unfold seen. simpl. unfold nx_marked. rewrite lookup_empty.
    symmetry. apply bool_decide_false. set_solver.
  - split; [exact Ha|]. exact (proj1 (Hn "b"%string)).
Defined.

Lemma multi_exists_spec_witness :
  (@MultiExists mem_nx Minute None (fun _ => reached) ∅ now2025 ["a"; "b"; "a"]%string).2.1 !! "a"%string = Some true.
Proof.
  destruct (@MultiExists mem_nx Minute None (fun _ => reached) ∅ now2025 ["a"; "b"; "a"]%string) as [s' [m err]] eqn:E.
  assert (Herr : err = None).
  { change err with (s', (m, err)).2.2. rewrite <- E. vm_compute. reflexivity. }
  subst err.
  destruct (@multi_exists_spec mem_nx Minute ∅ now2025 ["a"; "b"; "a"]%string s' m eq_refl eq_refl E "a"%string) as [_ H].
  - apply elem_of_cons. by left.
  - exact (H [] ["b"%string] [] eq_refl).
Defined.
End Idempotent.
