(* ===== verification/EtcdRegistry.v ===== *)
(** * The service registry on etcd: internal/pkg/registry/etcd/etcd_registry.go

    Instances are stored under [/notification/<service>/<address>] and listed by
    the prefix [/notification/<service>].  etcd is a class: [kv] is its contents,
    each value with the lease it was put under; the commands may fail.  A lease
    may lapse at any time: its values are gone, and nothing can be put under it any
    more.  A registry is known by the lease of its session. *)
From Stdlib Require Import ZArith Lia List Ascii.
From stdpp Require Import prelude strings gmap.
From S2P Require Import Prelude GoLang Errs GoStrings Externals Domain GoJson GoCodec Balancer RwBalancer.
Import Resolver.

Class Etcd := {
  kvstore : Type;
  kv : kvstore -> gmap string (string * Z);
  alive : kvstore -> Z -> Prop;
  Put : kvstore -> string -> string -> Z -> kvstore * option error;
  Delete : kvstore -> string -> kvstore * option error;
  GetPrefix : kvstore -> string -> list (string * string) + error;
  lapse : kvstore -> Z -> kvstore;
  Put_ok s k v l s' : Put s k v l = (s', None) ->
    alive s l /\ kv s' = <[k := (v, l)]> (kv s) /\ forall l', alive s' l' <-> alive s l';
  Delete_ok s k s' : Delete s k = (s', None) -> kv s' = delete k (kv s) /\ forall l', alive s' l' <-> alive s l';
  GetPrefix_ok s p l : GetPrefix s p = inl l ->
    l ≡ₚ map (fun e => (e.1, e.2.1)) (filter (fun e => HasPrefix e.1 p = true) (map_to_list (kv s)));
  lapse_ok s l : kv (lapse s l) = filter (fun e => e.2.2 <> l) (kv s) /\
    forall l', alive (lapse s l) l' <-> alive s l' /\ l' <> l }.

(** ** An instance as JSON: registry/types.go has no tags. *)

Definition instance_fields : list (field ServiceInstance) := [
  member "Name" Name (fun s v => mkInstance v (Addr s) (Group s) (ReadWeight s) (WriteWeight s));
  member "Addr" Addr (fun s v => mkInstance (Name s) v (Group s) (ReadWeight s) (WriteWeight s));
  member "Group" Group (fun s v => mkInstance (Name s) (Addr s) v (ReadWeight s) (WriteWeight s));
  @member _ _ (int_codec 64) "ReadWeight" ReadWeight (fun s v => mkInstance (Name s) (Addr s) (Group s) v (WriteWeight s));
  @member _ _ (int_codec 64) "WriteWeight" WriteWeight (fun s v => mkInstance (Name s) (Addr s) (Group s) (ReadWeight s) v)].

Definition zeroInstance : ServiceInstance := mkInstance "" "" "" 0 0.

#[global] Instance instance_codec : JsonCodec ServiceInstance := struct_codec zeroInstance instance_fields.

(** The instances that survive the trip: text, and integers of their width. *)
Definition instance_ok (s : ServiceInstance) : Prop :=
  utf8 (Name s) /\ utf8 (Addr s) /\ utf8 (Group s) /\ in_s 64 (ReadWeight s) /\ in_s 64 (WriteWeight s).

#[global] Instance instance_laws : JsonLaws ServiceInstance instance_ok.
Proof. struct_law. Qed.

Module Registry.
Section registry.
Context `{Etcd}.

Definition serviceKey (serviceName : string) : string := "/notification/" +:+ serviceName.

Definition instanceKey (si : ServiceInstance) : string := "/notification/" +:+ Name si +:+ "/" +:+ Addr si.

Definition Register (lease : Z) (s : kvstore) (si : ServiceInstance) : kvstore * option error :=
  match Marshal si with
  | inr err => (s, Some err)
  | inl val => Put s (instanceKey si) val lease
  end.

Definition Unregister (s : kvstore) (si : ServiceInstance) : kvstore * option error :=
  Delete s (instanceKey si).

Fixpoint decode (kvs : list (string * string)) : list ServiceInstance + error :=
  match kvs with
  | [] => inl []
  | (_, value) :: kvs =>
      match Unmarshal value zeroInstance with
      | inr err => inr err
      | inl si =>
          match decode kvs with
          | inr err => inr err
          | inl res => inl (si :: res)
          end
      end
  end.

Definition ListService (s : kvstore) (serviceName : string) : list ServiceInstance + error :=
  match GetPrefix s (serviceKey serviceName) with
  | inr err => inr err
  | inl kvs => decode kvs
  end.

(** *** Subscriptions: the cancel functions, by number. *)
Definition Subscribe (watchCancel : list nat) (cancel : nat) : list nat := watchCancel ++ [cancel].

(** [Close] cancels every watch. *)
Definition Close (watchCancel : list nat) (cancelled : gset nat) : gset nat :=
  foldl (fun c i => {[i]} ∪ c) cancelled watchCancel.

(** *** RegistryBuilder *)
Record RegistryBuilder := mkBuilder { leaseTTL : Z }.
Definition NewRegistryBuilder : RegistryBuilder := mkBuilder 30.
Definition LeaseTTL (rb : RegistryBuilder) (ttl : Z) : RegistryBuilder := mkBuilder ttl.
Definition Build {Session} (NewSession : Z -> Session + error) (rb : RegistryBuilder) : Session + error :=
  if leaseTTL rb <=? 0 then inr (ENew "[jotify] etcd lease TTL must be greater than 0")
  else NewSession (leaseTTL rb).

(** ** What the registry promises *)

(** What any number of registries do, and the lapse of a lease. *)
Inductive op := OpRegister (lease : Z) (si : ServiceInstance) | OpUnregister (si : ServiceInstance) | OpLapse (lease : Z).

Definition apply_op (s : kvstore) (o : op) : kvstore * option error :=
  match o with
  | OpRegister lease si => Register lease s si
  | OpUnregister si => Unregister s si
  | OpLapse lease => (lapse s lease, None)
  end.

Fixpoint run (s : kvstore) (ops : list op) : option kvstore :=
  match ops with
  | [] => Some s
  | o :: ops => match apply_op s o with (s, None) => run s ops | (_, Some _) => None end
  end.

(** The instances that are registered, by key, with their leases. *)
Definition spec_op (m : gmap string (ServiceInstance * Z)) (o : op) : gmap string (ServiceInstance * Z) :=
  match o with
  | OpRegister lease si => <[instanceKey si := (si, lease)]> m
  | OpUnregister si => delete (instanceKey si) m
  | OpLapse lease => filter (fun e => e.2.2 <> lease) m
  end.

Definition op_ok (o : op) : Prop := match o with OpRegister _ si => instance_ok si | _ => True end.

(** A stored value is the text of the registered instance, under its lease. *)
Definition same_entry (v : option (string * Z)) (r : option (ServiceInstance * Z)) : Prop :=
  match v, r with
  | Some (v, l), Some (si, l') => Marshal si = inl v /\ instance_ok si /\ l = l'
  | None, None => True
  | _, _ => False
  end.

Definition stores (s : kvstore) (m : gmap string (ServiceInstance * Z)) : Prop :=
  forall k, same_entry (kv s !! k) (m !! k).

Lemma apply_op_stores s m o s' :
  stores s m -> op_ok o -> apply_op s o = (s', None) -> stores s' (spec_op m o).
Proof using Type.
  intros Hs Ho. destruct o as [l si|si|l]; simpl in *.
  - unfold Register. destruct (Marshal si) as [val|e] eqn:Em; [|done]. intros (_ & E & _)%Put_ok k.
    rewrite E. destruct (decide (instanceKey si = k)) as [<-|Hne].
    + by rewrite !lookup_insert_eq.
    + rewrite !lookup_insert_ne by done. apply Hs.
  - intros (E & _)%Delete_ok k. rewrite E. destruct (decide (instanceKey si = k)) as [<-|Hne].
    + by rewrite !lookup_delete_eq.
    + rewrite !lookup_delete_ne by done. apply Hs.
  - intros [= <-] k. rewrite (proj1 (lapse_ok s l)). specialize (Hs k). rewrite !map_lookup_filter.
    destruct (kv s !! k) as [[v l1]|], (m !! k) as [[si l2]|]; simpl in *; try done.
    destruct Hs as (Hm & Hok & ->). by case_guard; simplify_option_eq.
Qed.

Lemma run_stores s m ops s' :
  stores s m -> Forall op_ok ops -> run s ops = Some s' -> stores s' (foldl spec_op m ops).
Proof using Type.
  intros Hs Hops. revert s m Hs; induction Hops as [|o ops Ho Hops IH]; intros s m Hs; simpl; [by intros [= <-]|].
  destruct (apply_op s o) as [s1 [e|]] eqn:E; [done|]. apply IH. by eapply apply_op_stores.
Qed.

Lemma decode_stored s m (l : list (string * (string * Z))) :
  stores s m -> (forall e, e ∈ l -> kv s !! e.1 = Some e.2) ->
  exists sis, decode (map (fun e => (e.1, e.2.1)) l) = inl sis /\
    Forall2 (fun e si => m !! e.1 = Some (si, e.2.2)) l sis.
Proof using Type.
  intros Hs. induction l as [|[k [v lease]] l IH]; intros Hl; simpl; [by exists []|].
  pose proof (Hl (k, (v, lease)) ltac:(apply elem_of_cons; by left)) as Hk. simpl in Hk.
  specialize (Hs k) as Hkv. rewrite Hk in Hkv. destruct (m !! k) as [[si l']|] eqn:Em; [|done].
  destruct Hkv as (Hm & Hok & ->). rewrite (Unmarshal_Marshal si zeroInstance _ Hok Hm).
  destruct IH as (sis & -> & Hf); [intros e He; apply Hl, elem_of_cons; by right|].
  exists (si :: sis). split; [done|]. by constructor.
Qed.

(** The entries a listing reads. *)
Definition entries (s : kvstore) (p : string) : list (string * (string * Z)) :=
  filter (fun e => HasPrefix e.1 p = true) (map_to_list (kv s)).

Lemma elem_of_entries s p e : e ∈ entries s p <-> kv s !! e.1 = Some e.2 /\ HasPrefix e.1 p = true.
Proof using Type. destruct e as [k v]. unfold entries. rewrite list_elem_of_filter, elem_of_map_to_list. simpl. tauto. Qed.

Lemma list_stored s m name l :
  stores s m -> ListService s name = inl l ->
  (forall si, si ∈ l <-> exists k lease, m !! k = Some (si, lease) /\ HasPrefix k (serviceKey name) = true) /\
  length l = size (filter (fun e => HasPrefix e.1 (serviceKey name) = true) m).
Proof using Type.
  intros Hst Hlist. unfold ListService in Hlist.
  destruct (GetPrefix s (serviceKey name)) as [kvs|] eqn:Eg; [|done].
  apply GetPrefix_ok, Permutation_map_inv in Eg as (es & -> & Hp). fold (entries s (serviceKey name)) in Hp.
  assert (Hin : forall e, e ∈ es <-> kv s !! e.1 = Some e.2 /\ HasPrefix e.1 (serviceKey name) = true).
  { intros e. by rewrite <- Hp, elem_of_entries. }
  destruct (decode_stored s m es Hst) as (sis & Hd & Hf); [intros e He; by apply Hin|].
  rewrite Hd in Hlist. injection Hlist as <-.
  assert (Hkm : forall k si lease, m !! k = Some (si, lease) -> exists v, kv s !! k = Some (v, lease)).
  { intros k si lease Hk. specialize (Hst k). rewrite Hk in Hst.
    destruct (kv s !! k) as [[v l']|]; [|done]. destruct Hst as (_ & _ & ->). by exists v. }
  split.
  - intros si. split.
    + intros Hsi. apply list_elem_of_lookup in Hsi as [i Hi].
      destruct (Forall2_lookup_r _ _ _ _ _ Hf Hi) as ([k v] & Hk & Hm).
      apply list_elem_of_lookup_2, Hin in Hk as [_ Hpre]. by exists k, v.2.
    + intros (k & lease & Hm & Hpre). destruct (Hkm _ _ _ Hm) as [v Hv].
      assert (He : (k, (v, lease)) ∈ es) by by apply Hin. apply list_elem_of_lookup in He as [i Hi].
      destruct (Forall2_lookup_l _ _ _ _ _ Hf Hi) as (si' & Hi' & Hm'). simpl in Hm'.
      assert (si' = si) as -> by congruence. by eapply list_elem_of_lookup_2.
  - rewrite <- (Forall2_length _ _ _ Hf), <- (length_map fst), <- length_map_to_list, <- (length_map fst (map_to_list _)).
    apply Permutation_length, NoDup_Permutation; [|apply NoDup_fst_map_to_list|].
    + apply (NoDup_fmap_fst es).
      * intros k v1 v2 H1%Hin H2%Hin. simpl in *. destruct H1, H2. congruence.
      * rewrite <- Hp. apply NoDup_filter, NoDup_map_to_list.
    + intros k. rewrite !list_elem_of_fmap. split.
      * intros ([k' [v lease]] & -> & [Hv Hpre]%Hin). simpl in *. specialize (Hst k'). rewrite Hv in Hst.
        destruct (m !! k') as [e|] eqn:Em; [|done].
        exists (k', e). split; [done|]. apply elem_of_map_to_list, map_lookup_filter_Some. by split.
      * intros ([k' [si lease]] & -> & He). simpl in *. apply elem_of_map_to_list, map_lookup_filter_Some in He as [Hsi Hpre].
        destruct (Hkm _ _ _ Hsi) as [v Hv]. exists (k', (v, lease)). split; [done|]. by apply Hin.
Qed.

Lemma stores_empty s : kv s = ∅ -> stores s ∅.
Proof using Type. intros E k. by rewrite E, !lookup_empty. Qed.

(** C25: after any sequence of registrations and removals by any number of
    registries, and of lapses of their leases, [ListService] lists exactly the
    registered instances whose key begins with the service's key: those of the
    service, and those of every service whose name, with the address, begins with
    its name. *)
Theorem list_service_spec s ops s' name l :
  kv s = ∅ -> Forall op_ok ops -> run s ops = Some s' -> ListService s' name = inl l ->
  let registered := foldl spec_op ∅ ops in
  (forall si, si ∈ l <-> exists k lease, registered !! k = Some (si, lease) /\ HasPrefix k (serviceKey name) = true) /\
  length l = size (filter (fun e => HasPrefix e.1 (serviceKey name) = true) registered).
Proof using Type.
  intros Hempty Hops Hrun Hlist registered. apply list_stored with s'; [|done].
  by eapply run_stores; [apply stores_empty|..].
Qed.

(** ** Leases *)

Lemma apply_op_alive s o s' lease :
  apply_op s o = (s', None) -> alive s' lease -> alive s lease.
Proof using Type.
  destruct o as [l si|si|l]; simpl.
  - unfold Register. destruct (Marshal si); [|done]. intros (_ & _ & Ha)%Put_ok. by rewrite Ha.
  - intros (_ & Ha)%Delete_ok. by rewrite Ha.
  - intros [= <-]. rewrite (proj2 (lapse_ok s l)). by intros [? _].
Qed.

Lemma run_lapsed s m ops s' lease :
  ~ alive s lease -> (forall k si, m !! k <> Some (si, lease)) -> run s ops = Some s' ->
  forall k si, foldl spec_op m ops !! k <> Some (si, lease).
Proof using Type.
  revert s m; induction ops as [|o ops IH]; intros s m Hd Hm; simpl; [done|].
  destruct (apply_op s o) as [s1 [e|]] eqn:E; [done|]. apply IH; [by intros ?%(apply_op_alive _ _ _ _ E)|].
  intros k si. destruct o as [l i|i|l]; simpl in *.
  - rewrite lookup_insert_Some. intros [[_ [= -> ->]]|[_ ?]]; [|by eapply Hm].
    unfold Register in E. destruct (Marshal si); [|done]. by apply Put_ok in E as [? _].
  - intros [_ ?]%lookup_delete_Some. by eapply Hm.
  - intros [? _]%map_lookup_filter_Some. by eapply Hm.
Qed.

(** A process whose lease has lapsed is not found any more: none of its instances
    is listed, then or after any further operations that succeed, since the registry
    keeps the session of its start and registering under it fails. *)
Theorem lapsed_never_listed s ops1 lease ops2 s' :
  kv s = ∅ -> Forall op_ok (ops1 ++ OpLapse lease :: ops2) ->
  run s (ops1 ++ OpLapse lease :: ops2) = Some s' ->
  let registered := foldl spec_op ∅ (ops1 ++ OpLapse lease :: ops2) in
  (forall k si, registered !! k <> Some (si, lease)) /\
  forall name l si, ListService s' name = inl l -> si ∈ l ->
    exists k lease', registered !! k = Some (si, lease') /\ lease' <> lease.
Proof using Type.
  intros Hempty Hops Hrun registered.
  assert (Hno : forall k si, registered !! k <> Some (si, lease)).
  { subst registered. rewrite foldl_app. simpl.
    assert (Hsplit : forall t, run t (ops1 ++ OpLapse lease :: ops2) = Some s' ->
              exists t', run (lapse t' lease) ops2 = Some s').
    { clear. induction ops1 as [|o ops1 IH]; intros t; simpl; [by eexists|].
      destruct (apply_op t o) as [t1 [e|]]; [done|apply IH]. }
    destruct (Hsplit _ Hrun) as [t Ht]. eapply run_lapsed; [|intros k si|exact Ht].
    - rewrite (proj2 (lapse_ok t lease)). by intros [_ ?].
    - by intros [_ ?]%map_lookup_filter_Some. }
  split; [exact Hno|]. intros name l si Hl Hsi.
  assert (Hst : stores s' registered) by (by eapply run_stores; [apply stores_empty|..]).
  apply (list_stored _ _ _ _ Hst Hl) in Hsi as (k & lease' & Hk & _). exists k, lease'. split; [done|].
  intros ->. by eapply Hno.
Qed.
End registry.

(** ** Runs *)

(** A store in memory, with the leases that have lapsed. *)
#[global] Program Instance mem_etcd : Etcd := {|
  kvstore := gmap string (string * Z) * gset Z;
  kv s := s.1;
  alive s l := l ∉ s.2;
  Put s k v l := if bool_decide (l ∈ s.2) then (s, Some (ENew "etcdserver: requested lease not found"))
                 else ((<[k := (v, l)]> s.1, s.2), None);
  Delete s k := ((delete k s.1, s.2), None);
  GetPrefix s p := inl (map (fun e => (e.1, e.2.1)) (filter (fun e => HasPrefix e.1 p = true) (map_to_list s.1)));
  lapse s l := (filter (fun e => e.2.2 <> l) s.1, {[l]} ∪ s.2) |}.
Next Obligation. intros s k v l s'. cbn beta. case_bool_decide; [done|]. by intros [= <-]. Qed.
Next Obligation. by intros s k s' [= <-]. Qed.
Next Obligation. by intros s p l [= <-]. Qed.
Next Obligation. intros s l. split; [done|]. intros l'. simpl. set_solver. Qed.

(** Instances that are a name and an address. *)
Definition plain (n a : string) : ServiceInstance := mkInstance n a "" 0 0.

Lemma plain_ok n a : is_ascii n = true -> is_ascii a = true -> instance_ok (plain n a).
Proof. intros Hn Ha. unfold instance_ok, in_s. split_and!; simpl; try lia; by apply ascii_utf8. Qed.

Definition no_keys : @kvstore mem_etcd := (∅, ∅).

Definition sample_ops : list op :=
  [OpRegister 1 (plain "user" "10.0.0.1:80"); OpRegister 2 (plain "user-admin" "10.0.0.2:80");
   OpRegister 3 (plain "order" "10.0.0.3:80")].

(** Asking for the service [user] lists an instance of [user-admin] as well. *)
Lemma list_service_spec_witness :
  match run no_keys sample_ops with
  | Some s =>
      match ListService s "user" with
      | inl l => length l = 2%nat /\ plain "user-admin" "10.0.0.2:80" ∈ l
      | inr _ => False
      end
  | None => False
  end.
Proof.
  destruct (run no_keys sample_ops) as [s|] eqn:Er.
  - destruct (ListService s "user") as [l|e] eqn:El.
    + destruct (list_service_spec (H := mem_etcd) no_keys sample_ops s "user" l) as [Hin Hlen].
      * reflexivity.
      * repeat (apply Forall_cons; split; [by apply plain_ok|]). by apply Forall_nil.
      * exact Er.
      * exact El.
      * split; [rewrite Hlen; vm_compute; reflexivity|].
        apply Hin. exists "/notification/user-admin/10.0.0.2:80"%string, 2. split; vm_compute; reflexivity.
    + assert (Hf : match run no_keys sample_ops with
                   | Some s => match ListService s "user" with inl _ => true | inr _ => false end
                   | None => true end = true) by (vm_compute; reflexivity).
      rewrite Er, El in Hf. discriminate Hf.
  - assert (Hf : match run no_keys sample_ops with Some _ => true | None => false end = true) by (vm_compute; reflexivity).
    rewrite Er in Hf. discriminate Hf.
Defined.

Definition lapsing_ops : list op := sample_ops ++ [OpLapse 1; OpUnregister (plain "order" "10.0.0.3:80")].

Lemma lapsed_never_listed_witness :
  forall k si, foldl spec_op ∅ lapsing_ops !! k <> Some (si, 1).
Proof.
  destruct (run no_keys lapsing_ops) as [s|] eqn:Er.
  - destruct (lapsed_never_listed (H := mem_etcd) no_keys sample_ops 1 [OpUnregister (plain "order" "10.0.0.3:80")] s)
      as [Hno _]; [reflexivity| |exact Er|exact Hno].
    repeat (apply Forall_cons; split; [first [exact I|by apply plain_ok]|]). by apply Forall_nil.
  - assert (Hf : match run no_keys lapsing_ops with Some _ => true | None => false end = true) by (vm_compute; reflexivity).
    rewrite Er in Hf. discriminate Hf.
Defined.
End Registry.
