(* ===== verification/Discovery.v ===== *)
(** * From a registered instance to a pick

    The path of a gRPC client: instances that registered on etcd
    (registry/etcd/etcd_registry.go) are listed and reported by the resolver
    (client/resolver/grpc_resolver.go), gRPC connects to the addresses, and a balancer
    (client/balancer) builds its picker from the connections. *)
From Stdlib Require Import ZArith Lia List.
From stdpp Require Import prelude strings gmap.
From S2P Require Import Prelude GoLang Errs GoStrings Context Balancer RwBalancer EtcdRegistry.
Import Resolver.

Module Discovery.
Section discovery.
Context `{Etcd} {SubConn : Type}.

(** What the resolver does after the registries' operations [ops] on a fresh store. *)
Definition discover (s : kvstore) (ops : list Registry.op) (name : string)
    (update : list Address -> option error) : option (list report) :=
  s ← Registry.run s ops; Some (resolve (Registry.ListService s) update name).

(** The instances whose key begins with the key of the service. *)
Definition live (ops : list Registry.op) (name : string) (si : ServiceInstance) : Prop :=
  exists k lease, foldl Registry.spec_op ∅ ops !! k = Some (si, lease) /\
    HasPrefix k (Registry.serviceKey name) = true.

(** The ready connections gRPC gives a builder for the addresses of a report: one
    each, in the order of a map. *)
Definition connected (info : list (SubConn * Address)) (addrs : list Address) : Prop :=
  info.*2 ≡ₚ addrs /\ NoDup info.*1.

(** An address is that of one instance. *)
#[global] Instance address_inj : Inj (=) (=) address.
Proof. intros [] [] [=]. by subst. Qed.

Lemma report_live s ops name update addrs :
  kv s = ∅ -> Forall Registry.op_ok ops -> discover s ops name update = Some [UpdateState addrs] ->
  exists l, addrs = map address l /\ forall si, si ∈ l <-> live ops name si.
Proof using Type.
  intros Hkv Hops. unfold discover. destruct (Registry.run s ops) as [s'|] eqn:Er; simpl; [|done].
  unfold resolve. destruct (Registry.ListService s' name) as [l|e] eqn:El; [|done].
  destruct (update _); [done|]. intros [= <-]. exists l. split; [done|].
  apply (Registry.list_stored s' (foldl Registry.spec_op ∅ ops) name l); [|done].
  by eapply Registry.run_stores; [apply Registry.stores_empty|..].
Qed.

(** The connections of a report are those of its instances. *)
Lemma connected_instances info l :
  connected info (map address l) ->
  exists conns, info = map (fun e => (e.1, address e.2)) conns /\ conns.*2 ≡ₚ l /\ NoDup conns.*1.
Proof using Type.
  intros [Hp Hnd]. apply Permutation_map_inv in Hp as (l' & Hp & Hl).
  exists (zip info.*1 l'). assert (Hlen : length info.*1 = length l').
  { apply (f_equal length) in Hp. by rewrite !length_map in Hp; rewrite length_fmap. }
  rewrite snd_zip, fst_zip by lia. split; [|by rewrite Hl].
  clear -Hp Hlen. revert l' Hp Hlen. induction info as [|[c a] info IH]; intros [|si l'] Hp Hlen; simpl in *; [done..|].
  injection Hp as -> Hp. f_equal. apply IH; [done|by injection Hlen].
Qed.

(** C26: what is registered is served: when the instances of a service have registered,
    left or lapsed in any order, the resolver reports a state, and gRPC connects to
    the addresses of the report, then the round-robin picker gives every live instance
    one pick of any round, whatever was picked before, and picks no other; while the
    read/write picker, built from the same connections, has no node and refuses every
    pick. *)
Theorem registered_instances_served s ops name update addrs (info : list (SubConn * Address)) k :
  kv s = ∅ -> Forall Registry.op_ok ops -> discover s ops name update = Some [UpdateState addrs] ->
  connected info addrs -> info <> [] -> Z.of_nat k + Z.of_nat (length info) < 2 ^ 64 ->
  (exists p before p' round,
     rr_picks (rr_Build info) k = Ret (p, before) /\
     rr_picks p (length info) = Ret (p', inl <$> round) /\ NoDup round /\
     (forall c, c ∈ round <-> exists si, live ops name si /\ (c, address si) ∈ info) /\
     (forall si, live ops name si -> exists c, (c, address si) ∈ info /\ c ∈ round)) /\
  (forall (b : Rw.builder SubConn) (h : gmap Rw.loc (Rw.rwWeightServiceNode SubConn)) ctx,
     Rw.Pick h (Rw.Build b info).2 ctx = (h, inr ErrNoSubConnAvailable)).
Proof using Type.
  intros Hkv Hops Hd Hconn Hne Hk.
  destruct (report_live _ _ _ _ _ Hkv Hops Hd) as (l & -> & Hl).
  destruct (connected_instances _ _ Hconn) as (conns & -> & Hp & Hnd). set (info := map _ conns) in *.
  assert (Hfst : info.*1 = conns.*1) by (unfold info; rewrite <- list_fmap_compose; by apply list_fmap_ext).
  assert (Hin : forall c si, (c, address si) ∈ info <-> (c, si) ∈ conns).
  { intros c si. unfold info. rewrite list_elem_of_fmap. split.
    - intros ([c' si'] & [-> ->%(inj address)]%pair_equal_spec & He). done.
    - intros He. by exists (c, si). }
  assert (Hlive : forall si, live ops name si <-> si ∈ conns.*2) by (intros si; by rewrite <- Hl, Hp).
  split.
  - assert (Hwf : rr_wf (rr_Build info)).
    { split_and!; simpl; [done|by intros ?%fmap_nil_inv|lia]. }
    destruct (rr_picks_ok (rr_Build info) k Hwf) as (rs & _ & _ & Hbefore); [simpl; lia|].
    simpl in Hbefore. set (p := mkRR _ _ _) in Hbefore.
    destruct (round_robin_fair p) as (p' & round & Hr & Hperm & _); [|simpl; rewrite length_fmap; lia|].
    { destruct Hwf as (H1 & H2 & _). split_and!; simpl; [done..|lia]. }
    simpl in Hr. rewrite length_fmap in Hr. exists p, (inl <$> rs), p', round.
    assert (Hround : round ≡ₚ conns.*1) by by rewrite Hperm; simpl; rewrite Hfst.
    split; [exact Hbefore|]. split; [exact Hr|]. split; [by rewrite Hround|]. split.
    + intros c. rewrite Hround, list_elem_of_fmap. split.
      * intros ([c' si] & -> & He). exists si. rewrite Hlive, Hin. split; [|done]. apply list_elem_of_fmap. by exists (c', si).
      * intros (si & _ & He%Hin). by exists (c, si).
    + intros si (e & -> & He)%Hlive%list_elem_of_fmap. exists e.1. rewrite Hin, Hround. split; [by destruct e|].
      apply list_elem_of_fmap. by exists e.
  - intros b h ctx. by apply resolved_weights_ignored.
Qed.
End discovery.

(** ** A run: three instances register, and the lease of one lapses *)

Definition orders : list Registry.op :=
  [Registry.OpRegister 1 (Registry.plain "order" "10.0.0.3:80"); Registry.OpRegister 2 (Registry.plain "order" "10.0.0.4:80");
   Registry.OpRegister 3 (Registry.plain "order" "10.0.0.5:80"); Registry.OpLapse 3]%string.

Definition order_conns : list (nat * Address) :=
  [(0%nat, address (Registry.plain "order" "10.0.0.3:80")); (1%nat, address (Registry.plain "order" "10.0.0.4:80"))]%string.

(** After one pick, one round has both connections. *)
Lemma registered_instances_served_witness :
  exists p before p' round, rr_picks (rr_Build order_conns) 1 = Ret (p, before) /\
    rr_picks p 2 = Ret (p', inl <$> round) /\ NoDup round /\ 0%nat ∈ round /\ 1%nat ∈ round.
Proof.
  destruct (@registered_instances_served Registry.mem_etcd nat Registry.no_keys orders "order" (fun _ => None)
    (order_conns.*2) order_conns 1) as [(p & before & p' & round & Hb & Hr & Hnd & Hin & _) _].
  - reflexivity.
  - repeat (apply Forall_cons; split; [first [by apply Registry.plain_ok|exact I]|]). by apply Forall_nil.
  - vm_compute. reflexivity.
  - split; [done|]. apply (bool_decide_unpack _). vm_compute. exact I.
  - discriminate.
  - reflexivity.
  - exists p, before, p', round. split; [exact Hb|]. split; [exact Hr|]. split; [exact Hnd|].
    split; apply Hin.
    + exists (Registry.plain "order" "10.0.0.3:80"). split; [|by left].
      exists "/notification/order/10.0.0.3:80"%string, 1. split; vm_compute; reflexivity.
    + exists (Registry.plain "order" "10.0.0.4:80"). split; [|by right; left].
      exists "/notification/order/10.0.0.4:80"%string, 2. split; vm_compute; reflexivity.
Defined.
End Discovery.
