(* ===== verification/Watch.v ===== *)
(** * Watching a service: the goroutines of the resolver and of the registry

    internal/pkg/client/resolver/grpc_resolver.go ([Build], [watch], [ResolveNow],
    [Close]) and the goroutine of [Subscribe] in
    internal/pkg/registry/etcd/etcd_registry.go, as one step relation.

    The instances of the service are a version number, which every change of their
    keys increments.  [resolve] is two steps, as the code is: [ListService] reads the
    version, [UpdateState] gives it to the connection.  The channel between the two
    goroutines is unbuffered: sending and receiving are one step.  etcd delivers
    every change after a watch began; when [faulty] it also delivers errors and
    cancellations, may close the watch channel, and [ListService] may fail.  gRPC may
    call [ResolveNow] from a goroutine of its own when [now]. *)
From Stdlib Require Import ZArith Lia List.
From stdpp Require Import prelude strings gmap.
From S2P Require Import Prelude.

Module Watch.

#[local] Open Scope nat_scope.

(** What the watch channel of etcd delivers: whether [resp.Err()] is an error, and
    [resp.Canceled].  A closed channel delivers the zero value, [rchange]. *)
Record response := mkResponse { Err : bool; Canceled : bool }.

#[global] Instance response_eq_dec : EqDecision response.
Proof. solve_decision. Defined.

Definition rchange : response := mkResponse false false.

(** The goroutine of [Subscribe]: not started, in its [select], sending an event,
    returned. *)
Inductive sub_pc := SNone | SSelect | SSend | SStop.

#[global] Instance sub_pc_eq_dec : EqDecision sub_pc.
Proof. solve_decision. Defined.

(** What the goroutine does with a response. *)
Definition receive (resp : response) : sub_pc :=
  if Err resp then SSelect else if Canceled resp then SStop else SSend.

(** The resolver: the first resolution in [Build], the call of [Subscribe], and the
    loop of [watch]; an update carries the version that was listed. *)
Inductive res_pc := WBuildList | WBuildUpdate (v : nat) | WSubscribe | WSelect | WList | WUpdate (v : nat) | WStop.

(** [queue] and [wclosed] are the watch channel of etcd, [cancelled] the context of
    the subscription, [closed] the channel of the resolver; [seen] is the version the
    connection was last given, [base] the version at which the subscription began;
    [nows] are the versions listed by calls of [ResolveNow] that have not updated the
    connection yet. *)
Record state := mkState {
  ver : nat; queue : list response; wclosed : bool; sub : sub_pc; cancelled : bool;
  res : res_pc; closed : bool; seen : option nat; base : nat; nows : list nat }.

Definition init : state := mkState 0 [] false SNone false WBuildList false None 0 [].

Inductive step (now faulty : bool) : state -> state -> Prop :=
  (** the service and etcd *)
  | step_change_unwatched v q w c r cl se b ns :
      step now faulty (mkState v q w SNone c r cl se b ns) (mkState (S v) q w SNone c r cl se b ns)
  | step_change v q p c r cl se b ns :
      p <> SNone ->
      step now faulty (mkState v q false p c r cl se b ns) (mkState (S v) (q ++ [rchange]) false p c r cl se b ns)
  | step_change_unheard v q p c r cl se b ns :
      step now faulty (mkState v q true p c r cl se b ns) (mkState (S v) q true p c r cl se b ns)
  | step_fault v q p c r cl se b ns x :
      faulty = true -> p <> SNone -> x <> rchange ->
      step now faulty (mkState v q false p c r cl se b ns) (mkState v (q ++ [x]) false p c r cl se b ns)
  | step_close_watch v q p c r cl se b ns :
      p <> SNone -> faulty || c = true ->
      step now faulty (mkState v q false p c r cl se b ns) (mkState v q true p c r cl se b ns)
  (** the goroutine of [Subscribe] *)
  | step_done v q w r cl se b ns :
      step now faulty (mkState v q w SSelect true r cl se b ns) (mkState v q w SStop true r cl se b ns)
  | step_receive v x q w c r cl se b ns :
      step now faulty (mkState v (x :: q) w SSelect c r cl se b ns) (mkState v q w (receive x) c r cl se b ns)
  | step_receive_closed v c r cl se b ns :
      step now faulty (mkState v [] true SSelect c r cl se b ns) (mkState v [] true (receive rchange) c r cl se b ns)
  | step_event v q w c cl se b ns :
      step now faulty (mkState v q w SSend c WSelect cl se b ns) (mkState v q w SSelect c WList cl se b ns)
  (** the resolver *)
  | step_build_list v q w p c cl se b ns :
      step now faulty (mkState v q w p c WBuildList cl se b ns) (mkState v q w p c (WBuildUpdate v) cl se b ns)
  | step_build_fail v q w p c cl se b ns :
      faulty = true ->
      step now faulty (mkState v q w p c WBuildList cl se b ns) (mkState v q w p c WSubscribe cl se b ns)
  | step_build_update v q w p c cl se b ns v' :
      step now faulty (mkState v q w p c (WBuildUpdate v') cl se b ns) (mkState v q w p c WSubscribe cl (Some v') b ns)
  | step_subscribe v q w c cl se b ns :
      step now faulty (mkState v q w SNone c WSubscribe cl se b ns) (mkState v q w SSelect c WSelect cl se v ns)
  | step_list v q w p c cl se b ns :
      step now faulty (mkState v q w p c WList cl se b ns) (mkState v q w p c (WUpdate v) cl se b ns)
  | step_list_fail v q w p c cl se b ns :
      faulty = true ->
      step now faulty (mkState v q w p c WList cl se b ns) (mkState v q w p c WSelect cl se b ns)
  | step_update v q w p c cl se b ns v' :
      step now faulty (mkState v q w p c (WUpdate v') cl se b ns) (mkState v q w p c WSelect cl (Some v') b ns)
  | step_stop v q w p c se b ns :
      step now faulty (mkState v q w p c WSelect true se b ns) (mkState v q w p c WStop true se b ns)
  (** calls from outside: [ResolveNow] and [Close] of the resolver, [Close] of the
      registry, which cancels the subscriptions that exist *)
  | step_now_list v q w p c r cl se b ns :
      now = true ->
      step now faulty (mkState v q w p c r cl se b ns) (mkState v q w p c r cl se b (v :: ns))
  | step_now_update v q w p c r cl se b ns1 v' ns2 :
      step now faulty (mkState v q w p c r cl se b (ns1 ++ v' :: ns2)) (mkState v q w p c r cl (Some v') b (ns1 ++ ns2))
  | step_close v q w p c r se b ns :
      step now faulty (mkState v q w p c r false se b ns) (mkState v q w p c r true se b ns)
  | step_cancel v q w p r cl se b ns :
      p <> SNone ->
      step now faulty (mkState v q w p false r cl se b ns) (mkState v q w p true r cl se b ns).

Inductive reachable (now faulty : bool) : state -> Prop :=
  | reach_init : reachable now faulty init
  | reach_step s s' : reachable now faulty s -> step now faulty s s' -> reachable now faulty s'.

(** Both goroutines wait and nothing is on its way. *)
Definition quiet (s : state) : Prop :=
  queue s = [] /\ wclosed s = false /\ sub s = SSelect /\ res s = WSelect /\ nows s = [].

(** ** Freshness *)

(** A change that has not reached the resolver's listing yet. *)
Definition announced (s : state) : Prop := rchange ∈ queue s \/ sub s = SSend.

(** Whether the resolver has started to watch. *)
Definition watching (r : res_pc) : Prop :=
  match r with WBuildList | WBuildUpdate _ | WSubscribe => False | _ => True end.

Record inv (s : state) : Prop := {
  inv_nows : nows s = [];
  inv_watching : sub s <> SNone <-> watching (res s);
  inv_wclosed : wclosed s = true -> cancelled s = true;
  inv_update v : res s = WUpdate v -> v = ver s \/ announced s \/ cancelled s = true;
  inv_fresh : sub s <> SNone ->
    base s = ver s \/ announced s \/ res s = WList \/ res s = WUpdate (ver s) \/ seen s = Some (ver s) \/
    closed s = true \/ cancelled s = true }.

Lemma receive_announced x q : rchange ∈ x :: q -> rchange ∈ q \/ receive x = SSend.
Proof. intros [<-|H]%elem_of_cons; [by right|by left]. Qed.

Lemma receive_started x : receive x <> SNone.
Proof. unfold receive. by destruct (Err x), (Canceled x). Qed.

Lemma announced_last q : rchange ∈ q ++ [rchange].
Proof. apply elem_of_app. right. by apply elem_of_cons; left. Qed.

(** The freshness of a state, up to what the two disjunctive invariants share. *)
Ltac solve_fresh :=
  match goal with
  | |- _ \/ _ => first [left; solve [done | congruence | auto]|right; solve_fresh]
  | |- _ => solve [done | congruence | auto]
  end.

Lemma step_inv s s' : inv s -> step false false s s' -> inv s'.
Proof.
  intros [Hn Hw Hc Hup Hf] Hstep.
  pose proof announced_last as Hlast.
  destruct Hstep; simpl in *; try done.
  all: try (apply (f_equal length) in Hn; rewrite length_app in Hn; simpl in Hn; lia).
  all: try (pose proof (receive_announced x q) as Hra; pose proof (receive_started x) as Hrs).
  all: split; unfold announced in *; simpl in *; try done.
  all: try (split; [intros _; by apply Hw|by intros _]).
  all: try (intros v0 E; try injection E as <-; destruct (Hup v0 E) as [?|[[?|?]|?]]; solve_fresh).
  all: try (intros Hp; destruct Hf as [?|[[?|?]|[?|[?|[?|[?|?]]]]]]; [done|solve_fresh..]).
  - intros v0 ->. exfalso. by apply Hw.
  - intros Hp. exfalso. by destruct (proj1 Hw Hp).
  - by left.
  - intros v0 [= <-]. by left.
  - intros Hp. destruct (Hup v' eq_refl) as [->|[[?|?]|?]]; solve_fresh.
Qed.

Lemma inv_init : inv init.
Proof. split; simpl; try done. all: by intros []. Qed.

Lemma reachable_inv s : reachable false false s -> inv s.
Proof. induction 1; [apply inv_init|by eapply step_inv]. Qed.

Lemma quiet_fresh s :
  reachable false false s -> quiet s -> closed s = false -> cancelled s = false ->
  seen s = Some (ver s) \/ base s = ver s.
Proof.
  intros Hr (Hq & _ & Hs & Hp & _) Hc Hx. destruct (reachable_inv s Hr) as [_ _ _ _ Hf].
  unfold announced in Hf. rewrite Hq, Hs, Hp, Hc, Hx in Hf.
  destruct Hf as [?|[[H|?]|[?|[?|[?|[?|?]]]]]]; try done; [by right|by apply elem_of_nil in H|by left].
Qed.

(** C27: Without faults of etcd, concurrent calls of [ResolveNow], [Close] or a
    cancellation, when both goroutines wait and nothing is on its way, the connection
    has the current instances of the service, unless they have not changed since the
    subscription began. *)
Theorem watch_fresh s :
  reachable false false s -> quiet s -> closed s = false -> cancelled s = false ->
  seen s = Some (ver s) \/ base s = ver s.
Proof. apply quiet_fresh. Qed.

(** ** Progress *)

(** Without faults only changes are delivered, and the loops do not end before they
    are told to. *)
Record good (s : state) : Prop := {
  good_queue : Forall (eq rchange) (queue s);
  good_stop : sub s = SStop -> cancelled s = true;
  good_rstop : res s = WStop -> closed s = true;
  good_unwatched : sub s = SNone -> queue s = [] }.

Lemma reachable_good s : reachable false false s -> good s.
Proof.
  induction 1 as [|s s' Hr [Hq Hst Hrs Hun] Hstep]; [by split|].
  destruct Hstep; simpl in *; try done; split; simpl in *; try done; try (by auto).
  - apply Forall_app. split; [done|by repeat constructor].
  - by inversion Hq.
  - inversion Hq; subst. done.
  - intros E. by destruct (receive_started x).
Qed.

(** A step of the two goroutines, or of the first resolution: nothing changes in the
    service, and nobody calls from outside. *)
Definition own (s s' : state) : Prop :=
  step false false s s' /\ ver s' = ver s /\ closed s' = closed s /\ cancelled s' = cancelled s.

(** What is left to do: each response in the channel is received, sent as an event,
    listed and given to the connection. *)
Definition res_work (r : res_pc) : nat :=
  match r with WBuildList => 3 | WBuildUpdate _ => 2 | WSubscribe => 1 | WList => 2 | WUpdate _ => 1 | _ => 0 end.
Definition work (s : state) : nat :=
  4 * length (queue s) + (if sub s is SSend then 3 else 0) + res_work (res s).

Lemma own_work s s' : good s -> inv s -> closed s = false -> cancelled s = false -> own s s' -> work s' < work s.
Proof.
  intros [Hq _ _ _] [Hn _ Hcl _ _] Hc Hx [Hstep (Hv & Hc' & Hx')]. unfold work.
  destruct Hstep; simpl in *; try congruence; try lia.
  - destruct (receive x); lia.
  - specialize (Hcl eq_refl). congruence.
  - by destruct ns1.
Qed.

(** A state that is not at rest can go on by itself. *)
Lemma own_next s :
  good s -> inv s -> closed s = false -> cancelled s = false -> quiet s \/ exists s', own s s'.
Proof.
  intros [Hq Hst Hrs Hun] [Hn Hw Hcl _ _] Hc Hx.
  destruct s as [v q w p c r cl se b ns]; simpl in *; subst cl c ns.
  destruct w; [by specialize (Hcl eq_refl)|].
  assert (Hp : p = SNone \/ p = SSelect \/ p = SSend) by (destruct p; [by left|by right; left|by right; right|by specialize (Hst eq_refl)]).
  destruct r as [|v'| | | |v'|].
  - right. eexists. split; [apply step_build_list|done].
  - right. eexists. split; [apply step_build_update|done].
  - destruct (decide (p = SNone)) as [->|Hne]; [|by destruct (proj1 Hw Hne)].
    right. eexists. split; [apply step_subscribe|done].
  - destruct Hp as [-> | [-> | ->]]; [by destruct (proj2 Hw I)| |].
    + destruct q as [|x q]; [by left|]. right. eexists. split; [apply step_receive|done].
    + right. eexists. split; [apply step_event|done].
  - right. eexists. split; [apply step_list|done].
  - right. eexists. split; [apply step_update|done].
  - by specialize (Hrs eq_refl).
Qed.

Lemma own_keeps s s' :
  rtc own s s' -> reachable false false s ->
  reachable false false s' /\ ver s' = ver s /\ closed s' = closed s /\ cancelled s' = cancelled s.
Proof.
  induction 1 as [s|s s1 s' (Hst & Hv & Hc & Hx) _ IH]; [done|]. intros Hr.
  destruct (IH (reach_step _ _ _ _ Hr Hst)) as (Hr' & Hv' & Hc' & Hx'). split; [done|]. by rewrite Hv', Hc', Hx'.
Qed.

(** C28: Without faults, concurrent calls of [ResolveNow], [Close] or a cancellation,
    the goroutines settle whatever their scheduling: from every state they can reach,
    and as long as the service does not change again, every run of their own steps ends,
    after at most four steps for each announced change and six more, and it can end only
    where both wait, nothing is on its way, and the connection has the current instances
    unless they have not changed since the subscription began. *)
Theorem watch_settles s :
  reachable false false s -> closed s = false -> cancelled s = false ->
  (forall n s', nsteps own n s s' -> n <= work s) /\ work s <= 4 * length (queue s) + 6 /\
  (forall s', rtc own s s' -> (forall s'', ~ own s' s'') ->
     quiet s' /\ (seen s' = Some (ver s) \/ base s' = ver s)).
Proof.
  intros Hr Hc Hx. split; [|split].
  - intros n s' Hn. assert (H : n + work s' <= work s); [|lia].
    induction Hn as [|n s s1 s' Hown _ IH]; [done|].
    pose proof (own_work s s1 (reachable_good s Hr) (reachable_inv s Hr) Hc Hx Hown) as Hlt.
    destruct Hown as (Hst & _ & Hc1 & Hx1). specialize (IH (reach_step _ _ _ _ Hr Hst)).
    rewrite Hc1, Hx1 in IH. specialize (IH Hc Hx). lia.
  - unfold work. destruct (sub s), (res s); simpl; lia.
  - intros s' Hrtc Hstuck. destruct (own_keeps s s' Hrtc Hr) as (Hr' & Hv & Hc' & Hx'). rewrite Hc in Hc'. rewrite Hx in Hx'.
    destruct (own_next s' (reachable_good s' Hr') (reachable_inv s' Hr') Hc' Hx') as [Hq|[s'' Hs'']]; [|by destruct (Hstuck s'')].
    split; [done|]. rewrite <- Hv. by apply quiet_fresh.
Qed.

(** ** What can go wrong *)

(** A change between the first resolution and the subscription is not noticed: the
    goroutines wait with nothing on its way, and the connection has instances that
    are no longer the service's, without any fault. *)
Theorem subscription_window :
  exists s, reachable false false s /\ quiet s /\ closed s = false /\ cancelled s = false /\
    seen s = Some 0 /\ ver s = 1.
Proof.
  exists (mkState 1 [] false SSelect false WSelect false (Some 0) 1 []). split; [|done].
  eapply reach_step; [|apply step_subscribe]. eapply reach_step; [|apply step_change_unwatched].
  eapply reach_step; [|apply step_build_update]. eapply reach_step; [|apply step_build_list]. apply reach_init.
Qed.

(** When gRPC calls [ResolveNow] while the watching goroutine resolves, the older
    listing can be given to the connection last: a change after the subscription
    began, which etcd announced and [watch] resolved, is undone. *)
Theorem resolve_now_race :
  exists s, reachable true false s /\ quiet s /\ closed s = false /\ cancelled s = false /\
    base s = 0 /\ seen s = Some 0 /\ ver s = 1.
Proof.
  exists (mkState 1 [] false SSelect false WSelect false (Some 0) 0 []). split; [|done].
  eapply reach_step; [|by apply (step_now_update _ _ 1 [] false SSelect false WSelect false (Some 1) 0 [] 0 [])].
  eapply reach_step; [|apply step_update]. eapply reach_step; [|apply step_list].
  eapply reach_step; [|apply step_event]. eapply reach_step; [|by apply (step_receive _ _ _ rchange)].
  eapply reach_step; [|by apply (step_change _ _ 0 [])]. eapply reach_step; [|by apply step_now_list].
  eapply reach_step; [|apply step_subscribe].
  eapply reach_step; [|apply step_build_update]. eapply reach_step; [|apply step_build_list]. apply reach_init.
Qed.

(** The goroutine of a subscription sends to a resolver that no longer receives. *)
Definition leaked (s : state) : Prop := sub s = SSend /\ res s = WStop.

(** The goroutine of [Subscribe] can be left behind: a resolver that is closed
    while an event is being sent leaves it in the send forever, and closing the
    registry, which cancels the subscription, does not free it. *)
Theorem subscriber_leaks now faulty :
  (exists s, reachable now faulty s /\ leaked s) /\
  (forall s s', leaked s -> rtc (step now faulty) s s' -> leaked s').
Proof.
  split.
  - exists (mkState 1 [] false SSend false WStop true (Some 0) 0 []). split; [|done].
    eapply reach_step; [|apply step_stop]. eapply reach_step; [|apply step_close].
    eapply reach_step; [|by apply (step_receive _ _ _ rchange)].
    eapply reach_step; [|by apply (step_change _ _ 0 [])]. eapply reach_step; [|apply step_subscribe].
    eapply reach_step; [|apply step_build_update]. eapply reach_step; [|apply step_build_list]. apply reach_init.
  - intros s s' Hl H. induction H as [|s s1 s' Hstep _ IH]; [done|]. apply IH.
    destruct Hl as [Hs Hr]. destruct Hstep; simpl in *; by try subst.
Qed.

(** When etcd closes the watch channel, the goroutine of [Subscribe] does not
    return: it takes the zero value for a change, and the two goroutines list the
    service again and again while it does not change. *)
Theorem closed_watch_spins now faulty v b :
  let s := mkState v [] true SSelect false WSelect false (Some v) b [] in
  tc (step now faulty) s s.
Proof.
  simpl. eapply tc_l; [apply step_receive_closed|]. eapply tc_l; [apply step_event|].
  eapply tc_l; [apply step_list|]. apply tc_once, step_update.
Qed.

(** A state [watch_fresh] and [watch_settles] apply to: the service changed once. *)
Lemma one_change : reachable false false (mkState 1 [] false SSelect false WSelect false (Some 1) 0 []).
Proof.
  eapply reach_step; [|apply step_update]. eapply reach_step; [|apply step_list].
  eapply reach_step; [|apply step_event]. eapply reach_step; [|by apply (step_receive _ _ _ rchange)].
  eapply reach_step; [|by apply (step_change _ _ 0 [])]. eapply reach_step; [|apply step_subscribe].
  eapply reach_step; [|apply step_build_update]. eapply reach_step; [|apply step_build_list]. apply reach_init.
Qed.

Lemma watch_fresh_witness :
  let s := mkState 1 [] false SSelect false WSelect false (Some 1) 0 [] in
  seen s = Some (ver s) \/ base s = ver s.
Proof. exact (watch_fresh _ one_change (conj eq_refl (conj eq_refl (conj eq_refl (conj eq_refl eq_refl)))) eq_refl eq_refl). Defined.

(** From the start: three steps, to the first wait. *)
Lemma watch_settles_witness :
  (forall n s', nsteps own n init s' -> n <= 3) /\
  forall s', rtc own init s' -> (forall s'', ~ own s' s'') -> quiet s'.
Proof.
  destruct (watch_settles init (reach_init _ _) eq_refl eq_refl) as (Hn & _ & Hend). split; [exact Hn|].
  intros s' Hs Hst. exact (proj1 (Hend s' Hs Hst)).
Defined.

End Watch.
