(* ===== verification/Jwt.v ===== *)
(** * The JWT interceptor: internal/api/grpc/interceptor/jwt/jwt_interceptor.go

    Every request must carry a token signed with the server's key; the business
    id and key of its claims go into the context of the handler.

    github.com/golang-jwt/jwt is a class: parsing a token asks a function for the
    key, by the token's method, and answers only with claims signed under it, until
    they expire. *)
From Stdlib Require Import ZArith Lia List SpecFloat Ascii.
From stdpp Require Import prelude strings gmap countable.
From S2P Require Import Prelude GoLang GoFloat Errs GoStrings GoJson Domain Sharding Context GrpcClients.

(** Values of claims: numbers of a decoded token are [float64]s. *)
Inductive claim := CInt (n : Z) | CFloat (f : spec_float) | CStr (s : string) | COther.

Abbreviation MapClaims := (gmap string claim) (only parsing).

(** What [jwt.Parse] returns: the method and name of the algorithm, the claims
    when they are [MapClaims], and whether the token is valid. *)
Record Token := mkToken { is_ed25519 : bool; alg : string; Claims : option (gmap string claim); token_Valid : bool }.

(** What a claim of a new token is read back as: numbers become [float64]s. *)
Definition decoded (c : claim) : claim := match c with CInt n => CFloat (float64 n) | _ => c end.

(** The claims the JSON of a token carries: integers of 64 bits, finite floats and
    text.  Validation looks at [nbf] too, which the program does not set. *)
Definition claim_ok (c : claim) : Prop :=
  match c with
  | CInt n => - 2 ^ 63 <= n < 2 ^ 64
  | CFloat (S754_finite _ _ _ as f) => valid_binary prec emax f = true
  | CFloat (S754_zero _) => True
  | CFloat _ => False
  | CStr s => utf8 s
  | COther => False
  end.

Definition claims_ok (c : gmap string claim) : Prop :=
  c !! "nbf"%string = None /\ map_Forall (fun k v => utf8 k /\ claim_ok v) c.

Definition ErrTokenExpired : sentinel := SExtern jwt_ErrTokenExpired.
Definition ErrTokenSignatureInvalid : sentinel := SExtern jwt_ErrTokenSignatureInvalid.

Class JwtLib := {
  PrivateKey : Type;
  PublicKey : Type;
  (** The text is a token with these claims, signed by the owner of the key. *)
  Signed : PublicKey -> string -> gmap string claim -> Prop;
  keypair : PrivateKey -> PublicKey -> Prop;
  (** Parsing reads the clock, to see whether the token has expired. *)
  Parse : Time -> string -> (bool -> string -> PublicKey + error) -> Token + error;
  SignedString : gmap string claim -> PrivateKey -> string + error;
  Parse_signed now s kf t c : Parse now s kf = inl t -> token_Valid t = true -> Claims t = Some c ->
    exists key, kf (is_ed25519 t) (alg t) = inl key /\ Signed key s c;
  SignedString_ok pri pub c : keypair pri pub -> claims_ok c -> exists s, SignedString c pri = inl s;
  (** A token signed with ed25519 is valid until the second it expires in. *)
  Parse_SignedString now pri pub c s kf e :
    keypair pri pub -> claims_ok c -> SignedString c pri = inl s -> kf true "EdDSA"%string = inl pub ->
    c !! "exp"%string = Some (CInt e) -> 0 < e < 2 ^ 53 ->
    if Before now (time_Unix e 0)
    then Parse now s kf = inl (mkToken true "EdDSA" (Some (decoded <$> c)) true)
    else exists err, Parse now s kf = inr err /\ errors_Is err ErrTokenExpired = true }.

(** [codes.Unauthenticated]. *)
Definition Unauthenticated : Z := 16.

Module Jwt.
Section jwt.
Context `{JwtLib}.
Variable other : spec_float -> Z.

Definition paramNameBizId : string := "biz_id".
Definition paramNameBizKey : string := "biz_key".

Record InterceptorBuilder := mkBuilder { priKey : PrivateKey; pubKey : PublicKey }.

Definition Builder (privateKey : PrivateKey) (publicKey : PublicKey) : InterceptorBuilder :=
  mkBuilder privateKey publicKey.

(** The given claims replace the standard ones; the token expires after a day
    unless they say otherwise. *)
Definition encode_claims (now now' : Time) (customClaims : gmap string claim) : gmap string claim :=
  let claims : gmap string claim := {[ "iat"%string := CInt (Unix now); "iss"%string := CStr "jotify" ]} in
  let claims := customClaims ∪ claims in
  match claims !! "exp"%string with
  | Some _ => claims
  | None => <["exp"%string := CInt (Unix (Add now' (i64 (24 * Hour))))]> claims
  end.

Definition Encode (b : InterceptorBuilder) (now now' : Time) (customClaims : gmap string claim) : string + error :=
  SignedString (encode_claims now now' customClaims) (priKey b).

Definition keyFunc (b : InterceptorBuilder) (ed25519 : bool) (alg : string) : PublicKey + error :=
  if negb ed25519 then inr (ENew ("unsupport sign algorithm: " +:+ alg)) else inl (pubKey b).

Definition Decode (b : InterceptorBuilder) (now : Time) (tokenStr : string) : gmap string claim + error :=
  let tokenStr := TrimPrefix tokenStr "Bearer " in
  match Parse now tokenStr (keyFunc b) with
  | inr err => inr (Errorf_pw "fail to decode token: " err)
  | inl token =>
      match Claims token with
      | Some claims => if token_Valid token then inl claims else inr (ENew "invalid token")
      | None => inr (ENew "invalid token")
      end
  end.

(** [other] is what the conversion yields for a value that is no uint64. *)
Definition uint64_of (f : spec_float) : Z := match trunc_float f with Some v => v | None => other f end.

(** The claims into the context; a claim of another type panics. *)
Definition add_claims (mc : gmap string claim) (ctx : list (ctx_key * any)) : go (list (ctx_key * any)) :=
  let! ctx :=
    match mc !! paramNameBizId with
    | None => Ret ctx
    | Some (CFloat f) => Ret (WithBizId ctx (uint64_of f))
    | Some _ => Panic "interface conversion: interface {} is not float64"
    end in
  match mc !! paramNameBizKey with
  | None => Ret ctx
  | Some (CStr bizKey) => Ret (WithBizKey ctx bizKey)
  | Some _ => Panic "interface conversion: interface {} is not string"
  end.

Section interceptor.
Context {S Req Info Resp : Type} (nilResp : Resp).

Definition refuse (s : S) (msg : string) : go (S * (Resp * option error)) :=
  Ret (s, (nilResp, Some (EStatus Unauthenticated msg))).

(** [md] is the metadata of the request: the values of each header. *)
Definition Build (b : InterceptorBuilder) (now : Time) (md : option (string -> list string))
    : S -> list (ctx_key * any) -> Req -> Info ->
      (S -> list (ctx_key * any) -> Req -> go (S * (Resp * option error))) -> go (S * (Resp * option error)) :=
  fun s ctx req info handler =>
    match md with
    | None => refuse s "missing metadata"
    | Some md =>
        match md "authorization"%string with
        | [] => refuse s "missing authorization token"
        | tokenStr :: _ =>
            match Decode b now tokenStr with
            | inr err =>
                if errors_Is err ErrTokenExpired then refuse s "token expired"
                else if errors_Is err ErrTokenSignatureInvalid then refuse s "invalid signature"
                else refuse s ("invalid token: " +:+ Error err)
            | inl mc => let! ctx := add_claims mc ctx in handler s ctx req
            end
        end
    end.

Lemma Decode_signed b now tokenStr mc :
  Decode b now tokenStr = inl mc -> Signed (pubKey b) (TrimPrefix tokenStr "Bearer ") mc.
Proof using Type.
  unfold Decode. destruct (Parse _ _ _) as [t|e] eqn:E; [|done].
  destruct (Claims t) as [c|] eqn:Ec; [|done]. destruct (token_Valid t) eqn:Ev; [|done]. intros [= <-].
  destruct (Parse_signed _ _ _ _ _ E Ev Ec) as (key & Hk & Hs). unfold keyFunc in Hk.
  destruct (negb _); [done|]. by injection Hk as ->.
Qed.

(** What the handler's context says of the business. *)
Lemma add_claims_spec mc ctx ctx' :
  add_claims mc ctx = Ret ctx' ->
  BizIdFromContext ctx' =
    match mc !! paramNameBizId with Some (CFloat f) => (uint64_of f, true) | _ => BizIdFromContext ctx end /\
  BizKeyFromContext ctx' =
    match mc !! paramNameBizKey with Some (CStr k) => (k, true) | _ => BizKeyFromContext ctx end.
Proof using Type.
  unfold add_claims. intros Hc. apply go_bind_ret in Hc as (ctx1 & H1 & H2).
  destruct (mc !! paramNameBizId) as [[n|f|k|]|]; simplify_eq;
    destruct (mc !! paramNameBizKey) as [[n'|f'|k'|]|]; simplify_eq; done.
Qed.

(** The handler is called only for a request whose first authorization header
    is a token signed under the server's key, with the business id and key of its
    claims in the context; every other request is answered with Unauthenticated
    and the handler is not called, unless a claim has the wrong type, which
    panics. *)
Theorem jwt_guards_handler b now md s ctx req info handler r :
  Build b now md s ctx req info handler = r ->
  (exists msg, r = refuse s msg) \/
  exists md' tokenStr rest mc, md = Some md' /\ md' "authorization"%string = tokenStr :: rest /\
    Signed (pubKey b) (TrimPrefix tokenStr "Bearer ") mc /\
    ((exists ctx', add_claims mc ctx = Ret ctx' /\ r = handler s ctx' req /\
        BizIdFromContext ctx' =
          match mc !! paramNameBizId with Some (CFloat f) => (uint64_of f, true) | _ => BizIdFromContext ctx end /\
        BizKeyFromContext ctx' =
          match mc !! paramNameBizKey with Some (CStr k) => (k, true) | _ => BizKeyFromContext ctx end) \/
     exists msg, r = Panic msg).
Proof using Type.
  intros <-. unfold Build. destruct md as [md|]; [|left; by eexists].
  destruct (md "authorization"%string) as [|tokenStr rest] eqn:Eh; [left; by eexists|].
  destruct (Decode b now tokenStr) as [mc|err] eqn:Ed.
  - right. exists md, tokenStr, rest, mc. split; [done|]. split; [done|]. split; [by eapply Decode_signed|].
    destruct (add_claims mc ctx) as [ctx'|msg] eqn:Ec; [left|right; by exists msg].
    exists ctx'. split; [done|]. split; [done|]. by apply add_claims_spec.
  - left. destruct (errors_Is err ErrTokenExpired); [by eexists|].
    destruct (errors_Is err ErrTokenSignatureInvalid); by eexists.
Qed.

(** ** Tokens that are read back *)

(** A clock reading after 1970. *)
Definition recent (t : Time) : Prop := time_ok t /\ 0 <= Unix t < 2 ^ 50.

Lemma recent_sec t : recent t -> t_sec t = Unix t + unixToInternal.
Proof using Type.
  intros [[Hs _] Hu]. unfold Unix, in_s in *.
  destruct (Z.ltb_spec (t_sec t) (- 2 ^ 63 + unixToInternal)) as [Hl|Hl].
  - exfalso. unfold wrap_s in Hu. change (2 ^ (64 - 1)) with (2 ^ 63) in Hu.
    rewrite <- (mod_shift (t_sec t - unixToInternal + 2 ^ 63 + 2 ^ 64) _ _ eq_refl) in Hu.
    rewrite Z.mod_small in Hu; unfold unixToInternal in *; lia.
  - rewrite (wrap_s_id 64); [lia|done|]. unfold in_s, unixToInternal in *. lia.
Qed.

(** A token made at [now] expires after the seconds of a day. *)
Lemma expires_after_day now t :
  recent now -> recent t ->
  Unix (Add now (i64 (24 * Hour))) = Unix now + 86400 /\
  Before t (time_Unix (Unix now + 86400) 0) = (Unix t <? Unix now + 86400).
Proof using Type.
  intros Hn Ht. pose proof (recent_sec _ Hn). pose proof (recent_sec _ Ht).
  destruct Hn as [[_ Hn] Hu], Ht as [[_ Ht] Hut]. set (un := Unix now) in *. set (ut := Unix t) in *.
  replace (i64 (24 * Hour)) with (86400 * Second) by done. split.
  - unfold Unix, Add. simpl. rewrite Z.div_add by done.
    rewrite (Z.div_small (t_nsec now)) by done. 
    unfold unixToInternal in *.
    rewrite (wrap_s_id 64 ltac:(lia) (t_sec now + _)), (wrap_s_id 64) by (done || unfold in_s; lia). lia.
  - unfold time_Unix. rewrite Z.div_0_l, Z.mod_0_l by done.
    rewrite (wrap_s_id 64) by (done || unfold in_s, unixToInternal in *; lia). unfold Before. simpl.
    destruct (Z.ltb_spec ut (un + 86400)); [rewrite (proj2 (Z.ltb_lt _ _)) by lia; done|].
    rewrite (proj2 (Z.ltb_ge _ _)), (proj2 (Z.ltb_ge (t_nsec t) 0)) by lia. apply andb_false_r.
Qed.

(** A token with its own claims, encoded and decoded. *)
Lemma Decode_Encode b now now' t claims tok e :
  keypair (priKey b) (pubKey b) -> claims_ok (encode_claims now now' claims) ->
  encode_claims now now' claims !! "exp"%string = Some (CInt e) -> 0 < e < 2 ^ 53 ->
  Encode b now now' claims = inl tok ->
  if Before t (time_Unix e 0)
  then Decode b t ("Bearer " +:+ tok) = inl (decoded <$> encode_claims now now' claims)
  else exists err, Decode b t ("Bearer " +:+ tok) = inr err /\ errors_Is err ErrTokenExpired = true.
Proof using Type.
  intros Hk Hc He Hr Hs. unfold Decode. rewrite TrimPrefix_append.
  pose proof (Parse_SignedString t _ _ _ _ (keyFunc b) _ Hk Hc Hs eq_refl He Hr) as Hp.
  destruct (Before t _); [by rewrite Hp|]. destruct Hp as (err & -> & Herr).
  eexists. split; [done|]. simpl. by rewrite Herr.
Qed.

(** The claims that name a business. *)
Definition business (bizId : Z) (bizKey : string) : gmap string claim :=
  {[ paramNameBizId := CInt bizId; paramNameBizKey := CStr bizKey ]}.

Lemma business_claims now now' bizId bizKey :
  recent now -> recent now' -> 0 <= bizId < 2 ^ 53 -> utf8 bizKey ->
  let c := encode_claims now now' (business bizId bizKey) in
  claims_ok c /\ c !! "exp"%string = Some (CInt (Unix now' + 86400)) /\
  c !! paramNameBizId = Some (CInt bizId) /\ c !! paramNameBizKey = Some (CStr bizKey).
Proof using Type.
  intros Hn Hn' Hb Hk. unfold encode_claims, business.
  destruct (expires_after_day now' now' Hn' Hn') as [-> _].
  destruct Hn as [_ Hu], Hn' as [_ Hu']. simpl. split_and!; [|done..].
  split; [done|].
  change (map_Forall (fun k v => utf8 k /\ claim_ok v)
    (<["exp"%string := CInt (Unix now' + 86400)]>
       ({[ paramNameBizId := CInt bizId; paramNameBizKey := CStr bizKey ]} ∪
        {[ "iat"%string := CInt (Unix now); "iss"%string := CStr "jotify" ]}) : gmap string claim)).
  apply map_Forall_insert_2; [|apply map_Forall_union_2; apply map_Forall_insert_2; [|apply map_Forall_singleton| |apply map_Forall_singleton]];
    (split; [by apply ascii_utf8|simpl; try lia; try done; by apply ascii_utf8]).
Qed.

(** C30: A token that [Encode] makes for a business with an id below 2^53 names it to the
    handler until the second, a day later, in which it expires; from then on a request
    that carries it is refused with "token expired", and the handler is not called.  The
    id makes the trip as a float64: see [large_business_id_rounds] for larger ones. *)
Theorem token_identifies_business b now now' t bizId bizKey tok md rest s ctx req info handler :
  keypair (priKey b) (pubKey b) -> recent now -> recent now' -> recent t -> 0 <= bizId < 2 ^ 53 -> utf8 bizKey ->
  Encode b now now' (business bizId bizKey) = inl tok ->
  md "authorization"%string = ("Bearer " +:+ tok) :: rest ->
  Build b t (Some md) s ctx req info handler =
    if Unix t <? Unix now' + 86400
    then handler s (WithBizKey (WithBizId ctx bizId) bizKey) req
    else refuse s "token expired".
Proof using Type.
  intros Hp Hn Hn' Ht Hb Hk He Hmd. unfold Build. rewrite Hmd.
  destruct (business_claims now now' bizId bizKey Hn Hn' Hb Hk) as (Hok & Hexp & Hid & Hkey).
  assert (Hr : 0 < Unix now' + 86400 < 2 ^ 53) by (destruct Hn' as [_ ?]; lia).
  pose proof (Decode_Encode b now now' t _ tok _ Hp Hok Hexp Hr He) as Hd.
  rewrite (proj2 (expires_after_day now' t Hn' Ht)) in Hd.
  destruct (Unix t <? Unix now' + 86400).
  - rewrite Hd. unfold add_claims. rewrite !lookup_fmap, Hid, Hkey. simpl.
    unfold uint64_of. by rewrite trunc_float64.
  - destruct Hd as (err & -> & ->). done.
Qed.

(** The program's own tokens are always made. *)
Lemma Encode_ok b now now' claims :
  keypair (priKey b) (pubKey b) -> claims_ok (encode_claims now now' claims) ->
  exists tok, Encode b now now' claims = inl tok.
Proof using Type. intros Hp Hc. by apply (SignedString_ok _ (pubKey b)). Qed.
End interceptor.
End jwt.

(** ** Runs: tokens that spell out their claims, unforgeable by fiat *)

#[local] Instance claim_eq_dec : EqDecision claim.
Proof. solve_decision. Defined.

#[local] Program Instance claim_countable : Countable claim :=
  inj_countable
    (fun c => match c with
              | CInt n => inl (inl n) | CFloat f => inl (inr f) | CStr s => inr (Some s) | COther => inr None
              end : (Z + spec_float) + option string)
    (fun x => Some match x with
              | inl (inl n) => CInt n | inl (inr f) => CFloat f | inr (Some s) => CStr s | inr None => COther
              end) _.
Next Obligation. by intros []. Qed.

(** The bits of a number as text. *)
Fixpoint bits (p : positive) : string :=
  match p with xH => "" | xO p => String "0"%char (bits p) | xI p => String "1"%char (bits p) end.

Fixpoint unbits (s : string) : positive :=
  match s with
  | EmptyString => xH
  | String c s => if Ascii.eqb c "1"%char then xI (unbits s) else xO (unbits s)
  end.

Lemma unbits_bits p : unbits (bits p) = p.
Proof. by induction p as [p IH|p IH|]; simpl; rewrite ?IH. Qed.

Definition plain_prefix (key : string) : string := ("signed by " +:+ key +:+ ": ")%string.

Definition plain_expired (now : Time) (c : gmap string claim) : bool :=
  match c !! "exp"%string with Some (CInt e) => negb (Before now (time_Unix e 0)) | _ => false end.

Definition plain_parse (now : Time) (s : string) (kf : bool -> string -> string + error) : Token + error :=
  match kf true "EdDSA"%string with
  | inr e => inr e
  | inl key =>
      if HasPrefix s (plain_prefix key) then
        match decode (unbits (TrimPrefix s (plain_prefix key))) with
        | Some c =>
            if plain_expired now c then inr (ESentinel ErrTokenExpired "token is expired")
            else inl (mkToken true "EdDSA" (Some (decoded <$> c)) true)
        | None => inr (ENew "token is malformed")
        end
      else inr (ESentinel ErrTokenSignatureInvalid "token signature is invalid")
  end.

#[global] Program Instance plain_jwt : JwtLib := {|
  PrivateKey := string;
  PublicKey := string;
  keypair pri pub := pri = pub;
  Signed key s c := exists c0, decode (unbits (TrimPrefix s (plain_prefix key))) = Some c0 /\ c = decoded <$> c0 /\
                    HasPrefix s (plain_prefix key) = true;
  Parse := plain_parse;
  SignedString c key := inl (plain_prefix key +:+ bits (encode c))%string |}.
Next Obligation.
  intros now s kf t c. unfold plain_parse. destruct (kf true "EdDSA"%string) as [key|e] eqn:E; [|done].
  destruct (HasPrefix _ _) eqn:Ep; [|done]. destruct (decode _) as [c0|] eqn:Ed; [|done].
  destruct (plain_expired now c0); [done|]. intros [= <-] _ [= <-]. exists key. split; [done|]. by exists c0.
Qed.
Next Obligation. intros pri pub c _ _. by eexists. Qed.
Next Obligation.
  intros now pri pub c s kf e -> _ [= <-] Hk He _. unfold plain_parse. rewrite Hk.
  unfold HasPrefix. rewrite prefix_append_string, TrimPrefix_append, unbits_bits, decode_encode.
  unfold plain_expired. rewrite He. destruct (Before now _); [done|]. simpl. eexists. by split.
Qed.

Definition plain_builder : InterceptorBuilder := @Builder plain_jwt "k" "k".

(** A token of business 7. *)
Definition plain_token : string :=
  match Encode plain_builder now2025 now2025 (business 7 "order") with inl tok => tok | inr _ => "" end.

Definition plain_header (h : string) : list string :=
  if String.eqb h "authorization" then [("Bearer " +:+ plain_token)%string] else [].

Lemma jwt_guards_handler_witness :
  let handler (s : nat) ctx (_ : unit) : go (nat * (bool * option error)) :=
    Ret (S s, (bool_decide (BizIdFromContext ctx = (7, true)), None)) in
  (exists msg, Build (fun _ => 0) false plain_builder now2025 (Some plain_header) 0%nat [] tt tt handler = refuse false 0%nat msg) \/
  Build (fun _ => 0) false plain_builder now2025 (Some plain_header) 0%nat [] tt tt handler = Ret (1%nat, (true, None)).
Proof.
  intros handler.
  destruct (@jwt_guards_handler plain_jwt (fun _ => 0) nat unit unit bool false plain_builder now2025 (Some plain_header)
              0%nat [] tt tt handler _ eq_refl)
    as [Hl|_]; [left; exact Hl|right; vm_compute; reflexivity].
Defined.

Lemma token_identifies_business_witness :
  let handler (s : nat) ctx (_ : unit) : go (nat * (Z * string * option error)) :=
    Ret (S s, ((BizIdFromContext ctx).1, (BizKeyFromContext ctx).1, None)) in
  Build (fun _ => 0) (0, ""%string) plain_builder (Add now2025 Hour) (Some plain_header) 0%nat [] tt tt handler =
    Ret (1%nat, (7, "order"%string, None)) /\
  Build (fun _ => 0) (0, ""%string) plain_builder (Add now2025 (24 * Hour)) (Some plain_header) 0%nat [] tt tt handler =
    refuse (0, ""%string) 0%nat "token expired".
Proof.
  intros handler.
  assert (H0 : recent now2025) by (unfold recent, time_ok, in_s; split_and!; vm_compute; congruence).
  assert (H1 : recent (Add now2025 Hour)) by (unfold recent, time_ok, in_s; split_and!; vm_compute; congruence).
  assert (H24 : recent (Add now2025 (24 * Hour))) by (unfold recent, time_ok, in_s; split_and!; vm_compute; congruence).
  split.
  - exact (@token_identifies_business plain_jwt (fun _ => 0) nat unit unit (Z * string) (0, ""%string) plain_builder
      now2025 now2025 (Add now2025 Hour) 7 "order" plain_token plain_header [] 0%nat [] tt tt handler
      eq_refl H0 H0 H1 ltac:(lia) (ascii_utf8 "order" eq_refl) eq_refl eq_refl).
  - exact (@token_identifies_business plain_jwt (fun _ => 0) nat unit unit (Z * string) (0, ""%string) plain_builder
      now2025 now2025 (Add now2025 (24 * Hour)) 7 "order" plain_token plain_header [] 0%nat [] tt tt handler
      eq_refl H0 H0 H24 ltac:(lia) (ascii_utf8 "order" eq_refl) eq_refl eq_refl).
Defined.

(** An id of 2^53 + 1 is taken for 2^53. *)
Example large_business_id_rounds :
  add_claims (fun _ => 0) (decoded <$> business (2 ^ 53 + 1) "order") [] =
  Ret (WithBizKey (WithBizId [] (2 ^ 53)) "order").
Proof. vm_compute. reflexivity. Qed.
End Jwt.
