(* ===== verification/Wiring.v ===== *)
(** * Wiring: internal/ioc

    The parts of the dependency injection that have a logic of their own: the life
    cycle of the application (app.go) and the watch that changes the number of
    tables a process may lock (scheduler.go).  The rest of the directory passes
    configuration to constructors. *)
From Stdlib Require Import ZArith Lia List Ascii.
From stdpp Require Import prelude strings gmap.
From S2P Require Import Prelude GoLang Errs GoStrings Externals Domain RwBalancer Job EtcdRegistry.
Import Resolver.

(** ** The watch of scheduler.go *)

(** [strconv.ParseInt(s, 10, 64)]: an optional sign and digits.  On a syntax error
    the value is 0; out of range it is the nearest bound. *)
Fixpoint digits_value (s : string) (acc : Z) : option Z :=
  match s with
  | EmptyString => Some acc
  | String c s => if is_digit c then digits_value s (acc * 10 + digit_val c) else None
  end.

Definition ParseInt (s : string) : Z * option error :=
  let '(neg, digits) :=
    match s with
    | String c rest =>
        if Ascii.eqb c "-"%char then (true, rest)
        else if Ascii.eqb c "+"%char then (false, rest) else (false, s)
    | EmptyString => (false, s)
    end in
  let syntax := (0, Some (ENew "strconv.ParseInt: invalid syntax")) in
  let range v := (v, Some (ENew "strconv.ParseInt: value out of range")) in
  match digits with
  | EmptyString => syntax
  | _ =>
      match digits_value digits 0 with
      | None => syntax
      | Some v =>
          if (neg : bool) then if 2 ^ 63 <? v then range (- 2 ^ 63) else (- v, None)
          else if 2 ^ 63 <=? v then range (2 ^ 63 - 1) else (v, None)
      end
  end.

(** Events of the watched key: a new value, or a deletion. *)
Inductive event := EventPut (value : string) | EventDelete.

(** The error of the conversion is dropped. *)
Definition on_event (sem : Semaphore.MaxCntResourceSemaphore) (ev : event) : Semaphore.MaxCntResourceSemaphore :=
  match ev with
  | EventPut value => Semaphore.UpdateMaxCnt sem (ParseInt value).1
  | EventDelete => sem
  end.

Definition watch (sem : Semaphore.MaxCntResourceSemaphore) (evs : list event) : Semaphore.MaxCntResourceSemaphore :=
  foldl on_event sem evs.

(** A watched value that is no number stops the process from locking any table
    until the next one. *)
Lemma watch_bad_value sem value :
  (ParseInt value).1 <= 0 -> 0 <= Semaphore.currCnt sem ->
  exists e, Semaphore.Acquire (on_event sem (EventPut value)) = (on_event sem (EventPut value), Some e).
Proof.
  intros Hv Hc. unfold Semaphore.Acquire, on_event. simpl.
  destruct (Z.leb_spec (ParseInt value).1 (Semaphore.currCnt sem)); [by eexists|lia].
Qed.

(** The last value put is the limit. *)
Lemma watch_last sem evs value :
  Semaphore.maxCnt (watch sem (evs ++ [EventPut value; EventDelete])) = (ParseInt value).1 /\
  Semaphore.currCnt (watch sem (evs ++ [EventPut value; EventDelete])) = Semaphore.currCnt sem.
Proof.
  unfold watch. rewrite foldl_app. simpl. split; [done|].
  revert sem; induction evs as [|[v|] evs IH]; intros sem; simpl; [done|by rewrite IH|by rewrite IH].
Qed.

(** ** app.go *)

(** What closing the session and a failing command do on etcd.  [Revoke] is the
    revocation of a lease by [concurrency.Session.Close]: it removes the lease and
    its keys at once or not at all, and a client that gets an error, for instance
    because the answer was lost, does not know which; the same holds of a deletion.
    From then on the session no longer keeps its lease alive. *)
Class EtcdSession `{Etcd} := {
  Revoke : kvstore -> Z -> kvstore * option error;
  Revoke_ok s l s' : Revoke s l = (s', None) -> kv s' = kv (lapse s l);
  Revoke_err s l s' e : Revoke s l = (s', Some e) -> kv s' = kv s \/ kv s' = kv (lapse s l);
  Delete_err s k s' e : Delete s k = (s', Some e) -> kv s' = kv s \/ kv s' = delete k (kv s) }.

Module App.
Section app.
Context `{HE : Etcd} `{HS : !EtcdSession}.

(** What the application does besides its calls of the registry, in order. *)
Inductive action := Listen | Serve | GracefulStop.

(** [registry] is nil or the registry of a session with this lease. *)
Record App := mkApp { timeout : Duration; registry : option Z; serviceInstance : ServiceInstance }.

Record config := mkConfig {
  cfg_Name : string; cfg_Addr : string; cfg_Group : string; cfg_ReadWeight : Z; cfg_WriteWeight : Z; cfg_Timeout : Z }.

(** [InitApp]: the error of [viper.UnmarshalKey] is a panic. *)
Definition InitApp (r : option Z) (cfg : config + error) : go App :=
  match cfg with
  | inr err => Panic (Error err)
  | inl cfg =>
      let serviceInstance :=
        mkInstance (cfg_Name cfg) (cfg_Addr cfg) (cfg_Group cfg) (cfg_ReadWeight cfg) (cfg_WriteWeight cfg) in
      Ret (mkApp (i64 (cfg_Timeout cfg * Millisecond)) r serviceInstance)
  end.

(** The goroutine that serves tests the error of [Listen], nil here, instead of
    the one of [Serve]: a server that fails does not panic. *)
Definition serve_goroutine (listenErr serveErr : option error) : go unit :=
  match listenErr with
  | Some _ => Panic (match serveErr with Some e => Error e | None => "nil" end)
  | None => Ret tt
  end.

Definition Start (app : App) (listenErr : option error) (s : kvstore) : list action * (kvstore * option error) :=
  match listenErr with
  | Some err => ([Listen], (s, Some err))
  | None =>
      match registry app with
      | None => ([Listen; Serve], (s, None))
      | Some lease => ([Listen; Serve], Registry.Register lease s (serviceInstance app))
      end
  end.

(** An error of [Unregister] is logged, one of closing the registry, which closes
    its session, is dropped. *)
Definition Close (app : App) (s : kvstore) : kvstore * list action :=
  match registry app with
  | None => (s, [GracefulStop])
  | Some lease =>
      let '(s, _) := Registry.Unregister s (serviceInstance app) in
      let '(s, _) := Revoke s lease in
      (s, [GracefulStop])
  end.

(** [AppLifecycle]: the hooks fx runs. *)
Definition AppLifecycle (app : App) : (option error -> kvstore -> list action * (kvstore * option error)) * (kvstore -> kvstore * list action) :=
  (Start app, Close app).

Lemma prefix_app a b c : String.prefix (a +:+ b) (a +:+ b +:+ c) = true.
Proof using Type.
  induction a as [|x a IH]; simpl; [|by destruct (Ascii.ascii_dec x x)].
  change ("" +:+ b)%string with b. change ("" +:+ b +:+ c)%string with (b +:+ c)%string.
  induction b as [|x b IH]; simpl; [by destruct c|by destruct (Ascii.ascii_dec x x)].
Qed.

Lemma serviceKey_prefix si : HasPrefix (Registry.instanceKey si) (Registry.serviceKey (Name si)) = true.
Proof using Type. apply prefix_app. Qed.

(** Deleting a key, deleting the keys of a lease. *)
Lemma stores_delete s s' m si :
  Registry.stores s m -> kv s' = delete (Registry.instanceKey si) (kv s) ->
  Registry.stores s' (delete (Registry.instanceKey si) m).
Proof using Type.
  intros Hst E k. rewrite E. specialize (Hst k). destruct (decide (Registry.instanceKey si = k)) as [<-|].
  - by rewrite !lookup_delete_eq.
  - by rewrite !lookup_delete_ne.
Qed.

Lemma stores_lapse s s' m lease :
  Registry.stores s m -> kv s' = kv (lapse s lease) ->
  Registry.stores s' (Registry.spec_op m (Registry.OpLapse lease)).
Proof using Type.
  intros Hst E k. rewrite E.
  by apply (Registry.apply_op_stores s m (Registry.OpLapse lease) (lapse s lease) Hst I eq_refl).
Qed.

Lemma stores_same s s' m : Registry.stores s m -> kv s' = kv s -> Registry.stores s' m.
Proof using Type. intros Hst E k. by rewrite E. Qed.

(** What closing leaves of the registrations [m]: without the application's key, if
    it was deleted, and without the keys of its lease, if that was revoked. *)
Definition closed (deleted revoked : bool) (app : App) (lease : Z) (m : gmap string (ServiceInstance * Z)) :=
  let m := if deleted then delete (Registry.instanceKey (serviceInstance app)) m else m in
  if revoked then Registry.spec_op m (Registry.OpLapse lease) else m.

Lemma Close_stores app lease s m s' acts :
  registry app = Some lease -> Registry.stores s m -> Close app s = (s', acts) ->
  exists deleted revoked, Registry.stores s' (closed deleted revoked app lease m) /\
    ((Registry.Unregister s (serviceInstance app)).2 = None -> deleted = true) /\
    ((Revoke (Registry.Unregister s (serviceInstance app)).1 lease).2 = None -> revoked = true).
Proof using Type.
  intros Hreg Hst. unfold Close. rewrite Hreg.
  destruct (Registry.Unregister s (serviceInstance app)) as [s1 err] eqn:Eu.
  destruct (Revoke s1 lease) as [s2 err'] eqn:Er. intros [= <- _]. cbn [fst snd]. rewrite Er. cbn [snd].
  assert (exists deleted, Registry.stores s1 (closed deleted false app lease m) /\ (err = None -> deleted = true))
    as (deleted & Hst1 & Hd).
  { unfold Registry.Unregister in Eu. destruct err as [e|].
    - apply Delete_err in Eu as [Eu|Eu].
      + exists false. split; [by eapply stores_same|done].
      + exists true. split; [by eapply stores_delete|done].
    - apply Delete_ok in Eu as [Eu _]. exists true. split; [by eapply stores_delete|done]. }
  exists deleted. destruct err' as [e|].
  - apply Revoke_err in Er as [Er|Er].
    + exists false. split_and!; [by eapply stores_same|done|done].
    + exists true. split_and!; [by eapply stores_lapse|done|done].
  - apply Revoke_ok in Er. exists true. split_and!; [by eapply stores_lapse|done|done].
Qed.

End app.

(** A store in memory that revokes, and one whose commands that remove all fail. *)
#[global] Program Instance mem_session : @EtcdSession Registry.mem_etcd := {|
  Revoke s l := (@lapse Registry.mem_etcd s l, None) |}.
Next Obligation. by intros s l s' [= <-]. Qed.
Next Obligation. by intros s l s' e [=]. Qed.
Next Obligation. by intros s k s' e [=]. Qed.

Program Definition stuck_etcd : Etcd := {|
  kvstore := @kvstore Registry.mem_etcd; kv := @kv Registry.mem_etcd; alive := @alive Registry.mem_etcd;
  Put := @Put Registry.mem_etcd; Delete s k := (s, Some (ENew "etcdserver: request timed out"));
  GetPrefix := @GetPrefix Registry.mem_etcd; lapse := @lapse Registry.mem_etcd |}.
Next Obligation. apply (@Put_ok Registry.mem_etcd). Qed.
Next Obligation. by intros s k s'. Qed.
Next Obligation. apply (@GetPrefix_ok Registry.mem_etcd). Qed.
Next Obligation. apply (@lapse_ok Registry.mem_etcd). Qed.

Program Definition stuck_session : @EtcdSession stuck_etcd :=
  @Build_EtcdSession stuck_etcd (fun s l => (s, Some (ENew "etcdserver: request timed out"))) _ _ _.
Next Obligation. by intros s l s'. Qed.
Next Obligation. intros s l s' e [= <- _]. by left. Qed.
Next Obligation. intros s k s' e [= <- _]. by left. Qed.

Definition sample_config : config := mkConfig "user" "10.0.0.9:80" "" 0 0 500.


(** When etcd is not reached while the application stops, it is still listed. *)
Lemma stopped_still_listed :
  match InitApp (Some 7) (inl sample_config) with
  | Ret app =>
      let s1 := (@Start stuck_etcd app None Registry.no_keys).2.1 in
      let s2 := (@Close stuck_etcd stuck_session app s1).1 in
      @Registry.ListService stuck_etcd s2 "user" = inl [serviceInstance app]
  | Panic _ => False
  end.
Proof. vm_compute. reflexivity. Qed.
End App.
