(* ===== verification/Container.v ===== *)
(** * The dependency graph: internal/ioc/*.go and the options of cmd/main.go

    What [main] gives to go.uber.org/fx: the constructors of every [*FxOpt], each
    with the types of its parameters and results as its Go signature has them, and
    with its annotations; and the functions fx is asked to invoke.  A type is
    written as the code of internal/ioc writes it.

    fx is a class with the behaviour its documentation describes: it runs the
    constructors the invoked functions need, each for the keys its parameters have,
    and fails when a needed key has no constructor that can be run.  That a
    constructor runs says nothing of what it does, which may be a panic: the file
    Main runs the constructors of the file Ioc. *)
From Stdlib Require Import ZArith Lia List.
From stdpp Require Import prelude strings gmap.
From S2P Require Import Prelude GoLang Errs GoStrings.

Module Container.

#[local] Open Scope nat_scope.

(** ** Options *)

(** The tag of a parameter or a result: none, [name:"..."] or [group:"..."]. *)
Inductive tag := Plain | Named (name : string) | Group (name : string).

#[global] Instance tag_eq_dec : EqDecision tag.
Proof. solve_decision. Defined.

Definition key : Type := string * tag.

(** A constructor with its annotations; [As] is empty when there are none. *)
Record provider := mkProvider {
  fn : string; ins : list string; outs : list string;
  As : list string; ParamTags : list tag; ResultTags : list tag }.

Definition plain (fn : string) (ins outs : list string) : provider := mkProvider fn ins outs [] [] [].

(** Tags are given in the order of the parameters; the others have none. *)
Fixpoint tagged (types : list string) (tags : list tag) : list key :=
  match types, tags with
  | [], _ => []
  | t :: types, [] => (t, Plain) :: tagged types []
  | t :: types, g :: tags => (t, g) :: tagged types tags
  end.

(** A parameter tagged with a group is the slice of the group's values. *)
Definition element (k : key) : key :=
  match k.2 with Group g => (TrimPrefix k.1 "[]", Group g) | _ => k end.

Definition params (p : provider) : list key := map element (tagged (ins p) (ParamTags p)).

(** With [fx.As] the constructor provides the interfaces and not its own type. *)
Definition results (p : provider) : list key :=
  tagged (match As p with [] => outs p | ifaces => ifaces end) (ResultTags p).

Definition is_group (k : key) : bool := match k.2 with Group _ => true | _ => false end.

(** fx itself provides the life cycle. *)
Definition builtin : key := ("fx.Lifecycle"%string, Plain).

(** ** What the documentation of fx speaks of *)

Section graph.
Context (ps : list provider).

(** A key can be built when a constructor of it can be given its parameters; a
    group when every constructor in it can. *)
Inductive buildable : key -> Prop :=
  | buildable_builtin : buildable builtin
  | buildable_one p k :
      p ∈ ps -> k ∈ results p -> is_group k = false ->
      (forall k', k' ∈ params p -> buildable k') -> buildable k
  | buildable_group k :
      is_group k = true ->
      (forall p, p ∈ ps -> k ∈ results p -> forall k', k' ∈ params p -> buildable k') -> buildable k.

(** A constructor is needed when something invoked, or needed, has a parameter it
    provides. *)
Inductive needed (invoked : list key) : provider -> Prop :=
  | needed_invoked p k : k ∈ invoked -> p ∈ ps -> k ∈ results p -> needed invoked p
  | needed_param p q k : needed invoked q -> k ∈ params q -> p ∈ ps -> k ∈ results p -> needed invoked p.

(** No constructor needs its own result. *)
Definition acyclic : Prop :=
  exists rank : provider -> nat,
    (forall p, p ∈ ps -> rank p <= length ps) /\
    (forall p q k, p ∈ ps -> q ∈ ps -> k ∈ results p -> k ∈ params q -> rank p < rank q).

(** No key has two constructors, unless it is a group. *)
Definition unambiguous : Prop := NoDup (filter (fun k => is_group k = false) (concat (map results ps))).
End graph.

(** [start ps invoked] is the constructors an application with the options [ps]
    runs for functions with the parameters [invoked], or [None] when it does not
    start. *)
Class Fx := {
  start : list provider -> list key -> option (list provider);
  start_needed ps invoked cs : acyclic ps -> start ps invoked = Some cs ->
    NoDup cs /\ forall p, p ∈ cs <-> needed ps invoked p;
  start_missing ps invoked cs k : start ps invoked = Some cs -> k ∈ invoked -> buildable ps k;
  start_complete ps invoked : acyclic ps -> unambiguous ps ->
    (forall k, k ∈ invoked -> buildable ps k) -> is_Some (start ps invoked) }.

(** ** The options of the program *)

(** logger.go *)
Definition LoggerFxOpt : list provider := [plain "InitLogger" [] ["*zap.Logger"]].
Definition LoggerFxInvoke : list string := ["fx.Lifecycle"; "*zap.Logger"].

(** id.go *)
Definition IdFxOpt : list provider := [plain "InitIdGenerator" [] ["*snowflake.Generator"]].

(** redis.go *)
Definition RedisFxOpt : list provider := [
  plain "InitRedis" [] ["redis.Cmdable"];
  plain "InitDClient" ["redis.Cmdable"] ["dlock.Dclient"]].

(** db.go *)
Definition DBFxOpt : list provider := [
  plain "InitBaseDB" [] ["*gorm.DB"];
  plain "InitShardingDB" [] ["*xsync.Map[string, *gorm.DB]"];
  mkProvider "InitNotifShardingStrategy" [] ["sharding.Strategy"]
    ["sharding.Strategy"] [] [Named "notification_sharding_strategy"];
  mkProvider "InitCbLogShardingStrategy" [] ["sharding.Strategy"]
    ["sharding.Strategy"] [] [Named "callback_log_sharding_strategy"]].

(** etcd.go *)
Definition EtcdFxOpt : list provider := [plain "InitEtcdClient" [] ["*clientv3.Client"]].

(** repo.go *)
Definition RepoFxOpt : list provider := [
  mkProvider "local.NewBizConfLocalCache" ["redis.Cmdable"; "*gcache.Cache"; "*zap.Logger"] ["*local.BizConfLocalCache"]
    ["cache.BizConfCache"] [] [Named "biz_conf_local_cache"];
  mkProvider "redis.NewBizConfRedisCache" ["redis.Cmdable"; "*zap.Logger"] ["*redis.BizConfRedisCache"]
    ["cache.BizConfCache"] [] [Named "biz_conf_redis_cache"];
  mkProvider "redis.NewQuotaRedisCache" ["redis.Cmdable"; "*zap.Logger"] ["*redis.QuotaRedisCache"]
    ["cache.QuotaCache"] [] [Named "quota_redis_cache"];
  mkProvider "dao.NewDefaultBizConfDAO" ["*gorm.DB"] ["*dao.DefaultBizConfDAO"] ["dao.BizConfDAO"] [] [];
  mkProvider "dao.NewNotifShardingDAO"
    ["*xsync.Map[string, *gorm.DB]"; "sharding.Strategy"; "sharding.Strategy"; "*snowflake.Generator"]
    ["*dao.NotifShardingDAO"] ["dao.NotificationDAO"]
    [Named "notification_sharding_strategy"; Named "callback_log_sharding_strategy"] [];
  mkProvider "dao.NewDefaultChannelTplDAO" ["*gorm.DB"] ["*dao.DefaultChannelTplDAO"] ["dao.ChannelTplDAO"] [] [];
  mkProvider "dao.NewDefaultProviderDAO" ["*gorm.DB"] ["*dao.DefaultProviderDAO"] ["dao.ProviderDAO"] [] [];
  mkProvider "dao.NewDefaultCallbackLogDAO" ["*gorm.DB"] ["*dao.DefaultCallbackLogDAO"] ["dao.CallbackLogDAO"] [] [];
  mkProvider "repository.NewDefaultBizConfRepo"
    ["dao.BizConfDAO"; "cache.BizConfCache"; "cache.BizConfCache"; "*zap.Logger"]
    ["*repository.DefaultBizConfRepo"] ["repository.BizConfRepo"] [] [];
  mkProvider "repository.NewDefaultNotifRepo" ["dao.NotificationDAO"; "*redis.QuotaRedisCache"; "*zap.Logger"]
    ["*repository.DefaultNotifRepo"] ["repository.NotificationRepo"] [] [];
  mkProvider "repository.NewDefaultChannelTplRepo" ["dao.ChannelTplDAO"]
    ["*repository.DefaultChannelTplRepo"] ["repository.ChannelTplRepo"] [] [];
  mkProvider "repository.NewDefaultProviderRepo" ["dao.ProviderDAO"]
    ["*repository.DefaultProviderRepo"] ["repository.ProviderRepo"] [] [];
  mkProvider "repository.NewDefaultCallbackLogRepo" ["dao.NotificationDAO"; "dao.CallbackLogDAO"]
    ["*repository.DefaultCallbackLogRepo"] ["repository.CallbackLogRepo"] [] []].

(** service.go *)
Definition ServiceFxOpt : list provider := [
  mkProvider "conf.NewDefaultBizConfService" ["repository.BizConfRepo"] ["*conf.DefaultBizConfService"]
    ["conf.BizConfService"] [] [];
  mkProvider "sendstrategy.NewDefaultSendStrategy"
    ["repository.NotificationRepo"; "repository.BizConfRepo"; "*zap.Logger"] ["*sendstrategy.DefaultSendStrategy"]
    ["sendstrategy.SendStrategy"] [] [Named "default_send_strategy"];
  mkProvider "sendstrategy.NewImmediateSendStrategy" ["repository.NotificationRepo"; "sender.Sender"]
    ["*sendstrategy.ImmediateSendStrategy"] ["sendstrategy.SendStrategy"] [] [Named "immediate_send_strategy"];
  mkProvider "sendstrategy.NewDispatcher" ["*sendstrategy.DefaultSendStrategy"; "*sendstrategy.ImmediateSendStrategy"]
    ["*sendstrategy.Dispatcher"] ["sendstrategy.SendStrategy"]
    [Named "default_send_strategy"; Named "immediate_send_strategy"] [Named "send_strategy_dispatcher"];
  mkProvider "notification.NewDefaultSendService" ["*snowflake.Generator"; "sendstrategy.SendStrategy"]
    ["*notification.DefaultSendService"] ["notification.SendService"] [Named "send_strategy_dispatcher"] [];
  mkProvider "callback.NewDefaultService"
    ["*grpcpkg.Clients[clientv1.CallbackServiceClient]"; "repository.BizConfRepo"; "repository.CallbackLogRepo"; "*zap.Logger"]
    ["*callback.DefaultService"] ["callback.Service"] [] [];
  plain "InitTencentSmsClient" [] ["*client.TencentSmsClient"];
  mkProvider "InitTencentSmsProvider" ["client.SmsClient"; "repository.ChannelTplRepo"; "repository.ProviderRepo"]
    ["*sms.Provider"] ["provider.Provider"] [] [Group "sms_provider"];
  mkProvider "selector.NewSeqSelectorBuilder" ["[]provider.Provider"] ["*selector.SeqSelectorBuilder"]
    ["provider.SelectorBuilder"] [Group "sms_provider"] [];
  plain "channel.NewSmsChannel" ["provider.SelectorBuilder"] ["*channel.SmsChannel"];
  plain "InitChannelMap" ["*channel.SmsChannel"] ["map[domain.Channel]channel.Channel"];
  plain "channel.NewDispatcher" ["map[domain.Channel]channel.Channel"] ["*channel.Dispatcher"];
  mkProvider "sender.NewDefaultSender"
    ["channel.Channel"; "repository.NotificationRepo"; "repository.BizConfRepo"; "callback.Service"; "*zap.Logger"]
    ["*sender.DefaultSender"] ["sender.Sender"] [] []].

(** scheduler.go *)
Definition SchedulerFxOpt : list provider := [
  mkProvider "InitNotificationScheduler"
    ["dlock.Dclient"; "repository.NotificationRepo"; "sender.Sender"; "sharding.Strategy"; "*clientv3.Client"; "*zap.Logger"]
    ["schedule.NotifScheduler"] ["schedule.NotifScheduler"] [Named "notification_sharding_strategy"] []].

(** registry.go *)
Definition RegistryFxOpt : list provider := [
  mkProvider "InitRegistry" ["*clientv3.Client"] ["*etcd.Registry"] ["registry.Registry"] [] []].

(** grpc.go *)
Definition GrpcFxOpt : list provider := [
  plain "InitNotificationGrpcServer" ["*grpcapi.NotificationServer"] ["*grpc.Server"];
  plain "InitCallbackGrpcClients" ["registry.Registry"] ["*grpcpkg.Clients[clientv1.CallbackServiceClient]"];
  plain "grpcapi.NewNotificationServer" [] ["*grpcapi.NotificationServer"]].

(** app.go *)
Definition AppFxOpt : list provider := [plain "InitApp" ["*grpc.Server"; "registry.Registry"; "*zap.Logger"] ["*App"]].
Definition AppFxInvoke : list string := ["fx.Lifecycle"; "*App"].

(** cmd/main.go: the options, and the parameters of the functions fx calls; the
    function given to [fx.WithLogger] takes the logger. *)
Definition main_options : list provider :=
  LoggerFxOpt ++ IdFxOpt ++ RedisFxOpt ++ DBFxOpt ++ EtcdFxOpt ++ RepoFxOpt ++ ServiceFxOpt ++
  SchedulerFxOpt ++ RegistryFxOpt ++ GrpcFxOpt ++ AppFxOpt.

Definition main_invokes : list key :=
  tagged ["*zap.Logger"] [] ++ tagged AppFxInvoke [] ++ tagged LoggerFxInvoke [].

(** ** Deciding what can be built and what is needed *)

#[global] Instance provider_eq_dec : EqDecision provider.
Proof. solve_decision. Defined.

Definition provides (p : provider) (k : key) : bool := bool_decide (k ∈ results p).

Section decide.
Context (ps : list provider).

(** The search for the constructors of a key; [fuel] bounds its depth. *)
Fixpoint buildableb (fuel : nat) (k : key) : bool :=
  if bool_decide (k = builtin) then true
  else
    match fuel with
    | O => false
    | S fuel =>
        if is_group k
        then forallb (fun p => if provides p k then forallb (buildableb fuel) (params p) else true) ps
        else existsb (fun p => if provides p k then forallb (buildableb fuel) (params p) else false) ps
    end.

Fixpoint neededb (invoked : list key) (fuel : nat) (p : provider) : bool :=
  if existsb (provides p) invoked then true
  else
    match fuel with
    | O => false
    | S fuel => existsb (fun q => if existsb (provides p) (params q) then neededb invoked fuel q else false) ps
    end.

Lemma buildableb_sound fuel k : buildableb fuel k = true -> buildable ps k.
Proof.
  revert k; induction fuel as [|fuel IH]; intros k; simpl; case_bool_decide as E;
    try (intros _; rewrite E; constructor); [done|].
  destruct (is_group k) eqn:Eg.
  - rewrite forallb_forall. intros Hall. apply buildable_group; [done|].
    intros p Hp Hk k' Hk'. apply list_elem_of_In, Hall in Hp. unfold provides in Hp.
    rewrite bool_decide_true in Hp by done. rewrite forallb_forall in Hp.
    by apply IH, Hp, list_elem_of_In.
  - rewrite existsb_exists. unfold provides. intros (p & Hp & Hk). case_bool_decide as Hr; [|done].
    rewrite forallb_forall in Hk. apply (buildable_one ps p); [by apply list_elem_of_In|done|done|].
    intros k' Hk'. by apply IH, Hk, list_elem_of_In.
Qed.

Lemma buildableb_complete rank fuel k :
  (forall p q k, p ∈ ps -> q ∈ ps -> k ∈ results p -> k ∈ params q -> rank p < rank q) ->
  buildable ps k -> (forall p, p ∈ ps -> k ∈ results p -> rank p < fuel) -> buildableb (S fuel) k = true.
Proof.
  intros Hrank Hb.
  assert (Hstep : forall fuel p k', p ∈ ps -> k' ∈ params p -> rank p < fuel ->
            exists f, fuel = S f /\ forall q, q ∈ ps -> k' ∈ results q -> rank q < f).
  { intros f p k' Hp Hk' Hlt. destruct f as [|f]; [lia|]. exists f. split; [done|].
    intros q Hq Hr. pose proof (Hrank q p k' Hq Hp Hr Hk'). lia. }
  revert fuel; induction Hb as [|p k Hp Hk Hg _ IH|k Hg _ IH]; intros fuel Hf; cbn [buildableb];
    case_bool_decide; try done; rewrite Hg.
  - apply existsb_exists. exists p. split; [by apply list_elem_of_In|].
    unfold provides. rewrite bool_decide_true by done. apply forallb_forall. intros k' Hk'%list_elem_of_In.
    destruct (Hstep fuel p k' Hp Hk' (Hf p Hp Hk)) as (f & -> & Hq). by apply IH.
  - apply forallb_forall. intros p Hp%list_elem_of_In. unfold provides. case_bool_decide as Hk; [|done].
    apply forallb_forall. intros k' Hk'%list_elem_of_In.
    destruct (Hstep fuel p k' Hp Hk' (Hf p Hp Hk)) as (f & -> & Hq). by apply (IH p).
Qed.

Lemma existsb_provides p ks : existsb (provides p) ks = true <-> exists k, k ∈ ks /\ k ∈ results p.
Proof.
  rewrite existsb_exists. split; intros (k & Hk & Hr); exists k.
  - split; [by apply list_elem_of_In|by apply bool_decide_eq_true in Hr].
  - split; [by apply list_elem_of_In|by apply bool_decide_eq_true].
Qed.

Lemma neededb_sound invoked fuel p :
  p ∈ ps -> neededb invoked fuel p = true -> needed ps invoked p.
Proof.
  revert p; induction fuel as [|fuel IH]; intros p Hp; simpl; destruct (existsb (provides p) invoked) eqn:E;
    try (apply existsb_provides in E as (k & Hk & Hr); intros _; by eapply needed_invoked); [done|].
  intros (q & Hq & Hs)%existsb_exists. destruct (existsb (provides p) (params q)) eqn:Eq; [|done].
  apply existsb_provides in Eq as (k & Hk & Hr). apply list_elem_of_In in Hq.
  eapply needed_param; [by apply IH|done..].
Qed.

Lemma needed_in invoked p : needed ps invoked p -> p ∈ ps.
Proof. by intros []. Qed.

Lemma neededb_complete rank invoked fuel p :
  (forall p, p ∈ ps -> rank p <= length ps) ->
  (forall p q k, p ∈ ps -> q ∈ ps -> k ∈ results p -> k ∈ params q -> rank p < rank q) ->
  needed ps invoked p -> length ps - rank p <= fuel -> neededb invoked fuel p = true.
Proof.
  intros Hmax Hrank Hn. revert fuel; induction Hn as [p k Hk Hp Hr|p q k Hn IH Hk Hp Hr]; intros fuel Hf.
  - assert (E : existsb (provides p) invoked = true) by (apply existsb_provides; by exists k).
    destruct fuel; simpl; by rewrite E.
  - apply needed_in in Hn as Hq. pose proof (Hrank p q k Hp Hq Hr Hk). pose proof (Hmax q Hq).
    destruct fuel as [|fuel]; [lia|]. simpl. destruct (existsb (provides p) invoked); [done|].
    apply existsb_exists. exists q. split; [by apply list_elem_of_In|].
    rewrite (proj2 (existsb_provides p (params q))) by (by exists k). apply IH. lia.
Qed.

(** A set of keys each of which, whatever constructor is tried, needs another of
    the set: none of them can be built. *)
Definition stuckb (ks : list key) : bool :=
  forallb (fun k =>
    negb (bool_decide (k = builtin)) &&
    let blocked p := existsb (fun k' => bool_decide (k' ∈ ks)) (params p) in
    if is_group k then existsb (fun p => provides p k && blocked p) ps
    else forallb (fun p => negb (provides p k) || blocked p) ps) ks.

Lemma stuck_not_buildable ks k : stuckb ks = true -> k ∈ ks -> ~ buildable ps k.
Proof.
  intros Hs Hin Hb. unfold stuckb in Hs. rewrite forallb_forall in Hs.
  assert (Hblk : forall p, existsb (fun k' => bool_decide (k' ∈ ks)) (params p) = true ->
            exists k', k' ∈ params p /\ k' ∈ ks).
  { intros p (k' & Hk' & Hd)%existsb_exists. exists k'. apply list_elem_of_In in Hk'. by apply bool_decide_eq_true in Hd. }
  induction Hb as [|p k Hp Hk Hg _ IH|k Hg _ IH];
    apply list_elem_of_In, Hs, andb_prop in Hin as [Hnb Hin]; [done|..]; rewrite Hg in Hin.
  - rewrite forallb_forall in Hin. apply list_elem_of_In, Hin in Hp. unfold provides in Hp.
    rewrite bool_decide_true in Hp by done. apply Hblk in Hp as (k' & Hk' & Hin'). by apply (IH k').
  - apply existsb_exists in Hin as (p & Hp & [Hk Hb]%andb_prop). apply list_elem_of_In in Hp.
    apply bool_decide_eq_true in Hk. apply Hblk in Hb as (k' & Hk' & Hin'). by apply (IH p Hp Hk k').
Qed.
End decide.

(** A container that searches the graph: the laws of the class can hold. *)
Definition ready (ps : list provider) (invoked : list key) : bool :=
  forallb (buildableb ps (S (S (length ps)))) invoked.

#[global] Program Instance search : Fx := {|
  start ps invoked :=
    if ready ps invoked then Some (remove_dups (List.filter (neededb ps invoked (length ps)) ps)) else None |}.
Next Obligation.
  intros ps invoked cs (rank & Hmax & Hrank). destruct (ready ps invoked); [|done]. intros [= <-].
  split; [apply NoDup_remove_dups|]. intros p. rewrite elem_of_remove_dups, list_elem_of_In, filter_In.
  rewrite <- list_elem_of_In. split.
  - intros [Hp Hn]. by eapply neededb_sound.
  - intros Hn. split; [by eapply needed_in|]. eapply neededb_complete; [done..|lia].
Qed.
Next Obligation.
  intros ps invoked cs k. cbn beta. destruct (ready ps invoked) eqn:E; [|done]. intros _ Hk.
  unfold ready in E. rewrite forallb_forall in E. by eapply buildableb_sound, E, list_elem_of_In.
Qed.
Next Obligation.
  intros ps invoked (rank & Hmax & Hrank) _ Hb.
  replace (ready ps invoked) with true; [done|]. symmetry. apply forallb_forall. intros k Hk%list_elem_of_In.
  eapply buildableb_complete; [exact Hrank|by apply Hb|]. intros p Hp _. pose proof (Hmax p Hp). lia.
Qed.

(** ** Properties *)

(** The rank of a constructor of the program, by its name: an order in which every
    constructor comes after those of its parameters. *)
Definition order : list string := [
  "InitLogger"; "InitIdGenerator"; "InitRedis"; "InitDClient"; "InitBaseDB"; "InitShardingDB";
  "InitNotifShardingStrategy"; "InitCbLogShardingStrategy"; "InitEtcdClient"; "InitRegistry";
  "local.NewBizConfLocalCache"; "redis.NewBizConfRedisCache"; "redis.NewQuotaRedisCache";
  "dao.NewDefaultBizConfDAO"; "dao.NewNotifShardingDAO"; "dao.NewDefaultChannelTplDAO";
  "dao.NewDefaultProviderDAO"; "dao.NewDefaultCallbackLogDAO"; "repository.NewDefaultBizConfRepo";
  "repository.NewDefaultNotifRepo"; "repository.NewDefaultChannelTplRepo";
  "repository.NewDefaultProviderRepo"; "repository.NewDefaultCallbackLogRepo";
  "conf.NewDefaultBizConfService"; "InitCallbackGrpcClients"; "callback.NewDefaultService";
  "InitTencentSmsClient"; "InitTencentSmsProvider"; "selector.NewSeqSelectorBuilder";
  "channel.NewSmsChannel"; "InitChannelMap"; "channel.NewDispatcher"; "sender.NewDefaultSender";
  "sendstrategy.NewDefaultSendStrategy"; "sendstrategy.NewImmediateSendStrategy"; "sendstrategy.NewDispatcher";
  "notification.NewDefaultSendService"; "InitNotificationScheduler"; "grpcapi.NewNotificationServer";
  "InitNotificationGrpcServer"; "InitApp"].

Fixpoint index (name : string) (l : list string) : nat :=
  match l with [] => 0 | x :: l => if String.eqb x name then 0 else S (index name l) end.

Definition acyclicb (ps : list provider) (rank : provider -> nat) : bool :=
  forallb (fun p => rank p <=? length ps) ps &&
  forallb (fun p => forallb (fun q =>
    negb (existsb (provides p) (params q)) || (rank p <? rank q)) ps) ps.

Lemma acyclicb_acyclic ps rank : acyclicb ps rank = true -> acyclic ps.
Proof.
  intros [H1 H2]%andb_prop. rewrite forallb_forall in H1, H2. exists rank. split.
  - intros p Hp%list_elem_of_In. by apply Nat.leb_le, H1.
  - intros p q k Hp%list_elem_of_In Hq%list_elem_of_In Hr Hk.
    specialize (H2 p Hp). rewrite forallb_forall in H2. specialize (H2 q Hq).
    rewrite (proj2 (existsb_provides p (params q))) in H2 by (by exists k).
    by apply Nat.ltb_lt.
Qed.

Lemma main_acyclic : acyclic main_options.
Proof. apply (acyclicb_acyclic _ (fun p => index (fn p) order)). by vm_compute. Qed.

Lemma main_unambiguous : unambiguous main_options.
Proof. unfold unambiguous. apply (bool_decide_unpack _). by vm_compute. Qed.

Lemma main_ready : ready main_options main_invokes = true.
Proof. by vm_compute. Qed.

(** The constructors that run, by name. *)
Definition started : list string :=
  ["InitLogger"; "InitEtcdClient"; "InitRegistry"; "InitNotificationGrpcServer"; "grpcapi.NewNotificationServer"; "InitApp"].

Lemma main_needed p :
  needed main_options main_invokes p <-> p ∈ main_options /\ fn p ∈ started.
Proof.
  destruct main_acyclic as (rank & Hmax & Hrank).
  assert (Hb : forallb (fun p => Bool.eqb (neededb main_options main_invokes (length main_options) p)
            (bool_decide (fn p ∈ started))) main_options = true) by by vm_compute.
  rewrite forallb_forall in Hb.
  assert (Hiff : p ∈ main_options -> neededb main_options main_invokes (length main_options) p = true <-> fn p ∈ started).
  { intros Hp%list_elem_of_In. apply Hb, Bool.eqb_prop in Hp. rewrite Hp. apply bool_decide_eq_true. }
  split.
  - intros Hn. pose proof (needed_in _ _ _ Hn) as Hp. split; [done|]. apply Hiff; [done|].
    eapply neededb_complete; [done..|lia].
  - intros [Hp Hs]. eapply neededb_sound; [done|]. by apply Hiff.
Qed.

Lemma options_start `{Fx} :
  exists cs, start main_options main_invokes = Some cs /\ NoDup cs /\
    forall p, p ∈ cs <-> p ∈ main_options /\ fn p ∈ started.
Proof.
  destruct (start_complete main_options main_invokes main_acyclic main_unambiguous) as [cs Hcs].
  - intros k Hk. pose proof main_ready as Hr. unfold ready in Hr. rewrite forallb_forall in Hr.
    by eapply buildableb_sound, Hr, list_elem_of_In.
  - exists cs. destruct (start_needed _ _ _ main_acyclic Hcs) as [Hnd Hin]. split_and!; [done..|].
    intros p. by rewrite Hin, main_needed.
Qed.

(** Their names. *)
Lemma started_names cs :
  NoDup cs -> (forall p, p ∈ cs <-> p ∈ main_options /\ fn p ∈ started) -> map fn cs ≡ₚ started.
Proof.
  intros Hnd Hin. set (l := List.filter (fun p => bool_decide (fn p ∈ started)) main_options).
  assert (Hp : cs ≡ₚ l).
  { apply NoDup_Permutation; [done|apply (bool_decide_unpack _); by vm_compute|].
    intros p. unfold l. rewrite Hin, (list_elem_of_In (List.filter _ _)), filter_In, bool_decide_eq_true.
    by rewrite list_elem_of_In. }
  rewrite Hp. apply (bool_decide_unpack _). by vm_compute.
Qed.

(** The graph of the program is well typed for what [main] invokes: it has no
    cycle and no ambiguity, and fx runs six constructors: those of the logger, the
    etcd client, the registry, the gRPC server with its empty implementation, and
    the application.  No database, cache, repository, service, sender or scheduler
    is asked for. *)
Theorem application_starts `{Fx} :
  exists cs, start main_options main_invokes = Some cs /\ NoDup cs /\
    forall p, p ∈ cs <-> p ∈ main_options /\ fn p ∈ started.
Proof. apply options_start. Qed.

(** What the parts of the program that do its work would be asked for as. *)
Definition business : list key := [
  ("cache.BizConfCache", Named "biz_conf_local_cache"); ("dao.NotificationDAO", Plain);
  ("repository.BizConfRepo", Plain); ("repository.NotificationRepo", Plain); ("repository.CallbackLogRepo", Plain);
  ("conf.BizConfService", Plain); ("sendstrategy.SendStrategy", Named "default_send_strategy");
  ("sendstrategy.SendStrategy", Named "immediate_send_strategy");
  ("sendstrategy.SendStrategy", Named "send_strategy_dispatcher"); ("notification.SendService", Plain);
  ("callback.Service", Plain); ("provider.Provider", Group "sms_provider"); ("provider.SelectorBuilder", Plain);
  ("*channel.SmsChannel", Plain); ("map[domain.Channel]channel.Channel", Plain); ("*channel.Dispatcher", Plain);
  ("sender.Sender", Plain); ("schedule.NotifScheduler", Plain)]%string.

(** The keys they need and no constructor has. *)
Definition missing : list key := [
  ("*gcache.Cache", Plain); ("*xsync.Map[string, *gorm.DB]", Named "notification_sharding_strategy");
  ("cache.BizConfCache", Plain); ("*redis.QuotaRedisCache", Plain); ("client.SmsClient", Plain);
  ("*sendstrategy.DefaultSendStrategy", Named "default_send_strategy");
  ("*sendstrategy.ImmediateSendStrategy", Named "immediate_send_strategy");
  ("*snowflake.Generator", Named "send_strategy_dispatcher"); ("channel.Channel", Plain);
  ("dlock.Dclient", Named "notification_sharding_strategy")]%string.

(** Nothing that does the program's work can be made from the options: an
    application that invokes a function with any of these parameters, the
    scheduler, the sender, the sending service, the callback service, a strategy, a
    channel or the repository of notifications, does not start, because each needs,
    through its constructors, a key that no constructor has. *)
Theorem business_not_wired `{Fx} k invoked :
  k ∈ business -> k ∈ invoked -> start main_options invoked = None.
Proof.
  intros Hk Hin. destruct (start main_options invoked) as [cs|] eqn:E; [|done]. exfalso.
  apply (stuck_not_buildable main_options (missing ++ business) k); [by vm_compute| |by eapply start_missing].
  apply elem_of_app. by right.
Qed.

Lemma application_starts_witness :
  exists cs, @start search main_options main_invokes = Some cs /\ length cs = 6.
Proof.
  destruct (@application_starts search) as (cs & Hcs & _). exists cs. split; [exact Hcs|].
  assert (Hl : length <$> @start search main_options main_invokes = Some 6) by (vm_compute; reflexivity).
  rewrite Hcs in Hl. by injection Hl as ->.
Defined.

Lemma business_not_wired_witness :
  @start search main_options [("schedule.NotifScheduler"%string, Plain)] = None.
Proof.
  apply (@business_not_wired search ("schedule.NotifScheduler"%string, Plain)).
  - apply (bool_decide_unpack _). vm_compute. exact I.
  - by apply list_elem_of_singleton.
Defined.
End Container.
