(* ===== verification/Ioc.v ===== *)
(** * Constructors that read the configuration: internal/ioc

    What the constructors of internal/ioc make of their section of the configuration
    file: [viper.UnmarshalKey] fills a struct or fails, and every failure here is a
    panic.  What they construct is that of the other files; constructors of other
    libraries are arguments. *)
From Stdlib Require Import ZArith Lia List SpecFloat.
From stdpp Require Import prelude strings gmap.
From S2P Require Import Prelude GoLang GoFloat Errs GoStrings Externals RingBuffer BitRing Batch Snowflake Sharding Domain Job Quota Json Dao NotifRepo Retry Channels BizConf GrpcClients CallbackLogs Callback Sender Scheduler SharedLoops EtcdRegistry Jwt.

Module Ioc.

(** A call that panics with its error. *)
Definition must {A} (r : A + error) : go A :=
  match r with inl a => Ret a | inr err => Panic (Error err) end.

Lemma must_ret {A} (r : A + error) a : must r = Ret a -> r = inl a.
Proof. destruct r; [by intros [= ->]|done]. Qed.

(** ** logger.go, id.go, redis.go, etcd.go, registry.go *)

Section libraries.
Context {Logger Cmdable Dclient EtcdClient Session : Type}.

(** [env] is the field of the section [profile]. *)
Definition InitLogger (NewProduction NewDevelopment : Logger + error) (env : string + error) : go Logger :=
  let! env := must env in
  must (if String.eqb env "prod" then NewProduction else NewDevelopment).

(** The hook that runs on stopping; it drops the error. *)
Definition LoggerLifecycle {S} (Sync : S -> S * option error) (s : S) : S * option error :=
  let '(s, _) := Sync s in (s, None).

Definition InitIdGenerator : Snowflake.Generator := Snowflake.NewGenerator.

Record RedisConfig := mkRedisConfig { redis_Addr : string; redis_Password : string }.

Definition InitRedis (NewClient : RedisConfig -> Cmdable) (cfg : RedisConfig + error) : go Cmdable :=
  let! cfg := must cfg in Ret (NewClient cfg).

Definition InitDClient (Build : Cmdable -> Dclient) (rc : Cmdable) : Dclient := Build rc.

Record EtcdConfig := mkEtcdConfig { etcd_Username : string; etcd_Password : string; etcd_Endpoints : list string }.

Definition InitEtcdClient (New : EtcdConfig -> EtcdClient + error) (cfg : EtcdConfig + error) : go EtcdClient :=
  let! cfg := must cfg in must (New cfg).

Definition InitRegistry (NewSession : Z -> Session + error) : go Session :=
  must (Registry.Build NewSession (Registry.LeaseTTL Registry.NewRegistryBuilder 15)).
End libraries.

(** ** Types without behaviour of their own

    service/conf/biz_conf.go, api/grpc/server.go,
    service/schedule/default_notif_scheduler.go, sms/client/aliyun.go. *)

Record DefaultBizConfService (C : Type) := mkBizConfService { bcRepo : C }.
Definition NewDefaultBizConfService {C} (bcRepo : C) : DefaultBizConfService C := mkBizConfService C bcRepo.

(** It embeds the generated servers, every method of which is unimplemented. *)
Record NotificationServer := mkNotificationServer {}.
Definition NewNotificationServer : NotificationServer := mkNotificationServer.

Record DefaultNotifScheduler := mkDefaultNotifScheduler {}.
Record AliyunSmsClient := mkAliyunSmsClient {}.

(** ** db.go *)

Section databases.
Context `{MapRange} {DB : Type}.
Variable Open : string -> DB + error.

Definition InitBaseDB (dsn : string + error) : go DB := let! dsn := must dsn in must (Open dsn).

Fixpoint open_all (dbConfigs : list (string * string)) (dbs : gmap string DB) : go (gmap string DB) :=
  match dbConfigs with
  | [] => Ret dbs
  | (key, dsn) :: dbConfigs => let! db := must (Open dsn) in open_all dbConfigs (<[key := db]> dbs)
  end.

(** [once] is whether the package's [sync.Once] has been used; the map that is filled
    is a variable of the call. *)
Definition InitShardingDB (once : bool) (cfg : gmap string string + error) : go (bool * gmap string DB) :=
  let! dbConfigs := must cfg in
  if once then Ret (once, ∅) else let! dbs := open_all (map_range dbConfigs) ∅ in Ret (true, dbs).

Lemma open_all_spec es dbs0 dbs :
  NoDup es.*1 -> open_all es dbs0 = Ret dbs ->
  forall key, match list_to_map (M := gmap string string) es !! key with
              | Some dsn => exists db, Open dsn = inl db /\ dbs !! key = Some db
              | None => dbs !! key = dbs0 !! key
              end.
Proof using Type.
  revert dbs0; induction es as [|[k dsn] es IH]; intros dbs0 Hnd; simpl; [intros [= ->] key; by rewrite lookup_empty|].
  apply NoDup_cons in Hnd as [Hk Hnd]. intros (db & Hdb%must_ret & E)%go_bind_ret key.
  specialize (IH _ Hnd E key). destruct (decide (k = key)) as [<-|Hne].
  - rewrite lookup_insert_eq. rewrite not_elem_of_list_to_map_1 in IH by done.
    rewrite lookup_insert_eq in IH. by exists db.
  - rewrite lookup_insert_ne by done. by rewrite lookup_insert_ne in IH.
Qed.

Lemma open_all_total es dbs0 :
  (forall e, e ∈ es -> exists db, Open e.2 = inl db) -> exists dbs, open_all es dbs0 = Ret dbs.
Proof using Type.
  revert dbs0; induction es as [|[k dsn] es IH]; intros dbs0 Hop; simpl; [by eexists|].
  destruct (Hop (k, dsn) ltac:(apply elem_of_cons; by left)) as [db Hdb]. simpl in Hdb. rewrite Hdb. simpl.
  apply IH. intros e He. apply Hop, elem_of_cons. by right.
Qed.

(** The first call has a database for every name of the configuration, connected to
    its address, or panics; a later call has none at all. *)
Theorem sharding_dbs_spec cfgs :
  (forall once' dbs, InitShardingDB false (inl cfgs) = Ret (once', dbs) ->
     once' = true /\ forall key, match cfgs !! key with
                               | Some dsn => exists db, Open dsn = inl db /\ dbs !! key = Some db
                               | None => dbs !! key = None
                               end) /\
  ((forall key dsn, cfgs !! key = Some dsn -> exists db, Open dsn = inl db) ->
     is_panic (InitShardingDB false (inl cfgs)) = false) /\
  InitShardingDB true (inl cfgs) = Ret (true, ∅).
Proof using Type.
  unfold InitShardingDB. simpl. split_and!; [|intros Hop|done].
  - intros once' dbs (dbs' & E & [= <- <-])%go_bind_ret. split; [done|]. intros key.
    assert (Hperm := map_range_perm cfgs).
    assert (Hnd : NoDup (map_range cfgs).*1) by (rewrite Hperm; apply NoDup_fst_map_to_list).
    pose proof (open_all_spec _ _ _ Hnd E key) as Hs. rewrite lookup_empty in Hs.
    by rewrite (list_to_map_proper _ _ Hnd Hperm), list_to_map_to_list in Hs.
  - destruct (open_all_total (map_range cfgs) ∅) as [dbs ->]; [|done].
    intros [k dsn] He%map_range_lookup. by eapply Hop.
Qed.
End databases.

(** The databases the configured strategies name are those of the configuration. *)
Lemma configured_shard_hash h v d :
  h = Hash.InitNotifShardingStrategy \/ h = Hash.InitCbLogShardingStrategy -> 0 <= v -> Hash.shard_hash h v = Ret d ->
  Sharding.DB d = "jotify_0"%string \/ Sharding.DB d = "jotify_1"%string.
Proof.
  intros Hh Hv. rewrite Hash.shard_hash_ok; [|destruct Hh as [-> | ->]; vm_compute; intuition congruence|done].
  intros [= <-].
  assert (Hd : Hash.dbSharding h = 2) by by destruct Hh as [-> | ->]. rewrite Hd.
  pose proof (Z.mod_pos_bound v 2 ltac:(lia)).
  assert (v mod 2 = 0 \/ v mod 2 = 1) as [E|E] by lia; rewrite E; destruct Hh as [-> | ->]; auto.
Qed.

(** The sharded data access object, as configured, never lacks a database: when the
    configuration has the two databases of the sharding strategies and they could be
    opened, every destination of a notification or of its callback log, by its
    business key or by its id, is in a database that is loaded. *)
Theorem configured_dao_loads `{XXHash} `{MapRange} {Conn : Type} (Open : string -> Conn + error) cfgs once dbs :
  InitShardingDB Open false (inl cfgs) = Ret (once, dbs) ->
  is_Some (cfgs !! "jotify_0"%string) -> is_Some (cfgs !! "jotify_1"%string) ->
  let nd := Dao.mkDAO (dom dbs) Hash.InitNotifShardingStrategy Hash.InitCbLogShardingStrategy in
  forall h, h = Dao.notifShardingStrategy nd \/ h = Dao.cbLogShardingStrategy nd ->
    (forall bizId bizKey, exists d, Hash.Shard h bizId bizKey = Ret d /\ Sharding.DB d ∈ Dao.dbs nd) /\
    (forall id, in_u 64 id -> exists d, Hash.ShardWithId h id = Ret d /\ Sharding.DB d ∈ Dao.dbs nd).
Proof.
  intros Hi H0' H1' nd h Hh. destruct (sharding_dbs_spec Open cfgs) as (Hdbs & _ & _).
  destruct (Hdbs _ _ Hi) as [_ Hk].
  assert (Hin : forall name, is_Some (cfgs !! name) -> name ∈ dom dbs).
  { intros name [dsn Hn]. specialize (Hk name). rewrite Hn in Hk. destruct Hk as (db & _ & Hd).
    apply elem_of_dom. by exists db. }
  assert (Hwf : Hash.wf h) by (destruct Hh as [-> | ->]; vm_compute; intuition congruence).
  assert (Hall : forall v d, 0 <= v -> Hash.shard_hash h v = Ret d -> Sharding.DB d ∈ dom dbs).
  { intros v d Hv E. destruct (configured_shard_hash h v d Hh Hv E) as [-> | ->]; by apply Hin. }
  split.
  - intros bizId bizKey. destruct (Hash.shard_total h bizId bizKey Hwf) as (d & Hd & _). exists d. split; [done|].
    eapply Hall; [|exact Hd]. apply Sum64String_range.
  - intros id Hid. unfold Hash.ShardWithId.
    assert (Hx : 0 <= Snowflake.ExtractHash id).
    { unfold Snowflake.ExtractHash. apply Z.land_nonneg. right. vm_compute. congruence. }
    rewrite Hash.shard_hash_ok by done. eexists. split; [done|]. by eapply Hall, Hash.shard_hash_ok.
Qed.

(** ** scheduler.go *)

Section scheduler.
Context `{NotificationRepo} {W K : Type}.

Record AdjusterConfig := mkAdjusterConfig {
  BuffSize : Z; InitSize : Z; MinSize : Z; MaxSize : Z; AdjustStep : Z; MinAdjustInterval : Duration }.

Record ErrEventConfig := mkErrEventConfig {
  BitRingSize : Z; ConsecutiveThreshold : Z; EventRateThreshold : spec_float }.

Record ShardingSchedulerConfig := mkSchedulerConfig {
  MaxLockedTableCnt : Z; MinScheduleInterval : Duration; BatchSize : Z;
  Adjuster_ : AdjusterConfig; ErrEvent : ErrEventConfig }.

(** The scheduler with its job, whose business function is [Scheduler.loop]. *)
Record NotifScheduler := mkNotifScheduler {
  scheduler : Scheduler.NotifShardingScheduler W K SlideWindow.Adjuster; loopInterval : Duration; job : ShardingLoopJob }.

Definition NewNotifShardingScheduler (env : Sender.state W K) (shardingStrategy : Hash.HashStrategy)
    (resourceSemaphore : Semaphore.MaxCntResourceSemaphore) (loopInterval : Duration) (batchSize : Z)
    (batchAdjuster : SlideWindow.Adjuster) (errEvents : BitRing.BitRing) : NotifScheduler :=
  mkNotifScheduler (Scheduler.NewNotifShardingScheduler env batchSize batchAdjuster errEvents) loopInterval
    (NewShardingLoopJob "jotify_async_sharding_scheduler" resourceSemaphore shardingStrategy).

(** The goroutine that watches the number of tables is in the file Wiring. *)
Definition InitNotificationScheduler (env : Sender.state W K) (shardingStrategy : Hash.HashStrategy)
    (cfg : ShardingSchedulerConfig + error) : go NotifScheduler :=
  let! cfg := must cfg in
  let resourceSemaphore := Semaphore.NewMaxCntResourceSemaphore (MaxLockedTableCnt cfg) in
  let a := Adjuster_ cfg in
  match SlideWindow.NewAdjuster (BuffSize a) (InitSize a) (MinSize a) (MaxSize a) (AdjustStep a) (MinAdjustInterval a) with
  | (_, Some err) => Panic (Error err)
  | (None, None) => Panic "invalid memory address or nil pointer dereference"
  | (Some adjuster, None) =>
      let e := ErrEvent cfg in
      let errEvents := BitRing.NewBitRing (BitRingSize e) (ConsecutiveThreshold e) (EventRateThreshold e) in
      Ret (NewNotifShardingScheduler env shardingStrategy resourceSemaphore (MinScheduleInterval cfg) (BatchSize cfg)
             adjuster errEvents)
  end.

(** C38: A scheduler made from a sane configuration: its job bounds the tables by the
    configured number and has one lock key for each table of its strategy; and its loops,
    one for each table it works on, on one ring, one adjuster and one batch size, do in
    every interleaving what the configuration says: each goes on or ends by the
    configured threshold on the outcomes of all of them together, and no batch is asked
    for with a size but the configured first one, which nothing clamps, and those between
    the configured bounds. *)
Theorem configured_scheduler_sound env h cfg :
  0 < BuffSize (Adjuster_ cfg) < 2 ^ 62 -> BitRingSize (ErrEvent cfg) < 2 ^ 62 ->
  Batch.sizes_ok (MinSize (Adjuster_ cfg)) (MaxSize (Adjuster_ cfg)) (AdjustStep (Adjuster_ cfg)) ->
  exists ns, InitNotificationScheduler env h (inl cfg) = Ret ns /\
    Semaphore.maxCnt (resourceSemaphore (job ns)) = MaxLockedTableCnt cfg /\
    Semaphore.currCnt (resourceSemaphore (job ns)) = 0 /\
    NoDup (map (Loop.key (job_baseKey (job ns))) (Hash.BroadCast (job_shardingStrategy (job ns)))) /\
    let ring := BitRing.NewBitRing (BitRingSize (ErrEvent cfg)) (ConsecutiveThreshold (ErrEvent cfg)) (EventRateThreshold (ErrEvent cfg)) in
    forall s, Shared.reachable (Scheduler.batchSize (scheduler ns)) (Scheduler.batchAdjuster (scheduler ns))
                (Scheduler.errEvents (scheduler ns)) s ->
      (forall i limit failed, Shared.loops s !! i = Some (Shared.AtAdd limit failed) ->
         exists n, (n = BatchSize cfg \/ MinSize (Adjuster_ cfg) <= n <= MaxSize (Adjuster_ cfg)) /\ limit = i64 n) /\
      (forall i s', Shared.loops s !! i = Some Shared.AtTest -> Shared.step i s s' ->
         Shared.loops s' !! i = Some (if Shared.triggers ring (Shared.outcomes s) then Shared.AtEnd else Shared.AtAdjust)).
Proof using Type.
  intros Hbuf Hring Hsz. unfold InitNotificationScheduler. simpl.
  destruct (SlideWindow.slide_New_ok _ (InitSize (Adjuster_ cfg)) _ _ _ (MinAdjustInterval (Adjuster_ cfg)) Hbuf Hsz)
    as (a & -> & Hok & Hb).
  eexists. split; [done|]. simpl. split; [done|]. split; [done|]. split; [apply Loop.NoDup_keys|].
  intros s Hs.
  destruct (Shared.loops_common (ok := SlideWindow.ok) (BatchSize cfg) a _ s
    (BitRing.New_repr (BitRingSize (ErrEvent cfg)) (ConsecutiveThreshold (ErrEvent cfg)) (EventRateThreshold (ErrEvent cfg)) Hring)
    Hok Hs) as (_ & Hask & Htest & _).
  split; [|exact Htest]. intros i limit failed Hi. destruct (Hask i limit failed Hi) as (n & Hn & ->).
  exists n. split; [|done]. unfold Shared.allowed in Hn. by rewrite Hb in Hn.
Qed.
End scheduler.
Arguments NotifScheduler {_} W K.

(** ** grpc.go *)

Section grpc.
Context `{JwtLib}.

(** What crypto/x509 parses a key to: an ed25519 key, or one of another kind. *)
Inductive parsed (K : Type) := Ed25519 (k : K) | OtherKey.

(** encoding/pem: the bytes of the first block, if there is one. *)
Variables (Decode : string -> option string)
  (ParsePKCS8PrivateKey : string -> parsed PrivateKey + error)
  (ParsePKIXPublicKey : string -> parsed PublicKey + error).

(** The assertion [key.(ed25519.PrivateKey)]. *)
Definition assert_ed25519 {K} (k : parsed K) : go K :=
  match k with
  | Ed25519 _ k => Ret k
  | OtherKey _ => Panic "interface conversion: interface {} is not ed25519 key"
  end.

Definition loadJwtKeypair (priPem pubPem : string) : go (PrivateKey * PublicKey) :=
  match Decode priPem with
  | None => Panic "failed to decode private key PEM"
  | Some priKeyBlock =>
      let! priKey := must (ParsePKCS8PrivateKey priKeyBlock) in
      match Decode pubPem with
      | None => Panic "failed to decode public key PEM"
      | Some pubKeyBlock =>
          let! publicKey := must (ParsePKIXPublicKey pubKeyBlock) in
          let! priKey := assert_ed25519 priKey in
          let! publicKey := assert_ed25519 publicKey in
          Ret (priKey, publicKey)
      end
  end.

(** Loading succeeds exactly for two blocks that hold ed25519 keys. *)
Lemma loadJwtKeypair_ok priPem pubPem pri pub :
  loadJwtKeypair priPem pubPem = Ret (pri, pub) <->
  (exists b, Decode priPem = Some b /\ ParsePKCS8PrivateKey b = inl (Ed25519 _ pri)) /\
  (exists b, Decode pubPem = Some b /\ ParsePKIXPublicKey b = inl (Ed25519 _ pub)).
Proof using Type.
  unfold loadJwtKeypair. split.
  - destruct (Decode priPem) as [b|]; [|done]. intros (k & Hk%must_ret & E)%go_bind_ret.
    destruct (Decode pubPem) as [b'|]; [|done]. apply go_bind_ret in E as (k' & Hk'%must_ret & E).
    destruct k as [k|]; [|done]. destruct k' as [k'|]; [|done]. injection E as -> ->.
    split; by eexists.
  - intros [(b & -> & Hk) (b' & -> & Hk')]. rewrite Hk. simpl. by rewrite Hk'.
Qed.

Record JwtConfig := mkJwtConfig { PriPem : string; PubPem : string }.

Section server.
Context {S Req Info Resp : Type} (nilResp : Resp) (other : spec_float -> Z).

(** The interceptor the server is given; the clock and the metadata of the request are
    arguments of the call. *)
Definition InitNotificationGrpcServer (cfg : JwtConfig + error)
    : go (Time -> option (string -> list string) ->
          S -> list (Context.ctx_key * Context.any) -> Req -> Info ->
          (S -> list (Context.ctx_key * Context.any) -> Req -> go (S * (Resp * option error))) ->
          go (S * (Resp * option error))) :=
  let! cfg := must cfg in
  let! '(priKey, pubKey) := loadJwtKeypair (PriPem cfg) (PubPem cfg) in
  Ret (fun now md => Interceptor.InterceptorOf [Jwt.Build other nilResp (Jwt.Builder priKey pubKey) now md]).

(** C29: The server as configured lets a request reach its handler only with a token
    signed under the public key of the configuration file: every other request is
    answered with Unauthenticated, or panics on a claim of the wrong type, and
    leaves the state of the server alone. *)
Theorem server_guarded cfg interceptor now md s ctx req info handler r :
  InitNotificationGrpcServer (inl cfg) = Ret interceptor ->
  interceptor now md s ctx req info handler = r ->
  (exists msg, r = Jwt.refuse nilResp s msg) \/ (exists msg, r = Panic msg) \/
  exists block pub md' tokenStr rest mc ctx',
    Decode (PubPem cfg) = Some block /\ ParsePKIXPublicKey block = inl (Ed25519 _ pub) /\
    md = Some md' /\ md' "authorization"%string = tokenStr :: rest /\
    Signed pub (TrimPrefix tokenStr "Bearer ") mc /\
    Jwt.add_claims other mc ctx = Ret ctx' /\ r = handler s ctx' req.
Proof using Type.
  unfold InitNotificationGrpcServer. simpl. intros ([pri pub] & Hk & [= <-])%go_bind_ret <-.
  apply loadJwtKeypair_ok in Hk as [_ (block & Hb & Hp)].
  unfold Interceptor.InterceptorOf. simpl. unfold Jwt.Build. destruct md as [md|]; [|left; by eexists].
  destruct (md "authorization"%string) as [|tokenStr rest] eqn:Eh; [left; by eexists|].
  destruct (Jwt.Decode _ _ tokenStr) as [mc|err] eqn:Ed.
  - right. destruct (Jwt.add_claims other mc ctx) as [ctx'|msg] eqn:Ec; [right|left; by exists msg].
    apply Jwt.Decode_signed in Ed. by exists block, pub, md, tokenStr, rest, mc, ctx'.
  - left. destruct (errors_Is err ErrTokenExpired); [by eexists|].
    destruct (errors_Is err ErrTokenSignatureInvalid); by eexists.
Qed.
End server.
End grpc.

(** *** InitCallbackGrpcClients *)

Section clients.
Context `{GrpcDial} {T : Type}.

Record LoadBalanceConfig := mkLoadBalance { lb_Name : string; lb_Timeout : Z }.

(** The balancer is registered under its name; the resolver has the timeout. *)
Definition InitCallbackGrpcClients (creator : ClientConn -> T) (cfg : LoadBalanceConfig + error)
    : go (Duration * Clients.Clients T) :=
  let! cfg := must cfg in
  Ret (i64 (lb_Timeout cfg * Millisecond), Clients.NewClients (Some (lb_Name cfg)) creator).
End clients.

Section callbacks.
Context `{GrpcDial} `{RetryKit} `{NotificationDAO} `{LogDB} `{MapRange} {W C : Type} `{!BizConfRepo.Repository C}.

(** With the clients the program makes, no callback can be sent: for a business
    that has a callback configuration the call panics, since the clients are made
    without the transport security their dial needs. *)
Theorem wired_callbacks_panic creator cfg timeout clients now (st st1 : Callback.state W C) n conf :
  InitCallbackGrpcClients creator (inl cfg) = Ret (timeout, clients) ->
  Callback.clients st = clients ->
  Callback.getConf now st (Notif.BizId n) = (st1, (Some conf, None)) ->
  is_panic (Callback.sendCallback now st n) = true.
Proof using Type.
  intros [= _ <-] Hcl Hconf. unfold Callback.sendCallback. rewrite Hconf.
  assert (Hst : Callback.clients st1 = Callback.clients st).
  { unfold Callback.getConf in Hconf. destruct (Callback.confMap st !! _); [by injection Hconf as <-|].
    destruct (BizConfRepo.conf_GetById _ _ _) as [c [bc [e|]]]; [done|].
    destruct (CallbackConf_ bc); by injection Hconf as <-. }
  rewrite Hst, Hcl. pose proof (Clients.NewClients_Get (Some (lb_Name cfg)) creator (cb_ServiceName conf)) as Hp.
  by destruct (Clients.Get _ _).
Qed.
End callbacks.

(** ** Runs *)

Definition two_databases : gmap string string :=
  {[ "jotify_0"%string := "dsn0"%string; "jotify_1"%string := "dsn1"%string ]}.

Lemma configured_dao_loads_witness :
  match @InitShardingDB key_order string (fun dsn => inl dsn) false (inl two_databases) with
  | Ret (_, dbs) => exists d, @Hash.Shard fnv_hash Hash.InitNotifShardingStrategy 7 "order-1" = Ret d /\ Sharding.DB d ∈ dom dbs
  | Panic _ => False
  end.
Proof.
  destruct (@InitShardingDB key_order string (fun dsn => inl dsn) false (inl two_databases)) as [[once dbs]|msg] eqn:E.
  - exact (proj1 (@configured_dao_loads fnv_hash key_order string (fun dsn => inl dsn) two_databases once dbs E
      (ex_intro _ _ eq_refl) (ex_intro _ _ eq_refl) Hash.InitNotifShardingStrategy (or_introl eq_refl)) 7 "order-1"%string).
  - assert (Hp : is_panic (@InitShardingDB key_order string (fun dsn => inl dsn) false (inl two_databases)) = false)
      by (vm_compute; reflexivity).
    rewrite E in Hp. discriminate Hp.
Defined.

Definition sane_config : ShardingSchedulerConfig :=
  mkSchedulerConfig 3 Second 10 (mkAdjusterConfig 4 10 4 20 5 0) (mkErrEventConfig 8 2 (float64 1)).

#[local] Existing Instance Sender.run_repo.

Lemma configured_scheduler_sound_witness :
  exists ns, InitNotificationScheduler Sender.run_start Hash.InitNotifShardingStrategy (inl sane_config) = Ret ns /\
    Semaphore.maxCnt (resourceSemaphore (job ns)) = 3.
Proof.
  destruct (configured_scheduler_sound Sender.run_start Hash.InitNotifShardingStrategy sane_config)
    as (ns & E & Hm & _).
  - vm_compute. intuition congruence.
  - vm_compute. reflexivity.
  - split_and!; vm_compute; congruence.
  - exists ns. split; [exact E|exact Hm].
Defined.

Lemma server_guarded_witness :
  let handler (s : nat) (_ : list (Context.ctx_key * Context.any)) (_ : unit) : go (nat * (bool * option error)) :=
    Ret (S s, (true, None)) in
  match @InitNotificationGrpcServer Jwt.plain_jwt (fun b => Some b) (fun b => inl (Ed25519 _ b)) (fun b => inl (Ed25519 _ b))
          nat unit unit bool false (fun _ => 0) (inl (mkJwtConfig "k" "k")) with
  | Ret interceptor =>
      (exists msg, interceptor now2025 (Some Jwt.plain_header) 0%nat [] tt tt handler = Jwt.refuse false 0%nat msg) \/
      interceptor now2025 (Some Jwt.plain_header) 0%nat [] tt tt handler = Ret (1%nat, (true, None))
  | Panic _ => False
  end.
Proof.
  intros handler.
  destruct (@InitNotificationGrpcServer Jwt.plain_jwt (fun b => Some b) (fun b => inl (Ed25519 _ b))
    (fun b => inl (Ed25519 _ b)) nat unit unit bool false (fun _ => 0) (inl (mkJwtConfig "k" "k"))) as [i|msg] eqn:E.
  - destruct (@server_guarded Jwt.plain_jwt (fun b => Some b) (fun b => inl (Ed25519 _ b)) (fun b => inl (Ed25519 _ b))
      nat unit unit bool false (fun _ => 0) (mkJwtConfig "k" "k") i now2025 (Some Jwt.plain_header) 0%nat [] tt tt handler _ E eq_refl)
      as [Hl|[[msg Hp]|_]]; [left; exact Hl| |right].
    + injection E as <-. apply (f_equal is_panic) in Hp. vm_compute in Hp. discriminate Hp.
    + injection E as <-. vm_compute. reflexivity.
  - discriminate E.
Defined.

Definition no_security : Clients.Clients (H := Callback.strict_dial) (Callback.CallbackServiceClient nat) :=
  Clients.NewClients (H := Callback.strict_dial) (Some "rw_weight"%string) (fun _ => Callback.counting).

Definition unsecured (confs : gmap Z CallbackConf) : @Callback.state Callback.strict_dial Callback.mem_logs nat unit :=
  @Callback.mkState Callback.strict_dial Callback.mem_logs nat unit 0%nat no_security confs tt Callback.two_logs.

Lemma wired_callbacks_panic_witness :
  is_panic (@Callback.sendCallback Callback.strict_dial Callback.mem_logs nat unit Callback.one_conf now2025
    (unsecured ∅) (Callback.notif_of 11)) = true.
Proof.
  exact (wired_callbacks_panic (H := Callback.strict_dial) (fun _ => Callback.counting) (mkLoadBalance "rw_weight" 500)
    (i64 (500 * Millisecond)) no_security now2025 (unsecured ∅) (unsecured {[ 7 := mkCbConf "svc" None ]})
    (Callback.notif_of 11) (mkCbConf "svc" None) eq_refl eq_refl eq_refl).
Defined.
End Ioc.
