(* ===== verification/Main.v ===== *)
(** * The entry point: cmd/main.go

    [main] reads the configuration, gives the options of the file Container to fx,
    which runs the constructors that are needed, and starts the application with its
    hook.  The constructors are those of the files Ioc and Wiring, each reading its
    section of the configuration; the libraries they call, pflag, viper, zap, etcd,
    crypto and the network, are arguments. *)
From Stdlib Require Import ZArith Lia List.
From stdpp Require Import prelude strings gmap.
From S2P Require Import Prelude GoLang GoFloat Errs GoStrings Externals RwBalancer EtcdRegistry Jwt Wiring Container Ioc.

Module Main.

(** The command line is parsed by pflag, which ends the process when it cannot; the
    file is read and parsed by viper; [sections] are what [viper.UnmarshalKey] makes
    of its sections. *)
Class Viper := {
  config : Type;
  Parse : list string -> string -> string -> option string;
  ReadInConfig : string -> string -> config + error;
  profile : config -> string + error;
  etcd : config -> Ioc.EtcdConfig + error;
  jwt : config -> Ioc.JwtConfig + error;
  app : config -> App.config + error }.

(** The result is what viper then holds, or nothing when the process has ended. *)
Definition initViper `{Viper} (args : list string) : go (option config) :=
  match Parse args "config" "etc/config.yaml" with
  | None => Ret None
  | Some configFile =>
      match ReadInConfig configFile "yaml" with
      | inr err => Panic (Error err)
      | inl c => Ret (Some c)
      end
  end.

Section main.
Context `{Viper} `{Container.Fx} `{HJ : JwtLib} `{HE : Etcd} {Logger EtcdClient Session : Type}.
Variables (NewProduction NewDevelopment : Logger + error)
  (New : Ioc.EtcdConfig -> EtcdClient + error)
  (NewSession : EtcdClient -> Z -> Session + error) (Lease : Session -> Z)
  (Decode : string -> option string)
  (ParsePKCS8PrivateKey : string -> Ioc.parsed PrivateKey + error)
  (ParsePKIXPublicKey : string -> Ioc.parsed PublicKey + error)
  (listen : string -> option error)
  (other : string -> go unit).

(** *** What the constructors give each other *)

Definition logger (c : config) : go Logger := Ioc.InitLogger NewProduction NewDevelopment (profile c).

Definition client (c : config) : go EtcdClient := Ioc.InitEtcdClient New (etcd c).

Definition registry (c : config) : go Session :=
  let! cl := client c in Ioc.InitRegistry (NewSession cl).

(** The server is its interceptor; the types of its requests do not matter here. *)
Definition server (c : config) : go unit :=
  let! _ := @Ioc.InitNotificationGrpcServer HJ Decode ParsePKCS8PrivateKey ParsePKIXPublicKey
              unit unit unit unit tt (fun _ => 0) (jwt c) in Ret tt.

Definition application (c : config) : go App.App :=
  let! _ := server c in
  let! r := registry c in
  let! _ := logger c in
  App.InitApp (Some (Lease r)) (app c).

(** A constructor, by name; the others are [other]. *)
Definition construct (c : config) (p : Container.provider) : go unit :=
  let name := Container.fn p in
  if String.eqb name "InitLogger" then let! _ := logger c in Ret tt
  else if String.eqb name "InitEtcdClient" then let! _ := client c in Ret tt
  else if String.eqb name "InitRegistry" then let! _ := registry c in Ret tt
  else if String.eqb name "grpcapi.NewNotificationServer" then Ret tt
  else if String.eqb name "InitNotificationGrpcServer" then server c
  else if String.eqb name "InitApp" then let! _ := application c in Ret tt
  else other name.

(** How a run that did not panic goes: the process has ended before fx was asked,
    or with fx's error; or the start hook was called, with its error. *)
Inductive outcome := NoConfig | NoGraph | Hook (ran : list string) (acts : list App.action) (s : kvstore) (err : option error).

Definition main (args : list string) (s : kvstore) : go outcome :=
  let! c := initViper args in
  match c with
  | None => Ret NoConfig
  | Some c =>
      match Container.start Container.main_options Container.main_invokes with
      | None => Ret NoGraph
      | Some cs =>
          let! _ := go_mapM (construct c) cs in
          let! a := application c in
          let '(acts, (s, err)) := App.Start a (listen (Resolver.Addr (App.serviceInstance a))) s in
          Ret (Hook (map Container.fn cs) acts s err)
      end
  end.

(** *** When they succeed *)

(** The configuration gives every constructor what it needs. *)
Record configured (c : config) (cl : EtcdClient) (r : Session) (ac : App.config) : Prop := {
  conf_logger : exists env, profile c = inl env /\
    exists l, (if String.eqb env "prod" then NewProduction else NewDevelopment) = inl l;
  conf_client : exists ec, etcd c = inl ec /\ New ec = inl cl;
  conf_session : NewSession cl 15 = inl r;
  conf_keys : exists jc b b' pri pub, jwt c = inl jc /\
    Decode (Ioc.PriPem jc) = Some b /\ ParsePKCS8PrivateKey b = inl (Ioc.Ed25519 _ pri) /\
    Decode (Ioc.PubPem jc) = Some b' /\ ParsePKIXPublicKey b' = inl (Ioc.Ed25519 _ pub);
  conf_app : app c = inl ac }.

(** The application of a section, on the registry of a session. *)
Definition app_of (r : Session) (ac : App.config) : App.App :=
  App.mkApp (i64 (App.cfg_Timeout ac * Millisecond)) (Some (Lease r))
    (Resolver.mkInstance (App.cfg_Name ac) (App.cfg_Addr ac) (App.cfg_Group ac) (App.cfg_ReadWeight ac) (App.cfg_WriteWeight ac)).

Lemma logger_ok c l :
  logger c = Ret l <-> exists env, profile c = inl env /\
    (if String.eqb env "prod" then NewProduction else NewDevelopment) = inl l.
Proof using Type.
  unfold logger, Ioc.InitLogger. rewrite go_bind_ret. split.
  - intros (env & He%Ioc.must_ret & Hl%Ioc.must_ret). by exists env.
  - intros (env & -> & E). exists env. split; [done|]. by rewrite E.
Qed.

Lemma client_ok c cl : client c = Ret cl <-> exists ec, etcd c = inl ec /\ New ec = inl cl.
Proof using Type.
  unfold client, Ioc.InitEtcdClient. rewrite go_bind_ret. split.
  - intros (ec & He%Ioc.must_ret & Hc%Ioc.must_ret). by exists ec.
  - intros (ec & -> & E). exists ec. split; [done|]. by rewrite E.
Qed.

Lemma registry_ok c r : registry c = Ret r <-> exists cl, client c = Ret cl /\ NewSession cl 15 = inl r.
Proof using Type.
  unfold registry, Ioc.InitRegistry. rewrite go_bind_ret. split.
  - intros (cl & Hc & Hr%Ioc.must_ret). by exists cl.
  - intros (cl & -> & E). exists cl. split; [done|].
    change (Registry.Build _ _) with (NewSession cl 15). by rewrite E.
Qed.

Lemma server_ok c :
  server c = Ret tt <-> exists jc b b' pri pub, jwt c = inl jc /\
    Decode (Ioc.PriPem jc) = Some b /\ ParsePKCS8PrivateKey b = inl (Ioc.Ed25519 _ pri) /\
    Decode (Ioc.PubPem jc) = Some b' /\ ParsePKIXPublicKey b' = inl (Ioc.Ed25519 _ pub).
Proof using Type.
  unfold server, Ioc.InitNotificationGrpcServer. split.
  - intros (i & (jc & Hj%Ioc.must_ret & E)%go_bind_ret & _)%go_bind_ret.
    apply go_bind_ret in E as ([pri pub] & [(b & Hb & Hp) (b' & Hb' & Hp')]%Ioc.loadJwtKeypair_ok & _).
    by exists jc, b, b', pri, pub.
  - intros (jc & b & b' & pri & pub & -> & Hb & Hp & Hb' & Hp'). simpl.
    assert (E : Ioc.loadJwtKeypair Decode ParsePKCS8PrivateKey ParsePKIXPublicKey (Ioc.PriPem jc) (Ioc.PubPem jc)
                = Ret (pri, pub)) 
      by (apply Ioc.loadJwtKeypair_ok; split; by eexists). by rewrite E.
Qed.

Lemma application_ok c a :
  application c = Ret a <-> exists cl r ac, configured c cl r ac /\ a = app_of r ac.
Proof using Type.
  unfold application. split.
  - intros ([] & Hs & (r & Hr & (l & Hl & Ha)%go_bind_ret)%go_bind_ret)%go_bind_ret.
    apply registry_ok in Hr as (cl & Hc & Hn). unfold App.InitApp in Ha.
    destruct (app c) as [ac|] eqn:Eac; [|done]. injection Ha as <-. exists cl, r, ac. split; [|done].
    constructor; [|by apply client_ok|done|by apply server_ok|done].
    apply logger_ok in Hl as (env & He & Hl). eauto.
  - intros (cl & r & ac & [(env & He & l & Hl) Hc Hn Hk Ha] & ->).
    rewrite (proj2 (server_ok c)) by done. rewrite (proj2 (registry_ok c r)) by (exists cl; by rewrite client_ok).
    rewrite (proj2 (logger_ok c l)) by eauto. simpl. by rewrite Ha.
Qed.

(** The needed constructors run, in any order, when the application can be made. *)
Lemma construct_ok c a cs :
  application c = Ret a -> (forall p, p ∈ cs -> Container.fn p ∈ Container.started) ->
  go_mapM (construct c) cs = Ret (map (fun _ => tt) cs).
Proof using Type.
  intros Ha Hcs. apply go_mapM_ret. intros p Hp. pose proof Ha as Ha'. unfold application in Ha'.
  apply go_bind_ret in Ha' as ([] & Hs & (r & Hr & (l & Hl & _)%go_bind_ret)%go_bind_ret).
  pose proof Hr as (cl & Hc & _)%go_bind_ret.
  apply Hcs in Hp. unfold construct, Container.started in *. set (name := Container.fn p) in *.
  repeat (apply elem_of_cons in Hp as [-> |Hp]; [simpl; by rewrite ?Hl, ?Hc, ?Hr, ?Hs, ?Ha|]).
  by apply elem_of_nil in Hp.
Qed.

(** C40: the program starts exactly when the command line is understood, the file it
    names (or etc/config.yaml) is read, its sections give a logger, an etcd client,
    a session with a lease of 15 seconds, two ed25519 keys and an application, the
    address can be listened on, and registering the instance succeeds; then the
    constructors that ran are six: no database, cache, repository, service, sender
    or scheduler was made. *)
Theorem main_starts args s ran acts s' :
  main args s = Ret (Hook ran acts s' None) <->
  exists f c cl r ac cs,
    Parse args "config" "etc/config.yaml" = Some f /\ ReadInConfig f "yaml" = inl c /\
    configured c cl r ac /\ listen (App.cfg_Addr ac) = None /\
    Registry.Register (Lease r) s (App.serviceInstance (app_of r ac)) = (s', None) /\
    Container.start Container.main_options Container.main_invokes = Some cs /\
    ran = map Container.fn cs /\ ran ≡ₚ Container.started /\ acts = [App.Listen; App.Serve].
Proof using Type.
  destruct Container.options_start as (cs & Hcs & Hnd & Hin).
  assert (Hperm : map Container.fn cs ≡ₚ Container.started) by by apply Container.started_names.
  unfold main, initViper. rewrite Hcs. split.
  - destruct (Parse _ _ _) as [f|]; [|done]. destruct (ReadInConfig _ _) as [c|err] eqn:Ec; [|done]. simpl.
    intros (us & _ & (a & Ha & E)%go_bind_ret)%go_bind_ret.
    apply application_ok in Ha as (cl & r & ac & Hconf & ->).
    unfold App.Start in E. simpl in E. destruct (listen _) as [e|] eqn:El; [done|].
    destruct (Registry.Register _ _ _) as [s1 err] eqn:Er. injection E as <- <- <- ->.
    by exists f, c, cl, r, ac, cs.
  - intros (f & c & cl & r & ac & cs' & -> & -> & Hconf & Hl & Hr & [= <-] & -> & _ & ->). simpl.
    assert (Ha : application c = Ret (app_of r ac)) by (apply application_ok; eauto).
    rewrite (construct_ok c _ cs Ha) by (intros p Hp; by apply Hin). simpl. rewrite Ha. simpl.
    unfold App.Start. simpl in *. by rewrite Hl, Hr.
Qed.
End main.

(** A configuration file, a command line that is its flag's value, and libraries
    that accept what it says. *)
#[local] Instance one_file : Viper := {|
  config := App.config;
  Parse args _ dflt := match args with [] => Some dflt | [f] => Some f | _ => None end;
  ReadInConfig f _ := if String.eqb f "etc/config.yaml" then inl App.sample_config else inr (ENew "no such file");
  profile _ := inl "dev"%string;
  etcd _ := inl (Ioc.mkEtcdConfig "" "" ["127.0.0.1:2379"%string]);
  jwt _ := inl (Ioc.mkJwtConfig "k" "k");
  app c := inl c |}.

Definition sample_main : list string -> @kvstore Registry.mem_etcd -> go outcome :=
  @main one_file Container.search Jwt.plain_jwt Registry.mem_etcd unit unit Z (inl tt) (inl tt)
    (fun _ => inl tt) (fun _ ttl => inl ttl) (fun r => r) (fun b => Some b)
    (fun b => inl (Ioc.Ed25519 _ b)) (fun b => inl (Ioc.Ed25519 _ b)) (fun _ => None) (fun name => Panic name).

Lemma main_starts_witness :
  exists ran acts s', sample_main [] Registry.no_keys = Ret (Hook ran acts s' None) /\
    ran ≡ₚ Container.started.
Proof.
  destruct (@Container.options_start Container.search) as (cs & Hcs & Hnd & Hin).
  pose proof (Container.started_names cs Hnd Hin) as Hperm.
  exists (map Container.fn cs), [App.Listen; App.Serve].
  destruct (@Registry.Register Registry.mem_etcd 15 Registry.no_keys
    (App.serviceInstance (@app_of Z (fun r => r) 15 App.sample_config))) as [s' err] eqn:Er.
  assert (err = None) as -> by (injection Er as _ <-; reflexivity).
  exists s'. split; [|exact Hperm].
  apply (@main_starts one_file Container.search Jwt.plain_jwt Registry.mem_etcd unit unit Z (inl tt) (inl tt)
    (fun _ => inl tt) (fun _ ttl => inl ttl) (fun r => r) (fun b => Some b)
    (fun b => inl (Ioc.Ed25519 _ b)) (fun b => inl (Ioc.Ed25519 _ b)) (fun _ => None) (fun name => Panic name)).
  exists "etc/config.yaml"%string, App.sample_config, tt, 15, App.sample_config, cs.
  split; [reflexivity|]. split; [reflexivity|]. split.
  { constructor; [exists "dev"%string|..].
    - split; [reflexivity|]. exists tt. reflexivity.
    - eexists. split; reflexivity.
    - reflexivity.
    - do 5 eexists. split_and!; reflexivity.
    - reflexivity. }
  split; [reflexivity|]. split; [exact Er|]. split; [exact Hcs|]. split; [reflexivity|]. split; [exact Hperm|reflexivity].
Defined.

End Main.
