(* ===== verification/Tests.v ===== *)
(** * The unit tests of the repository, run on the models

    The tables of the repository's own tests, with the results they ask for, and
    functions that run a case the way the test does.  A test sleeps for a
    millisecond where a clock matters; here the second reading is a millisecond
    later.  The tests of concurrent use are not among them: the methods are atomic
    in the models. *)
From Stdlib Require Import ZArith Lia List SpecFloat.
From stdpp Require Import prelude strings gmap.
From S2P Require Import Prelude GoLang GoFloat Errs GoStrings Externals RingBuffer BitRing Batch Snowflake Domain Quota Idempotent Jwt.

(** [l] is what is wanted, case by case. *)
Definition all_pass {A} (run : A -> bool) (l : list A) : bool := forallb run l.

Definition returns {A} `{EqDecision A} (m : go A) (x : A) : bool :=
  match m with Ret y => bool_decide (y = x) | Panic _ => false end.

(** ** bitring_test.go *)

Record bitring_case := mkBitringCase {
  b_window : Z; b_consecutive : Z; b_threshold : spec_float; b_events : list (bool * bool) }.

Definition half : spec_float := fdiv (float64 1) (float64 2).

Definition bitring_cases : list bitring_case := [
  mkBitringCase 4 2 half [(false, false); (false, false); (false, false); (false, false)];
  mkBitringCase 32 4 (float64 1) [(true, false); (true, false); (true, false); (true, true)];
  mkBitringCase 32 8 half
    [(false, false); (false, false); (true, false); (true, false); (false, false); (true, false); (true, true)];
  mkBitringCase 8 3 half
    [(false, false); (true, false); (false, false); (false, false); (true, false); (true, false); (false, false);
     (true, false); (true, true); (false, false); (true, true); (false, true)]].

Fixpoint bitring_steps (br : BitRing.BitRing) (events : list (bool * bool)) : go bool :=
  match events with
  | [] => Ret true
  | (event, wantTriggered) :: events =>
      let! br := BitRing.Add br event in
      let! triggered := BitRing.ThresholdTriggering br in
      if eqb triggered wantTriggered then bitring_steps br events else Ret false
  end.

Definition run_bitring (c : bitring_case) : bool :=
  returns (bitring_steps (BitRing.NewBitRing (b_window c) (b_consecutive c) (b_threshold c)) (b_events c)) true.

Example bitring_tests_pass : all_pass run_bitring bitring_cases = true.
Proof. vm_compute. reflexivity. Qed.

(** ** ringbuffer_test.go and ring_buffer_test.go *)

(** The items, and the size, count and average wanted; nothing where an error is. *)
Definition ring_cases : list (Z * list Duration * option (Z * Z * Duration)) := [
  (0, [], None);
  (4, [], Some (4, 0, 0));
  (4, [Second; 2 * Second; Minute], Some (4, 3, 21 * Second));
  (4, [Second; Second; Second; Second; Second; Minute; Minute], Some (4, 4, 30500 * Millisecond))].

Definition ring_readings (rb : Ring.TimeDurationRingBuffer) : go (Z * Z * Duration) :=
  let! avg := Ring.Avg rb in Ret (Ring.Size rb, Ring.Count rb, avg).

Definition run_ring (c : Z * list Duration * option (Z * Z * Duration)) : bool :=
  let '(n, items, want) := c in
  match Ring.NewTimeDurationRingBuffer n, want with
  | (None, Some err), None => String.eqb (Error err) (Error Ring.ErrInvalidBufferSize)
  | (Some rb, None), Some want =>
      returns (let! rb := Ring.run rb (map Ring.OAdd items) in ring_readings rb) want
  | _, _ => false
  end.

Definition run_legacy_ring (c : Z * list Duration * option (Z * Z * Duration)) : bool :=
  let '(n, items, want) := c in
  match LegacyRing.NewTimeDurationRingBuffer n, want with
  | Panic _, None => true
  | Ret rb, Some want => returns (let! rb := Ring.run rb (map Ring.OAdd items) in ring_readings rb) want
  | _, _ => false
  end.

Example ring_tests_pass : all_pass run_ring ring_cases && all_pass run_legacy_ring ring_cases = true.
Proof. vm_compute. reflexivity. Qed.

(** [TestTimeDurationRingBuffer_Reset]. *)
Definition reset_readings (rb : Ring.TimeDurationRingBuffer) : go (list (Z * Z * Duration)) :=
  let! rb := Ring.run rb (map Ring.OAdd [Second; 2 * Second; Minute]) in
  let! r1 := ring_readings rb in
  let! rb := Ring.Reset rb in
  let! r2 := ring_readings rb in
  let! rb := Ring.run rb (map Ring.OAdd [Second; 3 * Second]) in
  let! r3 := ring_readings rb in
  Ret [r1; r2; r3].

Example reset_test_passes :
  returns (match Ring.NewTimeDurationRingBuffer 4 with (Some rb, None) => reset_readings rb | _ => Panic "" end)
    [(4, 3, 21 * Second); (4, 0, 0); (4, 2, 2 * Second)] = true.
Proof. vm_compute. reflexivity. Qed.

(** ** fixed_step_adjuster_test.go and slide_window_adjuster_test.go *)

(** An adjuster, the response times it was given before, the one of the test, and the
    size wanted. *)
Record adjuster_case (A : Type) := mkAdjusterCase {
  a_adjuster : A; a_before : list Duration; a_respTime : Duration; a_size : Z }.
Arguments mkAdjusterCase {A}.
Arguments a_adjuster {A}.
Arguments a_before {A}.
Arguments a_respTime {A}.
Arguments a_size {A}.

Definition run_adjuster `{Batch.Adjuster A} (c : adjuster_case A) : bool :=
  let later := Add now2025 Millisecond in
  match adjust_all (a_adjuster c) (map (fun d => (d, now2025, now2025)) (a_before c)) with
  | Ret (a, _) =>
      match Batch.Adjust a (a_respTime c) later later with
      | Ret (_, (size, None)) => size =? a_size c
      | _ => false
      end
  | Panic _ => false
  end.

Definition fixed_adjuster (step : Z) (interval fast slow : Duration) : Fixed.Adjuster :=
  Fixed.NewAdjuster 100 50 200 step interval fast slow.

Definition fixed_cases : list (adjuster_case Fixed.Adjuster) :=
  let normal := fixed_adjuster 10 Second Millisecond (10 * Millisecond) in
  let patient := fixed_adjuster 10 Minute Millisecond (10 * Millisecond) in [
  mkAdjusterCase normal [] (2 * Millisecond) 100;
  mkAdjusterCase normal [] Millisecond 100;
  mkAdjusterCase normal [] (10 * Millisecond) 100;
  mkAdjusterCase normal [] Nanosecond 110;
  mkAdjusterCase normal [] Second 90;
  mkAdjusterCase patient [Nanosecond] Nanosecond 110;
  mkAdjusterCase patient [11 * Millisecond] Second 90;
  mkAdjusterCase (fixed_adjuster 80 Millisecond Second (10 * Second)) [Millisecond] Millisecond 200;
  mkAdjusterCase (fixed_adjuster 30 Millisecond Millisecond (10 * Millisecond)) [Second] Second 50].

Example fixed_tests_pass : all_pass run_adjuster fixed_cases = true.
Proof. vm_compute. reflexivity. Qed.

(** The arguments of [slidewindow.NewAdjuster] that the cases differ in. *)
Definition slide_cases : list (adjuster_case (Z * Duration)) := [
  mkAdjusterCase (10, Second) (replicate 2 Millisecond) Millisecond 100;
  mkAdjusterCase (10, Second) (replicate 3 Millisecond) Millisecond 100;
  mkAdjusterCase (10, Second) (replicate 3 (2 * Millisecond)) Millisecond 110;
  mkAdjusterCase (10, Minute) (replicate 3 Second ++ [Millisecond]) Millisecond 110;
  mkAdjusterCase (10, Second) (replicate 3 Millisecond) Second 90;
  mkAdjusterCase (10, Minute) (replicate 3 Millisecond ++ [10 * Millisecond]) Second 90;
  mkAdjusterCase (80, Millisecond) (replicate 3 Second ++ [Millisecond]) Millisecond 200;
  mkAdjusterCase (40, Millisecond) (replicate 3 Millisecond ++ [10 * Millisecond]) Second 50].

Definition run_slide (c : adjuster_case (Z * Duration)) : bool :=
  match SlideWindow.NewAdjuster 4 100 50 200 (a_adjuster c).1 (a_adjuster c).2 with
  | (Some a, None) => run_adjuster (mkAdjusterCase a (a_before c) (a_respTime c) (a_size c))
  | _ => false
  end.

Example slide_tests_pass : all_pass run_slide slide_cases = true.
Proof. vm_compute. reflexivity. Qed.

(** ** id_generator_test.go, over a stand-in for xxhash *)

Section ids.
#[local] Existing Instance fnv_hash.

Definition test_biz_key : string := "test_biz_key:" +:+ FormatUint 2025.

(** [TestGenerator_NextId_SeqIncr]: [n] ids have the sequence numbers from 0 and one
    hash, that of the key. *)
Definition run_seq_incr (n : nat) : bool :=
  let '(_, ids) := Snowflake.NextIds Snowflake.NewGenerator (replicate n (2025, test_biz_key, now2025)) in
  bool_decide (map Snowflake.ExtractSequence ids = map Z.of_nat (seq 0 n)) &&
  forallb (fun id => Snowflake.ExtractHash id =? Sum64String (Snowflake.HashKey 2025 test_biz_key) mod 1024) ids.

(** [TestGenerator_NextId_SeqRollover]. *)
Definition run_rollover : bool :=
  let g := Snowflake.mkGenerator Snowflake.sequenceMask (Snowflake.lastTime Snowflake.NewGenerator)
             (Snowflake.epoch Snowflake.NewGenerator) in
  let '(_, ids) := Snowflake.NextIds g (replicate 2 (2025, test_biz_key, now2025)) in
  bool_decide (map Snowflake.ExtractSequence ids = [Snowflake.sequenceMask; 0]).

Example snowflake_tests_pass : run_seq_incr 1 && run_seq_incr 100 && run_rollover = true.
Proof. vm_compute. reflexivity. Qed.
End ids.

(** ** redis_idempotent_e2e_test.go *)

(** The keys in turn, with the seconds the test has slept and what it expects. *)
Definition exists_cases : list (Z * string * bool) :=
  [(0, "test_key", false); (0, "test_key", true); (0, "test_new_key", false); (1, "test_key", false)]%string.

Fixpoint run_exists (s : gmap string Time) (calls : list (Z * string * bool)) : bool :=
  match calls with
  | [] => true
  | (slept, key, want) :: calls =>
      match Idempotent.Exists (H := Idempotent.mem_nx) Second reached s (Idempotent.later slept) key with
      | (s, (b, None)) => eqb b want && run_exists s calls
      | _ => false
      end
  end.

(** [TestRedisStrategy_MultiExists], with [n] keys that expire after 5 seconds. *)
Definition test_keys (n : nat) : list string := map (fun i => "test_key_" +:+ FormatUint (Z.of_nat i)) (seq 0 n).

Definition multi_is (n : nat) (want : string -> bool) (r : gmap string bool * option error) : bool :=
  match r with
  | (m, None) => (size m =? n)%nat && forallb (fun k => bool_decide (m !! k = Some (want k))) (test_keys n)
  | _ => false
  end.

Definition run_multi_exists (n : nat) : bool :=
  let multi s t := Idempotent.MultiExists (H := Idempotent.mem_nx) (5 * Second) None (fun _ => reached) s t (test_keys n) in
  let again s t key := (Idempotent.Exists (H := Idempotent.mem_nx) (5 * Second) reached s t key).1 in
  let asked k := String.eqb k "test_key_1" || String.eqb k "test_key_10" in
  let '(s, r1) := multi ∅ (Idempotent.later 0) in
  let '(s, r2) := multi s (Idempotent.later 0) in
  let s := again s (Idempotent.later 5) "test_key_1"%string in
  let s := again s (Idempotent.later 5) "test_key_10"%string in
  let '(s, r3) := multi s (Idempotent.later 5) in
  let '(s, r4) := multi s (Idempotent.later 5) in
  multi_is n (fun _ => false) r1 && multi_is n (fun _ => true) r2 && multi_is n asked r3 && multi_is n (fun _ => true) r4.

Example idempotent_tests_pass : run_exists ∅ exists_cases && run_multi_exists 100 = true.
Proof. vm_compute. reflexivity. Qed.

(** ** jwt_interceptor_test.go, over a stand-in for the tokens *)

Section tokens.
#[local] Existing Instance Jwt.plain_jwt.

Definition jwt_trip (customClaims : gmap string claim) : gmap string claim + error :=
  match Jwt.Encode Jwt.plain_builder now2025 now2025 customClaims with
  | inl token => Jwt.Decode Jwt.plain_builder (Add now2025 Millisecond) token
  | inr err => inr err
  end.

(** [TestJwtAuth_Encode]. *)
Definition jwt_cases : list (gmap string claim) := [
  ∅;
  {[ Jwt.paramNameBizId := CFloat (float64 100000000); Jwt.paramNameBizKey := CStr "test-biz-key" ]}].

Definition run_jwt (customClaims : gmap string claim) : bool :=
  match jwt_trip customClaims with
  | inl claims =>
      match claims !! "iat"%string, claims !! "exp"%string, claims !! "iss"%string with
      | Some _, Some _, Some (CStr iss) => String.eqb iss "jotify"
      | _, _, _ => false
      end
  | inr _ => false
  end.

(** [TestJwtAuth_Decode]. *)
Definition run_jwt_decode : bool :=
  match jwt_trip {[ "uid"%string := CStr "100000001"; "role"%string := CStr "admin" ]},
        jwt_trip {[ "exp"%string := CInt (Unix (Add now2025 (- Second))) ]} with
  | inl c, inr err =>
      match c !! "uid"%string, c !! "role"%string with
      | Some (CStr uid), Some (CStr role) => String.eqb uid "100000001" && String.eqb role "admin"
      | _, _ => false
      end && errors_Is err ErrTokenExpired
  | _, _ => false
  end.

Example jwt_tests_pass : all_pass run_jwt jwt_cases && run_jwt_decode = true.
Proof. vm_compute. reflexivity. Qed.
End tokens.
